(* ===== verification/_CoqProject ===== *)
-Q . S2P
Prelude.v
GoLang.v
GoTime.v
Errors.v
Json.v
JiraTypes.v
RawModels.v
Mapper.v
Metrics.v
Config.v
JiraClient.v
Manager.v
WorkerPool.v
Repository.v
Sync.v
SyncJobs.v
SyncData.v
TableOrder.v
PageFetch.v
SyncPages.v
SyncFlow.v
GoFlag.v
Handler.v
EndToEnd.v
Client.v
Database.v
App.v
RunCmd.v
Server.v
Cli.v
Shutdown.v
