(* ===== verification/Prelude.v ===== *)
(** * Jira-Connector: a verification development

    The connector is a gRPC service that copies Jira projects into PostgreSQL.
    A client asks it to download a project; the service starts a background sync
    that pages through the project's issues, fetches every issue through a pool
    of workers, maps it to rows of a raw schema and commits each page in one
    transaction; clients poll a registry of jobs for progress.  A command line
    runs one such sync in its own process.

    ** Files, in the order they build on each other

    - [Prelude]: results of fallible calls ([res]), the state monad [M] with
      [let*], the class [Keeps] (a program relates its initial and final state)
      by which invariants are propagated through programs, generic lemmas.
    - [GoLang], [GoTime], [Errors], [Json]: what the connector uses of Go and its
      standard library.  Integers at their width, UTF-8, strconv, URL escaping,
      [time.Parse], error values with [errors.Is] and [errors.As],
      encoding/json's scanner and its decoding conventions.  Round trips used by
      the components: [ParseInt_FormatInt], [unescape_escape]; the scanner's fuel
      is proved sufficient ([scan_value_fuel]).
    - [JiraTypes] and [JiraClient] model internal/client/jira/jira.go: documents
      and their decoders, the requests, the retry loop [do_loop] and the three
      calls.
    - [RawModels] and [Mapper] model internal/repository/models/raw and
      internal/mapper/jira_to_raw.go.
    - [Metrics] models internal/metrics/metrics.go, [Config]
      internal/config/config.go.
    - [Manager] models internal/service/sync/manager.go: job pointers in a store,
      the maps by id and by project key; [Manager.Spec] is its specification, a
      registry of snapshots without an index.
    - [WorkerPool] models internal/workerpool/workerpool.go: goroutines, channels,
      [sync.Once] and contexts, one atomic action at a time ([fire]).
    - [Repository] models internal/repository/postgres/postgres.go, queries/*.sql
      and the raw schema of migration 000001: a statement is a function on the
      tables, a session has a transaction and the faults still to come.  The
      class [HasDB] is the interface its clients use.
    - [Sync] models internal/service/sync/sync.go on a [World] (session, registry,
      metrics).  [sys_step] interleaves requests with the steps of the background
      goroutines, each of which carries its project's id down to the page fetch; a
      step's environment ([round]) chooses the outcome of that fetch among those
      of [fetchPageIssues], a relation over the pool's schedules ([fetches]).  Its
      theorems are in [SyncJobs] (who runs), [SyncData] (what a
      page stores), [TableOrder] (tables up to the order of status changes: the
      order of a page's issues does not matter), [PageFetch] (a page through the
      pool), [SyncPages] (pagination, a whole sync) and [SyncFlow] (a whole sync
      with the Jira client of [JiraClient] and the pool of [WorkerPool] in it).
    - [Handler] models internal/handler/grpc/handler.go over the class
      [SyncService], which [System_service] implements with the service of [Sync].
      [EndToEnd] follows a download to the end of its sync and the last poll.
    - [GoFlag] is Go's flag package; [Client] models the test client
      cmd/internal/cli/client/client.go over the class [ConnectorServiceClient],
      which [System_client] implements with the handler.
    - [Database] models internal/database/connection.go, [App] the one-shot sync
      of cmd/internal/app/app.go and cmd/internal/cli/run.go, [RunCmd] its
      goroutine, channel and signals.
    - [Server] models what the [serve] command acquires and releases
      (cmd/internal/cli/server/server.go, internal/observability/server.go), [Cli]
      the commands, flags, log level and wiring around it (with cmd/main.go and
      internal/app/app.go), [Shutdown] the serving process: its main goroutine,
      the signal hook, the requests and the background syncs as steps, over the
      class [GrpcServer] of what gRPC documents.

    A comment line [go: path lines symbol] before a definition names the code it
    models, relative to src/.  Definitions keep the names of the code; what Go
    reads from outside (clocks, uuids, replies, contexts, faults) is an argument.

    ** What the theorems show

    - Registry: [manager_refines_spec] (every operation has the effect and result
      of the specification), at most one running job per project, a finished job
      stays visible for [jobTTL].
    - Pool: in every interleaving each accepted task is processed and delivered
      exactly once ([pool_exactly_once]), the pool drains ([pool_drains], a bound
      on every schedule), and nothing panics.
    - Repository: [WithTransaction] is all or nothing whatever the operation and
      the faults.
    - Sync: one background sync per project and balanced metrics in every
      reachable state; what a request returns and starts ([SyncProject_result]); a page fetch is complete, always ends, cancelled or not, and
      never meets a value of an unexpected type ([fetchPageIssues_returns],
      [fetchPageIssues_typed]); pagination visits every issue once and stops; a
      page commits exactly the rows of the fetched issues; repeating it changes
      nothing.  [sync_end_to_end] puts client, retries, pool, mapper and
      repository together: whatever searches and reads fail and whenever the
      context ends, the tables after a sync are the old ones with the server's
      issues of the pages before its end; [download_to_completion] adds the
      request before, with the project it finds, and the status after it,
      COMPLETED or FAILED.  Both assume that the project does not change
      meanwhile, that the schema accepts its documents and that the session is
      not disturbed ([quiet]): what happens otherwise is in
      [anonymous_author_loses_page] and [WithTransaction_atomic].
    - Handler and command line: a download can be polled at once (it is
      asynchronous: two tests of tests/e2e/connector_test.go expect a synchronous
      one, whose reply says completed, and disagree with the code), a reported end
      is final, refusals start nothing and have the right status; the one-shot sync
      returns the job's outcome, in every interleaving with signals
      ([run_command_refines]); the test client's status and output are those of
      the handler's reply ([client_download], [client_projects]).
    - Process: what is held while requests run and what is released in which order
      ([shutdown_order]), shutting down ends if the handlers of pending requests
      return, and otherwise waits for them ([shutdown_terminates]), and what it
      does not wait for ([shutdown_waits_for_nobody]).
    - Client, mapper, configuration: the retry loop is sound and terminates with a
      back-off, an error status is reported with the server's document
      ([error_status_reported]), queries reach the server intact, ids fit their
      columns, timestamps round-trip, and where each value of a configuration comes
      from and why loading one fails ([Load_sound]).
    - Resources: [NewConnection] and [startServer] release what they took when they
      fail.
    - Behaviours that look unintended are stated as theorems too: a stale finish
      unregisters a running job, an author without a name loses a page, an empty
      page makes the loop spin, a server's hint makes retries unbounded, a retried
      reply loses its error text.

    ** Fuel and bounds

    Loops that need not end take a fuel and return [None] without enough:
    [runSync] needs one unit per search (at most one per issue, one if there are
    none: [runSync_exact]), [do_loop] one per attempt ([do_terminates] bounds the
    attempts when the server gives no hint; [do_unbounded_retry] and
    [runSync_stalls] show where no fuel is enough), [waitForSync] one per tick
    ([run_reports]).  The JSON scanner's fuel is twice the input's length.  The pool,
    a page's goroutines and the serving process are step relations with a measure
    ([page_measure], [shutdown_measure]) and need none.  Pagination assumes fewer than 2^62 issues.

    ** Not modelled

    Logging; generated protobuf and gRPC code, the gRPC server, net/http, cobra,
    pgx, golang-migrate and yaml (parameters or environments); migrations after
    000001 (an analytics schema, test data and cascading deletes, none of which the
    connector's statements use); SQL run
    by others (transactions are serial); two syncs' database steps interleaving
    within one loop iteration, which is one step of [sys_step]; a scrape of the
    metrics between the two counters that the start or the end of a job updates;
    the conversion of Go times to TIMESTAMP columns, which no query reads; the
    connections of a diagnostic server that outlive its [Shutdown]; how cobra parses
    and dispatches a command line (its flags are given); [Serve]'s own loop. *)

From stdpp Require Export base option list gmap strings pretty sorting.
From Stdlib Require Export ZArith Lia.

#[global] Set Default Goal Selector "!".

(** ** Results of fallible Go calls

    A Go function returning [(T, error)] is modelled by [res E T]: [Ok v] when
    the error is nil, [Err e] otherwise.  (Where the Go code returns both a
    value and an error that the caller looks at, the model returns a pair.) *)
Inductive res (E T : Type) : Type :=
  | Ok (v : T)
  | Err (e : E).
Arguments Ok {E T} v.
Arguments Err {E T} e.

Definition res_bind {E T U} (r : res E T) (k : T → res E U) : res E U :=
  match r with
  | Ok v => k v
  | Err e => Err e
  end.

Definition res_map_err {E T} (f : E → E) (r : res E T) : res E T :=
  match r with
  | Ok v => Ok v
  | Err e => Err (f e)
  end.

Definition is_ok {E T} (r : res E T) : bool :=
  match r with Ok _ => true | Err _ => false end.

Definition res_opt {E T} (r : res E T) : option T :=
  match r with Ok v => Some v | Err _ => None end.

Declare Scope go_scope.
Delimit Scope go_scope with go.
Notation "'let!' x ':=' r 'in' k" := (res_bind r (λ x, k))
  (at level 100, x pattern, r at next level, right associativity) : go_scope.

(** Code that reads and updates a state [S]. *)
Definition M (S A : Type) : Type := S → A * S.
Definition ret {S A} (a : A) : M S A := λ s, (a, s).
Definition bind {S A B} (m : M S A) (k : A → M S B) : M S B :=
  λ s, let '(a, s') := m s in k a s'.
Definition modify {S} (f : S → S) : M S unit := λ s, (tt, f s).
Notation "'let*' x ':=' m 'in' k" := (bind m (λ x, k))
  (at level 100, x pattern, m at next level, right associativity) : go_scope.

(** [for _, x := range l { body }] where the body may return early. *)
Fixpoint for_each {S A R} (l : list A) (body : A → M S (option R)) : M S (option R) :=
  match l with
  | [] => ret None
  | x :: l' => bind (body x) (λ r, match r with Some _ => ret r | None => for_each l' body end)
  end.

#[export] Instance res_eq_dec {E T} `{EqDecision E, EqDecision T} :
  EqDecision (res E T).
Proof. solve_decision. Defined.

(** ** Automation *)

Create HintDb go discriminated.
Create Rewrite HintDb go_simpl.
#[export] Hint Constants Transparent : go.

(** Case analysis on every [match]/[if]/[decide] of the goal. *)
Ltac go_cases :=
  repeat first
    [ progress simplify_eq/=
    | case_decide
    | case_match ].

(** The same in the hypotheses first. *)
Ltac go_solve := repeat (go_cases; try done; eauto with go lia).

(** ** Generic lemmas *)

Lemma res_bind_ok {E T U} (r : res E T) (k : T → res E U) u :
  res_bind r k = Ok u ↔ ∃ v, r = Ok v ∧ k v = Ok u.
Proof. destruct r as [w|e]; simpl; split; [eauto|by intros (? & [= ->] & ?)|done|by intros (? & ? & ?)]. Qed.

Lemma res_bind_err {E T U} (r : res E T) (k : T → res E U) e :
  res_bind r k = Err e ↔ r = Err e ∨ ∃ v, r = Ok v ∧ k v = Err e.
Proof.
  destruct r as [w|e']; simpl; split; [eauto|by intros [?|(? & [= ->] & ?)]
    |by intros [= ->]; left|by intros [[= ->]|(? & ? & ?)]].
Qed.
#[export] Hint Rewrite @res_bind_ok @res_bind_err : go_simpl.

Lemma rtc_invariant {A} (R : relation A) (P : A → Prop) :
  (∀ x y, P x → R x y → P y) → ∀ x y, rtc R x y → P x → P y.
Proof. intros HR x y H. induction H; eauto. Qed.


Lemma length_omap_le {A B} (f : A → option B) (l : list A) : length (omap f l) ≤ length l.
Proof. induction l as [|x l IH]; [done|]. cbn. destruct (f x); cbn; lia. Qed.

(** *** Lists updated at an index, up to permutation *)

Lemma list_delete_insert_id {A} (l : list A) i x : delete i (<[i := x]> l) = delete i l.
Proof. revert i. induction l as [|y l IH]; intros [|i]; simpl; [done..|]. by f_equal. Qed.

Lemma bind_lookup_Permutation {A B} (f : A → list B) l i x :
  l !! i = Some x → l ≫= f ≡ₚ f x ++ (delete i l ≫= f).
Proof. intros H. by rewrite (delete_Permutation l i x H) at 1. Qed.

Lemma bind_insert_Permutation {A B} (f : A → list B) l i x y :
  l !! i = Some x → <[i := y]> l ≫= f ≡ₚ f y ++ (delete i l ≫= f).
Proof.
  intros H. rewrite <- (list_delete_insert_id l i y).
  apply bind_lookup_Permutation, list_lookup_insert_eq. by eapply lookup_lt_Some.
Qed.

Lemma elem_of_insert_inv {A} (l : list A) i x z :
  z ∈ <[i := x]> l → z = x ∨ z ∈ l.
Proof.
  intros [j Hj]%list_elem_of_lookup. apply list_lookup_insert_Some in Hj as [(-> & <- & _)|[_ Hj]];
    [by left|right]. by eapply list_elem_of_lookup_2.
Qed.

(** Sums over a list updated at an index. *)
Lemma sum_list_insert {A} (f : A → nat) (l : list A) i x y :
  l !! i = Some x → sum_list (f <$> <[i := y]> l) + f x = sum_list (f <$> l) + f y.
Proof.
  revert i. induction l as [|z l IH]; intros [|i] H; simplify_eq/=; [lia|].
  pose proof (IH _ H). lia.
Qed.

Lemma list_filter_all {A} (P : A → Prop) `{∀ x, Decision (P x)} (l : list A) :
  (∀ x, x ∈ l → P x) → filter P l = l.
Proof.
  induction l as [|x l IH]; intros Hl; [done|]. rewrite filter_cons_True by (apply Hl; by left).
  f_equal. apply IH. intros y Hy. apply Hl. by right.
Qed.

Lemma list_filter_none {A} (P : A → Prop) `{∀ x, Decision (P x)} (l : list A) :
  (∀ x, x ∈ l → ¬ P x) → filter P l = [].
Proof.
  induction l as [|x l IH]; intros Hl; [done|]. rewrite filter_cons_False by (apply Hl; by left).
  apply IH. intros y Hy. apply Hl. by right.
Qed.

(** *** Strings *)

Lemma string_app_assoc (a b c : string) :
  String.append (String.append a b) c = String.append a (String.append b c).
Proof. induction a as [|x a IH]; [done|]. exact (f_equal (String x) IH). Qed.

(** *** What a stateful program keeps

    [Keeps R m]: running [m] relates the state before and after by [R], a
    preorder. *)

Class Keeps {S A} (R : relation S) (m : M S A) : Prop := keeps s : R s (m s).2.

Section Keeps.
Context {S : Type} (R : relation S) `{!PreOrder R}.

#[export] Instance Keeps_ret {A} (a : A) : Keeps R (ret a).
Proof. intros s. simpl. reflexivity. Qed.

#[export] Instance Keeps_bind {A B} (m : M S A) (k : A → M S B) :
  Keeps R m → (∀ a, Keeps R (k a)) → Keeps R (bind m k).
Proof.
  intros Hm Hk s. unfold bind. pose proof (Hm s) as H1.
  destruct (m s) as [a s']. etransitivity; [exact H1|apply Hk].
Qed.

#[export] Instance Keeps_for_each {A T} (l : list A) (body : A → M S (option T)) :
  (∀ x, Keeps R (body x)) → Keeps R (for_each l body).
Proof.
  intros Hb. induction l as [|x l IH]; simpl; [apply Keeps_ret|].
  apply Keeps_bind; [apply Hb|]. intros [r|]; [apply Keeps_ret|apply IH].
Qed.

#[export] Instance Keeps_option {A B} (o : option A) (k : A → M S B) k' :
  (∀ a, Keeps R (k a)) → Keeps R k' → Keeps R (match o with Some a => k a | None => k' end).
Proof. by destruct o. Qed.

#[export] Instance Keeps_res {E A B} (r : res E A) (k : A → M S B) k' :
  (∀ a, Keeps R (k a)) → (∀ e, Keeps R (k' e)) →
  Keeps R (match r with Ok a => k a | Err e => k' e end).
Proof. by destruct r. Qed.

#[export] Instance Keeps_bool {B} (b : bool) (k k' : M S B) :
  Keeps R k → Keeps R k' → Keeps R (if b then k else k').
Proof. by destruct b. Qed.
End Keeps.
