(* ===== verification/GoLang.v ===== *)
(** * The parts of Go and its standard library the connector relies on

    Machine integers at their width, UTF-8 decoding of [range string],
    [strconv], a few [strings]/[net/url] functions. *)

From S2P Require Import Prelude.
Local Open Scope Z_scope.

(** ** Machine integers *)

(** Conversion to a signed [w]-bit integer (two's complement wrap-around). *)
Definition wrap_signed (w z : Z) : Z := (z + 2 ^ (w - 1)) mod 2 ^ w - 2 ^ (w - 1).

Definition int64 (z : Z) : Z := wrap_signed 64 z.
Definition int32 (z : Z) : Z := wrap_signed 32 z.
Definition uint64 (z : Z) : Z := z mod 2 ^ 64.
Definition uint32 (z : Z) : Z := z mod 2 ^ 32.

Definition max_int64 : Z := 2 ^ 63 - 1.
Definition min_int64 : Z := - 2 ^ 63.

Definition in_int64 (z : Z) : Prop := - 2 ^ 63 ≤ z < 2 ^ 63.
Definition in_int32 (z : Z) : Prop := - 2 ^ 31 ≤ z < 2 ^ 31.

#[export] Instance in_int64_dec z : Decision (in_int64 z).
Proof. unfold in_int64. apply _. Defined.
#[export] Instance in_int32_dec z : Decision (in_int32 z).
Proof. unfold in_int32. apply _. Defined.

Lemma wrap_signed_range w z :
  0 < w → - 2 ^ (w - 1) ≤ wrap_signed w z < 2 ^ (w - 1).
Proof.
  intros Hw. unfold wrap_signed.
  pose proof (Z.mod_pos_bound (z + 2 ^ (w - 1)) (2 ^ w) ltac:(lia)).
  replace (2 ^ w) with (2 * 2 ^ (w - 1)) in *; [lia|].
  rewrite <- Z.pow_succ_r by lia. f_equal. lia.
Qed.

Lemma wrap_signed_id w z :
  0 < w → - 2 ^ (w - 1) ≤ z < 2 ^ (w - 1) → wrap_signed w z = z.
Proof.
  intros Hw Hz. unfold wrap_signed. rewrite Z.mod_small; [lia|].
  replace (2 ^ w) with (2 * 2 ^ (w - 1)); [lia|].
  rewrite <- Z.pow_succ_r by lia. f_equal. lia.
Qed.

Lemma int64_range z : in_int64 (int64 z).
Proof. apply (wrap_signed_range 64). lia. Qed.
Lemma int64_id z : in_int64 z → int64 z = z.
Proof. intros H. apply (wrap_signed_id 64); [lia|exact H]. Qed.
Lemma int32_range z : in_int32 (int32 z).
Proof. apply (wrap_signed_range 32). lia. Qed.
Lemma int32_id z : in_int32 z → int32 z = z.
Proof. intros H. apply (wrap_signed_id 32); [lia|exact H]. Qed.
Lemma in_int32_int64 z : in_int32 z → in_int64 z.
Proof. unfold in_int32, in_int64. lia. Qed.
Lemma uint64_range z : 0 ≤ uint64 z < 2 ^ 64.
Proof. apply Z.mod_pos_bound. lia. Qed.
Lemma uint64_id z : 0 ≤ z < 2 ^ 64 → uint64 z = z.
Proof. apply Z.mod_small. Qed.
Lemma uint32_id z : 0 ≤ z < 2 ^ 32 → uint32 z = z.
Proof. apply Z.mod_small. Qed.
#[export] Hint Resolve int64_range int32_range in_int32_int64 uint64_range : go.

(** ** Bytes and runes *)

Definition byte_of (a : Ascii.ascii) : Z := Z.of_N (Ascii.N_of_ascii a).
Definition of_byte (z : Z) : Ascii.ascii := Ascii.ascii_of_N (Z.to_N z).

Fixpoint bytes (s : string) : list Z :=
  match s with
  | EmptyString => []
  | String a s' => byte_of a :: bytes s'
  end.

Fixpoint of_bytes (bs : list Z) : string :=
  match bs with
  | [] => EmptyString
  | b :: bs' => String (of_byte b) (of_bytes bs')
  end.

Lemma byte_of_range a : 0 ≤ byte_of a < 256.
Proof.
  unfold byte_of. split; [lia|].
  pose proof (Ascii.N_ascii_bounded a). lia.
Qed.

Lemma of_byte_of a : of_byte (byte_of a) = a.
Proof. unfold of_byte, byte_of. rewrite N2Z.id. apply Ascii.ascii_N_embedding. Qed.

Lemma of_bytes_bytes s : of_bytes (bytes s) = s.
Proof. induction s as [|a s IH]; simpl; [done|]. by rewrite of_byte_of, IH. Qed.

Definition rune_error : Z := 65533.

Definition in_range (lo hi b : Z) : bool := (lo <=? b) && (b <=? hi).

(** [utf8.DecodeRune], repeatedly: each rune with the bytes it was decoded
    from; a byte that starts no valid encoding is one [rune_error]. *)
Fixpoint utf8_decode (bs : list Z) : list (Z * list Z) :=
  match bs with
  | [] => []
  | b0 :: r0 =>
    if b0 <? 128 then (b0, [b0]) :: utf8_decode r0
    else if in_range 194 223 b0 then
      match r0 with
      | b1 :: r1 =>
        if in_range 128 191 b1
        then (Z.land b0 31 * 64 + Z.land b1 63, [b0; b1]) :: utf8_decode r1
        else (rune_error, [b0]) :: utf8_decode r0
      | [] => (rune_error, [b0]) :: utf8_decode r0
      end
    else if in_range 224 239 b0 then
      match r0 with
      | b1 :: b2 :: r2 =>
        if in_range (if b0 =? 224 then 160 else 128)
                    (if b0 =? 237 then 159 else 191) b1
           && in_range 128 191 b2
        then (Z.land b0 15 * 4096 + Z.land b1 63 * 64 + Z.land b2 63, [b0; b1; b2])
               :: utf8_decode r2
        else (rune_error, [b0]) :: utf8_decode r0
      | _ => (rune_error, [b0]) :: utf8_decode r0
      end
    else if in_range 240 244 b0 then
      match r0 with
      | b1 :: b2 :: b3 :: r3 =>
        if in_range (if b0 =? 240 then 144 else 128)
                    (if b0 =? 244 then 143 else 191) b1
           && in_range 128 191 b2 && in_range 128 191 b3
        then (Z.land b0 7 * 262144 + Z.land b1 63 * 4096
              + Z.land b2 63 * 64 + Z.land b3 63, [b0; b1; b2; b3]) :: utf8_decode r3
        else (rune_error, [b0]) :: utf8_decode r0
      | _ => (rune_error, [b0]) :: utf8_decode r0
      end
    else (rune_error, [b0]) :: utf8_decode r0
  end.

(** The runes a [for _, c := range str] loop sees. *)
Definition runes (s : string) : list Z := (utf8_decode (bytes s)).*1.

(** [utf8.EncodeRune] (used when JSON escapes are decoded). *)
Definition encode_rune (r : Z) : list Z :=
  if (r <? 0) then [239; 191; 189]
  else if r <? 128 then [r]
  else if r <? 2048 then [192 + Z.shiftr r 6; 128 + Z.land r 63]
  else if in_range 55296 57343 r || (1114111 <? r) then [239; 191; 189]
  else if r <? 65536 then
    [224 + Z.shiftr r 12; 128 + Z.land (Z.shiftr r 6) 63; 128 + Z.land r 63]
  else [240 + Z.shiftr r 18; 128 + Z.land (Z.shiftr r 12) 63;
        128 + Z.land (Z.shiftr r 6) 63; 128 + Z.land r 63].

(** ** strconv *)

Inductive num_err := ErrSyntax | ErrRange.
#[export] Instance num_err_eq_dec : EqDecision num_err.
Proof. solve_decision. Defined.

Definition digit_of (b : Z) : option Z :=
  if in_range 48 57 b then Some (b - 48) else None.

(** The digit loop of [strconv.ParseUint(s, 10, 64)]: overflow is reported as
    soon as it happens, before a later bad character is seen. *)
Fixpoint parse_uint_loop (n : Z) (bs : list Z) : res num_err Z :=
  match bs with
  | [] => Ok n
  | b :: bs' =>
    match digit_of b with
    | None => Err ErrSyntax
    | Some d =>
      if 2 ^ 64 <=? n * 10 + d then Err ErrRange
      else parse_uint_loop (n * 10 + d) bs'
    end
  end.

Definition parse_uint (bs : list Z) : res num_err Z :=
  match bs with
  | [] => Err ErrSyntax
  | _ => parse_uint_loop 0 bs
  end.

(** [strconv.ParseInt(s, 10, 64)]: the value is meaningful with an error too
    (0 on a syntax error, the nearest bound on a range error). *)
Definition ParseInt (s : string) : Z * option num_err :=
  let '(neg, ds) :=
    match bytes s with
    | 45 :: r => (true, r)
    | 43 :: r => (false, r)
    | r => (false, r)
    end in
  match ds, parse_uint ds with
  | _, Err ErrSyntax => (0, Some ErrSyntax)
  | _, Err ErrRange => (if neg then min_int64 else max_int64, Some ErrRange)
  | _, Ok un =>
    if neg then
      if 2 ^ 63 <? un then (min_int64, Some ErrRange) else (- un, None)
    else if 2 ^ 63 <=? un then (max_int64, Some ErrRange) else (un, None)
  end.

(** [strconv.Atoi] on a 64-bit platform agrees with [ParseInt(s, 10, 64)]. *)
Definition Atoi (s : string) : Z * option num_err := ParseInt s.

(** [strconv.FormatInt(z, 10)], [strconv.Itoa] and the [%d] verb. *)
Fixpoint digits_rev (fuel : nat) (n : Z) : list Z :=
  match fuel with
  | O => []
  | S f => (48 + n mod 10) :: (if n <? 10 then [] else digits_rev f (n / 10))
  end.

Definition FormatInt (z : Z) : string :=
  if z <? 0 then String (of_byte 45) (of_bytes (rev (digits_rev 20 (- z))))
  else of_bytes (rev (digits_rev 20 z)).

Example format_int_ex : FormatInt (-9223372036854775808) = "-9223372036854775808"%string.
Proof. vm_compute. reflexivity. Qed.
Example parse_int_ex : ParseInt "-42" = (-42, None).
Proof. vm_compute. reflexivity. Qed.
Example runes_ex : runes (of_bytes [208; 150; 65; 255]) = [1046; 65; 65533].
Proof. vm_compute. reflexivity. Qed.

(** ** strings *)

Definition HasSuffix (s suf : string) : bool :=
  let n := String.length s in
  let k := String.length suf in
  (k <=? n)%nat && String.eqb (String.substring (n - k) k s) suf.

Definition TrimSuffix (s suf : string) : string :=
  if HasSuffix s suf
  then String.substring 0 (String.length s - String.length suf) s else s.

(** [strconv.Quote] ([%q]); [is_print] is [strconv.IsPrint] on the runes above
    ASCII (a Unicode table). *)
Definition hex_digit (n : Z) : Z := if n <? 10 then 48 + n else 87 + n.

Fixpoint hex_pad (k : nat) (n : Z) : list Z :=
  match k with
  | O => []
  | S k' => hex_pad k' (n / 16) ++ [hex_digit (n mod 16)]
  end.

Definition quote_rune (is_print : Z → bool) (p : Z * list Z) : list Z :=
  let '(r, bs) := p in
  if (r =? rune_error) && (length bs =? 1)%nat then [92; 120] ++ bs ≫= hex_pad 2
  else if (r =? 34) || (r =? 92) then [92; r]
  else if in_range 32 126 r then [r]
  else if r =? 7 then [92; 97] else if r =? 8 then [92; 98]
  else if r =? 9 then [92; 116] else if r =? 10 then [92; 110]
  else if r =? 11 then [92; 118] else if r =? 12 then [92; 102]
  else if r =? 13 then [92; 114]
  else if (r <? 32) || (r =? 127) then [92; 120] ++ hex_pad 2 r
  else if is_print r then bs
  else if r <? 65536 then [92; 117] ++ hex_pad 4 r
  else [92; 85] ++ hex_pad 8 r.

Definition Quote (is_print : Z → bool) (s : string) : string :=
  of_bytes ([34] ++ (utf8_decode (bytes s) ≫= quote_rune is_print) ++ [34]).

Example quote_ex : Quote (λ _, true) (of_bytes [65; 10; 200; 34])
  = of_bytes [34; 65; 92; 110; 92; 120; 99; 56; 92; 34; 34].
Proof. vm_compute. reflexivity. Qed.

(** ** net/url *)

Definition upper_hex (n : Z) : Z := if n <? 10 then 48 + n else 55 + n.

(** [url.QueryEscape]: unreserved bytes stay, space is [+], others [%XX]. *)
Definition escape_byte (b : Z) : list Z :=
  if in_range 65 90 b || in_range 97 122 b || in_range 48 57 b
     || (b =? 45) || (b =? 95) || (b =? 46) || (b =? 126) then [b]
  else if b =? 32 then [43]
  else [37; upper_hex (b / 16); upper_hex (b mod 16)].

Definition QueryEscape (s : string) : string := of_bytes (bytes s ≫= escape_byte).

(** Byte order on strings, for code that sorts keys. *)
Definition string_le (a b : string) : Prop := String.leb a b = true.
#[export] Instance string_le_dec : RelDecision string_le.
Proof. intros a b. unfold string_le. apply _. Defined.

(** ** Round trips *)

Definition is_byte (b : Z) : Prop := 0 ≤ b < 256.

Lemma byte_of_of_byte b : is_byte b → byte_of (of_byte b) = b.
Proof.
  unfold is_byte, byte_of, of_byte. intros Hb.
  rewrite Ascii.N_ascii_embedding; lia.
Qed.

Lemma bytes_of_bytes bs : Forall is_byte bs → bytes (of_bytes bs) = bs.
Proof. induction 1 as [|b bs Hb _ IH]; simpl; [done|]. by rewrite byte_of_of_byte, IH. Qed.

Lemma digit_of_digit d : 0 ≤ d < 10 → digit_of (48 + d) = Some d.
Proof.
  intros Hd. unfold digit_of, in_range.
  rewrite (proj2 (Z.leb_le _ _)), (proj2 (Z.leb_le (48 + d) _)) by lia.
  simpl. f_equal. lia.
Qed.

Lemma digits_rev_bytes f n : 0 ≤ n → Forall is_byte (digits_rev f n).
Proof.
  revert n. induction f as [|f IH]; intros n Hn; simpl; [constructor|].
  pose proof (Z.mod_pos_bound n 10 ltac:(lia)).
  constructor; [unfold is_byte; lia|]. case_match; [constructor|].
  apply IH. apply Z.div_pos; lia.
Qed.

(** Reading back the digits of [n], most significant first. *)
Lemma parse_uint_loop_digits f n rest :
  0 ≤ n < 2 ^ 64 → n < 10 ^ Z.of_nat f →
  parse_uint_loop 0 (rev (digits_rev f n) ++ rest) = parse_uint_loop n rest.
Proof.
  revert n rest. induction f as [|f IH]; intros n rest Hn Hf.
  { simpl in Hf. assert (n = 0) as -> by lia. done. }
  pose proof (Z.mod_pos_bound n 10 ltac:(lia)) as Hm.
  pose proof (Z.div_mod n 10 ltac:(lia)) as Hdm.
  cbn [digits_rev rev]. rewrite <- app_assoc. destruct (n <? 10) eqn:Hlt.
  - apply Z.ltb_lt in Hlt. rewrite Z.mod_small by lia.
    cbn [rev app parse_uint_loop]. rewrite digit_of_digit by lia.
    replace (0 * 10 + n) with n by lia.
    by rewrite (proj2 (Z.leb_gt _ _)) by lia.
  - apply Z.ltb_ge in Hlt. rewrite IH.
    + cbn [app parse_uint_loop]. rewrite digit_of_digit by lia.
      replace (n / 10 * 10 + n mod 10) with n by lia.
      by rewrite (proj2 (Z.leb_gt _ _)) by lia.
    + split; [apply Z.div_pos; lia|]. apply Z.div_lt_upper_bound; lia.
    + apply Z.div_lt_upper_bound; [lia|].
      rewrite <- Z.pow_succ_r by lia. by rewrite <- Nat2Z.inj_succ.
Qed.

Lemma digits_rev_last f n :
  0 ≤ n → ∃ d ds, rev (digits_rev (S f) n) = d :: ds ∧ 48 ≤ d ≤ 57.
Proof.
  revert n. induction f as [|f IH]; intros n Hn;
    pose proof (Z.mod_pos_bound n 10 ltac:(lia)) as Hm.
  - simpl. exists (48 + n mod 10), []. split; [by destruct (n <? 10)|lia].
  - cbn [digits_rev rev]. destruct (n <? 10).
    + simpl. eexists _, _. split; [done|lia].
    + destruct (IH (n / 10)) as (d & ds & He & Hd); [apply Z.div_pos; lia|].
      cbn [digits_rev rev] in He |- *. rewrite He. simpl. eauto.
Qed.

Lemma parse_uint_digits n :
  0 ≤ n < 2 ^ 64 →
  ∃ d ds, rev (digits_rev 20 n) = d :: ds ∧ 48 ≤ d ≤ 57 ∧ parse_uint (d :: ds) = Ok n.
Proof.
  intros Hn. destruct (digits_rev_last 19 n) as (d & ds & He & Hd); [lia|].
  exists d, ds. split_and!; [done|lia|lia|].
  change (parse_uint (d :: ds)) with (parse_uint_loop 0 (d :: ds)).
  rewrite <- He, <- (app_nil_r (rev _)), parse_uint_loop_digits; [done|lia|].
  assert (2 ^ 64 < 10 ^ Z.of_nat 20) by reflexivity. lia.
Qed.

Lemma ParseInt_FormatInt z : in_int64 z → ParseInt (FormatInt z) = (z, None).
Proof.
  unfold in_int64, ParseInt, FormatInt. intros Hz.
  destruct (z <? 0) eqn:Hs; [apply Z.ltb_lt in Hs|apply Z.ltb_ge in Hs].
  - destruct (parse_uint_digits (- z)) as (d & ds & He & Hd & Hp); [lia|].
    cbn [bytes]. rewrite byte_of_of_byte by (unfold is_byte; lia).
    rewrite bytes_of_bytes by (apply Forall_rev, digits_rev_bytes; lia).
    rewrite He, Hp. rewrite (proj2 (Z.ltb_ge _ _)) by lia. f_equal. lia.
  - destruct (parse_uint_digits z) as (d & ds & He & Hd & Hp); [lia|].
    rewrite bytes_of_bytes by (apply Forall_rev, digits_rev_bytes; lia).
    rewrite He.
    assert (Hm : (match d :: ds with 45 :: r => (true, r) | 43 :: r => (false, r)
                  | r => (false, r) end) = (false, d :: ds)).
    { destruct (decide (d = 45)); [lia|]. destruct (decide (d = 43)); [lia|].
      destruct d as [|p|p]; try done. do 6 (destruct p; try done). }
    rewrite Hm, Hp. by rewrite (proj2 (Z.leb_gt _ _)) by lia.
Qed.

(** *** net/url: reading a query string back *)

Definition from_hex (b : Z) : option Z :=
  if in_range 48 57 b then Some (b - 48)
  else if in_range 97 102 b then Some (b - 87)
  else if in_range 65 70 b then Some (b - 55)
  else None.

(** [url.QueryUnescape] *)
Fixpoint unescape (bs : list Z) : option (list Z) :=
  match bs with
  | [] => Some []
  | b :: r =>
    if b =? 37 then
      match r with
      | h :: l :: r' =>
        h ← from_hex h; l ← from_hex l; cons (h * 16 + l) <$> unescape r'
      | _ => None
      end
    else cons (if b =? 43 then 32 else b) <$> unescape r
  end.

Fixpoint split_on (sep : Z) (bs : list Z) : list (list Z) :=
  match bs with
  | [] => [[]]
  | b :: r =>
    if b =? sep then [] :: split_on sep r
    else match split_on sep r with
         | [] => [[b]]
         | p :: ps => (b :: p) :: ps
         end
  end.

(** [url.ParseQuery]: the pairs in order. *)
Definition parse_pair (part : list Z) : option (string * string) :=
  match split_on 61 part with
  | k :: vs =>
    k ← unescape k; v ← unescape (match vs with v :: _ => v | [] => [] end);
    Some (of_bytes k, of_bytes v)
  | [] => None
  end.

Definition ParseQuery (q : string) : option (list (string * string)) :=
  mapM parse_pair (split_on 38 (bytes q)).

Lemma bytes_app a b : bytes (a ++ b)%string = bytes a ++ bytes b.
Proof. induction a as [|x a IH]; simpl; [done|]. by rewrite IH. Qed.

Lemma bytes_range s : Forall is_byte (bytes s).
Proof.
  induction s as [|a s IH]; simpl; constructor; [|done]. apply byte_of_range.
Qed.

Lemma split_on_nosep sep a : sep ∉ a → split_on sep a = [a].
Proof.
  induction a as [|x a IH]; intros Hn; [done|]. apply not_elem_of_cons in Hn as [Hx Hn].
  simpl. rewrite (proj2 (Z.eqb_neq x sep)) by congruence. by rewrite IH.
Qed.

Lemma split_on_app sep a b : sep ∉ a → split_on sep (a ++ sep :: b) = a :: split_on sep b.
Proof.
  induction a as [|x a IH]; intros Hn; simpl; [by rewrite Z.eqb_refl|].
  apply not_elem_of_cons in Hn as [Hx Hn].
  rewrite (proj2 (Z.eqb_neq x sep)) by congruence. by rewrite IH.
Qed.

(** Bytes that stand for themselves in a query. *)
Definition literal (b : Z) : Prop := b ≠ 37 ∧ b ≠ 43 ∧ b ≠ 38 ∧ b ≠ 61.

Lemma unescape_literal bs : Forall literal bs → unescape bs = Some bs.
Proof.
  induction 1 as [|b bs (H1 & H2 & _) _ IH]; simpl; [done|].
  rewrite (proj2 (Z.eqb_neq b 37)), (proj2 (Z.eqb_neq b 43)) by done. by rewrite IH.
Qed.

Lemma from_upper_hex n : 0 ≤ n < 16 → from_hex (upper_hex n) = Some n.
Proof.
  intros Hn. unfold upper_hex, from_hex, in_range.
  destruct (Z.ltb_spec n 10).
  - by rewrite (proj2 (Z.leb_le 48 _)), (proj2 (Z.leb_le _ 57)) by lia; simpl; f_equal; lia.
  - rewrite (proj2 (Z.leb_gt (55 + n) 57)), (proj2 (Z.leb_gt 97 (55 + n))) by lia.
    rewrite (proj2 (Z.leb_le 65 _)), (proj2 (Z.leb_le _ 70)) by lia.
    rewrite andb_false_r. simpl. f_equal. lia.
Qed.

Lemma unescape_escape_byte b rest :
  is_byte b → unescape (escape_byte b ++ rest) = cons b <$> unescape rest.
Proof.
  unfold is_byte, escape_byte. intros Hb.
  destruct (in_range 65 90 b || in_range 97 122 b || in_range 48 57 b
            || (b =? 45) || (b =? 95) || (b =? 46) || (b =? 126)) eqn:Hu.
  - simpl. rewrite (proj2 (Z.eqb_neq b 37)), (proj2 (Z.eqb_neq b 43)); [done|..];
      intros ->; done.
  - destruct (Z.eqb_spec b 32) as [->|Hsp]; [done|].
    cbn [app unescape]. rewrite Z.eqb_refl.
    rewrite !from_upper_hex by (Z.to_euclidean_division_equations; lia). simpl.
    replace (b / 16 * 16 + b mod 16) with b by (Z.to_euclidean_division_equations; lia).
    done.
Qed.

Lemma unescape_escape bs : Forall is_byte bs → unescape (bs ≫= escape_byte) = Some bs.
Proof.
  induction 1 as [|b bs Hb _ IH]; [done|]. cbn [mbind list_bind].
  rewrite unescape_escape_byte by done. by rewrite IH.
Qed.

Lemma escape_byte_range b x : is_byte b → x ∈ escape_byte b → is_byte x ∧ x ≠ 38 ∧ x ≠ 61.
Proof.
  unfold is_byte, escape_byte. intros Hb.
  destruct (in_range 65 90 b || in_range 97 122 b || in_range 48 57 b
            || (b =? 45) || (b =? 95) || (b =? 46) || (b =? 126)) eqn:Hu.
  - intros ->%list_elem_of_singleton. split; [lia|].
    split; intros ->; done.
  - destruct (b =? 32); [intros ->%list_elem_of_singleton; lia|].
    assert (Hx : ∀ n, 0 ≤ n < 16 → 48 ≤ upper_hex n ≤ 57 ∨ 65 ≤ upper_hex n ≤ 70)
      by (intros n Hn; unfold upper_hex; destruct (Z.ltb_spec n 10); lia).
    pose proof (Hx (b / 16) ltac:(Z.to_euclidean_division_equations; lia)).
    pose proof (Hx (b mod 16) ltac:(Z.to_euclidean_division_equations; lia)).
    rewrite !elem_of_cons, elem_of_nil. lia.
Qed.

Lemma escape_range bs x :
  Forall is_byte bs → x ∈ bs ≫= escape_byte → is_byte x ∧ x ≠ 38 ∧ x ≠ 61.
Proof.
  intros Hbs (b & Hx & Hb)%list_elem_of_bind.
  apply (escape_byte_range b); [|done]. by apply (Forall_forall is_byte bs).
Qed.

Lemma bytes_QueryEscape s : bytes (QueryEscape s) = bytes s ≫= escape_byte.
Proof.
  apply bytes_of_bytes, Forall_forall. intros x Hx.
  eapply escape_range; [apply bytes_range|done].
Qed.

Lemma FormatInt_literal z : in_int64 z → Forall literal (bytes (FormatInt z)).
Proof.
  assert (Hd : ∀ f n, 0 ≤ n → Forall literal (digits_rev f n)).
  { induction f as [|f IH]; intros n Hn; simpl; [constructor|].
    pose proof (Z.mod_pos_bound n 10 ltac:(lia)).
    constructor; [unfold literal; lia|]. case_match; [constructor|].
    apply IH, Z.div_pos; lia. }
  unfold in_int64, FormatInt. intros Hz. destruct (Z.ltb_spec z 0).
  - cbn [bytes]. rewrite byte_of_of_byte, bytes_of_bytes
      by first [unfold is_byte; lia|apply Forall_rev, digits_rev_bytes; lia].
    constructor; [unfold literal; lia|]. apply Forall_rev, Hd. lia.
  - rewrite bytes_of_bytes by (apply Forall_rev, digits_rev_bytes; lia).
    apply Forall_rev, Hd. lia.
Qed.
