(* ===== verification/GoTime.v ===== *)
(** * [time.Parse] for the two layouts the connector parses

    A layout is a list of chunks, as [nextStdChunk] splits it; the parser
    follows the general loop of [time.parse], leniencies included (a one-digit
    hour, a signed fraction, offsets of 24 hours or 60 minutes). *)

From S2P Require Import Prelude GoLang.
Local Open Scope Z_scope.

(** An instant with the zone offset it was written with: Unix seconds,
    nanoseconds, offset in seconds east of UTC. *)
Record Time := mkTime { t_sec : Z; t_nsec : Z; t_offset : Z }.

#[export] Instance Time_eq_dec : EqDecision Time.
Proof. solve_decision. Defined.

(** ** Calendar *)

Definition is_leap (y : Z) : bool :=
  (y mod 4 =? 0) && (negb (y mod 100 =? 0) || (y mod 400 =? 0)).

Definition days_in (m y : Z) : Z :=
  if m =? 2 then (if is_leap y then 29 else 28)
  else if (m =? 4) || (m =? 6) || (m =? 9) || (m =? 11) then 30 else 31.

(** Days since 1970-01-01 of a date of the proleptic Gregorian calendar. *)
Definition days_from_civil (y m d : Z) : Z :=
  let y' := if m <=? 2 then y - 1 else y in
  let era := y' / 400 in
  let yoe := y' mod 400 in
  let doy := (153 * (m + (if 2 <? m then -3 else 9)) + 2) / 5 + d - 1 in
  let doe := yoe * 365 + yoe / 4 - yoe / 100 + doy in
  era * 146097 + doe - 719468.

Record civil := mkCivil {
  c_year : Z; c_month : Z; c_day : Z; c_hour : Z; c_min : Z; c_sec : Z;
  c_nsec : Z; c_offset : Z }.

Definition zero_civil : civil := mkCivil 0 0 0 0 0 0 0 0.

Definition to_time (c : civil) : Time :=
  {| t_sec := days_from_civil (c_year c) (c_month c) (c_day c) * 86400
              + c_hour c * 3600 + c_min c * 60 + c_sec c - c_offset c;
     t_nsec := c_nsec c;
     t_offset := c_offset c |}.

(** ** Layouts *)

Inductive chunk :=
  | Lit (b : Z)
  | Year        (* 2006 *)
  | Month       (* 01 *)
  | Day         (* 02 *)
  | Hour        (* 15 *)
  | Min         (* 04 *)
  | Sec         (* 05, followed by a fractional second if [frac] *)
  | SecThenFrac
  | Frac        (* .000 *)
  | NumTZ       (* -0700 *)
  | ISOColonTZ. (* Z07:00 *)

Definition is_digit (b : Z) : bool := in_range 48 57 b.

Definition getnum (fixed : bool) (bs : list Z) : option (Z * list Z) :=
  match bs with
  | a :: r =>
    if is_digit a then
      match r with
      | b :: r' =>
        if is_digit b then Some ((a - 48) * 10 + (b - 48), r')
        else if fixed then None else Some (a - 48, r)
      | [] => if fixed then None else Some (a - 48, [])
      end
    else None
  | [] => None
  end.

Fixpoint digits_value (n : Z) (bs : list Z) : option Z :=
  match bs with
  | [] => Some n
  | b :: r => if is_digit b then digits_value (n * 10 + (b - 48)) r else None
  end.

(** [atoi] of package time: an optional sign, then digits only. *)
Definition atoi (bs : list Z) : option Z :=
  match bs with
  | b :: r =>
    if b =? 45 then Z.opp <$> digits_value 0 r
    else if b =? 43 then digits_value 0 r
    else digits_value 0 bs
  | [] => Some 0
  end.

Definition is_point (b : Z) : bool := (b =? 46) || (b =? 44).

(** [parseNanoseconds] on the point and the [length ds] characters after it. *)
Definition parse_nanos (p : Z) (ds : list Z) : option Z :=
  if is_point p then
    let ds := take 9 ds in
    match atoi ds with
    | Some ns => if ns <? 0 then None else Some (ns * 10 ^ (9 - Z.of_nat (length ds)))
    | None => None
    end
  else None.

Fixpoint take_digits (bs : list Z) : list Z * list Z :=
  match bs with
  | b :: r => if is_digit b then let '(ds, rest) := take_digits r in (b :: ds, rest)
              else ([], bs)
  | [] => ([], [])
  end.

Definition in_bounds (lo hi n : Z) (k : option (civil * list Z)) : option (civil * list Z) :=
  if (lo <=? n) && (n <=? hi) then k else None.

(** A numeric offset: sign, two-digit hours, two-digit minutes. *)
Definition parse_offset (sg : Z) (hh mm : list Z) : option Z :=
  '(h, _) ← getnum true hh;
  '(m, _) ← getnum true mm;
  if (h <=? 24) && (m <=? 60) then
    if sg =? 43 then Some ((h * 60 + m) * 60)
    else if sg =? 45 then Some (- ((h * 60 + m) * 60))
    else None
  else None.

Definition set_offset (o : Z) (c : civil) : civil :=
  mkCivil (c_year c) (c_month c) (c_day c) (c_hour c) (c_min c) (c_sec c) (c_nsec c) o.
Definition set_nsec (n : Z) (c : civil) : civil :=
  mkCivil (c_year c) (c_month c) (c_day c) (c_hour c) (c_min c) (c_sec c) n (c_offset c).
Definition set_sec (s : Z) (c : civil) : civil :=
  mkCivil (c_year c) (c_month c) (c_day c) (c_hour c) (c_min c) s (c_nsec c) (c_offset c).

(** One chunk of the layout. *)
Definition parse_chunk (ck : chunk) (c : civil) (bs : list Z) : option (civil * list Z) :=
  match ck with
  | Lit b => match bs with x :: r => if x =? b then Some (c, r) else None | [] => None end
  | Year =>
    match bs with
    | a :: b :: x :: d :: r =>
      if is_digit a then
        y ← atoi [a; b; x; d];
        Some (mkCivil y (c_month c) (c_day c) (c_hour c) (c_min c) (c_sec c)
                (c_nsec c) (c_offset c), r)
      else None
    | _ => None
    end
  | Month =>
    '(n, r) ← getnum true bs;
    in_bounds 1 12 n (Some (mkCivil (c_year c) n (c_day c) (c_hour c) (c_min c)
      (c_sec c) (c_nsec c) (c_offset c), r))
  | Day =>
    '(n, r) ← getnum true bs;
    Some (mkCivil (c_year c) (c_month c) n (c_hour c) (c_min c)
      (c_sec c) (c_nsec c) (c_offset c), r)
  | Hour =>
    '(n, r) ← getnum false bs;
    in_bounds 0 23 n (Some (mkCivil (c_year c) (c_month c) (c_day c) n (c_min c)
      (c_sec c) (c_nsec c) (c_offset c), r))
  | Min =>
    '(n, r) ← getnum true bs;
    in_bounds 0 59 n (Some (mkCivil (c_year c) (c_month c) (c_day c) (c_hour c) n
      (c_sec c) (c_nsec c) (c_offset c), r))
  | SecThenFrac =>
    '(n, r) ← getnum true bs; in_bounds 0 59 n (Some (set_sec n c, r))
  | Sec =>
    '(n, r) ← getnum true bs;
    in_bounds 0 59 n
      match r with
      | p :: d :: r' =>
        if is_point p && is_digit d then
          let '(ds, rest) := take_digits (d :: r') in
          ns ← parse_nanos p ds; Some (set_nsec ns (set_sec n c), rest)
        else Some (set_sec n c, r)
      | _ => Some (set_sec n c, r)
      end
  | Frac =>
    match bs with
    | p :: x :: y :: z :: r => ns ← parse_nanos p [x; y; z]; Some (set_nsec ns c, r)
    | _ => None
    end
  | NumTZ =>
    match bs with
    | sg :: h1 :: h2 :: m1 :: m2 :: r =>
      o ← parse_offset sg [h1; h2] [m1; m2]; Some (set_offset o c, r)
    | _ => None
    end
  | ISOColonTZ =>
    match bs with
    | b :: r =>
      if b =? 90 then Some (set_offset 0 c, r)
      else match r with
           | h1 :: h2 :: col :: m1 :: m2 :: r' =>
             if col =? 58 then o ← parse_offset b [h1; h2] [m1; m2]; Some (set_offset o c, r')
             else None
           | _ => None
           end
    | [] => None
    end
  end.

Fixpoint parse_chunks (cks : list chunk) (c : civil) (bs : list Z) : option civil :=
  match cks with
  | [] => match bs with [] => Some c | _ => None end
  | ck :: cks' => '(c', r) ← parse_chunk ck c bs; parse_chunks cks' c' r
  end.

(** [time.Parse(layout, value)]; [None] is a [*time.ParseError]. *)
Definition Parse (layout : list chunk) (value : string) : option Time :=
  c ← parse_chunks layout zero_civil (bytes value);
  if (1 <=? c_day c) && (c_day c <=? days_in (c_month c) (c_year c))
  then Some (to_time c) else None.

Definition RFC3339 : list chunk :=
  [Year; Lit 45; Month; Lit 45; Day; Lit 84; Hour; Lit 58; Min; Lit 58; Sec; ISOColonTZ].

(** ** Formatting, for the round trip *)

Definition two (n : Z) : list Z := [48 + n / 10; 48 + n mod 10].
Definition three (n : Z) : list Z := [48 + n / 100; 48 + n / 10 mod 10; 48 + n mod 10].
Definition four (n : Z) : list Z :=
  [48 + n / 1000; 48 + n / 100 mod 10; 48 + n / 10 mod 10; 48 + n mod 10].

(** [t.Format("2006-01-02T15:04:05.000-0700")] on calendar fields. *)
Definition format_jira (c : civil) : list Z :=
  four (c_year c) ++ [45] ++ two (c_month c) ++ [45] ++ two (c_day c) ++ [84]
  ++ two (c_hour c) ++ [58] ++ two (c_min c) ++ [58] ++ two (c_sec c)
  ++ [46] ++ three (c_nsec c / 1000000)
  ++ [if c_offset c <? 0 then 45 else 43]
  ++ two (Z.abs (c_offset c) / 3600) ++ two (Z.abs (c_offset c) / 60 mod 60).

(** The calendar fields of a timestamp with millisecond precision and an offset
    in whole minutes. *)
Definition valid_civil (c : civil) : Prop :=
  0 ≤ c_year c ≤ 9999 ∧ 1 ≤ c_month c ≤ 12 ∧
  1 ≤ c_day c ≤ days_in (c_month c) (c_year c) ∧
  0 ≤ c_hour c ≤ 23 ∧ 0 ≤ c_min c ≤ 59 ∧ 0 ≤ c_sec c ≤ 59 ∧
  0 ≤ c_nsec c ≤ 999000000 ∧ c_nsec c mod 1000000 = 0 ∧
  - 86340 ≤ c_offset c ≤ 86340 ∧ c_offset c mod 60 = 0.

(** ** Reading back what [Format] writes *)

Lemma is_digit_48 d : 0 ≤ d < 10 → is_digit (48 + d) = true.
Proof. intros Hd. unfold is_digit, in_range. apply andb_true_intro; split; apply Z.leb_le; lia. Qed.

Lemma getnum_two fixed n rest :
  0 ≤ n < 100 → getnum fixed (two n ++ rest) = Some (n, rest).
Proof.
  intros Hn. unfold two. cbn [app getnum].
  assert (0 ≤ n / 10 < 10) by (split; [apply Z.div_pos|apply Z.div_lt_upper_bound]; lia).
  rewrite !is_digit_48 by (try apply Z.mod_pos_bound; lia).
  do 2 f_equal. rewrite (Z.div_mod n 10) at 3 by lia. lia.
Qed.

Lemma digits_value_cons n d r :
  0 ≤ d < 10 → digits_value n ((48 + d) :: r) = digits_value (n * 10 + d) r.
Proof. intros Hd. cbn [digits_value]. rewrite is_digit_48 by done. f_equal. lia. Qed.

Lemma atoi_digits d r : 0 ≤ d < 10 → atoi ((48 + d) :: r) = digits_value 0 ((48 + d) :: r).
Proof.
  intros Hd. unfold atoi.
  rewrite (proj2 (Z.eqb_neq (48 + d) 45)), (proj2 (Z.eqb_neq (48 + d) 43)); [done|lia..].
Qed.

Lemma digit_bound n k : 0 < k → 0 ≤ n / k mod 10 < 10.
Proof. intros _. apply Z.mod_pos_bound. lia. Qed.

Lemma atoi_four n : 0 ≤ n ≤ 9999 → atoi (four n) = Some n.
Proof.
  intros Hn. unfold four.
  assert (0 ≤ n / 1000 < 10) by (split; [apply Z.div_pos|apply Z.div_lt_upper_bound]; lia).
  pose proof (Z.mod_pos_bound n 10 ltac:(lia)).
  rewrite atoi_digits by done. rewrite !digits_value_cons by (try apply digit_bound; lia).
  cbn [digits_value]. f_equal.
  pose proof (Z.div_mod n 10). pose proof (Z.div_mod (n / 10) 10).
  pose proof (Z.div_mod (n / 100) 10).
  replace (n / 100) with (n / 10 / 10) in * by (by rewrite Zdiv.Zdiv_Zdiv).
  replace (n / 1000) with (n / 10 / 10 / 10) in * by (by rewrite !Zdiv.Zdiv_Zdiv).
  lia.
Qed.

Lemma parse_nanos_three n :
  0 ≤ n ≤ 999 → parse_nanos 46 (three n) = Some (n * 1000000).
Proof.
  intros Hn. unfold parse_nanos, three. cbn [is_point Z.eqb orb take].
  assert (0 ≤ n / 100 < 10) by (split; [apply Z.div_pos|apply Z.div_lt_upper_bound]; lia).
  pose proof (Z.mod_pos_bound n 10 ltac:(lia)).
  rewrite atoi_digits by done. rewrite !digits_value_cons by (try apply digit_bound; lia).
  cbn [digits_value]. pose proof (Z.div_mod n 10). pose proof (Z.div_mod (n / 10) 10).
  replace (n / 100) with (n / 10 / 10) in * by (by rewrite Zdiv.Zdiv_Zdiv).
  rewrite (proj2 (Z.ltb_ge _ 0)) by lia. f_equal. cbn [length].
  change (10 ^ (9 - Z.of_nat 3)) with 1000000. lia.
Qed.

(** One step of the parser on the text written for the chunk. *)
Lemma parse_chunks_step ck cks c c' bs r :
  parse_chunk ck c bs = Some (c', r) → parse_chunks (ck :: cks) c bs = parse_chunks cks c' r.
Proof. intros H. cbn [parse_chunks]. by rewrite H. Qed.

Lemma in_bounds_in lo hi n k : lo ≤ n ≤ hi → in_bounds lo hi n k = k.
Proof.
  intros Hn. unfold in_bounds.
  by rewrite (proj2 (Z.leb_le lo n)), (proj2 (Z.leb_le n hi)) by lia.
Qed.

Lemma chunk_lit b c r : parse_chunk (Lit b) c (b :: r) = Some (c, r).
Proof. cbn [parse_chunk]. by rewrite Z.eqb_refl. Qed.

Lemma chunk_year y c r :
  0 ≤ y ≤ 9999 → parse_chunk Year c (four y ++ r) =
    Some (mkCivil y (c_month c) (c_day c) (c_hour c) (c_min c) (c_sec c)
            (c_nsec c) (c_offset c), r).
Proof.
  intros Hy. pose proof (atoi_four y Hy) as Ha. unfold four in *. cbn [app parse_chunk].
  rewrite is_digit_48
    by (split; [apply Z.div_pos|apply Z.div_lt_upper_bound]; lia).
  by rewrite Ha.
Qed.

Lemma chunk_month n c r :
  1 ≤ n ≤ 12 → parse_chunk Month c (two n ++ r) =
    Some (mkCivil (c_year c) n (c_day c) (c_hour c) (c_min c) (c_sec c)
            (c_nsec c) (c_offset c), r).
Proof. intros Hn. cbn [parse_chunk]. rewrite getnum_two by lia. by apply in_bounds_in. Qed.

Lemma chunk_day n c r :
  0 ≤ n ≤ 99 → parse_chunk Day c (two n ++ r) =
    Some (mkCivil (c_year c) (c_month c) n (c_hour c) (c_min c) (c_sec c)
            (c_nsec c) (c_offset c), r).
Proof. intros Hn. cbn [parse_chunk]. by rewrite getnum_two by lia. Qed.

Lemma chunk_hour n c r :
  0 ≤ n ≤ 23 → parse_chunk Hour c (two n ++ r) =
    Some (mkCivil (c_year c) (c_month c) (c_day c) n (c_min c) (c_sec c)
            (c_nsec c) (c_offset c), r).
Proof. intros Hn. cbn [parse_chunk]. rewrite getnum_two by lia. by apply in_bounds_in. Qed.

Lemma chunk_min n c r :
  0 ≤ n ≤ 59 → parse_chunk Min c (two n ++ r) =
    Some (mkCivil (c_year c) (c_month c) (c_day c) (c_hour c) n (c_sec c)
            (c_nsec c) (c_offset c), r).
Proof. intros Hn. cbn [parse_chunk]. rewrite getnum_two by lia. by apply in_bounds_in. Qed.

Lemma chunk_sec_then_frac n c r :
  0 ≤ n ≤ 59 → parse_chunk SecThenFrac c (two n ++ r) = Some (set_sec n c, r).
Proof. intros Hn. cbn [parse_chunk]. rewrite getnum_two by lia. by apply in_bounds_in. Qed.

Lemma chunk_frac n c r :
  0 ≤ n ≤ 999 →
  parse_chunk Frac c (46 :: three n ++ r) = Some (set_nsec (n * 1000000) c, r).
Proof.
  intros Hn. pose proof (parse_nanos_three n Hn) as Hp. unfold three in *.
  cbn [app parse_chunk]. by rewrite Hp.
Qed.

Lemma parse_offset_two (neg : bool) h m :
  0 ≤ h ≤ 24 → 0 ≤ m ≤ 60 →
  parse_offset (if neg then 45 else 43) (two h) (two m)
  = Some (if neg then - ((h * 60 + m) * 60) else (h * 60 + m) * 60).
Proof.
  intros Hh Hm. unfold parse_offset.
  rewrite <- (app_nil_r (two h)), <- (app_nil_r (two m)), !getnum_two by lia. cbn.
  rewrite (proj2 (Z.leb_le h 24)), (proj2 (Z.leb_le m 60)) by lia. by destruct neg.
Qed.

Lemma chunk_num_tz neg h m c :
  0 ≤ h ≤ 24 → 0 ≤ m ≤ 60 →
  parse_chunk NumTZ c ((if neg : bool then 45 else 43) :: two h ++ two m)
  = Some (set_offset (if neg then - ((h * 60 + m) * 60) else (h * 60 + m) * 60) c, []).
Proof.
  intros Hh Hm. pose proof (parse_offset_two neg h m Hh Hm) as Hp. unfold two in *.
  cbn [app parse_chunk]. by rewrite Hp.
Qed.

(** The offset is recovered from its sign, hours and minutes. *)
Lemma offset_parts o :
  o mod 60 = 0 →
  (if o <? 0 then - ((Z.abs o / 3600 * 60 + Z.abs o / 60 mod 60) * 60)
   else (Z.abs o / 3600 * 60 + Z.abs o / 60 mod 60) * 60) = o.
Proof.
  intros Ho.
  assert (Habs : (Z.abs o / 3600 * 60 + Z.abs o / 60 mod 60) * 60 = Z.abs o).
  { replace (Z.abs o / 3600) with (Z.abs o / 60 / 60) by (by rewrite Zdiv.Zdiv_Zdiv).
    pose proof (Z.div_mod (Z.abs o / 60) 60). pose proof (Z.div_mod (Z.abs o) 60).
    assert (Z.abs o mod 60 = 0).
    { destruct (Z.abs_eq_or_opp o) as [-> | ->]; [done|].
      by apply Z.mod_opp_l_z; [lia|]. }
    lia. }
  rewrite Habs. destruct (o <? 0) eqn:H; [apply Z.ltb_lt in H|apply Z.ltb_ge in H]; lia.
Qed.
