(* ===== verification/Errors.v ===== *)
(** * Error values

    Go's [error] interface, restricted to the dynamic types that occur in the
    connector: package-level sentinels, [fmt.Errorf] with or without [%w],
    [errors.Join], [*jira.Error], PostgreSQL errors, encoding/json errors and
    gRPC statuses; with [errors.Is], [errors.As] and [Error()]. *)

From S2P Require Import Prelude GoLang.
Local Open Scope string_scope.
#[local] Set Warnings "-register-all".

(** go: internal/client/jira/jira.go 130-136 Error *)
Record ApiError := mkApiError {
  StatusCode : Z;
  Body : string;
  Message : string;
  ErrorMessages : list string;
  Errors : gmap string string;
}.

(** Package-level error variables: two of them are equal only if they are the
    same variable.

    go: internal/service/sync/sync.go 35-42 errInvalidPayloadType *)
Inductive sentinel :=
  | context_Canceled
  | context_DeadlineExceeded
  | errReadOnClosedBody
  | errInternalInvalidAction
  | errPoolStopped
  | errSubmitPanic
  | errInvalidPayloadType
  | errInvalidRepository
  | errUnexpectedResultType
  | ErrProjectNotFound
  | ErrProjectAlreadyExists
  | ErrAuthorAlreadyExists
  | ErrIssueAlreadyExists
  | errNestedTransaction
  | errUnexpectedQuerierType
  | errCommitOutsideTx
  | errRollbackOutsideTx
  | ErrJiraBaseURLRequired
  | errJobDisappeared
  | errSyncFailed
  | errInitApplication
  | errNoProjectKey
  | migrate_ErrNoChange
  | http_ErrServerClosed.

#[export] Instance sentinel_eq_dec : EqDecision sentinel.
Proof. solve_decision. Defined.

(** The kinds of error encoding/json reports (syntax, wrong type for the Go
    target, end of input). *)
Inductive json_err := JSyntax | JType | JEOF.
#[export] Instance json_err_eq_dec : EqDecision json_err.
Proof. solve_decision. Defined.

(** Arguments of a format: literal text or a [%q]-quoted string. *)
Inductive piece := L (s : string) | Q (s : string).

Inductive error :=
  | ESentinel (s : sentinel)
  | ENew (text : list piece)                      (* no wrapped error *)
  | EWrap (pre : list piece) (inner : error) (post : list piece)  (* %w *)
  | EJoin (es : list error)
  | EApi (e : ApiError)
  | EPg (code msg : string)
  | EJson (k : json_err)
  | EStatus (code : Z) (msg : error) .            (* status.Errorf(code, "...: %v", err) *)

(** [fmt.Errorf("pre: %w", err)], the common case. *)
Definition wrap (pre : string) (e : error) : error := EWrap [L (pre ++ ": ")] e [].

(** [fmt.Errorf("pre: %w", err)] for an [err] that may be nil: the verb then
    prints [%!w(<nil>)] and nothing is wrapped. *)
Definition wrap_opt (pre : string) (e : option error) : error :=
  match e with
  | Some e => wrap pre e
  | None => ENew [L (pre ++ ": %!w(<nil>)")]
  end.

(** [errors.Is(err, target)] for a sentinel target. *)
Fixpoint errors_is (e : error) (target : sentinel) : bool :=
  match e with
  | ESentinel s => bool_decide (s = target)
  | EWrap _ inner _ => errors_is inner target
  | EJoin es => existsb (λ e, errors_is e target) es
  | _ => false
  end.

(** [errors.As(err, *pgconn.PgError)]: the code of the first PostgreSQL error
    of the chain. *)
Fixpoint errors_as_pg (e : error) : option string :=
  match e with
  | EPg code _ => Some code
  | EWrap _ inner _ => errors_as_pg inner
  | EJoin es => foldr (λ e r, match errors_as_pg e with Some c => Some c | None => r end)
                  None es
  | _ => None
  end.

(** [errors.As(err, *jira.Error)] *)
Fixpoint errors_as_api (e : error) : option ApiError :=
  match e with
  | EApi a => Some a
  | EWrap _ inner _ => errors_as_api inner
  | EJoin es => foldr (λ e r, match errors_as_api e with Some c => Some c | None => r end)
                  None es
  | _ => None
  end.

(** ** Texts *)

(** go: internal/client/jira/jira.go 138-157 mapStatusToMessage *)
Definition mapStatusToMessage (statusCode : Z) : string :=
  match statusCode with
  | 401%Z => "Unauthorized: invalid token or credentials"
  | 403%Z => "Forbidden: insufficient permissions to access the resource"
  | 404%Z => "Not Found: the requested resource does not exist"
  | 429%Z => "Rate Limit Exceeded: too many requests, please slow down"
  | 500%Z => "Internal Server Error: Jira server encountered an unexpected condition"
  | 502%Z => "Bad Gateway: Jira server received an invalid response from upstream"
  | 503%Z => "Service Unavailable: Jira server is temporarily down for maintenance"
  | _ => "Request failed"
  end.

Definition maxErrorBodyLength : nat := 200.

(** [%v] of a [[]string] and of a [map[string]string] (keys are sorted). *)
Definition fmt_strings (l : list string) : string := "[" ++ String.concat " " l ++ "]".
Definition fmt_map (m : gmap string string) : string :=
  "map[" ++ String.concat " "
    ((λ k, k ++ ":" ++ default "" (m !! k)) <$> merge_sort string_le (map_to_list m).*1)
  ++ "]".

(** go: internal/client/jira/jira.go 159-184 Error.Error *)
Definition ApiError_Error (e : ApiError) : string :=
  if decide (Message e ≠ "") then
    "Jira API: " ++ FormatInt (StatusCode e) ++ ", message: " ++ Message e
  else if decide (ErrorMessages e ≠ []) then
    "Jira API: " ++ FormatInt (StatusCode e) ++ ", errors: "
      ++ fmt_strings (ErrorMessages e)
  else if decide (Errors e ≠ ∅) then
    "Jira API: " ++ FormatInt (StatusCode e) ++ ", field errors: " ++ fmt_map (Errors e)
  else
    let baseMsg := mapStatusToMessage (StatusCode e) in
    if decide (Body e ≠ "") then
      let bodyStr :=
        if (maxErrorBodyLength <? String.length (Body e))%nat
        then String.substring 0 maxErrorBodyLength (Body e) ++ "..."
        else Body e in
      baseMsg ++ " (Status: " ++ FormatInt (StatusCode e) ++ "). Raw body: " ++ bodyStr
    else "Jira API: " ++ FormatInt (StatusCode e) ++ ", body: " ++ Body e.

Definition sentinel_text (s : sentinel) : string :=
  match s with
  | context_Canceled => "context canceled"
  | context_DeadlineExceeded => "context deadline exceeded"
  | errReadOnClosedBody => "http: read on closed response body"
  | errInternalInvalidAction => "internal error: unknown action from handleResponse"
  | errPoolStopped => "worker pool is stopped"
  | errSubmitPanic => "submit task: panic recovered"
  | errInvalidPayloadType => "invalid payload type"
  | errInvalidRepository => "repository is not *postgres.PostgresRepository"
  | errUnexpectedResultType => "unexpected result type"
  | ErrProjectNotFound => "project not found in Jira"
  | ErrProjectAlreadyExists => "project already exists"
  | ErrAuthorAlreadyExists => "author already exists"
  | ErrIssueAlreadyExists => "issue already exists"
  | errNestedTransaction =>
    "cannot start nested transaction: already running in a transaction"
  | errUnexpectedQuerierType =>
    "unexpected querier type: expected *sql.DB to begin transaction"
  | errCommitOutsideTx => "commit called outside of transaction"
  | errRollbackOutsideTx => "rollback called outside of transaction"
  | ErrJiraBaseURLRequired => "jira.baseUrl is required"
  | errJobDisappeared => "sync job disappeared from registry"
  | errSyncFailed => "sync failed"
  | errInitApplication => "create new fs manager"
  | errNoProjectKey => "flag --project is required"
  | migrate_ErrNoChange => "no change"
  | http_ErrServerClosed => "http: Server closed"
  end.

(** Presentation only: the Unicode table of [strconv.IsPrint] and the wording
    of encoding/json, pgconn and gRPC status errors. *)
Class GoText := {
  is_print : Z → bool;
  json_error_text : json_err → string;
  pg_error_text : string → string → string;
  status_text : Z → string → string;
}.

Section Text.
Context `{GoText}.

Definition piece_text (p : piece) : string :=
  match p with L s => s | Q s => Quote is_print s end.
Definition pieces_text (ps : list piece) : string := String.concat "" (piece_text <$> ps).

(** [err.Error()] *)
Fixpoint error_text (e : error) : string :=
  match e with
  | ESentinel s => sentinel_text s
  | ENew ps => pieces_text ps
  | EWrap pre inner post => pieces_text pre ++ error_text inner ++ pieces_text post
  | EJoin es => String.concat (of_bytes [10%Z]) (error_text <$> es)
  | EApi a => ApiError_Error a
  | EPg code msg => pg_error_text code msg
  | EJson k => json_error_text k
  | EStatus code inner => status_text code (error_text inner)
  end.
End Text.

(** ** Lemmas *)

Lemma errors_is_wrap pre e t : errors_is (wrap pre e) t = errors_is e t.
Proof. done. Qed.
Lemma errors_as_pg_wrap pre e : errors_as_pg (wrap pre e) = errors_as_pg e.
Proof. done. Qed.
#[export] Hint Rewrite errors_is_wrap errors_as_pg_wrap : go_simpl.

(** The raw body shown to the user is bounded: status line plus at most
    [maxErrorBodyLength] bytes and an ellipsis. *)
Example api_error_message :
  ApiError_Error (mkApiError 400 "" "invalid request" [] ∅)
  = "Jira API: 400, message: invalid request".
Proof. vm_compute. reflexivity. Qed.
Example api_error_status_only :
  ApiError_Error (mkApiError 404 "not found" "" [] ∅)
  = "Not Found: the requested resource does not exist (Status: 404). Raw body: not found".
Proof. vm_compute. reflexivity. Qed.
