(* ===== verification/Json.v ===== *)
(** * encoding/json, as far as the connector uses it

    A scanner from bytes to JSON trees, and decoding of trees into Go values
    with the conventions of [json.Unmarshal]: [null] leaves a scalar alone, an
    unknown key is skipped, keys match field names exactly or else up to case
    folding, a value of the wrong type is skipped and reported at the end. *)

From S2P Require Import Prelude GoLang Errors.
Local Open Scope Z_scope.
#[local] Set Warnings "-register-all".

(** ** Trees *)

(** Numbers are kept as their literal; object members in source order, with
    duplicates. *)
Inductive json :=
  | JNull
  | JBool (b : bool)
  | JNum (lit : string)
  | JStr (s : string)
  | JArr (l : list json)
  | JObj (ms : list (string * json)).

(** ** Scanner *)

Definition is_space (b : Z) : bool :=
  (b =? 32) || (b =? 9) || (b =? 13) || (b =? 10).

Fixpoint skip_ws (bs : list Z) : list Z :=
  match bs with
  | b :: r => if is_space b then skip_ws r else bs
  | [] => []
  end.

Definition hex_val (b : Z) : option Z :=
  if in_range 48 57 b then Some (b - 48)
  else if in_range 97 102 b then Some (b - 87)
  else if in_range 65 70 b then Some (b - 55)
  else None.

Definition hex4 (a b c d : Z) : option Z :=
  match hex_val a, hex_val b, hex_val c, hex_val d with
  | Some a, Some b, Some c, Some d => Some (((a * 16 + b) * 16 + c) * 16 + d)
  | _, _, _, _ => None
  end.

Definition simple_escape (e : Z) : option Z :=
  if (e =? 34) || (e =? 92) || (e =? 47) then Some e
  else if e =? 98 then Some 8 else if e =? 102 then Some 12
  else if e =? 110 then Some 10 else if e =? 114 then Some 13
  else if e =? 116 then Some 9 else None.

(** The rest of a string literal, after its opening quote: its bytes (escapes
    decoded, a surrogate pair combined, a lone surrogate replaced) and the
    input after the closing quote. *)
Fixpoint scan_string (bs : list Z) : option (list Z * list Z) :=
  match bs with
  | [] => None
  | c :: r =>
    if c =? 34 then Some ([], r)
    else if c =? 92 then
      match r with
      | e :: r1 =>
        if e =? 117 then
          match r1 with
          | a :: b :: x :: d :: r2 =>
            match hex4 a b x d with
            | None => None
            | Some u =>
              if in_range 55296 57343 u then
                match r2 with
                | e1 :: e2 :: a' :: b' :: x' :: d' :: r3 =>
                  match (if (e1 =? 92) && (e2 =? 117) then hex4 a' b' x' d' else None) with
                  | Some v =>
                    if in_range 55296 56319 u && in_range 56320 57343 v then
                      '(s, rest) ← scan_string r3;
                      Some (encode_rune (65536 + (u - 55296) * 1024 + (v - 56320)) ++ s, rest)
                    else '(s, rest) ← scan_string r2; Some (encode_rune rune_error ++ s, rest)
                  | None =>
                    '(s, rest) ← scan_string r2; Some (encode_rune rune_error ++ s, rest)
                  end
                | _ => '(s, rest) ← scan_string r2; Some (encode_rune rune_error ++ s, rest)
                end
              else '(s, rest) ← scan_string r2; Some (encode_rune u ++ s, rest)
            end
          | _ => None
          end
        else
          match simple_escape e with
          | Some x => '(s, rest) ← scan_string r1; Some (x :: s, rest)
          | None => None
          end
      | [] => None
      end
    else if c <? 32 then None
    else '(s, rest) ← scan_string r; Some (c :: s, rest)
  end.

(** Invalid UTF-8 becomes U+FFFD. *)
Definition sanitize (bs : list Z) : list Z :=
  utf8_decode bs ≫= λ p,
    if (p.1 =? rune_error) && (length p.2 =? 1)%nat then [239; 191; 189] else p.2.

Fixpoint span_digits (bs : list Z) : list Z * list Z :=
  match bs with
  | b :: r =>
    if in_range 48 57 b then let '(ds, rest) := span_digits r in (b :: ds, rest)
    else ([], bs)
  | [] => ([], [])
  end.

Definition scan_frac (bs : list Z) : option (list Z * list Z) :=
  match bs with
  | b :: r =>
    if b =? 46 then
      match span_digits r with ([], _) => None | (ds, rest) => Some (46 :: ds, rest) end
    else Some ([], bs)
  | [] => Some ([], [])
  end.

Definition scan_exp (bs : list Z) : option (list Z * list Z) :=
  match bs with
  | b :: r =>
    if (b =? 101) || (b =? 69) then
      let '(sg, r') := match r with
                       | s :: r' => if (s =? 43) || (s =? 45) then ([s], r') else ([], r)
                       | [] => ([], [])
                       end in
      match span_digits r' with
      | ([], _) => None
      | (ds, rest) => Some (b :: sg ++ ds, rest)
      end
    else Some ([], bs)
  | [] => Some ([], [])
  end.

Definition scan_number (bs : list Z) : option (string * list Z) :=
  let '(sg, r) := match bs with
                  | b :: r => if b =? 45 then ([45], r) else ([], bs)
                  | [] => ([], [])
                  end in
  '(ip, r1) ← match r with
              | b :: r' => if b =? 48 then Some ([48], r')
                           else if in_range 49 57 b then Some (span_digits r) else None
              | [] => None
              end;
  '(fr, r2) ← scan_frac r1;
  '(ex, r3) ← scan_exp r2;
  Some (of_bytes (sg ++ ip ++ fr ++ ex), r3).

Fixpoint strip_prefix (p bs : list Z) : option (list Z) :=
  match p, bs with
  | [], _ => Some bs
  | x :: p', b :: bs' => if x =? b then strip_prefix p' bs' else None
  | _ :: _, [] => None
  end.

Definition max_depth : Z := 10000.

(** One value at the start of the input, and the input after it.  [depth] is
    the nesting so far (encoding/json allows 10000 levels). *)
Fixpoint scan_value (fuel : nat) (depth : Z) (bs : list Z) : option (json * list Z) :=
  match fuel with
  | O => None
  | S f =>
    match skip_ws bs with
    | [] => None
    | c :: r =>
      if c =? 123 then
        if max_depth <=? depth then None else
        match skip_ws r with
        | [] => None
        | c' :: r' =>
          if c' =? 125 then Some (JObj [], r')
          else '(ms, rest) ← scan_members f (depth + 1) (c' :: r'); Some (JObj ms, rest)
        end
      else if c =? 91 then
        if max_depth <=? depth then None else
        match skip_ws r with
        | [] => None
        | c' :: r' =>
          if c' =? 93 then Some (JArr [], r')
          else '(l, rest) ← scan_elements f (depth + 1) (c' :: r'); Some (JArr l, rest)
        end
      else if c =? 34 then '(s, rest) ← scan_string r; Some (JStr (of_bytes (sanitize s)), rest)
      else if c =? 116 then rest ← strip_prefix [114; 117; 101] r; Some (JBool true, rest)
      else if c =? 102 then rest ← strip_prefix [97; 108; 115; 101] r; Some (JBool false, rest)
      else if c =? 110 then rest ← strip_prefix [117; 108; 108] r; Some (JNull, rest)
      else '(lit, rest) ← scan_number (c :: r); Some (JNum lit, rest)
    end
  end
with scan_elements (fuel : nat) (depth : Z) (bs : list Z) : option (list json * list Z) :=
  match fuel with
  | O => None
  | S f =>
    '(v, r) ← scan_value f depth bs;
    match skip_ws r with
    | [] => None
    | c :: r' =>
      if c =? 44 then '(vs, rest) ← scan_elements f depth r'; Some (v :: vs, rest)
      else if c =? 93 then Some ([v], r')
      else None
    end
  end
with scan_members (fuel : nat) (depth : Z) (bs : list Z)
    : option (list (string * json) * list Z) :=
  match fuel with
  | O => None
  | S f =>
    match skip_ws bs with
    | [] => None
    | q :: r0 =>
      if q =? 34 then
        '(k, r) ← scan_string r0;
        match skip_ws r with
        | [] => None
        | col :: r1 =>
          if col =? 58 then
            '(v, r2) ← scan_value f depth r1;
            match skip_ws r2 with
            | [] => None
            | c :: r' =>
              let m := (of_bytes (sanitize k), v) in
              if c =? 44 then '(ms, rest) ← scan_members f depth r'; Some (m :: ms, rest)
              else if c =? 125 then Some ([m], r')
              else None
            end
          else None
        end
      else None
    end
  end.

(** Every call consumes input or goes from a container to its first element,
    so this fuel is never exhausted ([scan_value_fuel]). *)
Definition scan_fuel (bs : list Z) : nat := 2 * length bs + 2.

(** *** The fuel is enough *)

Lemma skip_ws_length bs : (length (skip_ws bs) ≤ length bs)%nat.
Proof. induction bs as [|b bs IH]; simpl; [done|]. case_match; simpl; lia. Qed.

(** A parser's result leaves less input than [n]. *)
Definition leaves {A} (n : nat) (o : option (A * list Z)) : Prop :=
  match o with Some (_, rest) => (length rest < n)%nat | None => True end.

Lemma leaves_bind {A B} n (o : option (A * list Z)) (k : A * list Z → option (B * list Z)) :
  leaves n o → (∀ a rest, (length rest < n)%nat → leaves n (k (a, rest))) → leaves n (o ≫= k).
Proof. destruct o as [[a rest]|]; simpl; auto. Qed.

Lemma leaves_ret {A B} n m (o : option (A * list Z)) (g : A → B) :
  leaves n o → (n ≤ m)%nat → leaves m ('(a, rest) ← o; Some (g a, rest)).
Proof. destruct o as [[a rest]|]; simpl; [lia|done]. Qed.

Lemma scan_string_leaves bs : leaves (length bs) (scan_string bs).
Proof.
  remember (length bs) as n eqn:Hn. revert bs Hn. induction (lt_wf n) as [n _ IH].
  intros bs ->.
  assert (Hgo : ∀ B l (g : list Z → B), (length l < length bs)%nat →
    leaves (length bs) ('(s, rest) ← scan_string l; Some (g s, rest))).
  { intros B l g Hl. eapply leaves_ret; [by eapply IH|lia]. }
  destruct bs as [|c r]; [done|]. cbn [scan_string].
  destruct (c =? 34); [simpl; lia|]. destruct (c =? 92).
  2: { destruct (c <? 32); [done|]. apply Hgo. simpl. lia. }
  destruct r as [|e r1]; [done|]. destruct (e =? 117).
  2: { destruct (simple_escape e); [apply Hgo; simpl; lia|done]. }
  destruct r1 as [|a [|b [|x [|d r2]]]]; try done. destruct (hex4 a b x d) as [u|]; [|done].
  destruct (in_range 55296 57343 u); [|apply Hgo; simpl; lia].
  destruct r2 as [|e1 [|e2 [|a' [|b' [|x' [|d' r3]]]]]]; try (apply Hgo; simpl; lia).
  destruct (if _ : bool then _ else _); [|apply Hgo; simpl; lia].
  destruct (_ && _); apply Hgo; simpl; lia.
Qed.

Lemma span_digits_length bs : (length (span_digits bs).2 ≤ length bs)%nat.
Proof.
  induction bs as [|b r IH]; simpl; [done|]. destruct (in_range 48 57 b); simpl; [|lia].
  destruct (span_digits r). simpl in *. lia.
Qed.

Lemma strip_prefix_length p bs rest :
  strip_prefix p bs = Some rest → (length rest ≤ length bs)%nat.
Proof.
  revert bs. induction p as [|x p IH]; intros bs; simpl; [by intros [= ->]|].
  destruct bs as [|b bs]; [done|]. destruct (x =? b); [|done]. intros H%IH. simpl. lia.
Qed.

Lemma scan_frac_leaves bs : leaves (S (length bs)) (scan_frac bs).
Proof.
  unfold scan_frac. destruct bs as [|b r]; [simpl; lia|]. destruct (b =? 46); [|simpl; lia].
  pose proof (span_digits_length r) as H. destruct (span_digits r) as [[|d ds] rest]; simpl in *;
    [done|lia].
Qed.

Lemma scan_exp_leaves bs : leaves (S (length bs)) (scan_exp bs).
Proof.
  unfold scan_exp. destruct bs as [|b r]; [simpl; lia|].
  destruct (_ || _); [|simpl; lia].
  assert (Hs : ∀ sg r', (length r' ≤ length r)%nat → leaves (S (length (b :: r)))
    match span_digits r' with ([], _) => None | (ds, rest) => Some (b :: sg ++ ds, rest) end).
  { intros sg r' Hr. pose proof (span_digits_length r') as H.
    destruct (span_digits r') as [[|d ds] rest]; simpl in *; [done|lia]. }
  destruct r as [|s r']; [by apply Hs|]. destruct (_ || _); apply Hs; simpl; lia.
Qed.

Lemma scan_number_leaves bs : leaves (length bs) (scan_number bs).
Proof.
  unfold scan_number.
  set (p := match bs with b :: r => if b =? 45 then ([45], r) else ([], bs) | [] => ([], []) end).
  assert (Hp : (length p.2 ≤ length bs)%nat)
    by (subst p; destruct bs as [|b r]; [done|]; destruct (b =? 45); simpl; lia).
  destruct p as [sg r]. simpl in Hp. apply leaves_bind.
  - destruct r as [|b r']; [done|]. simpl in Hp. destruct (b =? 48); [simpl; lia|].
    destruct (in_range 49 57 b) eqn:Hb; [|done]. simpl.
    assert (in_range 48 57 b = true) as -> by (unfold in_range in *; lia).
    pose proof (span_digits_length r'). destruct (span_digits r'). simpl in *. lia.
  - intros ip r1 H1. pose proof (scan_frac_leaves r1) as H2.
    destruct (scan_frac r1) as [[fr r2]|]; [|done]. simpl in *.
    pose proof (scan_exp_leaves r2) as H3. destruct (scan_exp r2) as [[ex r3]|]; [|done].
    simpl in *. lia.
Qed.

Lemma leaves_weaken {A} n m (o : option (A * list Z)) : leaves n o → (n ≤ m)%nat → leaves m o.
Proof. destruct o as [[a rest]|]; simpl; [lia|done]. Qed.

Lemma scan_leaves f :
  (∀ d bs, leaves (length bs) (scan_value f d bs)) ∧
  (∀ d bs, leaves (length bs) (scan_elements f d bs)) ∧
  (∀ d bs, leaves (length bs) (scan_members f d bs)).
Proof.
  induction f as [|f (IHv & IHe & IHm)]; [done|]. split_and!; intros d bs.
  - cbn [scan_value]. pose proof (skip_ws_length bs) as Hw. destruct (skip_ws bs) as [|c r]; [done|].
    simpl in Hw. destruct (c =? 123).
    { destruct (max_depth <=? d); [done|]. pose proof (skip_ws_length r).
      destruct (skip_ws r) as [|c' r']; [done|]. destruct (c' =? 125); [simpl in *; lia|].
      eapply leaves_ret; [apply IHm|simpl in *; lia]. }
    destruct (c =? 91).
    { destruct (max_depth <=? d); [done|]. pose proof (skip_ws_length r).
      destruct (skip_ws r) as [|c' r']; [done|]. destruct (c' =? 93); [simpl in *; lia|].
      eapply leaves_ret; [apply IHe|simpl in *; lia]. }
    destruct (c =? 34); [eapply leaves_ret; [apply scan_string_leaves|lia]|].
    do 3 (destruct (c =? _); [destruct (strip_prefix _ r) eqn:Hp; [|done];
                             apply strip_prefix_length in Hp; simpl; lia|]).
    eapply leaves_ret; [apply scan_number_leaves|simpl in *; lia].
  - cbn [scan_elements]. apply leaves_bind; [apply IHv|]. intros v r Hr.
    pose proof (skip_ws_length r). destruct (skip_ws r) as [|c r']; [done|].
    destruct (c =? 44); [eapply leaves_ret; [apply IHe|simpl in *; lia]|].
    destruct (c =? 93); simpl in *; [lia|done].
  - cbn [scan_members]. pose proof (skip_ws_length bs). destruct (skip_ws bs) as [|q r0]; [done|].
    destruct (q =? 34); [|done]. apply leaves_bind.
    { eapply leaves_weaken; [apply scan_string_leaves|simpl in *; lia]. }
    intros k r Hr. pose proof (skip_ws_length r). destruct (skip_ws r) as [|col r1]; [done|].
    destruct (col =? 58); [|done]. apply leaves_bind.
    { eapply leaves_weaken; [apply IHv|simpl in *; lia]. }
    intros v r2 Hr2. pose proof (skip_ws_length r2). destruct (skip_ws r2) as [|c r']; [done|].
    destruct (c =? 44); [eapply leaves_ret; [apply IHm|simpl in *; lia]|].
    destruct (c =? 125); simpl in *; [lia|done].
Qed.

Lemma bind_leaves_ext {A B} n (o o' : option (A * list Z)) (k k' : A * list Z → option B) :
  o = o' → leaves n o → (∀ a rest, (length rest < n)%nat → k (a, rest) = k' (a, rest)) →
  o ≫= k = o' ≫= k'.
Proof. intros <-. destruct o as [[a rest]|]; simpl; auto. Qed.

(** More fuel than an input needs makes no difference. *)
Lemma scan_fuel_enough f : ∀ f' d bs,
  ((2 * length bs + 1 ≤ f ≤ f')%nat → scan_value f d bs = scan_value f' d bs) ∧
  ((2 * length bs + 2 ≤ f ≤ f')%nat → scan_elements f d bs = scan_elements f' d bs) ∧
  ((2 * length bs + 2 ≤ f ≤ f')%nat → scan_members f d bs = scan_members f' d bs).
Proof.
  induction f as [|f IH]; intros f' d bs; [split_and!; lia|].
  destruct f' as [|f']; [split_and!; lia|]. split_and!; intros Hf.
  - cbn [scan_value]. pose proof (skip_ws_length bs) as Hw. destruct (skip_ws bs) as [|c r]; [done|].
    simpl in Hw. destruct (c =? 123).
    { destruct (max_depth <=? d); [done|]. pose proof (skip_ws_length r).
      destruct (skip_ws r) as [|c' r']; [done|]. destruct (c' =? 125); [done|].
      destruct (IH f' (d + 1) (c' :: r')) as (_ & _ & ->); [done|simpl in *; lia]. }
    destruct (c =? 91); [|done].
    destruct (max_depth <=? d); [done|]. pose proof (skip_ws_length r).
    destruct (skip_ws r) as [|c' r']; [done|]. destruct (c' =? 93); [done|].
    destruct (IH f' (d + 1) (c' :: r')) as (_ & -> & _); [done|simpl in *; lia].
  - cbn [scan_elements]. eapply (bind_leaves_ext (length bs)); [apply IH; lia|apply scan_leaves|].
    intros v r Hr. pose proof (skip_ws_length r). destruct (skip_ws r) as [|c r']; [done|].
    destruct (c =? 44); [|done].
    destruct (IH f' d r') as (_ & -> & _); [done|simpl in *; lia].
  - cbn [scan_members]. pose proof (skip_ws_length bs). destruct (skip_ws bs) as [|q r0]; [done|].
    destruct (q =? 34); [|done].
    eapply (bind_leaves_ext (length r0)); [done|apply scan_string_leaves|].
    intros k r Hr. pose proof (skip_ws_length r). destruct (skip_ws r) as [|col r1]; [done|].
    destruct (col =? 58); [|done].
    eapply (bind_leaves_ext (length r1)); [apply IH; simpl in *; lia|apply scan_leaves|].
    intros v r2 Hr2. pose proof (skip_ws_length r2). destruct (skip_ws r2) as [|c r']; [done|].
    destruct (c =? 44); [|done].
    destruct (IH f' d r') as (_ & _ & ->); [done|simpl in *; lia].
Qed.

Lemma scan_value_fuel fuel bs :
  (scan_fuel bs ≤ fuel)%nat → scan_value fuel 0 bs = scan_value (scan_fuel bs) 0 bs.
Proof.
  unfold scan_fuel. intros Hf. symmetry. apply scan_fuel_enough. lia.
Qed.

(** The document of [json.Unmarshal]: one value and nothing after it. *)
Definition parse_document (s : string) : option json :=
  let bs := bytes s in
  '(v, rest) ← scan_value (scan_fuel bs) 0 bs;
  match skip_ws rest with [] => Some v | _ => None end.

(** What [json.Decoder.Decode] reads: the first value; the rest is ignored. *)
Definition parse_first (s : string) : option json :=
  let bs := bytes s in
  '(v, _) ← scan_value (scan_fuel bs) 0 bs; Some v.

(** ** Decoding into Go values *)

(** A decoder updates a value of type [T] in place; the flag says that no type
    error was recorded. *)
Definition decoder (T : Type) : Type := json → T → T * bool.

Definition dec_string : decoder string := λ j old,
  match j with
  | JStr s => (s, true) | JNull => (old, true) | _ => (old, false)
  end.

Definition dec_bool : decoder bool := λ j old,
  match j with
  | JBool b => (b, true) | JNull => (old, true) | _ => (old, false)
  end.

(** A number that is not an [int] ("1.5", "1e3", out of range) is a type error. *)
Definition dec_int : decoder Z := λ j old,
  match j with
  | JNum lit => match ParseInt lit with (z, None) => (z, true) | _ => (old, false) end
  | JNull => (old, true)
  | _ => (old, false)
  end.

(** [json.RawMessage] keeps the value as it is, [null] included. *)
Definition dec_raw : decoder (option json) := λ j _, (Some j, true).

(** A slice is resized to the array's length; elements below the old length
    are decoded over their old contents. *)
Definition dec_slice {T} (zero : T) (d : decoder T) : decoder (list T) := λ j old,
  match j with
  | JNull => ([], true)
  | JArr l =>
    let rs := imap (λ i v, d v (default zero (old !! i))) l in
    (rs.*1, forallb snd rs)
  | _ => (old, false)
  end.

Definition dec_ptr {T} (zero : T) (d : decoder T) : decoder (option T) := λ j old,
  match j with
  | JNull => (None, true)
  | _ => let '(x, ok) := d j (default zero old) in (Some x, ok)
  end.

Definition dec_map {T} (zero : T) (d : decoder T) : decoder (gmap string T) := λ j old,
  match j with
  | JNull => (∅, true)
  | JObj ms =>
    fold_left (λ acc kv, let '(x, ok) := d kv.2 zero in
                         (<[kv.1 := x]> acc.1, acc.2 && ok)) ms (old, true)
  | _ => (old, false)
  end.

(** Case folding of a key, as [foldName] does: ASCII letters, U+017F and
    U+212A. *)
Fixpoint fold_bytes (bs : list Z) : list Z :=
  match bs with
  | [] => []
  | b :: r =>
    match r with
    | b1 :: r1 =>
      if (b =? 197) && (b1 =? 191) then 83 :: fold_bytes r1
      else match r1 with
           | b2 :: r2 =>
             if (b =? 226) && (b1 =? 132) && (b2 =? 170) then 75 :: fold_bytes r2
             else (if in_range 97 122 b then b - 32 else b) :: fold_bytes r
           | [] => (if in_range 97 122 b then b - 32 else b) :: fold_bytes r
           end
    | [] => [if in_range 97 122 b then b - 32 else b]
    end
  end.

Definition fold_eq (a b : string) : bool :=
  bool_decide (fold_bytes (bytes a) = fold_bytes (bytes b)).

(** The struct field a key belongs to. *)
Definition find_field {A} (fields : list (string * A)) (k : string) : option A :=
  match list_find (λ f, f.1 = k) fields with
  | Some (_, f) => Some f.2
  | None => snd ∘ snd <$> list_find (λ f, fold_eq f.1 k = true) fields
  end.

Definition dec_member {T} (fields : list (string * decoder T)) (acc : T * bool)
    (kv : string * json) : T * bool :=
  match find_field fields kv.1 with
  | Some d => let '(x, ok) := d kv.2 acc.1 in (x, acc.2 && ok)
  | None => acc
  end.

Definition dec_struct {T} (fields : list (string * decoder T)) : decoder T := λ j old,
  match j with
  | JObj ms => fold_left (dec_member fields) ms (old, true)
  | JNull => (old, true)
  | _ => (old, false)
  end.

(** A field of a struct, given how to read and replace it. *)
Definition field {T A} (get : T → A) (set : A → T → T) (d : decoder A) : decoder T :=
  λ j x, let '(a, ok) := d j (get x) in (set a x, ok).

Definition type_error (ok : bool) : option error :=
  if ok then None else Some (EJson JType).

(** [json.Unmarshal(data, &v)]: the value is updated even when a type error is
    reported; a syntax error is found first and changes nothing. *)
Definition Unmarshal {T} (d : decoder T) (data : string) (old : T) : T * option error :=
  match parse_document data with
  | None => (old, Some (EJson JSyntax))
  | Some j => let '(x, ok) := d j old in (x, type_error ok)
  end.

(** [json.Unmarshal] of a [json.RawMessage]: a nil message is empty input. *)
Definition UnmarshalRaw {T} (d : decoder T) (data : option json) (old : T)
    : T * option error :=
  match data with
  | None => (old, Some (EJson JSyntax))
  | Some j => let '(x, ok) := d j old in (x, type_error ok)
  end.

(** [json.NewDecoder(r).Decode(&v)] *)
Definition Decode {T} (d : decoder T) (data : string) (old : T) : T * option error :=
  match parse_first data with
  | None =>
    (old, Some (EJson (match skip_ws (bytes data) with [] => JEOF | _ => JSyntax end)))
  | Some j => let '(x, ok) := d j old in (x, type_error ok)
  end.

(** ** Repeated decoding

    [leafwise f] holds of the updates a decoder of scalars and structs makes:
    each scalar is either left alone or overwritten with a fixed value.  Such
    updates compose and are idempotent. *)

Class Leafwise (T : Type) := {
  leafwise : (T → T) → Prop;
  leafwise_id : leafwise (λ x, x);
  leafwise_comp f g : leafwise f → leafwise g → leafwise (λ x, g (f x));
  leafwise_idem f x : leafwise f → f (f x) = f x;
  leafwise_ext f g : (∀ x, f x = g x) → leafwise f → leafwise g;
}.

(** A decoder whose updates are leafwise and whose verdict does not depend on
    the value being updated. *)
Class Stable {T} `{Leafwise T} (d : decoder T) : Prop := {
  stable_update j : leafwise (λ x, (d j x).1);
  stable_verdict j x y : (d j x).2 = (d j y).2;
}.

Definition scalar_update {T} (f : T → T) : Prop :=
  (∀ x, f x = x) ∨ ∃ c, ∀ x, f x = c.

Lemma scalar_update_comp {T} (f g : T → T) :
  scalar_update f → scalar_update g → scalar_update (λ x, g (f x)).
Proof.
  intros [Hf|[c Hf]] [Hg|[c' Hg]].
  - left. intros x. by rewrite Hg, Hf.
  - right. exists c'. intros x. by rewrite Hg.
  - right. exists c. intros x. by rewrite Hg, Hf.
  - right. exists c'. intros x. by rewrite Hg.
Qed.

Lemma scalar_update_idem {T} (f : T → T) x : scalar_update f → f (f x) = f x.
Proof. intros [Hf|[c Hf]]; by rewrite !Hf. Qed.

Lemma scalar_update_ext {T} (f g : T → T) :
  (∀ x, f x = g x) → scalar_update f → scalar_update g.
Proof.
  intros He [Hf|[c Hf]]; [left|right; exists c]; intros x; by rewrite <- He.
Qed.

Definition scalar_leafwise (T : Type) : Leafwise T :=
  {| leafwise := scalar_update;
     leafwise_id := or_introl (λ x, eq_refl);
     leafwise_comp := scalar_update_comp;
     leafwise_idem := scalar_update_idem;
     leafwise_ext := scalar_update_ext |}.

#[export] Instance string_leafwise : Leafwise string := scalar_leafwise string.
#[export] Instance Z_leafwise : Leafwise Z := scalar_leafwise Z.

#[export] Instance dec_string_stable : Stable dec_string.
Proof.
  split; [intros j|intros j x y]; destruct j; simpl; try done; [left; done..| |left; done|left;done].
  right. by exists s.
Qed.

#[export] Instance dec_int_stable : Stable dec_int.
Proof.
  split; [intros j|intros j x y]; destruct j; simpl; try done; try (by left).
  - destruct (ParseInt lit) as [z [e|]]; [by left|right; by exists z].
  - by destruct (ParseInt lit) as [z [e|]].
Qed.

Lemma stable_idem {T} `{Stable T d} j x : (d j (d j x).1).1 = (d j x).1.
Proof. apply (leafwise_idem (λ x, (d j x).1)), stable_update. Qed.

(** Decoding the same document twice into the same value is decoding it once. *)
Lemma UnmarshalRaw_twice {T} `{Stable T d} data x :
  UnmarshalRaw d data (UnmarshalRaw d data x).1 = UnmarshalRaw d data x.
Proof.
  destruct data as [j|]; [|done]. unfold UnmarshalRaw.
  pose proof (stable_idem j x) as Hi. pose proof (stable_verdict j (d j x).1 x) as Hv.
  destruct (d j x) as [x1 ok1]. simpl in *.
  destruct (d j x1) as [x2 ok2]. simpl in *. congruence.
Qed.

(** The struct decoder is stable when each of its fields is. *)
Section Struct.
Context {T : Type} `{Leafwise T} (fields : list (string * decoder T)).
Hypothesis fields_stable : Forall (λ f, Stable f.2) fields.

Lemma find_field_stable k d : find_field fields k = Some d → Stable d.
Proof.
  unfold find_field. destruct (list_find (λ f, f.1 = k) fields) as [[i f]|] eqn:He.
  - intros [= <-]. apply list_find_Some in He as (Hi & _).
    apply (Forall_lookup_1 _ _ _ _ fields_stable Hi).
  - intros ([i f] & Hf & Hd)%fmap_Some. simpl in Hd. subst d.
    apply list_find_Some in Hf as (Hi & _).
    apply (Forall_lookup_1 _ _ _ _ fields_stable Hi).
Qed.

Lemma dec_member_update kv b : leafwise (λ x, (dec_member fields (x, b) kv).1).
Proof.
  unfold dec_member. simpl. destruct (find_field fields kv.1) as [d|] eqn:Hk;
    [|apply leafwise_id].
  pose proof (find_field_stable _ _ Hk) as Hd.
  eapply leafwise_ext; [|apply (stable_update (d := d) kv.2)].
  intros x. simpl. by destruct (d kv.2 x).
Qed.

Lemma dec_member_verdict kv x y b :
  (dec_member fields (x, b) kv).2 = (dec_member fields (y, b) kv).2.
Proof.
  unfold dec_member. simpl. destruct (find_field fields kv.1) as [d|] eqn:Hk; [|done].
  pose proof (find_field_stable _ _ Hk) as Hd. pose proof (stable_verdict kv.2 x y).
  destruct (d kv.2 x), (d kv.2 y). simpl in *. congruence.
Qed.

Lemma dec_member_flag kv x b b' :
  (dec_member fields (x, b) kv).1 = (dec_member fields (x, b') kv).1.
Proof.
  unfold dec_member. simpl. destruct (find_field fields kv.1) as [d|]; [|done].
  by destruct (d kv.2 x).
Qed.

Lemma dec_members_update ms b :
  leafwise (λ x, (fold_left (dec_member fields) ms (x, b)).1).
Proof.
  revert b. induction ms as [|kv ms IH]; intros b; simpl; [apply leafwise_id|].
  eapply leafwise_ext; [|apply (leafwise_comp _ _ (dec_member_update kv b) (IH true))].
  intros x. simpl. destruct (dec_member fields (x, b) kv) as [x' b'] eqn:He. simpl.
  clear -fields. revert x' b'. induction ms as [|kv' ms IH]; intros x' b'; simpl; [done|].
  pose proof (dec_member_flag kv' x' true b') as Hf.
  destruct (dec_member fields (x', true) kv') as [y c], (dec_member fields (x', b') kv') as [y' c'].
  simpl in Hf. subst y'. by rewrite <- (IH y c), (IH y c').
Qed.

Lemma dec_members_verdict ms x y b :
  (fold_left (dec_member fields) ms (x, b)).2 = (fold_left (dec_member fields) ms (y, b)).2.
Proof.
  revert x y b. induction ms as [|kv ms IH]; intros x y b; simpl; [done|].
  pose proof (dec_member_verdict kv x y b).
  destruct (dec_member fields (x, b) kv), (dec_member fields (y, b) kv).
  simpl in *. subst. apply IH.
Qed.

Lemma dec_struct_stable : Stable (dec_struct fields).
Proof.
  split; [intros j|intros j x y]; destruct j; try done; simpl;
    try apply leafwise_id; [apply dec_members_update|apply dec_members_verdict].
Qed.
End Struct.
