(* ===== verification/JiraTypes.v ===== *)
(** * The documents of the Jira REST API (internal/client/jira/jira.go)

    The Go structs and the decoders their struct tags determine. *)

From S2P Require Import Prelude GoLang Errors Json.
Local Open Scope string_scope.

(** ** Structs *)

(** go: internal/client/jira/jira.go 103-106 Author *)
Record Author := mkAuthor { AuthorName : string; AuthorDisplayName : string }.

(** go: internal/client/jira/jira.go 97-101 ChangeItem *)
Record ChangeItem := mkChangeItem {
  ItemField : string; ItemFromString : string; ItemString : string }.

(** go: internal/client/jira/jira.go 91-95 History *)
Record History := mkHistory {
  HistoryAuthor : Author; HistoryCreated : string; HistoryItems : list ChangeItem }.

(** go: internal/client/jira/jira.go 87-89 Changelog *)
Record Changelog := mkChangelog { Histories : list History }.

(** [Fields] is a [json.RawMessage] ([None] when nil).

    go: internal/client/jira/jira.go 54-60 Issue *)
Record Issue := mkIssue {
  IssueKey : string;
  IssueSelf : string;
  IssueID : string;
  IssueFieldsRaw : option json;
  IssueChangelog : option Changelog;
}.

(** The anonymous structs with a single [Name] field are that field.

    go: internal/client/jira/jira.go 62-85 IssueFields *)
Record IssueFields := mkIssueFields {
  Summary : string;
  Description : string;
  Created : string;
  Updated : string;
  Resolutiondate : string;
  TimeSpent : Z;
  IssueTypeName : string;
  PriorityName : string;
  StatusName : string;
  Creator : Author;
  Assignee : Author;
}.

(** go: internal/client/jira/jira.go 108-113 Project *)
Record Project := mkProject {
  ProjectID : string; ProjectKey : string; ProjectName : string; ProjectSelf : string }.

(** go: internal/client/jira/jira.go 115-120 SearchResponse *)
Record SearchResponse := mkSearchResponse {
  Issues : list Issue; SearchTotal : Z; SearchStartAt : Z; SearchMaxResults : Z }.

(** go: internal/client/jira/jira.go 122-128 ProjectsResponse *)
Record ProjectsResponse := mkProjectsResponse {
  Values : list Project; ProjectsTotal : Z; ProjectsStartAt : Z;
  ProjectsMaxResults : Z; IsLast : bool }.

(** ** Zero values *)

Definition zero_Author : Author := mkAuthor "" "".
Definition zero_ChangeItem : ChangeItem := mkChangeItem "" "" "".
Definition zero_History : History := mkHistory zero_Author "" [].
Definition zero_Changelog : Changelog := mkChangelog [].
Definition zero_Issue : Issue := mkIssue "" "" "" None None.
Definition zero_IssueFields : IssueFields :=
  mkIssueFields "" "" "" "" "" 0 "" "" "" zero_Author zero_Author.
Definition zero_Project : Project := mkProject "" "" "" "".
Definition zero_SearchResponse : SearchResponse := mkSearchResponse [] 0 0 0.
Definition zero_ProjectsResponse : ProjectsResponse := mkProjectsResponse [] 0 0 0 false.

(** ** Decoders *)

Definition dec_Author : decoder Author := dec_struct
  [("name", field AuthorName (λ v x, mkAuthor v (AuthorDisplayName x)) dec_string);
   ("displayName", field AuthorDisplayName (λ v x, mkAuthor (AuthorName x) v) dec_string)].

Definition dec_ChangeItem : decoder ChangeItem := dec_struct
  [("field", field ItemField
      (λ v x, mkChangeItem v (ItemFromString x) (ItemString x)) dec_string);
   ("fromString", field ItemFromString
      (λ v x, mkChangeItem (ItemField x) v (ItemString x)) dec_string);
   ("toString", field ItemString
      (λ v x, mkChangeItem (ItemField x) (ItemFromString x) v) dec_string)].

Definition dec_History : decoder History := dec_struct
  [("author", field HistoryAuthor
      (λ v x, mkHistory v (HistoryCreated x) (HistoryItems x)) dec_Author);
   ("created", field HistoryCreated
      (λ v x, mkHistory (HistoryAuthor x) v (HistoryItems x)) dec_string);
   ("items", field HistoryItems
      (λ v x, mkHistory (HistoryAuthor x) (HistoryCreated x) v)
      (dec_slice zero_ChangeItem dec_ChangeItem))].

Definition dec_Changelog : decoder Changelog := dec_struct
  [("histories", field Histories (λ v x, mkChangelog v)
      (dec_slice zero_History dec_History))].

Definition dec_Issue : decoder Issue := dec_struct
  [("key", field IssueKey (λ v x,
      mkIssue v (IssueSelf x) (IssueID x) (IssueFieldsRaw x) (IssueChangelog x)) dec_string);
   ("self", field IssueSelf (λ v x,
      mkIssue (IssueKey x) v (IssueID x) (IssueFieldsRaw x) (IssueChangelog x)) dec_string);
   ("id", field IssueID (λ v x,
      mkIssue (IssueKey x) (IssueSelf x) v (IssueFieldsRaw x) (IssueChangelog x)) dec_string);
   ("fields", field IssueFieldsRaw (λ v x,
      mkIssue (IssueKey x) (IssueSelf x) (IssueID x) v (IssueChangelog x)) dec_raw);
   ("changelog", field IssueChangelog (λ v x,
      mkIssue (IssueKey x) (IssueSelf x) (IssueID x) (IssueFieldsRaw x) v)
      (dec_ptr zero_Changelog dec_Changelog))].

(** [struct { Name string `json:"name"` }] *)
Definition dec_Named : decoder string := dec_struct [("name", dec_string)].

Definition dec_IssueFields : decoder IssueFields := dec_struct
  [("summary", field Summary (λ v x, mkIssueFields v (Description x) (Created x)
      (Updated x) (Resolutiondate x) (TimeSpent x) (IssueTypeName x) (PriorityName x)
      (StatusName x) (Creator x) (Assignee x)) dec_string);
   ("description", field Description (λ v x, mkIssueFields (Summary x) v (Created x)
      (Updated x) (Resolutiondate x) (TimeSpent x) (IssueTypeName x) (PriorityName x)
      (StatusName x) (Creator x) (Assignee x)) dec_string);
   ("created", field Created (λ v x, mkIssueFields (Summary x) (Description x) v
      (Updated x) (Resolutiondate x) (TimeSpent x) (IssueTypeName x) (PriorityName x)
      (StatusName x) (Creator x) (Assignee x)) dec_string);
   ("updated", field Updated (λ v x, mkIssueFields (Summary x) (Description x) (Created x)
      v (Resolutiondate x) (TimeSpent x) (IssueTypeName x) (PriorityName x)
      (StatusName x) (Creator x) (Assignee x)) dec_string);
   ("resolutiondate", field Resolutiondate (λ v x, mkIssueFields (Summary x)
      (Description x) (Created x) (Updated x) v (TimeSpent x) (IssueTypeName x)
      (PriorityName x) (StatusName x) (Creator x) (Assignee x)) dec_string);
   ("timespent", field TimeSpent (λ v x, mkIssueFields (Summary x) (Description x)
      (Created x) (Updated x) (Resolutiondate x) v (IssueTypeName x) (PriorityName x)
      (StatusName x) (Creator x) (Assignee x)) dec_int);
   ("issuetype", field IssueTypeName (λ v x, mkIssueFields (Summary x) (Description x)
      (Created x) (Updated x) (Resolutiondate x) (TimeSpent x) v (PriorityName x)
      (StatusName x) (Creator x) (Assignee x)) dec_Named);
   ("priority", field PriorityName (λ v x, mkIssueFields (Summary x) (Description x)
      (Created x) (Updated x) (Resolutiondate x) (TimeSpent x) (IssueTypeName x) v
      (StatusName x) (Creator x) (Assignee x)) dec_Named);
   ("status", field StatusName (λ v x, mkIssueFields (Summary x) (Description x)
      (Created x) (Updated x) (Resolutiondate x) (TimeSpent x) (IssueTypeName x)
      (PriorityName x) v (Creator x) (Assignee x)) dec_Named);
   ("creator", field Creator (λ v x, mkIssueFields (Summary x) (Description x)
      (Created x) (Updated x) (Resolutiondate x) (TimeSpent x) (IssueTypeName x)
      (PriorityName x) (StatusName x) v (Assignee x)) dec_Author);
   ("assignee", field Assignee (λ v x, mkIssueFields (Summary x) (Description x)
      (Created x) (Updated x) (Resolutiondate x) (TimeSpent x) (IssueTypeName x)
      (PriorityName x) (StatusName x) (Creator x) v) dec_Author)].

Definition dec_Project : decoder Project := dec_struct
  [("id", field ProjectID (λ v x,
      mkProject v (ProjectKey x) (ProjectName x) (ProjectSelf x)) dec_string);
   ("key", field ProjectKey (λ v x,
      mkProject (ProjectID x) v (ProjectName x) (ProjectSelf x)) dec_string);
   ("name", field ProjectName (λ v x,
      mkProject (ProjectID x) (ProjectKey x) v (ProjectSelf x)) dec_string);
   ("self", field ProjectSelf (λ v x,
      mkProject (ProjectID x) (ProjectKey x) (ProjectName x) v) dec_string)].

Definition dec_SearchResponse : decoder SearchResponse := dec_struct
  [("issues", field Issues (λ v x,
      mkSearchResponse v (SearchTotal x) (SearchStartAt x) (SearchMaxResults x))
      (dec_slice zero_Issue dec_Issue));
   ("total", field SearchTotal (λ v x,
      mkSearchResponse (Issues x) v (SearchStartAt x) (SearchMaxResults x)) dec_int);
   ("startAt", field SearchStartAt (λ v x,
      mkSearchResponse (Issues x) (SearchTotal x) v (SearchMaxResults x)) dec_int);
   ("maxResults", field SearchMaxResults (λ v x,
      mkSearchResponse (Issues x) (SearchTotal x) (SearchStartAt x) v) dec_int)].

Definition dec_ProjectsResponse : decoder ProjectsResponse := dec_struct
  [("values", field Values (λ v x, mkProjectsResponse v (ProjectsTotal x)
      (ProjectsStartAt x) (ProjectsMaxResults x) (IsLast x))
      (dec_slice zero_Project dec_Project));
   ("total", field ProjectsTotal (λ v x, mkProjectsResponse (Values x) v
      (ProjectsStartAt x) (ProjectsMaxResults x) (IsLast x)) dec_int);
   ("startAt", field ProjectsStartAt (λ v x, mkProjectsResponse (Values x)
      (ProjectsTotal x) v (ProjectsMaxResults x) (IsLast x)) dec_int);
   ("maxResults", field ProjectsMaxResults (λ v x, mkProjectsResponse (Values x)
      (ProjectsTotal x) (ProjectsStartAt x) v (IsLast x)) dec_int);
   ("isLast", field IsLast (λ v x, mkProjectsResponse (Values x) (ProjectsTotal x)
      (ProjectsStartAt x) (ProjectsMaxResults x) v) dec_bool)].

(** The exported fields of [jira.Error] that have a JSON name. *)
Definition dec_ApiError : decoder ApiError := dec_struct
  [("errorMessages", field ErrorMessages (λ v x,
      mkApiError (StatusCode x) (Body x) (Message x) v (Errors x))
      (dec_slice "" dec_string));
   ("errors", field Errors (λ v x,
      mkApiError (StatusCode x) (Body x) (Message x) (ErrorMessages x) v)
      (dec_map "" dec_string))].

(** ** Decoding the fields of an issue again changes nothing *)

Definition Author_update (f : Author → Author) : Prop :=
  ∃ f1 f2, leafwise f1 ∧ leafwise f2 ∧
    ∀ x, f x = mkAuthor (f1 (AuthorName x)) (f2 (AuthorDisplayName x)).

#[export] Program Instance Author_leafwise : Leafwise Author :=
  {| leafwise := Author_update |}.
Next Obligation.
  exists (λ x, x), (λ x, x). split_and!; try apply leafwise_id. by intros [].
Qed.
Next Obligation.
  intros f g (f1 & f2 & F1 & F2 & F) (g1 & g2 & G1 & G2 & G).
  exists (λ x, g1 (f1 x)), (λ x, g2 (f2 x)).
  split_and!; try (by apply leafwise_comp). intros x. by rewrite G, F.
Qed.
Next Obligation.
  intros f x (f1 & f2 & F1 & F2 & F). rewrite !F. simpl.
  by rewrite !(leafwise_idem (T := string)).
Qed.
Next Obligation.
  intros f g He (f1 & f2 & F1 & F2 & F). exists f1, f2.
  split_and!; [done..|]. intros x. by rewrite <- He.
Qed.

Definition IssueFields_update (f : IssueFields → IssueFields) : Prop :=
  ∃ f1 f2 f3 f4 f5 f6 f7 f8 f9 f10 f11,
    leafwise f1 ∧ leafwise f2 ∧ leafwise f3 ∧ leafwise f4 ∧ leafwise f5 ∧
    leafwise f6 ∧ leafwise f7 ∧ leafwise f8 ∧ leafwise f9 ∧ leafwise f10 ∧
    leafwise f11 ∧
    ∀ x, f x = mkIssueFields (f1 (Summary x)) (f2 (Description x)) (f3 (Created x))
      (f4 (Updated x)) (f5 (Resolutiondate x)) (f6 (TimeSpent x))
      (f7 (IssueTypeName x)) (f8 (PriorityName x)) (f9 (StatusName x))
      (f10 (Creator x)) (f11 (Assignee x)).

#[export] Program Instance IssueFields_leafwise : Leafwise IssueFields :=
  {| leafwise := IssueFields_update |}.
Next Obligation.
  do 11 exists (λ x, x). split_and!; try apply leafwise_id. by intros [].
Qed.
Next Obligation.
  intros f g (f1&f2&f3&f4&f5&f6&f7&f8&f9&f10&f11&F1&F2&F3&F4&F5&F6&F7&F8&F9&F10&F11&F)
    (g1&g2&g3&g4&g5&g6&g7&g8&g9&g10&g11&G1&G2&G3&G4&G5&G6&G7&G8&G9&G10&G11&G).
  exists (λ x, g1 (f1 x)), (λ x, g2 (f2 x)), (λ x, g3 (f3 x)), (λ x, g4 (f4 x)),
    (λ x, g5 (f5 x)), (λ x, g6 (f6 x)), (λ x, g7 (f7 x)), (λ x, g8 (f8 x)),
    (λ x, g9 (f9 x)), (λ x, g10 (f10 x)), (λ x, g11 (f11 x)).
  split_and!; try (by apply leafwise_comp). intros x. by rewrite G, F.
Qed.
Next Obligation.
  intros f x (f1&f2&f3&f4&f5&f6&f7&f8&f9&f10&f11&F1&F2&F3&F4&F5&F6&F7&F8&F9&F10&F11&F).
  rewrite !F. simpl. f_equal; by apply leafwise_idem.
Qed.
Next Obligation.
  intros f g He (f1&f2&f3&f4&f5&f6&f7&f8&f9&f10&f11&F1&F2&F3&F4&F5&F6&F7&F8&F9&F10&F11&F).
  exists f1, f2, f3, f4, f5, f6, f7, f8, f9, f10, f11.
  split_and!; try done. intros x. by rewrite <- He.
Qed.

(** A struct field decoded by a stable decoder, in a struct whose other fields
    are left alone. *)
Lemma field_stable {T A} `{Leafwise T} (get : T → A) set `{Stable A d} :
  (∀ f, leafwise f → leafwise (λ x, set (f (get x)) x)) → Stable (field get set d).
Proof.
  intros Hset. split.
  - intros j. eapply leafwise_ext; [|apply (Hset _ (stable_update (d := d) j))].
    intros x. unfold field. simpl. by destruct (d j (get x)).
  - intros j x y. unfold field. pose proof (stable_verdict j (get x) (get y)).
    destruct (d j (get x)), (d j (get y)). simpl in *. done.
Qed.

Lemma dec_Author_stable : Stable dec_Author.
Proof.
  apply dec_struct_stable. repeat (apply Forall_cons; split); try apply Forall_nil_2.
  - apply (field_stable _ _). intros f Hf. exists f, (λ x, x).
    split_and!; [done|apply leafwise_id|by intros []].
  - apply (field_stable _ _). intros f Hf. exists (λ x, x), f.
    split_and!; [apply leafwise_id|done|by intros []].
Qed.
#[export] Existing Instance dec_Author_stable.

Lemma dec_Named_stable : Stable dec_Named.
Proof.
  apply dec_struct_stable. apply Forall_cons; split; [apply dec_string_stable|constructor].
Qed.
#[export] Existing Instance dec_Named_stable.

Ltac solve_components :=
  split_and!; [first [done|apply leafwise_id]..|by intros []].

Lemma dec_IssueFields_stable : Stable dec_IssueFields.
Proof.
  pose (i := λ x : string, x). pose (a := λ x : Author, x). pose (z := λ x : Z, x).
  apply dec_struct_stable. repeat (apply Forall_cons; split); try apply Forall_nil_2.
  all: apply (field_stable _ _); intros f Hf.
  - exists f, i, i, i, i, z, i, i, i, a, a. solve_components.
  - exists i, f, i, i, i, z, i, i, i, a, a. solve_components.
  - exists i, i, f, i, i, z, i, i, i, a, a. solve_components.
  - exists i, i, i, f, i, z, i, i, i, a, a. solve_components.
  - exists i, i, i, i, f, z, i, i, i, a, a. solve_components.
  - exists i, i, i, i, i, f, i, i, i, a, a. solve_components.
  - exists i, i, i, i, i, z, f, i, i, a, a. solve_components.
  - exists i, i, i, i, i, z, i, f, i, a, a. solve_components.
  - exists i, i, i, i, i, z, i, i, f, a, a. solve_components.
  - exists i, i, i, i, i, z, i, i, i, f, a. solve_components.
  - exists i, i, i, i, i, z, i, i, i, a, f. solve_components.
Qed.
#[export] Existing Instance dec_IssueFields_stable.

(** ** The fields of [jira.Error] without a JSON name are never decoded *)

Lemma dec_struct_preserves {T A} (get : T → A) (fields : list (string * decoder T)) j old :
  Forall (λ f, ∀ j x, get (f.2 j x).1 = get x) fields →
  get (dec_struct fields j old).1 = get old.
Proof.
  intros Hf. destruct j; try done. simpl. generalize true. revert old.
  induction ms as [|kv ms IH]; intros old b; simpl; [done|].
  destruct (dec_member fields (old, b) kv) as [x b'] eqn:Hm. rewrite IH.
  unfold dec_member in Hm. destruct (find_field fields kv.1) as [d|] eqn:Hk; [|by simplify_eq].
  assert (Hd : ∃ n, (n, d) ∈ fields).
  { unfold find_field in Hk. destruct (list_find (λ f, f.1 = kv.1) fields) as [[i [n f]]|] eqn:He.
    - simplify_eq/=. apply list_find_Some in He as (Hi & _).
      exists n. by eapply list_elem_of_lookup_2.
    - apply fmap_Some in Hk as ([i [n f]] & Hi & ->). apply list_find_Some in Hi as (Hi & _).
      exists n. by eapply list_elem_of_lookup_2. }
  destruct Hd as [n Hd]. rewrite Forall_forall in Hf. specialize (Hf _ Hd kv.2 old).
  simpl in *. destruct (d kv.2 old) as [x' ok]. by simplify_eq/=.
Qed.

Lemma dec_ApiError_keeps j e :
  let x := (dec_ApiError j e).1 in
  StatusCode x = StatusCode e ∧ Body x = Body e ∧ Message x = Message e.
Proof.
  split_and!; apply dec_struct_preserves; repeat apply Forall_cons_2; try apply Forall_nil_2;
    intros j' x; cbn [snd]; unfold field.
  all: by case_match.
Qed.

Definition json_member (kv : string * string) : string * json := (kv.1, JStr kv.2).

(** Jira's error document, with its messages and its errors by field. *)
Definition error_document (msgs : list string) (errs : list (string * string)) : json :=
  JObj [("errorMessages"%string, JArr (JStr <$> msgs));
        ("errors"%string, JObj (json_member <$> errs))].

Lemma dec_slice_strings l : dec_slice "" dec_string (JArr (JStr <$> l)) [] = (l, true).
Proof.
  unfold dec_slice. cbv zeta.
  assert (He : imap (λ i v, dec_string v (default "" (([] : list string) !! i))) (JStr <$> l)
               = (λ s, (s, true)) <$> l).
  { rewrite imap_fmap. induction l as [|s l IH]; [done|]. cbn [imap fmap list_fmap].
    f_equal. rewrite <- IH. by apply imap_ext. }
  rewrite He. f_equal.
  - clear. induction l as [|s l IH]; [done|]. simpl. by f_equal.
  - clear. by induction l.
Qed.

(** Of the values of a repeated key the last counts. *)
Lemma dec_map_strings (errs : list (string * string)) :
  dec_map "" dec_string (JObj (json_member <$> errs)) ∅
  = (list_to_map (reverse errs), true).
Proof.
  unfold dec_map.
  match goal with |- fold_left ?f _ _ = _ =>
    assert (Hm : ∀ l m, fold_left f (json_member <$> l) (m, true)
                        = (list_to_map (reverse l) ∪ m, true)) end.
  { intros l. induction l as [|[k v] l IH]; intros m; [simpl; by rewrite (left_id_L ∅ (∪))|].
    cbn [fmap list_fmap fold_left json_member fst snd dec_string andb]. rewrite IH. f_equal.
    rewrite reverse_cons, list_to_map_app. simpl.
    by rewrite <- (assoc_L (∪)), insert_empty, insert_union_singleton_l. }
  rewrite Hm. by rewrite (right_id_L ∅ (∪)).
Qed.

Lemma dec_member_found {T} (fields : list (string * decoder T)) acc kv d :
  find_field fields kv.1 = Some d →
  dec_member fields acc kv = let '(x, ok) := d kv.2 acc.1 in (x, acc.2 && ok).
Proof. unfold dec_member. by intros ->. Qed.

Lemma dec_field_slice get set msgs (x : ApiError) :
  get x = [] →
  field get set (dec_slice "" dec_string) (JArr (JStr <$> msgs)) x = (set msgs x, true).
Proof. intros Hx. unfold field. by rewrite Hx, dec_slice_strings. Qed.

Lemma dec_field_map get set errs (x : ApiError) :
  get x = ∅ →
  field get set (dec_map "" dec_string) (JObj (json_member <$> errs)) x
  = (set (list_to_map (reverse errs)) x, true).
Proof. intros Hx. unfold field. by rewrite Hx, dec_map_strings. Qed.

Lemma dec_error_document msgs errs status content :
  dec_ApiError (error_document msgs errs) (mkApiError status content "" [] ∅)
  = (mkApiError status content "" msgs (list_to_map (reverse errs)), true).
Proof.
  unfold dec_ApiError, error_document, dec_struct. cbn [fold_left].
  erewrite (dec_member_found _ (mkApiError status content "" [] ∅, true)) by reflexivity.
  cbn [fst snd]. rewrite (dec_field_slice _ _ msgs) by done. cbn [andb StatusCode Body Message Errors].
  erewrite dec_member_found by reflexivity. cbn [id fst snd StatusCode Body Message Errors].
  by rewrite (dec_field_map _ _ errs).
Qed.
