(* ===== verification/RawModels.v ===== *)
(** * Rows of the raw schema (internal/repository/models/raw/models.go)

    Pointers to scalars are options: a nil pointer is SQL NULL. *)

From S2P Require Import Prelude GoLang GoTime.

(** go: internal/repository/models/raw/models.go 5-8 Project *)
Record RawProject := mkRawProject { rp_ID : Z; rp_Title : string }.

(** go: internal/repository/models/raw/models.go 10-13 Author *)
Record RawAuthor := mkRawAuthor { ra_ID : Z; ra_Name : string }.

(** go: internal/repository/models/raw/models.go 15-30 Issue *)
Record RawIssue := mkRawIssue {
  ri_ID : Z;
  ri_ProjectID : Z;
  ri_AuthorID : Z;
  ri_AssigneeID : option Z;
  ri_Key : string;
  ri_Summary : option string;
  ri_Description : option string;
  ri_Type : option string;
  ri_Priority : option string;
  ri_Status : option string;
  ri_CreatedTime : option Time;
  ri_ClosedTime : option Time;
  ri_UpdatedTime : option Time;
  ri_TimeSpent : option Z;
}.

(** go: internal/repository/models/raw/models.go 32-38 StatusChange *)
Record StatusChange := mkStatusChange {
  sc_IssueID : Z;
  sc_AuthorID : Z;
  sc_ChangeTime : Time;
  sc_FromStatus : option string;
  sc_ToStatus : option string;
}.
