(* ===== verification/Mapper.v ===== *)
(** * From Jira documents to rows (internal/mapper/jira_to_raw.go) *)

From S2P Require Import Prelude GoLang GoTime Errors Json JiraTypes RawModels.

(** ** Constants *)

Definition hashMultiplier : Z := 31.

(** go: internal/mapper/jira_to_raw.go 15-17 int31Mask *)
Definition int31Mask : Z := 2147483647.

(** "2006-01-02T15:04:05.000-0700" as [nextStdChunk] splits it.

    go: internal/mapper/jira_to_raw.go 18-22 jiraTimeLayout *)
Definition jiraTimeLayout : list chunk :=
  [Year; GoTime.Lit 45; Month; GoTime.Lit 45; Day; GoTime.Lit 84; Hour; GoTime.Lit 58;
   Min; GoTime.Lit 58; SecThenFrac; Frac; NumTZ].

(** ** Operations *)

(** go: internal/mapper/jira_to_raw.go 24-31 MapProjectToRaw *)
Definition MapProjectToRaw (proj : Project) : RawProject :=
  let '(id, _) := ParseInt (ProjectID proj) in
  {| rp_ID := id; rp_Title := ProjectName proj |}.

(** The loop body of [HashID], on [int64]. *)
Definition hash_rune (hash c : Z) : Z :=
  let hash := int64 (int64 (hash * hashMultiplier) + c) in
  if (hash <? 0)%Z then int64 (- hash) else hash.

(** go: internal/mapper/jira_to_raw.go 103-119 HashID *)
Definition HashID (str : string) : Z :=
  if decide (str = "") then 0
  else Z.land (fold_left hash_rune (runes str) 0%Z) int31Mask.

(** go: internal/mapper/jira_to_raw.go 33-38 MapAuthorToRaw *)
Definition MapAuthorToRaw (author : Author) : RawAuthor :=
  {| ra_ID := HashID (AuthorName author); ra_Name := AuthorDisplayName author |}.

(** go: internal/mapper/jira_to_raw.go 121-127 strPtr *)
Definition strPtr (str : string) : option string :=
  if decide (str = "") then None else Some str.

(** go: internal/mapper/jira_to_raw.go 129-135 intPtr *)
Definition intPtr (integer : Z) : option Z :=
  if decide (integer = 0%Z) then None else Some integer.

(** go: internal/mapper/jira_to_raw.go 137-143 int64Ptr *)
Definition int64Ptr (integer : Z) : option Z :=
  if decide (integer = 0%Z) then None else Some integer.

(** The error, only ever compared with nil, is [None].

    go: internal/mapper/jira_to_raw.go 145-158 parseJiraTime *)
Definition parseJiraTime (str : string) : option Time :=
  match Parse jiraTimeLayout str with
  | Some parsed => Some parsed
  | None => Parse RFC3339 str
  end.

(** go: internal/mapper/jira_to_raw.go 160-171 parseTime *)
Definition parseTime (str : string) : option Time :=
  if decide (str = "") then None else parseJiraTime str.

(** [*strconv.NumError] of [ParseInt(s, 10, 64)]. *)
Definition num_error (s : string) (e : num_err) : error :=
  ENew [L "strconv.ParseInt: parsing "; Q s;
        L (match e with
           | ErrSyntax => ": invalid syntax"
           | ErrRange => ": value out of range"
           end)].

(** [fields] is a pointer: the decoded value is returned along with the result.

    go: internal/mapper/jira_to_raw.go 40-72 MapIssueToRaw *)
Definition MapIssueToRaw (issue : Issue) (projectID : Z) (fields : IssueFields)
    : IssueFields * res error RawIssue :=
  let '(fields, err) := UnmarshalRaw dec_IssueFields (IssueFieldsRaw issue) fields in
  (fields,
   match err with
   | Some e => Err (wrap "unmarshal issue fields" e)
   | None =>
     match ParseInt (IssueID issue) with
     | (_, Some e) =>
       Err (EWrap [L "parse issue ID "; Q (IssueID issue); L ": "]
              (num_error (IssueID issue) e) [])
     | (identifier, None) =>
       Ok {| ri_ID := identifier;
             ri_ProjectID := projectID;
             ri_AuthorID := HashID (AuthorName (Creator fields));
             ri_AssigneeID :=
               if decide (AuthorName (Assignee fields) = "") then None
               else int64Ptr (HashID (AuthorName (Assignee fields)));
             ri_Key := IssueKey issue;
             ri_Summary := strPtr (Summary fields);
             ri_Description := strPtr (Description fields);
             ri_Type := strPtr (IssueTypeName fields);
             ri_Priority := strPtr (PriorityName fields);
             ri_Status := strPtr (StatusName fields);
             ri_CreatedTime := parseTime (Created fields);
             ri_ClosedTime := parseTime (Resolutiondate fields);
             ri_UpdatedTime := parseTime (Updated fields);
             ri_TimeSpent := intPtr (TimeSpent fields) |}
     end
   end).

(** The inner loop of [MapChangelogToRaw]. *)
Definition append_item (issueID : Z) (history : History) (changeTime : Time)
    (changes : list StatusChange) (item : ChangeItem) : list StatusChange :=
  if decide (ItemField item = "status") then
    changes ++ [{| sc_IssueID := issueID;
                   sc_AuthorID := HashID (AuthorName (HistoryAuthor history));
                   sc_ChangeTime := changeTime;
                   sc_FromStatus := strPtr (ItemFromString item);
                   sc_ToStatus := strPtr (ItemString item) |}]
  else changes.

(** Its outer loop: a history without a readable time is skipped. *)
Definition append_history (issueID : Z) (changes : list StatusChange)
    (history : History) : list StatusChange :=
  match parseJiraTime (HistoryCreated history) with
  | None => changes
  | Some changeTime =>
    fold_left (append_item issueID history changeTime) (HistoryItems history) changes
  end.

(** go: internal/mapper/jira_to_raw.go 74-101 MapChangelogToRaw *)
Definition MapChangelogToRaw (issue : Issue) (issueID : Z) : list StatusChange :=
  match IssueChangelog issue with
  | None => []
  | Some changelog => fold_left (append_history issueID) (Histories changelog) []
  end.

(** ** Specification of the changelog *)

(** The row of one status item. *)
Definition status_row (issueID : Z) (h : History) (t : Time) (i : ChangeItem) : StatusChange :=
  {| sc_IssueID := issueID; sc_AuthorID := HashID (AuthorName (HistoryAuthor h));
     sc_ChangeTime := t; sc_FromStatus := strPtr (ItemFromString i);
     sc_ToStatus := strPtr (ItemString i) |}.

Definition history_rows (issueID : Z) (h : History) : list StatusChange :=
  match parseJiraTime (HistoryCreated h) with
  | None => []
  | Some t => status_row issueID h t <$> filter (λ i, ItemField i = "status") (HistoryItems h)
  end.

Definition histories_of (issue : Issue) : list History :=
  match IssueChangelog issue with None => [] | Some c => Histories c end.

(** ** Lemmas *)

Lemma hash_rune_range h c : in_int64 (hash_rune h c).
Proof. unfold hash_rune. case_match; auto with go. Qed.

Lemma land_int31 z : (0 ≤ Z.land z int31Mask < 2 ^ 31)%Z.
Proof.
  change int31Mask with (Z.ones 31). rewrite Z.land_ones by lia.
  apply Z.mod_pos_bound. lia.
Qed.

Lemma HashID_bounds str : (0 ≤ HashID str < 2 ^ 31)%Z.
Proof. unfold HashID. case_decide; [lia|apply land_int31]. Qed.

Lemma HashID_empty : HashID "" = 0%Z.
Proof. done. Qed.

Lemma append_items_spec issueID h t items acc :
  fold_left (append_item issueID h t) items acc
  = acc ++ (status_row issueID h t <$> filter (λ i, ItemField i = "status") items).
Proof.
  revert acc. induction items as [|i items IH]; intros acc; simpl; [by rewrite app_nil_r|].
  rewrite IH, filter_cons. unfold append_item. case_decide; simpl; [|done].
  by rewrite <- app_assoc.
Qed.

Lemma append_history_spec issueID acc h :
  append_history issueID acc h = acc ++ history_rows issueID h.
Proof.
  unfold append_history, history_rows. destruct (parseJiraTime _); [|by rewrite app_nil_r].
  apply append_items_spec.
Qed.

Lemma append_histories_spec issueID hs acc :
  fold_left (append_history issueID) hs acc = acc ++ (hs ≫= history_rows issueID).
Proof.
  revert acc. induction hs as [|h hs IH]; intros acc; simpl; [by rewrite app_nil_r|].
  by rewrite IH, append_history_spec, <- app_assoc.
Qed.

Lemma MapChangelogToRaw_rows issue issueID :
  MapChangelogToRaw issue issueID = histories_of issue ≫= history_rows issueID.
Proof.
  unfold MapChangelogToRaw, histories_of.
  destruct (IssueChangelog issue); [apply append_histories_spec|done].
Qed.
#[export] Hint Resolve HashID_bounds hash_rune_range : go.

Lemma days_in_le m y : (days_in m y ≤ 31)%Z.
Proof. unfold days_in. repeat case_match; lia. Qed.

(** Parsing the digits of a valid timestamp gives its fields back. *)
Lemma parse_chunks_format_jira c :
  valid_civil c → parse_chunks jiraTimeLayout zero_civil (format_jira c) = Some c.
Proof.
  intros (Hy & Hmo & Hd & Hh & Hmi & Hs & Hn & Hn0 & Ho & Ho0).
  pose proof (days_in_le (c_month c) (c_year c)).
  unfold jiraTimeLayout, format_jira. cbn [app].
  erewrite parse_chunks_step by (apply chunk_year; lia).
  erewrite parse_chunks_step by apply chunk_lit.
  erewrite parse_chunks_step by (apply chunk_month; lia).
  erewrite parse_chunks_step by apply chunk_lit.
  erewrite parse_chunks_step by (apply chunk_day; lia).
  erewrite parse_chunks_step by apply chunk_lit.
  erewrite parse_chunks_step by (apply chunk_hour; lia).
  erewrite parse_chunks_step by apply chunk_lit.
  erewrite parse_chunks_step by (apply chunk_min; lia).
  erewrite parse_chunks_step by apply chunk_lit.
  erewrite parse_chunks_step by (apply chunk_sec_then_frac; lia).
  erewrite parse_chunks_step
    by (apply chunk_frac; split;
        [apply Z.div_pos; lia|apply Z.div_le_upper_bound; lia]).
  replace (c_nsec c / 1000000 * 1000000)%Z with (c_nsec c)
    by (pose proof (Z.div_mod (c_nsec c) 1000000); lia).
  replace (if (c_offset c <? 0)%Z then 45%Z else 43%Z)
    with (if (c_offset c <? 0)%Z : bool then 45%Z else 43%Z) by done.
  erewrite parse_chunks_step.
  2: { apply chunk_num_tz; [|pose proof (Z.mod_pos_bound (Z.abs (c_offset c) / 60) 60); lia].
       split; [apply Z.div_pos; lia|apply Z.div_le_upper_bound; lia]. }
  rewrite offset_parts by done. by destruct c.
Qed.

Lemma four_bytes n : (0 ≤ n ≤ 9999)%Z → Forall is_byte (four n).
Proof.
  intros Hn. assert (0 ≤ n / 1000 ≤ 9)%Z
    by (Z.to_euclidean_division_equations; lia).
  pose proof (Z.mod_pos_bound n 10). pose proof (Z.mod_pos_bound (n / 10) 10).
  pose proof (Z.mod_pos_bound (n / 100) 10).
  unfold four, is_byte. repeat constructor; lia.
Qed.

Lemma two_bytes n : (0 ≤ n ≤ 99)%Z → Forall is_byte (two n).
Proof.
  intros Hn. assert (0 ≤ n / 10 ≤ 9)%Z
    by (Z.to_euclidean_division_equations; lia).
  pose proof (Z.mod_pos_bound n 10). unfold two, is_byte. repeat constructor; lia.
Qed.

Lemma three_bytes n : (0 ≤ n ≤ 999)%Z → Forall is_byte (three n).
Proof.
  intros Hn. assert (0 ≤ n / 100 ≤ 9)%Z
    by (Z.to_euclidean_division_equations; lia).
  pose proof (Z.mod_pos_bound n 10). pose proof (Z.mod_pos_bound (n / 10) 10).
  unfold three, is_byte. repeat constructor; lia.
Qed.

Lemma format_jira_bytes c : valid_civil c → Forall is_byte (format_jira c).
Proof.
  intros (Hy & Hmo & Hd & Hh & Hmi & Hs & Hn & Hn0 & Ho & Ho0).
  pose proof (days_in_le (c_month c) (c_year c)).
  pose proof (Z.mod_pos_bound (Z.abs (c_offset c) / 60) 60).
  assert (0 ≤ Z.abs (c_offset c) / 3600 ≤ 99)%Z
    by (Z.to_euclidean_division_equations; lia).
  assert (0 ≤ c_nsec c / 1000000 ≤ 999)%Z
    by (Z.to_euclidean_division_equations; lia).
  unfold format_jira. repeat apply Forall_app_2;
    try (by apply four_bytes; lia); try (by apply three_bytes; lia);
    try (by apply two_bytes; lia);
    repeat constructor; unfold is_byte; try case_match; lia.
Qed.

(** The row of an issue whose fields were decoded before. *)
Lemma MapIssueToRaw_again issue projectID old fields :
  UnmarshalRaw dec_IssueFields (IssueFieldsRaw issue) old = (fields, None) →
  let '(fields', r) := MapIssueToRaw issue projectID fields in
  fields' = fields ∧ is_ok r = bool_decide ((ParseInt (IssueID issue)).2 = None) ∧
  ∀ row, r = Ok row →
    ParseInt (IssueID issue) = (ri_ID row, None) ∧ ri_ProjectID row = projectID ∧
    ri_AuthorID row = ra_ID (MapAuthorToRaw (Creator fields)) ∧
    (∀ a, ri_AssigneeID row = Some a →
       AuthorName (Assignee fields) ≠ "" ∧ a = ra_ID (MapAuthorToRaw (Assignee fields))).
Proof.
  intros H. pose proof (UnmarshalRaw_twice (d := dec_IssueFields) (IssueFieldsRaw issue) old)
    as Htwice. rewrite H in Htwice. simpl in Htwice.
  unfold MapIssueToRaw. rewrite Htwice.
  destruct (ParseInt _) as [z [e|]]; simpl; [by split_and!|].
  split_and!; [done..|]. intros row [= <-]. simpl. split_and!; [done..|].
  intros a. unfold int64Ptr. repeat case_decide; by intros [= <-].
Qed.

(** ** Properties *)

(** C30. Every author id the mapper writes fits the int4 columns of the raw
    schema: the author row, the creator and assignee of an issue row (an
    assignee is NULL rather than 0), and the author of every status change. *)
Theorem author_ids_fit_int4 :
  (∀ author, 0 ≤ ra_ID (MapAuthorToRaw author) < 2 ^ 31)%Z ∧
  (∀ issue projectID fields row,
     (MapIssueToRaw issue projectID fields).2 = Ok row →
     (0 ≤ ri_AuthorID row < 2 ^ 31 ∧
      ∀ a, ri_AssigneeID row = Some a → 0 < a < 2 ^ 31)%Z) ∧
  (∀ issue issueID, Forall (λ ch, 0 ≤ sc_AuthorID ch < 2 ^ 31)%Z
                      (MapChangelogToRaw issue issueID)).
Proof.
  split_and!.
  - intros author. apply HashID_bounds.
  - intros issue projectID fields row. unfold MapIssueToRaw, int64Ptr.
    destruct (UnmarshalRaw _ _ _) as [f [e|]]; simpl; [done|].
    destruct (ParseInt _) as [z [e|]]; [done|]. intros [= <-]. simpl.
    split; [apply HashID_bounds|]. intros a.
    pose proof (HashID_bounds (AuthorName (Assignee f))).
    repeat case_decide; intros [= <-]; lia.
  - intros issue issueID. rewrite MapChangelogToRaw_rows.
    apply Forall_bind, Forall_true. intros h.
    assert (∀ str, 0 ≤ HashID str < 2 ^ 31)%Z by apply HashID_bounds.
    simpl. unfold history_rows. destruct (parseJiraTime _); [|constructor].
    apply Forall_fmap, Forall_true. intros i. simpl. auto.
Qed.

(** An issue document as the API returns it, for the witnesses. *)
Definition sample_issue : Issue :=
  mkIssue "PRJ-1" "" "10001"
    (Some (JObj [("summary", JStr "s"); ("timespent", JNull);
                 ("creator", JObj [("name", JStr "ann"); ("displayName", JStr "Ann")]);
                 ("assignee", JObj [("NAME", JStr "bob")])]))
    (Some (mkChangelog [mkHistory (mkAuthor "bob" "Bob") "2024-02-29T23:05:59.007-0330"
                          [mkChangeItem "status" "Open" "Closed"; mkChangeItem "labels" "" "x"]])).

Lemma author_ids_fit_int4_witness :
  ∃ row, (MapIssueToRaw sample_issue 7 zero_IssueFields).2 = Ok row ∧
    (0 ≤ ri_AuthorID row < 2 ^ 31)%Z.
Proof.
  destruct (MapIssueToRaw sample_issue 7 zero_IssueFields).2 as [row|e] eqn:He;
    [|vm_compute in He; discriminate].
  exists row. split; [done|].
  exact (proj1 (proj1 (proj2 author_ids_fit_int4) _ _ _ _ He)).
Defined.

(** C33. A timestamp written in Jira's layout, with any valid date, time,
    millisecond fraction and offset, is read back as the same instant with the
    same offset. *)
Theorem parseJiraTime_format c :
  valid_civil c → parseJiraTime (of_bytes (format_jira c)) = Some (to_time c).
Proof.
  intros Hc. unfold parseJiraTime, Parse.
  rewrite bytes_of_bytes, parse_chunks_format_jira by auto using format_jira_bytes.
  simpl. destruct Hc as (_ & _ & Hd & _).
  by rewrite (proj2 (Z.leb_le 1 _)), (proj2 (Z.leb_le (c_day c) _)) by lia.
Qed.

Lemma parseJiraTime_format_witness :
  let c := mkCivil 2024 2 29 23 5 59 7000000 (-12600) in
  valid_civil c ∧ of_bytes (format_jira c) = "2024-02-29T23:05:59.007-0330"%string ∧
  parseJiraTime (of_bytes (format_jira c)) = Some (mkTime 1709260559 7000000 (-12600)).
Proof.
  intros c. assert (valid_civil c) by (vm_compute; intuition congruence).
  split_and!; [done|vm_compute; reflexivity|]. exact (parseJiraTime_format c H).
Defined.

(** Decoding the fields of an issue a second time over the value the first
    decoding produced changes nothing, so the row describes the same creator
    and assignee as the ones collected from the fetched page; the issue's and
    project's ids are carried over. *)
Theorem MapIssueToRaw_redecode issue projectID old fields :
  UnmarshalRaw dec_IssueFields (IssueFieldsRaw issue) old = (fields, None) →
  let '(fields', r) := MapIssueToRaw issue projectID fields in
  fields' = fields ∧ is_ok r = bool_decide ((ParseInt (IssueID issue)).2 = None) ∧
  ∀ row, r = Ok row →
    ParseInt (IssueID issue) = (ri_ID row, None) ∧ ri_ProjectID row = projectID ∧
    ri_AuthorID row = ra_ID (MapAuthorToRaw (Creator fields)) ∧
    (∀ a, ri_AssigneeID row = Some a →
       AuthorName (Assignee fields) ≠ "" ∧ a = ra_ID (MapAuthorToRaw (Assignee fields))).
Proof. apply MapIssueToRaw_again. Qed.

Definition sample_fields : IssueFields :=
  mkIssueFields "s" "" "" "" "" 0 "" "" "" (mkAuthor "ann" "Ann") (mkAuthor "bob" "").

Lemma MapIssueToRaw_redecode_witness :
  UnmarshalRaw dec_IssueFields (IssueFieldsRaw sample_issue) zero_IssueFields
    = (sample_fields, None) ∧
  (MapIssueToRaw sample_issue 7 sample_fields).1 = sample_fields.
Proof.
  assert (H : UnmarshalRaw dec_IssueFields (IssueFieldsRaw sample_issue) zero_IssueFields
              = (sample_fields, None)) by (vm_compute; reflexivity).
  split; [exact H|].
  pose proof (MapIssueToRaw_redecode sample_issue 7 zero_IssueFields sample_fields H) as Hr.
  destruct (MapIssueToRaw sample_issue 7 sample_fields) as [f r]. exact (proj1 Hr).
Defined.

(** C32. The status changes of an issue are exactly the status items of its
    histories, in order, each with the author and time of its history; a history
    whose time cannot be read contributes nothing. *)
Theorem MapChangelogToRaw_spec issue issueID :
  MapChangelogToRaw issue issueID = histories_of issue ≫= history_rows issueID.
Proof. apply MapChangelogToRaw_rows. Qed.

(** Different user names share an author id: for every suffix, the names
    starting with Aa and with BB hash to the same id, so their author rows
    collide on the primary key. *)
Theorem HashID_collision s d1 d2 :
  let a := mkAuthor ("Aa" ++ s)%string d1 in
  let b := mkAuthor ("BB" ++ s)%string d2 in
  AuthorName a ≠ AuthorName b ∧ ra_ID (MapAuthorToRaw a) = ra_ID (MapAuthorToRaw b).
Proof. split; [done|]. unfold MapAuthorToRaw, HashID, runes. simpl. done. Qed.
