(* ===== verification/Metrics.v ===== *)
(** * The metrics recorder (internal/metrics/metrics.go)

    An instrument of client_golang is its description and its value: a count,
    or the list of the durations observed, in nanoseconds.  A nil [*Metrics] is
    [None]; every helper is then a no-op. *)

From S2P Require Import Prelude GoLang.
Local Open Scope Z_scope.

(** ** Instruments *)

(** go: internal/metrics/metrics.go 13-13 namespace *)
Definition namespace : string := "connector".

(** go: internal/metrics/metrics.go 16-19 OutcomeSuccess *)
Definition OutcomeSuccess : string := "success".
Definition OutcomeError : string := "error".

(** [prometheus.CounterOpts] and the like, with the variable labels. *)
Record Opts := mkOpts {
  Namespace : string; Subsystem : string; Name : string; Help : string;
  labels : list string }.

(** [prometheus.BuildFQName] *)
Definition fqName (o : Opts) : string :=
  (Namespace o ++ "_" ++ Subsystem o ++ "_" ++ Name o)%string.

Record instrument (V : Type) := mkInstrument { opts : Opts; value : V }.
Arguments mkInstrument {V}.
Arguments opts {V}.
Arguments value {V}.

Definition record {V} (f : V → V) (i : instrument V) : instrument V :=
  mkInstrument (opts i) (f (value i)).

Definition CounterVec : Type := instrument (gmap (string * string) Z).
Definition HistogramVec : Type := instrument (gmap string (list Z)).
Definition Counter : Type := instrument Z.
Definition Gauge : Type := instrument Z.
Definition Histogram : Type := instrument (list Z).

Definition Inc : Counter → Counter := record (Z.add 1).
Definition Dec : Gauge → Gauge := record (λ v, v - 1).

(** The registry is [Registry], the fully-qualified names registered so far;
    the gRPC interceptor's instruments are the names [GRPCServer].

    go: internal/metrics/metrics.go 23-41 Metrics *)
Record Metrics := mkMetrics {
  Registry : list string;
  GRPCServer : list string;
  JiraRequests : CounterVec;
  JiraRequestDuration : HistogramVec;
  JiraRetries : Counter;
  SyncStarted : Counter;
  SyncCompleted : Counter;
  SyncFailed : Counter;
  SyncActive : Gauge;
  SyncIssuesProcessed : Counter;
  SyncDuration : Histogram;
}.

(** go: internal/metrics/metrics.go 146-176 Metrics.initJira *)
Definition initJira : CounterVec * HistogramVec * Counter :=
  (mkInstrument (mkOpts namespace "jira" "requests_total"
     "Number of Jira REST requests by operation and outcome." ["operation"; "outcome"]) ∅,
   mkInstrument (mkOpts namespace "jira" "request_duration_seconds"
     "Duration of Jira REST requests by operation." ["operation"]) ∅,
   mkInstrument (mkOpts namespace "jira" "retries_total"
     "Number of Jira REST request retries (rate limit, 5xx, network errors)." []) 0).

(** go: internal/metrics/metrics.go 178-233 Metrics.initSync *)
Definition initSync : Counter * Counter * Counter * Gauge * Counter * Histogram :=
  (mkInstrument (mkOpts namespace "sync" "jobs_started_total"
     "Number of SyncProject calls started." []) 0,
   mkInstrument (mkOpts namespace "sync" "jobs_completed_total"
     "Number of SyncProject calls that finished successfully." []) 0,
   mkInstrument (mkOpts namespace "sync" "jobs_failed_total"
     "Number of SyncProject calls that failed." []) 0,
   mkInstrument (mkOpts namespace "sync" "jobs_active"
     "Number of SyncProject calls currently in flight." []) 0,
   mkInstrument (mkOpts namespace "sync" "issues_processed_total"
     "Number of issues persisted across all sync calls." []) 0,
   mkInstrument (mkOpts namespace "sync" "duration_seconds"
     "Wall-clock duration of SyncProject calls." []) []).

(** [Registry.MustRegister] panics ([None]) on a name it already has. *)
Fixpoint MustRegister (names : list string) (registry : list string) : option (list string) :=
  match names with
  | [] => Some registry
  | n :: names' => if decide (n ∈ registry) then None else MustRegister names' (registry ++ [n])
  end.

(** [grpc] are the names of [grpcprom.NewServerMetrics]'s instruments.

    go: internal/metrics/metrics.go 44-67 New *)
Definition New (grpc : list string) : option Metrics :=
  let '(requests, duration, retries) := initJira in
  let '(started, completed, failed, active, issues, sync_duration) := initSync in
  registry ← MustRegister
    ([fqName (opts requests); fqName (opts duration); fqName (opts retries);
      fqName (opts started); fqName (opts completed); fqName (opts failed);
      fqName (opts active); fqName (opts issues); fqName (opts sync_duration)] ++ grpc) [];
  Some (mkMetrics registry grpc requests duration retries started completed failed active
          issues sync_duration).

(** [names] are those of the runtime and process collectors.

    go: internal/metrics/metrics.go 70-75 Metrics.RegisterRuntimeCollectors *)
Definition RegisterRuntimeCollectors (names : list string) (m : Metrics) : option Metrics :=
  registry ← MustRegister names (Registry m);
  Some (mkMetrics registry (GRPCServer m) (JiraRequests m) (JiraRequestDuration m)
          (JiraRetries m) (SyncStarted m) (SyncCompleted m) (SyncFailed m) (SyncActive m)
          (SyncIssuesProcessed m) (SyncDuration m)).

(** ** Recording *)

(** go: internal/metrics/metrics.go 79-91 Metrics.ObserveJiraRequest *)
Definition ObserveJiraRequest (operation : string) (duration : Z) (err_is_nil : bool)
    (m : option Metrics) : option Metrics :=
  m ← m;
  let outcome := if err_is_nil then OutcomeSuccess else OutcomeError in
  Some (mkMetrics (Registry m) (GRPCServer m)
    (record (λ v, <[(operation, outcome) := default 0 (v !! (operation, outcome)) + 1]> v)
       (JiraRequests m))
    (record (λ v, <[operation := default [] (v !! operation) ++ [duration]]> v)
       (JiraRequestDuration m))
    (JiraRetries m) (SyncStarted m) (SyncCompleted m) (SyncFailed m) (SyncActive m)
    (SyncIssuesProcessed m) (SyncDuration m)).

(** go: internal/metrics/metrics.go 94-100 Metrics.IncJiraRetry *)
Definition IncJiraRetry (m : option Metrics) : option Metrics :=
  m ← m;
  Some (mkMetrics (Registry m) (GRPCServer m) (JiraRequests m) (JiraRequestDuration m)
    (Inc (JiraRetries m)) (SyncStarted m) (SyncCompleted m) (SyncFailed m) (SyncActive m)
    (SyncIssuesProcessed m) (SyncDuration m)).

(** Two counters, updated in one step: a scrape of the endpoint in between is
    not modelled, and the counters of different jobs are updated by operations
    that commute.

    go: internal/metrics/metrics.go 103-110 Metrics.SyncJobStarted *)
Definition SyncJobStarted (m : option Metrics) : option Metrics :=
  m ← m;
  Some (mkMetrics (Registry m) (GRPCServer m) (JiraRequests m) (JiraRequestDuration m)
    (JiraRetries m) (Inc (SyncStarted m)) (SyncCompleted m) (SyncFailed m)
    (Inc (SyncActive m)) (SyncIssuesProcessed m) (SyncDuration m)).

(** Two counters, updated in one step, as for [SyncJobStarted].

    go: internal/metrics/metrics.go 113-125 Metrics.SyncJobFinished *)
Definition SyncJobFinished (failed : bool) (m : option Metrics) : option Metrics :=
  m ← m;
  Some (mkMetrics (Registry m) (GRPCServer m) (JiraRequests m) (JiraRequestDuration m)
    (JiraRetries m) (SyncStarted m)
    (if failed then SyncCompleted m else Inc (SyncCompleted m))
    (if failed then Inc (SyncFailed m) else SyncFailed m)
    (Dec (SyncActive m)) (SyncIssuesProcessed m) (SyncDuration m)).

(** go: internal/metrics/metrics.go 128-134 Metrics.IncIssuesProcessed *)
Definition IncIssuesProcessed (m : option Metrics) : option Metrics :=
  m ← m;
  Some (mkMetrics (Registry m) (GRPCServer m) (JiraRequests m) (JiraRequestDuration m)
    (JiraRetries m) (SyncStarted m) (SyncCompleted m) (SyncFailed m) (SyncActive m)
    (Inc (SyncIssuesProcessed m)) (SyncDuration m)).

(** go: internal/metrics/metrics.go 138-144 Metrics.ObserveSyncDuration *)
Definition ObserveSyncDuration (duration : Z) (m : option Metrics) : option Metrics :=
  m ← m;
  Some (mkMetrics (Registry m) (GRPCServer m) (JiraRequests m) (JiraRequestDuration m)
    (JiraRetries m) (SyncStarted m) (SyncCompleted m) (SyncFailed m) (SyncActive m)
    (SyncIssuesProcessed m) (record (λ v, v ++ [duration]) (SyncDuration m))).

(** ** The job ledger

    What the sync counters say about a number of jobs in flight. *)
Definition ledger (active : Z) (m : option Metrics) : Prop :=
  match m with
  | None => True
  | Some m =>
    value (SyncActive m) = active ∧
    value (SyncStarted m) = value (SyncCompleted m) + value (SyncFailed m) + active ∧
    0 ≤ value (SyncCompleted m) ∧ 0 ≤ value (SyncFailed m)
  end.

Lemma ledger_new grpc m : New grpc = Some m → ledger 0 (Some m).
Proof.
  unfold New. cbn [initJira initSync].
  destruct (MustRegister _ _); [|done]. by intros [= <-].
Qed.

Lemma ledger_started a m : ledger a m → ledger (a + 1) (SyncJobStarted m).
Proof. destruct m as [m|]; cbn -[Z.add]; [intros; lia|done]. Qed.

Lemma ledger_finished a failed m : ledger a m → ledger (a - 1) (SyncJobFinished failed m).
Proof. destruct m as [m|], failed; cbn -[Z.add]; try done; intros; lia. Qed.

Lemma ledger_retry a m : ledger a m → ledger a (IncJiraRetry m).
Proof. by destruct m. Qed.

Lemma ledger_request a op d ok m : ledger a m → ledger a (ObserveJiraRequest op d ok m).
Proof. by destruct m. Qed.

Lemma ledger_issue a m : ledger a m → ledger a (IncIssuesProcessed m).
Proof. by destruct m. Qed.

Lemma ledger_duration a d m : ledger a m → ledger a (ObserveSyncDuration d m).
Proof. by destruct m. Qed.

#[export] Hint Resolve ledger_new ledger_started ledger_finished ledger_retry ledger_request
  ledger_issue ledger_duration : go.

(** ** Registration *)

Lemma MustRegister_spec names registry :
  NoDup registry →
  MustRegister names registry
  = if decide (NoDup (registry ++ names)) then Some (registry ++ names) else None.
Proof.
  revert registry. induction names as [|n names IH]; intros registry Hr; simpl.
  - rewrite app_nil_r. by rewrite decide_True.
  - destruct (decide (n ∈ registry)) as [Hin|Hin].
    + rewrite decide_False; [done|]. rewrite NoDup_app. intros (_ & Hd & _).
      apply (Hd n Hin). by left.
    + rewrite IH; [by rewrite <- app_assoc|].
      rewrite NoDup_app. split_and!; [done| |apply NoDup_singleton].
      intros x Hx ->%list_elem_of_singleton. done.
Qed.

(** The instruments of this package. *)
Definition own_names : list string :=
  ["connector_jira_requests_total"; "connector_jira_request_duration_seconds";
   "connector_jira_retries_total"; "connector_sync_jobs_started_total";
   "connector_sync_jobs_completed_total"; "connector_sync_jobs_failed_total";
   "connector_sync_jobs_active"; "connector_sync_issues_processed_total";
   "connector_sync_duration_seconds"].

(** ** Properties *)

(** Building the instruments does not panic: whatever distinct names, none
    of them in the connector_ namespace, the gRPC interceptor and the runtime
    collectors bring, [MustRegister] accepts them all, and the registry holds
    exactly those names and the nine of this package. *)
Theorem New_registers grpc runtime :
  NoDup (grpc ++ runtime) →
  Forall (λ n, ¬ String.prefix "connector_" n) (grpc ++ runtime) →
  ∃ m, (m ← New grpc; RegisterRuntimeCollectors runtime m) = Some m ∧
    Registry m = own_names ++ grpc ++ runtime.
Proof.
  intros Hnd Hpre.
  assert (Hall : NoDup (own_names ++ grpc ++ runtime)).
  { apply NoDup_app. split_and!; [by apply (bool_decide_unpack _)| |done].
    intros n Hn Hin. rewrite Forall_forall in Hpre. apply (Hpre n Hin).
    clear Hin. revert n Hn. apply Forall_forall. by repeat constructor. }
  unfold New. cbn [initJira initSync].
  change (MustRegister _ []) with (MustRegister (own_names ++ grpc) []).
  rewrite MustRegister_spec by constructor. rewrite decide_True.
  2: { rewrite app_assoc in Hall. apply NoDup_app in Hall as (Hall & _). exact Hall. }
  cbn [mbind option_bind]. unfold RegisterRuntimeCollectors. cbn [Registry app].
  rewrite MustRegister_spec
    by (rewrite app_assoc in Hall; apply NoDup_app in Hall as (Hall & _); exact Hall).
  rewrite <- app_assoc, decide_True by done. by eexists.
Qed.

Lemma New_registers_witness :
  ∃ m, (m ← New ["grpc_server_started_total"]; RegisterRuntimeCollectors ["go_info"] m)
       = Some m ∧
    Registry m = own_names ++ ["grpc_server_started_total"] ++ ["go_info"].
Proof.
  apply (New_registers ["grpc_server_started_total"] ["go_info"]).
  - by apply (bool_decide_unpack _).
  - repeat constructor; intros [].
Defined.
