(* ===== verification/Config.v ===== *)
(** * The configuration (internal/config/config.go)

    The environment is a map of variables ([os.Getenv] of an unset variable is
    the empty string), the configuration file the outcome of reading it.
    yaml.v3 is third party: a parameter. *)

From Stdlib Require Import Floats.SpecFloat.
From S2P Require Import Prelude GoLang Errors.
Local Open Scope Z_scope.

(** ** Constants *)

(** go: internal/config/config.go 11-27 DefaultHost *)
Definition DefaultPort : Z := 50052.
Definition DefaultMaxResults : Z := 50.
Definition DefaultMinRetry : Z := 1000.
Definition DefaultMaxRetry : Z := 60000.
Definition DefaultConfigPath : string := "config/dev.yaml".
Definition DefaultLogLevel : string := "info".
Definition DefaultDBHost : string := "localhost".
Definition DefaultDBPort : Z := 5432.
Definition DefaultDBUser : string := "postgres".
Definition DefaultDBPassword : string := "password".
Definition DefaultDBName : string := "jira_connector".
Definition DefaultMetricsAddr : string := ":9090".
Definition DefaultPprofAddr : string := ":6060".

(** [float64] values; [25.0] is [7036874417766400 * 2^-48]. *)
Definition float64 : Type := spec_float.
Definition DefaultRateLimit : float64 := S754_finite false 7036874417766400 (-48).
Definition float_zero : float64 := S754_zero false.
(** [x <= 0] (false on NaN). *)
Definition float_nonpos (x : float64) : bool := SFleb x float_zero.

(** ** Data *)

(** go: internal/config/config.go 31-38 JiraConfig *)
Record JiraConfig := mkJiraConfig {
  BaseURL : string;
  Token : string;
  MaxResults : Z;
  MinRetryDelay : Z;
  MaxRetryDelay : Z;
  RateLimitPerSec : float64;
}.

(** go: internal/config/config.go 40-46 DBConfig *)
Record DBConfig := mkDBConfig {
  Host : string;
  Port : Z;
  User : string;
  Password : string;
  DBName : string;
}.

(** go: internal/config/config.go 51-54 ObsEndpoint *)
Record ObsEndpoint := mkObsEndpoint { Enabled : option bool; Addr : string }.

(** go: internal/config/config.go 57-59 ObsEndpoint.IsEnabled *)
Definition IsEnabled (e : ObsEndpoint) : bool :=
  match Enabled e with None => true | Some b => b end.

(** [App] has the single field [LogLevel].

    go: internal/config/config.go 61-69 AppConfig *)
Record AppConfig := mkAppConfig {
  Jira : JiraConfig;
  DB : DBConfig;
  Metrics : ObsEndpoint;
  Pprof : ObsEndpoint;
  LogLevel : string;
}.

Definition zero_AppConfig : AppConfig :=
  mkAppConfig (mkJiraConfig "" "" 0 0 0 float_zero) (mkDBConfig "" 0 "" "" "")
    (mkObsEndpoint None "") (mkObsEndpoint None "") "".

(** ** The process environment *)

Definition environ : Type := gmap string string.

Definition Getenv (env : environ) (key : string) : string := default "" (env !! key).

(** [os.ReadFile]: a missing file is told apart from other failures. *)
Inductive file := Contents (data : string) | NotExist | Unreadable (e : error).

(** go: internal/config/config.go 217-223 envOr *)
Definition envOr (env : environ) (key fallback : string) : string :=
  let v := Getenv env key in if decide (v ≠ "") then v else fallback.

(** *** [fmt.Sscanf(s, "%d", &result)] *)

Definition is_unicode_space (r : Z) : bool :=
  in_range 9 13 r || (r =? 32) || (r =? 133) || (r =? 160) || (r =? 5760)
  || in_range 8192 8202 r || (r =? 8232) || (r =? 8233) || (r =? 8239)
  || (r =? 8287) || (r =? 12288).

(** [SkipSpace]: a newline is an error. *)
Fixpoint skip_space (rs : list Z) : option (list Z) :=
  match rs with
  | [] => Some []
  | r :: rest =>
    if (r =? 13) && (match rest with 10 :: _ => true | _ => false end)
    then skip_space rest
    else if r =? 10 then None
    else if is_unicode_space r then skip_space rest
    else Some rs
  end.

Fixpoint accept_digits (rs : list Z) : list Z :=
  match rs with
  | r :: rest => if in_range 48 57 r then r :: accept_digits rest else []
  | [] => []
  end.

(** The token is a sign and digits; what follows it is not looked at. *)
Definition Sscanf_d (s : string) : option Z :=
  rs ← skip_space (runes s);
  let '(sg, rs) := match rs with
                   | r :: rest => if (r =? 43) || (r =? 45) then ([r], rest) else ([], rs)
                   | [] => ([], [])
                   end in
  match accept_digits rs with
  | [] => None
  | ds => match ParseInt (of_bytes (sg ++ ds)) with
          | (z, None) => Some z
          | _ => None
          end
  end.

(** go: internal/config/config.go 225-234 parseInt *)
Definition parseInt (s : string) (fallback : Z) : Z :=
  match Sscanf_d s with None => fallback | Some result => result end.

Example parseInt_trailing : parseInt " 5432abc" 1 = 5432.
Proof. vm_compute. reflexivity. Qed.
Example parseInt_bad : (parseInt "abc" 1, parseInt "-07" 1, parseInt "99999999999999999999" 1)
  = (1, -7, 1).
Proof. vm_compute. reflexivity. Qed.

(** ** Operations *)

Definition or_string (v fallback : string) : string :=
  if decide (v = "") then fallback else v.

(** go: internal/config/config.go 121-137 applyJiraDefaults *)
Definition applyJiraDefaults (cfg : JiraConfig) : JiraConfig :=
  {| BaseURL := BaseURL cfg;
     Token := Token cfg;
     MaxResults := if MaxResults cfg <=? 0 then DefaultMaxResults else MaxResults cfg;
     MinRetryDelay := if MinRetryDelay cfg <=? 0 then DefaultMinRetry else MinRetryDelay cfg;
     MaxRetryDelay := if MaxRetryDelay cfg <=? 0 then DefaultMaxRetry else MaxRetryDelay cfg;
     RateLimitPerSec := if float_nonpos (RateLimitPerSec cfg) then DefaultRateLimit
                        else RateLimitPerSec cfg |}.

(** go: internal/config/config.go 139-159 applyDBDefaults *)
Definition applyDBDefaults (cfg : DBConfig) : DBConfig :=
  {| Host := or_string (Host cfg) DefaultDBHost;
     Port := if Port cfg =? 0 then DefaultDBPort else Port cfg;
     User := or_string (User cfg) DefaultDBUser;
     Password := or_string (Password cfg) DefaultDBPassword;
     DBName := or_string (DBName cfg) DefaultDBName |}.

(** go: internal/config/config.go 104-119 applyDefaults *)
Definition applyDefaults (cfg : AppConfig) : AppConfig :=
  {| Jira := applyJiraDefaults (Jira cfg);
     DB := applyDBDefaults (DB cfg);
     Metrics := mkObsEndpoint (Enabled (Metrics cfg))
                  (or_string (Addr (Metrics cfg)) DefaultMetricsAddr);
     Pprof := mkObsEndpoint (Enabled (Pprof cfg))
                (or_string (Addr (Pprof cfg)) DefaultPprofAddr);
     LogLevel := or_string (LogLevel cfg) DefaultLogLevel |}.

(** [if v := os.Getenv(key); v != "" { field = v }] *)
Definition override (env : environ) (key field : string) : string :=
  let v := Getenv env key in if decide (v ≠ "") then v else field.

(** go: internal/config/config.go 197-205 overrideObsFromEnv *)
Definition overrideObsFromEnv (env : environ) (cfg : AppConfig) : AppConfig :=
  {| Jira := Jira cfg;
     DB := DB cfg;
     Metrics := mkObsEndpoint (Enabled (Metrics cfg))
                  (override env "METRICS_ADDR" (Addr (Metrics cfg)));
     Pprof := mkObsEndpoint (Enabled (Pprof cfg))
                (override env "PPROF_ADDR" (Addr (Pprof cfg)));
     LogLevel := LogLevel cfg |}.

(** go: internal/config/config.go 161-195 overrideFromEnv *)
Definition overrideFromEnv (env : environ) (cfg : AppConfig) : AppConfig :=
  let jira := Jira cfg in
  let db := DB cfg in
  overrideObsFromEnv env
  {| Jira := {| BaseURL := override env "JIRA_BASE_URL" (BaseURL jira);
                Token := override env "JIRA_TOKEN" (Token jira);
                MaxResults := MaxResults jira;
                MinRetryDelay := MinRetryDelay jira;
                MaxRetryDelay := MaxRetryDelay jira;
                RateLimitPerSec := RateLimitPerSec jira |};
     DB := {| Host := override env "DB_HOST" (Host db);
              Port := let v := Getenv env "DB_PORT" in
                      if decide (v ≠ "") then parseInt v DefaultDBPort else Port db;
              User := override env "DB_USER" (User db);
              Password := override env "DB_PASSWORD" (Password db);
              DBName := override env "DB_NAME" (DBName db) |};
     Metrics := Metrics cfg;
     Pprof := Pprof cfg;
     LogLevel := override env "LOG_LEVEL" (LogLevel cfg) |}.

(** [errors.Join] of no errors is nil.

    go: internal/config/config.go 207-215 validate *)
Definition validate (cfg : AppConfig) : option error :=
  let errs := if decide (BaseURL (Jira cfg) = "")
              then [ESentinel ErrJiraBaseURLRequired] else [] in
  match errs with [] => None | _ => Some (EJoin errs) end.

Section Load.

(** [yaml.Unmarshal(data, &cfg)]: the value it leaves in [cfg], and its error. *)
Context (yaml_unmarshal : string → AppConfig → AppConfig * option error).

(** go: internal/config/config.go 71-102 Load *)
Definition Load (env : environ) (readFile : string → file) (path : string)
    : res error AppConfig :=
  let path := if decide (path = "") then envOr env "CONNECTOR_CONFIG" DefaultConfigPath
              else path in
  let finish cfg :=
    let cfg := overrideFromEnv env (applyDefaults cfg) in
    match validate cfg with
    | Some e => Err (wrap "validate config" e)
    | None => Ok cfg
    end in
  match readFile path with
  | Contents data =>
    match yaml_unmarshal data zero_AppConfig with
    | (_, Some e) => Err (wrap "unmarshal config" e)
    | (cfg, None) => finish cfg
    end
  | Unreadable e => Err (EWrap [L "read config "; Q path; L ": "] e [])
  | NotExist => finish zero_AppConfig
  end.
End Load.

(** ** Lemmas *)

Lemma override_nonempty env key v : v ≠ "" → override env key v ≠ "".
Proof. unfold override. by case_decide. Qed.

Lemma or_string_nonempty v fallback : fallback ≠ "" → or_string v fallback ≠ "".
Proof. unfold or_string. by case_decide. Qed.

#[export] Hint Resolve override_nonempty or_string_nonempty : go.

(** Where the value of a text field comes from: the environment, else the file,
    else the default. *)
Inductive chosen (env : environ) (key in_file fallback : string) : string → Prop :=
  | chosen_env v : Getenv env key = v → v ≠ "" → chosen env key in_file fallback v
  | chosen_file : Getenv env key = "" → in_file ≠ "" → chosen env key in_file fallback in_file
  | chosen_default : Getenv env key = "" → in_file = "" → chosen env key in_file fallback fallback.

(** Where the database port comes from.  A [DB_PORT] that is not a number hides
    the file's value too; a number is taken whatever it is. *)
Inductive chosen_port (env : environ) (in_file : Z) : Z → Prop :=
  | port_env p :
      Getenv env "DB_PORT" ≠ "" → Sscanf_d (Getenv env "DB_PORT") = Some p →
      chosen_port env in_file p
  | port_env_unreadable :
      Getenv env "DB_PORT" ≠ "" → Sscanf_d (Getenv env "DB_PORT") = None →
      chosen_port env in_file DefaultDBPort
  | port_file : Getenv env "DB_PORT" = "" → in_file ≠ 0 → chosen_port env in_file in_file
  | port_default : Getenv env "DB_PORT" = "" → in_file = 0 → chosen_port env in_file DefaultDBPort.

(** Where a number of the Jira block comes from. *)
Inductive chosen_number (in_file fallback : Z) : Z → Prop :=
  | number_file : 0 < in_file → chosen_number in_file fallback in_file
  | number_default : in_file ≤ 0 → chosen_number in_file fallback fallback.

Lemma override_chosen env key v fallback :
  chosen env key v fallback (override env key (or_string v fallback)).
Proof.
  unfold override, or_string. case_decide as Hv; [by constructor|].
  case_decide; by constructor.
Qed.

Lemma port_chosen env v :
  chosen_port env v
    (let e := Getenv env "DB_PORT" in
     if decide (e ≠ "") then parseInt e DefaultDBPort else if v =? 0 then DefaultDBPort else v).
Proof.
  cbv zeta. case_decide as Hv.
  - unfold parseInt. destruct (Sscanf_d _) eqn:Hs; by constructor.
  - destruct (Z.eqb_spec v 0); by constructor.
Qed.

Lemma number_chosen v fallback : chosen_number v fallback (if v <=? 0 then fallback else v).
Proof. destruct (Z.leb_spec v 0); by constructor. Qed.

#[export] Hint Resolve override_chosen port_chosen number_chosen : go.

(** Nothing that must be given is empty or, for the numbers of the Jira block,
    zero or negative (a rate that is not a number passes).  The port is not
    among them. *)
Definition well_formed (cfg : AppConfig) : Prop :=
  BaseURL (Jira cfg) ≠ "" ∧ 0 < MaxResults (Jira cfg) ∧ 0 < MinRetryDelay (Jira cfg) ∧
  0 < MaxRetryDelay (Jira cfg) ∧ float_nonpos (RateLimitPerSec (Jira cfg)) = false ∧
  Host (DB cfg) ≠ "" ∧ User (DB cfg) ≠ "" ∧ Password (DB cfg) ≠ "" ∧ DBName (DB cfg) ≠ "" ∧
  Addr (Metrics cfg) ≠ "" ∧ Addr (Pprof cfg) ≠ "" ∧ LogLevel cfg ≠ "".

(** The configuration before validation. *)
Definition resolved (env : environ) (cfg : AppConfig) : AppConfig :=
  overrideFromEnv env (applyDefaults cfg).

Lemma resolved_well_formed env cfg :
  BaseURL (Jira (resolved env cfg)) ≠ "" → well_formed (resolved env cfg).
Proof.
  intros HB. split; [done|].
  assert (Hnum : ∀ n d, 0 < d → 0 < if n <=? 0 then d else n)
    by (intros n d Hd; destruct (Z.leb_spec n 0); lia).
  unfold resolved, overrideFromEnv, overrideObsFromEnv, applyDefaults, applyJiraDefaults,
    applyDBDefaults. simpl.
  split_and!; try (by apply Hnum); try (by apply override_nonempty, or_string_nonempty).
  destruct (float_nonpos (RateLimitPerSec (Jira cfg))) eqn:Hf; [reflexivity|done].
Qed.

Section Properties.
Context (yaml_unmarshal : string → AppConfig → AppConfig * option error).

(** The file's contribution: nothing when there is no file. *)
Definition file_config (f : file) : option AppConfig :=
  match f with
  | Contents data =>
    match yaml_unmarshal data zero_AppConfig with (cfg, None) => Some cfg | _ => None end
  | NotExist => Some zero_AppConfig
  | Unreadable _ => None
  end.

Definition config_path (env : environ) (path : string) : string :=
  or_string path (or_string (Getenv env "CONNECTOR_CONFIG") DefaultConfigPath).

Lemma Load_unfold env readFile path :
  let f := readFile (config_path env path) in
  match file_config f with
  | Some c =>
    Load yaml_unmarshal env readFile path =
      if decide (BaseURL (Jira (resolved env c)) = "")
      then Err (wrap "validate config" (EJoin [ESentinel ErrJiraBaseURLRequired]))
      else Ok (resolved env c)
  | None => ∃ e, Load yaml_unmarshal env readFile path = Err e
  end.
Proof.
  assert (Hp : (if decide (path = "") then envOr env "CONNECTOR_CONFIG" DefaultConfigPath
                else path) = config_path env path).
  { unfold config_path, or_string, envOr. by repeat case_decide. }
  assert (Hv : ∀ cfg, match validate cfg with
                      | Some e => Err (wrap "validate config" e)
                      | None => Ok cfg
                      end = if decide (BaseURL (Jira cfg) = "")
                            then Err (wrap "validate config" (EJoin [ESentinel ErrJiraBaseURLRequired]))
                            else Ok cfg) by (intros c; unfold validate; by destruct (decide (BaseURL (Jira c) = ""))).
  unfold Load, file_config, resolved. rewrite Hp.
  destruct (readFile _) as [data| |e]; [|apply Hv|eauto].
  destruct (yaml_unmarshal data zero_AppConfig) as [c [e|]]; [eauto|apply Hv].
Qed.

(** Why [Load] fails: the file is there but cannot be read, or not parsed; or
    neither the file nor the environment gives the base URL. *)
Inductive load_failure (env : environ) : file → Prop :=
  | fails_read e : load_failure env (Unreadable e)
  | fails_parse data c e :
      yaml_unmarshal data zero_AppConfig = (c, Some e) → load_failure env (Contents data)
  | fails_base_url f c :
      file_config f = Some c → BaseURL (Jira c) = "" → Getenv env "JIRA_BASE_URL" = "" →
      load_failure env f.

Lemma file_config_fails env f : file_config f = None → load_failure env f.
Proof.
  destruct f as [data| |e]; simpl; intros Hf; [|done|constructor].
  destruct (yaml_unmarshal data zero_AppConfig) as [c [e|]] eqn:Hy; [|done].
  by eapply fails_parse.
Qed.

Lemma load_failure_fails env f c :
  load_failure env f → file_config f = Some c →
  BaseURL (Jira c) = "" ∧ Getenv env "JIRA_BASE_URL" = "".
Proof.
  intros Hl Hf. destruct Hl as [e|data c' e Hy|f c' Hc' HB Hg]; simpl in Hf; [done|by rewrite Hy in Hf|].
  rewrite Hf in Hc'. by injection Hc' as ->.
Qed.

(** C34. What [Load] returns.  It fails exactly when the file is there but cannot
    be read or parsed, or when neither the file nor the environment gives the
    Jira base URL; a missing file is like an empty one.  Otherwise every text
    field is the environment's non-empty value, else the file's, else the
    default, under its own variable (base URL and token have no default), and
    none but the token is empty; the database port is the number that [DB_PORT]
    begins with, the default if [DB_PORT] is set but is no number, else the
    file's unless 0, else the default, and is not checked (0, a negative or a too
    large one passes); page size and retry delays are the file's if positive,
    else the default; the rate limit is the file's unless it is zero or negative,
    else the default (a NaN passes); and the endpoints are switched as the file
    says. *)
Theorem Load_sound env readFile path :
  let f := readFile (config_path env path) in
  match Load yaml_unmarshal env readFile path with
  | Err _ => load_failure env f
  | Ok cfg => ¬ load_failure env f ∧ well_formed cfg ∧ ∃ c, file_config f = Some c ∧
      chosen env "JIRA_BASE_URL" (BaseURL (Jira c)) "" (BaseURL (Jira cfg)) ∧
      chosen env "JIRA_TOKEN" (Token (Jira c)) "" (Token (Jira cfg)) ∧
      chosen env "DB_HOST" (Host (DB c)) "localhost" (Host (DB cfg)) ∧
      chosen env "DB_USER" (User (DB c)) "postgres" (User (DB cfg)) ∧
      chosen env "DB_PASSWORD" (Password (DB c)) "password" (Password (DB cfg)) ∧
      chosen env "DB_NAME" (DBName (DB c)) "jira_connector" (DBName (DB cfg)) ∧
      chosen env "LOG_LEVEL" (LogLevel c) "info" (LogLevel cfg) ∧
      chosen env "METRICS_ADDR" (Addr (Metrics c)) ":9090" (Addr (Metrics cfg)) ∧
      chosen env "PPROF_ADDR" (Addr (Pprof c)) ":6060" (Addr (Pprof cfg)) ∧
      chosen_port env (Port (DB c)) (Port (DB cfg)) ∧
      chosen_number (MaxResults (Jira c)) 50 (MaxResults (Jira cfg)) ∧
      chosen_number (MinRetryDelay (Jira c)) 1000 (MinRetryDelay (Jira cfg)) ∧
      chosen_number (MaxRetryDelay (Jira c)) 60000 (MaxRetryDelay (Jira cfg)) ∧
      RateLimitPerSec (Jira cfg) = (if float_nonpos (RateLimitPerSec (Jira c)) then DefaultRateLimit
                                    else RateLimitPerSec (Jira c)) ∧
      IsEnabled (Metrics cfg) = IsEnabled (Metrics c) ∧ IsEnabled (Pprof cfg) = IsEnabled (Pprof c)
  end.
Proof.
  intros f. pose proof (Load_unfold env readFile path) as Hu. simpl in Hu. fold f in Hu.
  destruct (file_config f) as [c|] eqn:Hf.
  2: { destruct Hu as [e ->]. by apply file_config_fails. }
  assert (Hor : ∀ v, or_string v "" = v) by (intros v; unfold or_string; destruct (decide (v = "")) as [->|]; done).
  rewrite Hu. case_decide as HB.
  - simpl in HB. unfold override in HB. case_decide as Hg; [done|].
    by eapply fails_base_url.
  - split; [|split; [by apply resolved_well_formed|]].
    + intros Hl. destruct (load_failure_fails _ _ _ Hl Hf) as [H1 H2]. apply HB. simpl.
      unfold override. by rewrite H1, H2.
    + pose proof (override_chosen env "JIRA_BASE_URL" (BaseURL (Jira c)) "") as H1.
      pose proof (override_chosen env "JIRA_TOKEN" (Token (Jira c)) "") as H2.
      rewrite Hor in H1, H2. exists c. split_and!; eauto with go;
        first [apply override_chosen|apply port_chosen].
Qed.
End Properties.

Definition sample_env : environ :=
  <["JIRA_BASE_URL" := "https://jira.example/"]> (<["DB_PORT" := "0"]> ∅).

Lemma Load_sound_witness :
  ∃ cfg, Load (λ _ c, (c, None)) sample_env (λ _, NotExist) "" = Ok cfg ∧ well_formed cfg ∧
    BaseURL (Jira cfg) = "https://jira.example/" ∧ Port (DB cfg) = 0.
Proof.
  pose proof (Load_sound (λ _ c, (c, None)) sample_env (λ _, NotExist) "") as H. cbv zeta in H.
  destruct (Load (λ _ c, (c, None)) sample_env (λ _, NotExist) "") as [cfg|e] eqn:Hl;
    [|vm_compute in Hl; discriminate].
  exists cfg. destruct H as (_ & Hw & _). split; [reflexivity|]. split; [exact Hw|].
  vm_compute in Hl. injection Hl as <-. split; reflexivity.
Defined.
