(* ===== verification/JiraClient.v ===== *)
(** * The Jira client (internal/client/jira/jira.go)

    One call of the client issues HTTP attempts until it returns.  What each
    attempt meets (the rate limiter, the server, the context, the backoff
    timer) is an [attempt] of the environment; [do_loop] is the retry loop of
    [Client.do] on a fuel, and records the requests sent and the waits
    completed. *)

From S2P Require Import Prelude GoLang Errors Json JiraTypes Config Metrics.
Local Open Scope Z_scope.

(** ** Constants and data *)

(** [time.Duration]s are [int64] nanoseconds. *)
Definition Millisecond : Z := 1000000.
Definition Second : Z := 1000000000.

(** go: internal/client/jira/jira.go 21-31 defaultMaxResults *)
Definition defaultMaxResults : Z := 50.
Definition defaultMinRetryDelay : Z := 1 * Second.
Definition defaultMaxRetryDelay : Z := 60 * Second.
Definition minAllowedResults : Z := 50.
Definition maxAllowedResults : Z := 1000.
Definition retryBackoffMultiplier : Z := 2.
Definition defaultRateLimit : float64 := DefaultRateLimit.

(** go: internal/client/jira/jira.go 35-41 responseAction *)
Definition responseAction : Type := string.
Definition actionReturn : responseAction := "return".
Definition actionRetry : responseAction := "retry".
Definition actionError : responseAction := "error".

(** The HTTP client and the limiter are the environment's; the limiter keeps
    its rate.  The metrics are threaded as state.

    go: internal/client/jira/jira.go 43-52 Client *)
Record Client := mkClient {
  baseURL : string;
  token : string;
  limiter : float64;
  maxResults : Z;
  minRetryDelay : Z;
  maxRetryDelay : Z;
}.

(** go: internal/client/jira/jira.go 186-225 New *)
Definition New (cfg : JiraConfig) : Client :=
  let results := MaxResults cfg in
  let results := if results <=? 0 then defaultMaxResults else results in
  let results := if results <? minAllowedResults then minAllowedResults
                 else if maxAllowedResults <? results then maxAllowedResults
                 else results in
  let minRetry := int64 (MinRetryDelay cfg * Millisecond) in
  let minRetry := if minRetry =? 0 then defaultMinRetryDelay else minRetry in
  let maxRetry := int64 (MaxRetryDelay cfg * Millisecond) in
  let maxRetry := if maxRetry =? 0 then defaultMaxRetryDelay else maxRetry in
  let rateLimit := RateLimitPerSec cfg in
  let rateLimit := if float_nonpos rateLimit then defaultRateLimit else rateLimit in
  {| baseURL := TrimSuffix (BaseURL cfg) "/";
     token := Token cfg;
     limiter := rateLimit;
     maxResults := results;
     minRetryDelay := minRetry;
     maxRetryDelay := maxRetry |}.

(** ** HTTP *)

Record Request := mkRequest {
  Method : string;
  URL : string;
  Header : gmap string string;
}.

(** A response body as net/http delivers it: [http.NoBody], or a stream of
    bytes that ends with EOF or with an error.  Reading a closed stream fails;
    closing [http.NoBody] does nothing. *)
Inductive body :=
  | NoBody
  | Stream (content : string) (read_err : option error) (closed : bool).

Definition Close (b : body) : body :=
  match b with NoBody => NoBody | Stream c e _ => Stream c e true end.

Definition ReadAll (b : body) : res error string :=
  match b with
  | NoBody => Ok ""%string
  | Stream _ _ true => Err (ESentinel errReadOnClosedBody)
  | Stream _ (Some e) false => Err e
  | Stream c None false => Ok c
  end.

(** [json.NewDecoder(b).Decode(&v)] of an open body: the decoder stops after
    the first value; a stream that breaks before it is complete is an error. *)
Definition DecodeBody {T} (d : decoder T) (b : body) (old : T) : T * option error :=
  match b with
  | NoBody => Decode d "" old
  | Stream _ _ true => (old, Some (ESentinel errReadOnClosedBody))
  | Stream c None false => Decode d c old
  | Stream c (Some e) false =>
    match parse_first c with
    | Some (JNum _) | None => (old, Some e)
    | Some j => let '(x, ok) := d j old in (x, type_error ok)
    end
  end.

(** [RetryAfter] is [Header.Get("Retry-After")]. *)
Record Response := mkResponse {
  RespStatus : Z;
  RetryAfter : string;
  RespBody : body;
}.

(** What one attempt meets: the error of [limiter.Wait], the reply to the
    request, [ctx.Err()] after it, and which arm the [select] of
    [waitWithBackoff] takes for a delay ([Some] context error, or the timer). *)
Record attempt := mkAttempt {
  waitErr : option error;
  reply : Request → res error Response;
  ctxErr : option sentinel;
  backoff : Z → option sentinel;
}.

(** ** Handling a reply *)

(** go: internal/client/jira/jira.go 393-410 Client.handleErrorResponse *)
Definition handleErrorResponse (resp : Response) : error :=
  match ReadAll (RespBody resp) with
  | Err e => wrap "failed to read error response body" e
  | Ok body =>
    let errAPI := mkApiError (RespStatus resp) body "" [] ∅ in
    let '(errAPI, unmarshalErr) := Unmarshal dec_ApiError body errAPI in
    EApi (match unmarshalErr with
          | Some _ => mkApiError (StatusCode errAPI) (Body errAPI) body
                        (ErrorMessages errAPI) (Errors errAPI)
          | None => errAPI
          end)
  end.

(** [Ok delay]: the timer fired after [delay].

    go: internal/client/jira/jira.go 546-553 Client.waitWithBackoff *)
Definition waitWithBackoff (a : attempt) (delay : Z) : res error Z :=
  match backoff a delay with
  | Some ctx_err => Err (wrap "context cancelled during backoff" (ESentinel ctx_err))
  | None => Ok delay
  end.

(** The action, the new delay, the error, and the wait completed, if any. *)
Definition handled : Type := responseAction * Z * option error * list Z.

Section Client.
Context (c : Client).

(** go: internal/client/jira/jira.go 488-511 Client.handleNetworkError *)
Definition handleNetworkError (a : attempt) (err : error) (lastErr : option error)
    (delay : Z) : handled :=
  match ctxErr a with
  | Some _ => (actionError, delay, Some (wrap "request cancelled" err), [])
  | None =>
    if maxRetryDelay c <? delay then
      (actionError, delay,
       Some (wrap_opt "max retry delay exceeded on network error" lastErr), [])
    else
      match waitWithBackoff a delay with
      | Err waitErr => (actionError, delay, Some waitErr, [])
      | Ok slept => (actionRetry, int64 (delay * retryBackoffMultiplier), Some err, [slept])
      end
  end.

(** go: internal/client/jira/jira.go 513-544 Client.handleRetryStatus *)
Definition handleRetryStatus (a : attempt) (resp : Response) (delay : Z) : handled :=
  let resp := mkResponse (RespStatus resp) (RetryAfter resp) (Close (RespBody resp)) in
  let delay :=
    if decide (RetryAfter resp ≠ ""%string) then
      match Atoi (RetryAfter resp) with
      | (sec, None) => int64 (sec * Second)
      | (_, Some _) => delay
      end
    else delay in
  let retryErr := handleErrorResponse resp in
  if maxRetryDelay c <? delay then
    (actionError, delay,
     Some (EWrap [L ("max retry delay exceeded after status "
                     ++ FormatInt (RespStatus resp) ++ ": ")] retryErr []), [])
  else
    match waitWithBackoff a delay with
    | Err waitErr => (actionError, delay, Some waitErr, [])
    | Ok slept => (actionRetry, int64 (delay * retryBackoffMultiplier), Some retryErr, [slept])
    end.

(** go: internal/client/jira/jira.go 465-486 Client.handleResponse *)
Definition handleResponse (a : attempt) (r : res error Response) (delay : Z)
    (lastErr : option error) : handled :=
  match r with
  | Err err => handleNetworkError a err lastErr delay
  | Ok resp =>
    if negb (RespStatus resp =? 200) then
      if (RespStatus resp =? 429) || (RespStatus resp =? 503) then
        handleRetryStatus a resp delay
      else (actionError, delay, Some (handleErrorResponse resp), [])
    else (actionReturn, delay, None, [])
  end.

(** ** The retry loop *)

(** [http.NewRequestWithContext] fails on a URL that does not parse. *)
Context (newRequestErr : string → option error).

(** go: internal/client/jira/jira.go 427-437 Client.do *)
Definition build_request (method path : string) : Request :=
  {| Method := method;
     URL := (baseURL c ++ path)%string;
     Header :=
       (if decide (token c ≠ ""%string)
        then <["Authorization"%string := ("Bearer " ++ token c)%string]> else id)
       (<["Content-Type"%string := "application/json"%string]>
          (<["Accept"%string := "application/json"%string]> ∅)) |}.

(** What a call of [do] leaves: its result ([nil] is [None]), the requests sent, the waits
    completed, the metrics. *)
Record outcome := mkOutcome {
  result : option Response * option error;
  sent : list Request;
  sleeps : list Z;
  metrics : option Metrics.Metrics;
}.

(** Iteration [n] of the loop meets [env n]; [None] when the fuel is exhausted.

    go: internal/client/jira/jira.go 412-463 Client.do *)
Fixpoint do_loop (fuel : nat) (env : nat → attempt) (method path : string) (n : nat)
    (delay : Z) (lastErr : option error) (m : option Metrics.Metrics) : option outcome :=
  match fuel with
  | O => None
  | S fuel =>
    match waitErr (env n) with
    | Some err => Some (mkOutcome (None, Some (wrap "rate limiter wait failed" err)) [] [] m)
    | None =>
      match newRequestErr (baseURL c ++ path) with
      | Some err => Some (mkOutcome (None, Some (wrap "create HTTP request" err)) [] [] m)
      | None =>
        let req := build_request method path in
        let r := reply (env n) req in
        let '(action, newDelay, errResp, slept) := handleResponse (env n) r delay lastErr in
        if String.eqb action actionRetry then
          o ← do_loop fuel env method path (S n) newDelay errResp (IncJiraRetry m);
          Some (mkOutcome (result o) (req :: sent o) (slept ++ sleeps o) (metrics o))
        else if String.eqb action actionError then
          Some (mkOutcome (None, errResp) [req] slept m)
        else if String.eqb action actionReturn then
          Some (mkOutcome (res_opt r, None) [req] slept m)
        else Some (mkOutcome (None, Some (ESentinel errInternalInvalidAction)) [req] slept m)
      end
    end
  end.

(** [c.do(ctx, http.MethodGet, path, nil)] *)
Definition do (fuel : nat) (env : nat → attempt) (path : string) (m : option Metrics.Metrics)
    : option outcome :=
  do_loop fuel env "GET" path 0 (minRetryDelay c) None m.

(** ** Operations *)

(** A response and an error that are both nil would be dereferenced by the
    caller; [do_result] shows that this does not happen. *)
Definition nil_dereference : error :=
  ENew [L "runtime error: invalid memory address or nil pointer dereference"].

Definition responded {T} (r : option Response * option error) (k : Response → res error T)
    (fail : error → error) : res error T :=
  match r with
  | (_, Some err) => Err (fail err)
  | (Some resp, None) => k resp
  | (None, None) => Err nil_dereference
  end.

(** An operation on a fuel: its result and the metrics. *)
Definition operation (T : Type) : Type :=
  nat → (nat → attempt) → option Metrics.Metrics → option (res error T * option Metrics.Metrics).

(** go: internal/client/jira/jira.go 273-290 Client.fetchIssue *)
Definition fetchIssue (key : string) : operation Issue := λ fuel env m,
  let urlStr := ("/rest/api/2/issue/" ++ key ++ "?expand=changelog")%string in
  o ← do fuel env urlStr m;
  Some (responded (result o)
    (λ resp, match DecodeBody dec_Issue (RespBody resp) zero_Issue with
             | (_, Some err) => Err (wrap "decode Jira issue response" err)
             | (issue, None) => Ok issue
             end)
    (λ err, EWrap [L "failed to fetch issue "; Q key; L ": "] err []), metrics o).

(** go: internal/client/jira/jira.go 302-307 searchIssues *)
Definition search_path (jql : string) (startAt maxResults : Z) : string :=
  ("/rest/api/2/search?jql=" ++ QueryEscape jql ++ "&fields=" ++ "*all"
   ++ "&startAt=" ++ FormatInt startAt ++ "&maxResults=" ++ FormatInt maxResults)%string.

(** go: internal/client/jira/jira.go 292-323 Client.searchIssues *)
Definition searchIssues (jql : string) (startAt max : Z) : operation SearchResponse :=
  λ fuel env m,
  let max := if max <=? 0 then maxResults c else max in
  let urlStr := search_path jql startAt max in
  o ← do fuel env urlStr m;
  Some (responded (result o)
    (λ resp, match DecodeBody dec_SearchResponse (RespBody resp) zero_SearchResponse with
             | (_, Some err) => Err (wrap "decode Jira search response" err)
             | (searchResp, None) => Ok searchResp
             end)
    (λ err, EWrap [L "failed to perform search request to "; Q urlStr; L ": "] err []),
    metrics o).

(** [url.Values.Encode] for values with one string per key: sorted by key. *)
Definition Encode (params : gmap string string) : string :=
  String.concat "&"
    ((λ k, (QueryEscape k ++ "=" ++ QueryEscape (default "" (params !! k)))%string)
       <$> merge_sort string_le (map_to_list params).*1).

(** go: internal/client/jira/jira.go 341-357 fetchProjects *)
Definition projects_path (searchParam : string) (limit startAt : Z) : string :=
  let params : gmap string string :=
    <["maxResults"%string := FormatInt limit]> (<["startAt"%string := FormatInt startAt]> ∅) in
  let params := if decide (searchParam ≠ ""%string)
                then <["searchQuery"%string := searchParam]> params else params in
  let params := if decide (searchParam ≠ ""%string)
                then <["query"%string := searchParam]> params else params in
  let urlStr := "/rest/api/2/project"%string in
  if decide (params ≠ ∅) then (urlStr ++ "?" ++ Encode params)%string else urlStr.

(** go: internal/client/jira/jira.go 368-391 parseProjectsResponse *)
Definition parseProjectsResponse (resp : Response) : res error ProjectsResponse :=
  match ReadAll (RespBody resp) with
  | Err err => Err (wrap "read response body" err)
  | Ok bodyBytes =>
    match Unmarshal (dec_slice zero_Project dec_Project) bodyBytes [] with
    | (simpleList, None) =>
      Ok (mkProjectsResponse simpleList (Z.of_nat (length simpleList)) 0 0 true)
    | (_, Some _) =>
      match Unmarshal dec_ProjectsResponse bodyBytes zero_ProjectsResponse with
      | (_, Some err) => Err (wrap "decode projects response" err)
      | (projResp, None) => Ok projResp
      end
    end
  end.

(** go: internal/client/jira/jira.go 325-366 Client.fetchProjects *)
Definition fetchProjects (searchParam : string) (limit page : Z) : operation ProjectsResponse :=
  λ fuel env m,
  let limit := if limit <=? 0 then 50 else limit in
  let page := if page <? 0 then 0 else page in
  let startAt := int64 (page * limit) in
  o ← do fuel env (projects_path searchParam limit startAt) m;
  Some (responded (result o) parseProjectsResponse (wrap "failed to fetch projects"), metrics o).

(** [elapsed] is [time.Since(start)]. *)
Definition instrumented {T} (name : string) (elapsed : Z) (op : operation T) : operation T :=
  λ fuel env m,
  '(r, m) ← op fuel env m; Some (r, ObserveJiraRequest name elapsed (is_ok r) m).

(** go: internal/client/jira/jira.go 238-244 Client.GetIssue *)
Definition GetIssue (elapsed : Z) (key : string) : operation Issue :=
  instrumented "get_issue" elapsed (fetchIssue key).

(** go: internal/client/jira/jira.go 247-258 Client.SearchIssues *)
Definition SearchIssues (elapsed : Z) (jql : string) (startAt max : Z)
    : operation SearchResponse :=
  instrumented "search_issues" elapsed (searchIssues jql startAt max).

(** go: internal/client/jira/jira.go 261-271 Client.GetProjects *)
Definition GetProjects (elapsed : Z) (searchParam : string) (limit page : Z)
    : operation ProjectsResponse :=
  instrumented "get_projects" elapsed (fetchProjects searchParam limit page).
End Client.

(** ** The rounds of the retry loop *)

Section Rounds.
Context (c : Client) (newRequestErr : string → option error).
Context (env : nat → attempt) (method path : string).

Local Abbreviation loop := (do_loop c newRequestErr).
Local Abbreviation req := (build_request c method path).

(** The delay waited before the next attempt: the server's hint if it gives a
    readable one, else the current delay. *)
Definition retry_delay (r : res error Response) (delay : Z) : Z :=
  match r with
  | Err _ => delay
  | Ok resp =>
    if decide (RetryAfter resp ≠ ""%string) then
      match Atoi (RetryAfter resp) with
      | (sec, None) => int64 (sec * Second)
      | _ => delay
      end
    else delay
  end.

Inductive round (n : nat) (delay : Z) (lastErr : option error) (m : option Metrics.Metrics)
    : Prop :=
  | round_unsent e :
    (∀ f, loop (S f) env method path n delay lastErr m
          = Some (mkOutcome (None, Some e) [] [] m)) → round n delay lastErr m
  | round_failed e :
    (∀ f, loop (S f) env method path n delay lastErr m
          = Some (mkOutcome (None, Some e) [req] [] m)) → round n delay lastErr m
  | round_answered resp :
    reply (env n) req = Ok resp → RespStatus resp = 200 →
    (∀ f, loop (S f) env method path n delay lastErr m
          = Some (mkOutcome (Some resp, None) [req] [] m)) → round n delay lastErr m
  | round_again e :
    let slept := retry_delay (reply (env n) req) delay in
    slept ≤ maxRetryDelay c →
    (∀ f, loop (S f) env method path n delay lastErr m
          = o ← loop f env method path (S n) (int64 (slept * retryBackoffMultiplier)) (Some e)
                  (IncJiraRetry m);
            Some (mkOutcome (result o) (req :: sent o) (slept :: sleeps o) (metrics o))) →
    round n delay lastErr m.

Lemma do_loop_round n delay lastErr m : round n delay lastErr m.
Proof.
  destruct (waitErr (env n)) as [e|] eqn:Hw.
  { eapply round_unsent. intros f. simpl. by rewrite Hw. }
  destruct (newRequestErr (baseURL c ++ path)) as [e|] eqn:Hn.
  { eapply round_unsent. intros f. simpl. by rewrite Hw, Hn. }
  destruct (reply (env n) req) as [resp|err] eqn:Hr.
  - destruct (RespStatus resp =? 200) eqn:H200.
    { apply (round_answered _ _ _ _ resp); [done|by apply Z.eqb_eq|].
      intros f. simpl. rewrite Hw, Hn, Hr. simpl. by rewrite H200. }
    destruct ((RespStatus resp =? 429) || (RespStatus resp =? 503)) eqn:Hretry.
    2: { eapply round_failed. intros f. simpl. rewrite Hw, Hn, Hr. simpl.
         by rewrite H200, Hretry. }
    destruct (maxRetryDelay c <? retry_delay (Ok resp) delay) eqn:Hmax.
    { eapply round_failed. intros f. simpl. rewrite Hw, Hn, Hr. simpl.
      rewrite H200, Hretry. simpl. unfold handleRetryStatus. cbn [RetryAfter].
      unfold retry_delay in Hmax. by rewrite Hmax. }
    destruct (backoff (env n) (retry_delay (Ok resp) delay)) as [ce|] eqn:Hb.
    { eapply round_failed. intros f. simpl. rewrite Hw, Hn, Hr. simpl.
      rewrite H200, Hretry. simpl. unfold handleRetryStatus, waitWithBackoff.
      cbn [RetryAfter]. unfold retry_delay in Hmax, Hb. by rewrite Hmax, Hb. }
    eapply round_again; rewrite Hr; [by apply Z.ltb_ge|].
    intros f. cbn [do_loop]. rewrite Hw, Hn, Hr. cbn [handleResponse].
    rewrite H200, Hretry. cbn [negb]. unfold handleRetryStatus, waitWithBackoff.
    cbn [RetryAfter]. unfold retry_delay in *. by rewrite Hmax, Hb.
  - destruct (ctxErr (env n)) as [ce|] eqn:Hc.
    { eapply round_failed. intros f. simpl. rewrite Hw, Hn, Hr. simpl.
      unfold handleNetworkError. by rewrite Hc. }
    destruct (maxRetryDelay c <? delay) eqn:Hmax.
    { eapply round_failed. intros f. simpl. rewrite Hw, Hn, Hr. simpl.
      unfold handleNetworkError. by rewrite Hc, Hmax. }
    destruct (backoff (env n) delay) as [ce|] eqn:Hb.
    { eapply round_failed. intros f. simpl. rewrite Hw, Hn, Hr. simpl.
      unfold handleNetworkError, waitWithBackoff. by rewrite Hc, Hmax, Hb. }
    eapply round_again; rewrite Hr; [by apply Z.ltb_ge|].
    intros f. cbn [do_loop]. rewrite Hw, Hn, Hr. cbn [handleResponse].
    unfold handleNetworkError, waitWithBackoff. by rewrite Hc, Hmax, Hb.
Qed.
End Rounds.

Lemma do_loop_sound c nre env method path fuel n delay lastErr m o :
  do_loop c nre fuel env method path n delay lastErr m = Some o →
  Forall (λ req, req = build_request c method path) (sent o) ∧
  Forall (λ d, d ≤ maxRetryDelay c) (sleeps o) ∧
  (length (sleeps o) ≤ length (sent o) ≤ S (length (sleeps o)))%nat ∧
  metrics o = Nat.iter (length (sleeps o)) IncJiraRetry m ∧
  match result o with
  | (Some resp, None) =>
    RespStatus resp = 200 ∧ length (sent o) = S (length (sleeps o)) ∧
    reply (env (n + length (sleeps o))%nat) (build_request c method path) = Ok resp
  | (None, Some _) => True
  | _ => False
  end.
Proof.
  revert n delay lastErr m o. induction fuel as [|fuel IH]; intros n delay lastErr m o H; [done|].
  destruct (do_loop_round c nre env method path n delay lastErr m)
    as [e He|e He|resp Hr Hs He|e slept Hmax He]; rewrite He in H.
  - simplify_eq/=. split_and!; try done; try lia; constructor.
  - simplify_eq/=. split_and!; try done; try lia; repeat constructor.
  - simplify_eq/=. rewrite Nat.add_0_r. split_and!; try done; try lia; repeat constructor.
  - apply bind_Some in H as (o' & Ho & H). simplify_eq/=.
    destruct (IH _ _ _ _ _ Ho) as (H1 & H2 & H3 & H4 & H5).
    split_and!; try lia; [by constructor|by constructor| |].
    + by rewrite H4, <- Nat.iter_succ_r.
    + destruct (result o') as [[resp|] [e'|]]; try done.
      destruct H5 as (Hs & Hl & Hr). split_and!; [done|lia|]. rewrite <- Hr. do 2 f_equal. lia.
Qed.

(** More fuel does not change the outcome. *)
Lemma do_loop_mono c nre env method path fuel fuel' n delay lastErr m o :
  do_loop c nre fuel env method path n delay lastErr m = Some o → (fuel ≤ fuel')%nat →
  do_loop c nre fuel' env method path n delay lastErr m = Some o.
Proof.
  revert fuel' n delay lastErr m o.
  induction fuel as [|fuel IH]; intros [|fuel'] n delay lastErr m o H Hf; try done; [lia|].
  destruct (do_loop_round c nre env method path n delay lastErr m)
    as [e He|e He|resp Hr Hs He|e slept Hmax He]; rewrite He in *; try done.
  apply bind_Some in H as (o' & Ho & H). rewrite (IH fuel' _ _ _ _ _ Ho) by lia. exact H.
Qed.

(** No reply of the server carries a readable [Retry-After]. *)
Definition no_hint (env : nat → attempt) : Prop :=
  ∀ n req resp, reply (env n) req = Ok resp →
    RetryAfter resp = ""%string ∨ (Atoi (RetryAfter resp)).2 ≠ None.

Lemma no_hint_delay env n req delay :
  no_hint env → retry_delay (reply (env n) req) delay = delay.
Proof.
  intros Hh. unfold retry_delay. destruct (reply (env n) req) as [resp|] eqn:Hr; [|done].
  destruct (Hh _ _ _ Hr) as [Hn|Hn]; case_decide; try done.
  destruct (Atoi (RetryAfter resp)) as [sec [e|]]; done.
Qed.

(** Without hints the waits double, so the loop ends after as many rounds as it
    takes to exceed the maximal delay. *)
Lemma do_loop_doubles c nre env method path k n delay lastErr m :
  no_hint env → 0 < delay → maxRetryDelay c < 2 ^ 62 →
  maxRetryDelay c < delay * 2 ^ Z.of_nat k →
  ∃ o, do_loop c nre (S k) env method path n delay lastErr m = Some o ∧
    (length (sleeps o) ≤ k)%nat ∧
    sleeps o = (λ i, delay * 2 ^ Z.of_nat i) <$> seq 0 (length (sleeps o)).
Proof.
  intros Hh Hd Hmax. revert n delay lastErr m Hd.
  induction k as [|k IH]; intros n delay lastErr m Hd Hk;
    destruct (do_loop_round c nre env method path n delay lastErr m)
    as [e He|e He|resp Hr Hs He|e slept Hs He]; rewrite He;
    try (eexists; split_and!; [reflexivity|simpl; lia|reflexivity]);
    unfold slept in *; rewrite no_hint_delay in * by done.
  - rewrite Z.pow_0_r in Hk. lia.
  - rewrite Nat2Z.inj_succ, Z.pow_succ_r in Hk by lia.
    rewrite int64_id by (unfold in_int64, retryBackoffMultiplier; lia).
    destruct (IH (S n) (delay * retryBackoffMultiplier) (Some e) (IncJiraRetry m))
      as (o & Ho & Hl & Hsl); [unfold retryBackoffMultiplier; lia..|].
    rewrite Ho. eexists. split_and!; [reflexivity|simpl; lia|].
    cbn [sleeps length seq fmap list_fmap]. f_equal; [lia|].
    rewrite <- seq_shift, <- list_fmap_compose.
    rewrite Hsl at 1. apply list_fmap_ext. intros i x _. unfold compose, retryBackoffMultiplier.
    rewrite Nat2Z.inj_succ, Z.pow_succ_r by lia. lia.
Qed.

(** ** Query strings *)

Lemma parse_pair_split k v k' v' :
  61 ∉ k → 61 ∉ v → unescape k = Some k' → unescape v = Some v' →
  parse_pair (k ++ 61 :: v) = Some (of_bytes k', of_bytes v').
Proof.
  intros Hk Hv Ek Ev. unfold parse_pair.
  rewrite split_on_app, split_on_nosep by done. by rewrite Ek; simpl; rewrite Ev.
Qed.

Definition no_sep (bs : list Z) : Prop := (38 ∉ bs) ∧ (61 ∉ bs).

Lemma literal_no_sep bs : Forall literal bs → no_sep bs.
Proof.
  intros H. split; intros Hin; rewrite Forall_forall in H;
    destruct (H _ Hin) as (_ & _ & ? & ?); done.
Qed.

Lemma QueryEscape_no_sep s : no_sep (bytes (QueryEscape s)).
Proof.
  rewrite bytes_QueryEscape. split; intros Hin;
    apply escape_range in Hin as (_ & ? & ?); auto using bytes_range.
Qed.

(** One [key=value] of a query; [v] is [escaped] when it is the text [s] in a
    form [url.ParseQuery] reads back. *)
Definition escaped (v s : string) : Prop :=
  no_sep (bytes v) ∧ unescape (bytes v) = Some (bytes s).

Lemma escaped_QueryEscape s : escaped (QueryEscape s) s.
Proof.
  split; [apply QueryEscape_no_sep|]. rewrite bytes_QueryEscape.
  apply unescape_escape, bytes_range.
Qed.

Lemma escaped_literal s : Forall literal (bytes s) → escaped s s.
Proof. intros H. split; [by apply literal_no_sep|by apply unescape_literal]. Qed.

Lemma escaped_pair k k' v v' :
  escaped k k' → escaped v v' →
  (38 ∉ bytes (k ++ "=" ++ v)%string) ∧
  parse_pair (bytes (k ++ "=" ++ v)%string) = Some (k', v').
Proof.
  intros [[Hk1 Hk2] Ek] [[Hv1 Hv2] Ev]. rewrite bytes_app.
  change (bytes ("=" ++ v)%string) with (61 :: bytes v). split.
  - rewrite not_elem_of_app, not_elem_of_cons. done.
  - rewrite (parse_pair_split _ _ _ _ Hk2 Hv2 Ek Ev). by rewrite !of_bytes_bytes.
Qed.

Lemma ParseQuery_cons p rest kv kvs :
  38 ∉ bytes p → parse_pair (bytes p) = Some kv → ParseQuery rest = Some kvs →
  ParseQuery (p ++ "&" ++ rest)%string = Some (kv :: kvs).
Proof.
  intros Hp Ep Er. unfold ParseQuery in *. rewrite bytes_app.
  change (bytes ("&" ++ rest)%string) with (38 :: bytes rest).
  rewrite split_on_app by done. cbn [mapM].
  rewrite Ep. simpl. by rewrite Er.
Qed.

Lemma ParseQuery_last p kv :
  38 ∉ bytes p → parse_pair (bytes p) = Some kv → ParseQuery p = Some [kv].
Proof. intros Hp Ep. unfold ParseQuery. rewrite split_on_nosep by done. simpl. by rewrite Ep. Qed.

Ltac literal_key := apply escaped_literal; repeat constructor; done.

(** A value returned by an operation comes from a 200 reply to its request. *)
Lemma responded_ok {T} c newRequestErr fuel env path m o (k : Response → res error T) fail v :
  do c newRequestErr fuel env path m = Some o → responded (result o) k fail = Ok v →
  ∃ n resp, reply (env n) (build_request c "GET" path) = Ok resp ∧ RespStatus resp = 200 ∧
    k resp = Ok v.
Proof.
  intros Ho Hv. apply do_loop_sound in Ho as (_ & _ & _ & _ & Hr). unfold responded in Hv.
  destruct (result o) as [[resp|] [e|]]; try done. destruct Hr as (Hs & _ & Hr). eauto.
Qed.

Lemma SearchIssues_ok c newRequestErr elapsed jql startAt max fuel env m v m' :
  0 < max → SearchIssues c newRequestErr elapsed jql startAt max fuel env m = Some (Ok v, m') →
  ∃ n resp, reply (env n) (build_request c "GET" (search_path jql startAt max)) = Ok resp ∧
    RespStatus resp = 200 ∧
    DecodeBody dec_SearchResponse (RespBody resp) zero_SearchResponse = (v, None).
Proof.
  intros Hmax H. unfold SearchIssues, instrumented, searchIssues in H.
  rewrite (proj2 (Z.leb_gt _ _)) in H by done.
  apply bind_Some in H as ([r0 m0] & H0 & H). apply bind_Some in H0 as (o & Ho & H0).
  simplify_eq/=. destruct (responded_ok _ _ _ _ _ _ _ _ _ _ Ho H) as (n & resp & Hr & Hs & Hk).
  exists n, resp. split_and!; [done..|].
  destruct (DecodeBody _ _ _) as [v' [e|]]; [done|]. by injection Hk as ->.
Qed.

Lemma GetIssue_ok c newRequestErr elapsed key fuel env m v m' :
  GetIssue c newRequestErr elapsed key fuel env m = Some (Ok v, m') →
  ∃ n resp, reply (env n) (build_request c "GET"
              ("/rest/api/2/issue/" ++ key ++ "?expand=changelog")) = Ok resp ∧
    RespStatus resp = 200 ∧
    DecodeBody dec_Issue (RespBody resp) zero_Issue = (v, None).
Proof.
  intros H. unfold GetIssue, instrumented, fetchIssue in H.
  apply bind_Some in H as ([r0 m0] & H0 & H). apply bind_Some in H0 as (o & Ho & H0).
  simplify_eq/=. destruct (responded_ok _ _ _ _ _ _ _ _ _ _ Ho H) as (n & resp & Hr & Hs & Hk).
  exists n, resp. split_and!; [done..|].
  destruct (DecodeBody _ _ _) as [v' [e|]]; [done|]. by injection Hk as ->.
Qed.

(** ** Properties *)

(** C14. A call of the client that returns has sent only copies of one GET
    request, waited at most [maxRetryDelay] each time, counted one retry per
    wait, and returned either an error or a response, never both nor neither;
    the response has status 200 and answers the last request sent. *)
Theorem do_sound c newRequestErr fuel env path m o :
  do c newRequestErr fuel env path m = Some o →
  Forall (λ req, req = build_request c "GET" path) (sent o) ∧
  Forall (λ d, d ≤ maxRetryDelay c) (sleeps o) ∧
  (length (sleeps o) ≤ length (sent o) ≤ S (length (sleeps o)))%nat ∧
  metrics o = Nat.iter (length (sleeps o)) IncJiraRetry m ∧
  match result o with
  | (Some resp, None) =>
    RespStatus resp = 200 ∧ length (sent o) = S (length (sleeps o)) ∧
    reply (env (length (sleeps o))) (build_request c "GET" path) = Ok resp
  | (None, Some _) => True
  | _ => False
  end.
Proof. apply do_loop_sound. Qed.

(** C15. When the server gives no readable Retry-After hint, a call returns
    whatever happens: with a positive first delay, after at most [k] waits once
    [2^k] times that delay exceeds the maximal one, and the waits are
    [minRetryDelay] times 1, 2, 4, ... *)
Theorem do_terminates c newRequestErr env path m k fuel :
  no_hint env → 0 < minRetryDelay c → maxRetryDelay c < 2 ^ 62 →
  maxRetryDelay c < minRetryDelay c * 2 ^ Z.of_nat k → (S k ≤ fuel)%nat →
  ∃ o, do c newRequestErr fuel env path m = Some o ∧
    (length (sleeps o) ≤ k)%nat ∧
    sleeps o = (λ i, minRetryDelay c * 2 ^ Z.of_nat i) <$> seq 0 (length (sleeps o)).
Proof.
  intros Hh Hmin Hmax Hk Hf.
  destruct (do_loop_doubles c newRequestErr env "GET" path k 0 _ None m Hh Hmin Hmax Hk)
    as (o & Ho & Hl & Hs).
  exists o. split_and!; [|done|done]. by eapply do_loop_mono.
Qed.

(** A server that answers every request with 429 and a Retry-After that is
    not above the maximal delay keeps the call retrying forever: no fuel is
    enough. *)
Theorem do_unbounded_retry c newRequestErr path sec fuel resp m :
  newRequestErr (baseURL c ++ path)%string = None →
  RespStatus resp = 429 → Atoi (RetryAfter resp) = (sec, None) →
  int64 (sec * Second) ≤ maxRetryDelay c →
  do c newRequestErr fuel (λ _, mkAttempt None (λ _, Ok resp) None (λ _, None)) path m = None.
Proof.
  intros Hn Hs Ha Hmax. unfold do. set (env := λ _ : nat, _).
  assert (Hra : RetryAfter resp ≠ ""%string) by (intros He; rewrite He in Ha; by vm_compute in Ha).
  generalize 0%nat (@None error) (minRetryDelay c).
  revert m. induction fuel as [|fuel IH]; intros m n lastErr delay; [done|].
  simpl. rewrite Hn, Hs. cbn [negb Z.eqb Pos.eqb orb].
  unfold handleRetryStatus, waitWithBackoff. cbn [RetryAfter backoff].
  rewrite decide_True by done. rewrite Ha, (proj2 (Z.ltb_ge _ _)) by done.
  simpl. by rewrite IH.
Qed.

(** The body of a response that is retried is closed before the error is
    read from it: when the retries are exhausted the caller gets no Jira API
    error, only a failure to read a closed body, whatever the server said. *)
Theorem retry_status_loses_api_error c a resp delay content rerr :
  RespBody resp = Stream content rerr false →
  let '(_, _, errResp, _) := handleRetryStatus c a resp delay in
  ∃ e, errResp = Some e ∧ errors_as_api e = None ∧
    (backoff a (retry_delay (Ok resp) delay) = None → errors_is e errReadOnClosedBody = true).
Proof.
  intros Hb. unfold handleRetryStatus, retry_delay. cbn [RetryAfter RespBody RespStatus].
  rewrite Hb. cbn [Close]. destruct rerr;
  (destruct (maxRetryDelay c <? _); [eexists; split_and!; reflexivity|];
   unfold waitWithBackoff; destruct (backoff _ _) eqn:Hbk; eexists; split_and!; try reflexivity;
    intros H; discriminate).
Qed.

(** C37. Error statuses.  A response whose status is none of 200, 429 and 503
    (which is retried) and whose body can be read ends the call at once, at
    whatever attempt: one request, no wait, no retry, and the error is the Jira
    API error with the status and the raw body.  Its message is the body if that
    is not JSON, or is JSON of other types than Jira's error document has; for
    any other JSON the message is empty, whether it is Jira's document or not;
    and the messages and the errors by field of Jira's document are those of the
    error (of a repeated field, the last). *)
Theorem error_status_reported c newRequestErr env method path fuel n delay lastErr m resp content :
  waitErr (env n) = None → newRequestErr (baseURL c ++ path)%string = None →
  reply (env n) (build_request c method path) = Ok resp →
  RespStatus resp ≠ 200 → RespStatus resp ≠ 429 → RespStatus resp ≠ 503 →
  ReadAll (RespBody resp) = Ok content →
  ∃ e, do_loop c newRequestErr (S fuel) env method path n delay lastErr m
       = Some (mkOutcome (None, Some (EApi e)) [build_request c method path] [] m) ∧
    StatusCode e = RespStatus resp ∧ Body e = content ∧
    match parse_document content with
    | None => Message e = content ∧ ErrorMessages e = [] ∧ Errors e = ∅
    | Some j =>
      (if (dec_ApiError j (mkApiError (RespStatus resp) content "" [] ∅)).2
       then Message e = "" else Message e = content) ∧
      (∀ msgs errs, j = error_document msgs errs →
         Message e = "" ∧ ErrorMessages e = msgs ∧ Errors e = list_to_map (reverse errs))
    end.
Proof.
  intros Hw Hn Hr H1 H2 H3 Hb. cbn [do_loop]. rewrite Hw, Hn, Hr. cbn [handleResponse].
  rewrite (proj2 (Z.eqb_neq _ _) H1), (proj2 (Z.eqb_neq _ _) H2), (proj2 (Z.eqb_neq _ _) H3).
  cbn [negb orb]. unfold handleErrorResponse. rewrite Hb. unfold Unmarshal.
  destruct (parse_document content) as [j|]; [|by eexists].
  destruct (dec_ApiError_keeps j (mkApiError (RespStatus resp) content "" [] ∅)) as (Hs & Hbd & Hm).
  assert (Hdoc : ∀ msgs errs, j = error_document msgs errs →
    dec_ApiError j (mkApiError (RespStatus resp) content "" [] ∅)
    = (mkApiError (RespStatus resp) content "" msgs (list_to_map (reverse errs)), true))
    by (intros msgs errs ->; apply dec_error_document).
  destruct (dec_ApiError j _) as [e ok]. simpl in *. eexists. split; [reflexivity|].
  destruct ok; simpl; (split_and!; [done..|]); intros msgs errs Hj;
    by injection (Hdoc msgs errs Hj) as ->.
Qed.

(** C29. The JQL text, the page offset and the page size reach the server intact:
    the query string of a search request parses back to exactly those values. *)
Theorem search_query_roundtrip jql startAt max :
  in_int64 startAt → in_int64 max →
  ∃ q, search_path jql startAt max = ("/rest/api/2/search?" ++ q)%string ∧
    ParseQuery q = Some [("jql", jql); ("fields", "*all"); ("startAt", FormatInt startAt);
                         ("maxResults", FormatInt max)]%string.
Proof.
  intros Hs Hm.
  exists (("jql=" ++ QueryEscape jql) ++ "&" ++ ("fields=*all") ++ "&"
          ++ ("startAt=" ++ FormatInt startAt) ++ "&" ++ ("maxResults=" ++ FormatInt max))%string.
  split; [unfold search_path; rewrite !string_app_assoc; reflexivity|].
  destruct (escaped_pair "jql" "jql" (QueryEscape jql) jql) as [H1 H1'];
    [literal_key|apply escaped_QueryEscape|].
  destruct (escaped_pair "fields" "fields" "*all" "*all") as [H2 H2']; [literal_key..|].
  destruct (escaped_pair "startAt" "startAt" (FormatInt startAt) (FormatInt startAt))
    as [H3 H3']; [literal_key|by apply escaped_literal, FormatInt_literal|].
  destruct (escaped_pair "maxResults" "maxResults" (FormatInt max) (FormatInt max))
    as [H4 H4']; [literal_key|by apply escaped_literal, FormatInt_literal|].
  repeat (apply ParseQuery_cons; [done..|]). by apply ParseQuery_last.
Qed.

Definition projects_params (s limit startAt : string) : gmap string string :=
  <["query"%string := s]> (<["searchQuery"%string := s]>
    (<["maxResults"%string := limit]> (<["startAt"%string := startAt]> ∅))).

Lemma projects_params_keys s limit startAt :
  merge_sort string_le (map_to_list (projects_params s limit startAt)).*1
  = ["maxResults"; "query"; "searchQuery"; "startAt"]%string.
Proof. vm_compute. reflexivity. Qed.

(** Page [page] of size [limit] of the project list asks the server for the
    projects from [page * limit] on, with the search text intact; for any page
    and limit that fit an int32 the offset does not overflow. *)
Theorem projects_query_roundtrip s limit page :
  s ≠ ""%string → in_int32 limit → in_int32 page → 0 < limit → 0 ≤ page →
  int64 (page * limit) = page * limit ∧
  ∃ q, projects_path s limit (int64 (page * limit)) = ("/rest/api/2/project?" ++ q)%string ∧
    ParseQuery q = Some [("maxResults", FormatInt limit); ("query", s); ("searchQuery", s);
                         ("startAt", FormatInt (page * limit))]%string.
Proof.
  intros Hs Hl Hp Hl0 Hp0.
  assert (Hin : in_int64 (page * limit)) by (unfold in_int32, in_int64 in *; nia).
  rewrite (int64_id _ Hin). split; [done|].
  set (L := FormatInt limit). set (S := FormatInt (page * limit)).
  assert (He : projects_path s limit (page * limit)
               = ("/rest/api/2/project" ++ "?" ++ Encode (projects_params s L S))%string).
  { unfold projects_path. rewrite !(decide_True (P := s ≠ ""%string)) by done.
    fold L S. rewrite decide_True; [done|]. apply insert_non_empty. }
  exists (Encode (projects_params s L S)). split; [exact He|].
  unfold Encode. rewrite projects_params_keys. cbn [fmap list_fmap String.concat].
  change (projects_params s L S !! "maxResults"%string) with (Some L).
  change (projects_params s L S !! "query"%string) with (Some s).
  change (projects_params s L S !! "searchQuery"%string) with (Some s).
  change (projects_params s L S !! "startAt"%string) with (Some S).
  cbn [default].
  destruct (escaped_pair "maxResults" "maxResults" (QueryEscape L) L) as [H1 H1'];
    [literal_key|apply escaped_QueryEscape|].
  destruct (escaped_pair "query" "query" (QueryEscape s) s) as [H2 H2'];
    [literal_key|apply escaped_QueryEscape|].
  destruct (escaped_pair "searchQuery" "searchQuery" (QueryEscape s) s) as [H3 H3'];
    [literal_key|apply escaped_QueryEscape|].
  destruct (escaped_pair "startAt" "startAt" (QueryEscape S) S) as [H4 H4'];
    [literal_key|apply escaped_QueryEscape|].
  repeat (apply ParseQuery_cons; [done..|]). by apply ParseQuery_last.
Qed.

(** The client built from a configuration that [config.Load] accepts (and
    whose delays do not overflow a Duration) asks for pages of 50 to 1000
    issues, has positive retry delays of the configured milliseconds and a rate
    limit that is not zero or negative. *)
Theorem New_clamped cfg :
  well_formed cfg → MinRetryDelay (Jira cfg) * Millisecond < 2 ^ 63 →
  MaxRetryDelay (Jira cfg) * Millisecond < 2 ^ 63 →
  let c := New (Jira cfg) in
  50 ≤ maxResults c ≤ 1000 ∧
  (50 ≤ MaxResults (Jira cfg) ≤ 1000 → maxResults c = MaxResults (Jira cfg)) ∧
  0 < minRetryDelay c ∧ minRetryDelay c = MinRetryDelay (Jira cfg) * Millisecond ∧
  0 < maxRetryDelay c ∧ maxRetryDelay c = MaxRetryDelay (Jira cfg) * Millisecond ∧
  float_nonpos (limiter c) = false.
Proof.
  intros (_ & Hres & Hmin & Hmax & Hrate & _) Hmin' Hmax'. unfold New.
  cbn [maxResults minRetryDelay maxRetryDelay limiter].
  unfold minAllowedResults, maxAllowedResults, defaultMaxResults.
  rewrite Hrate. rewrite !int64_id by (unfold in_int64, Millisecond in *; lia).
  rewrite (proj2 (Z.leb_gt (MaxResults _) 0)) by lia.
  assert (∀ n, 0 < n → (n * Millisecond =? 0) = false) as Hz
    by (intros n Hn; apply Z.eqb_neq; unfold Millisecond; lia).
  rewrite !Hz by done. unfold Millisecond in *.
  split_and!; try lia; try done;
    repeat match goal with |- context [?a <? ?b] => destruct (Z.ltb_spec a b) end; lia.
Qed.

(** The project list is understood in both of Jira's formats: a plain array
    is the whole list, marked as the last page; an object is decoded as a page;
    a document of another shape, or no document at all, is an error. *)
Theorem parseProjectsResponse_formats status hint content :
  let r := parseProjectsResponse (mkResponse status hint (Stream content None false)) in
  match parse_document content with
  | Some (JArr l) =>
    let '(ps, ok) := dec_slice zero_Project dec_Project (JArr l) [] in
    if ok then r = Ok (mkProjectsResponse ps (Z.of_nat (length l)) 0 0 true)
    else is_ok r = false
  | Some (JObj ms) =>
    let '(p, ok) := dec_ProjectsResponse (JObj ms) zero_ProjectsResponse in
    if ok then r = Ok p else is_ok r = false
  | Some JNull => r = Ok (mkProjectsResponse [] 0 0 0 true)
  | _ => is_ok r = false
  end.
Proof.
  intros r. unfold r, parseProjectsResponse, Unmarshal. cbn [ReadAll RespBody].
  destruct (parse_document content) as [[| | | |l|ms]|]; try reflexivity.
  - assert (Hlen : length (dec_slice zero_Project dec_Project (JArr l) []).1 = length l)
      by (simpl; by rewrite length_fmap, length_imap).
    destruct (dec_slice _ _ (JArr l) []) as [ps [|]]; simpl in *; [by rewrite Hlen|done].
  - cbn [dec_slice type_error].
    by destruct (dec_ProjectsResponse (JObj ms) zero_ProjectsResponse) as [p [|]].
Qed.

(** C28. A search that returns a value has decoded it from the body of a
    200 reply to the request for that page (the client's page size when none is
    given); it never dereferences nil, and counts itself once under its
    outcome. *)
Theorem SearchIssues_result c newRequestErr elapsed jql startAt max fuel env m r m' :
  SearchIssues c newRequestErr elapsed jql startAt max fuel env m = Some (r, m') →
  let size := if max <=? 0 then maxResults c else max in
  match r with
  | Ok v => ∃ n resp,
      reply (env n) (build_request c "GET" (search_path jql startAt size)) = Ok resp ∧
      RespStatus resp = 200 ∧
      DecodeBody dec_SearchResponse (RespBody resp) zero_SearchResponse = (v, None)
  | Err e => e ≠ nil_dereference
  end ∧
  ∃ retries, m' = ObserveJiraRequest "search_issues" elapsed (is_ok r)
                    (Nat.iter retries IncJiraRetry m).
Proof.
  intros H size. unfold SearchIssues, instrumented, searchIssues in H.
  apply bind_Some in H as ([r0 m0] & H0 & H). apply bind_Some in H0 as (o & Ho & H0).
  apply do_loop_sound in Ho as (_ & _ & _ & Hm & Hr). simplify_eq/=. split.
  2: { rewrite Hm. by eexists. }
  unfold responded. destruct (result o) as [[resp|] [e|]]; try done.
  destruct Hr as (Hs & _ & Hr).
  destruct (DecodeBody _ _ _) as [v [e|]] eqn:Hd; [done|]. eauto.
Qed.

(** ** Witnesses *)

Definition sample_client : Client :=
  New (mkJiraConfig "https://jira.example/" "secret" 5 1000 60000 DefaultRateLimit).

(** A server that is unavailable, then unreachable, then answers. *)
Definition sample_env (n : nat) : attempt :=
  mkAttempt None
    (λ _, match n with
          | 0%nat => Ok (mkResponse 503 "" (Stream "busy" None false))
          | 1%nat => Err (ENew [L "connection refused"])
          | _ => Ok (mkResponse 200 "" (Stream "{}" None false))
          end) None (λ _, None).

Definition run_sample : option outcome :=
  do sample_client (λ _, None) 3 sample_env "/rest/api/2/project" None.

Lemma do_sound_witness :
  sleeps <$> run_sample = Some [1 * Second; 2 * Second] ∧
  (λ o, URL <$> sent o) <$> run_sample
    = Some (replicate 3 "https://jira.example/rest/api/2/project"%string) ∧
  ∃ o, run_sample = Some o ∧ Forall (λ d, d ≤ maxRetryDelay sample_client) (sleeps o).
Proof.
  split; [vm_compute; reflexivity|]. split; [vm_compute; reflexivity|].
  destruct run_sample as [o|] eqn:H; [|vm_compute in H; discriminate].
  exists o. split; [done|].
  exact (proj1 (proj2 (do_sound _ _ _ _ _ _ _ H))).
Defined.

(** With the default delays (1 s, 60 s) six waits are enough. *)
Lemma do_terminates_witness :
  no_hint sample_env ∧
  ∃ o, do sample_client (λ _, None) 7 sample_env "/rest/api/2/project" None = Some o ∧
    (length (sleeps o) ≤ 6)%nat.
Proof.
  assert (Hh : no_hint sample_env).
  { intros [|[|n]] req resp H; simpl in H; simplify_eq; by left. }
  split; [exact Hh|].
  destruct (do_terminates sample_client (λ _, None) sample_env "/rest/api/2/project" None 6 7 Hh)
    as (o & Ho & Hl & _); [by vm_compute..|lia|].
  by exists o.
Defined.

Lemma do_unbounded_retry_witness :
  let resp := mkResponse 429 "0" NoBody in
  do sample_client (λ _, None) (Z.to_nat 1000000)
    (λ _, mkAttempt None (λ _, Ok resp) None (λ _, None)) "/x" None = None.
Proof.
  intros resp. generalize (Z.to_nat 1000000). intros fuel.
  by apply (do_unbounded_retry sample_client (λ _, None) "/x" 0 fuel resp None).
Defined.

Lemma retry_status_loses_api_error_witness :
  ∃ e, (handleRetryStatus sample_client (mkAttempt None (λ _, Err (EJoin [])) None (λ _, None))
          (mkResponse 429 "" (Stream "slow down" None false)) (100 * Second)).1.2 = Some e ∧
    errors_as_api e = None.
Proof.
  pose proof (retry_status_loses_api_error sample_client
    (mkAttempt None (λ _, Err (EJoin [])) None (λ _, None))
    (mkResponse 429 "" (Stream "slow down" None false)) (100 * Second) "slow down" None eq_refl)
    as H.
  destruct (handleRetryStatus _ _ _ _) as [[[act d] errResp] sl].
  destruct H as (e & He & Ha & _). by exists e.
Defined.

(** Every request is answered with this status and body. *)
Definition refusing_env (status : Z) (content : string) (_ : nat) : attempt :=
  mkAttempt None (λ _, Ok (mkResponse status "" (Stream content None false))) None (λ _, None).

Lemma error_status_reported_witness :
  ∃ e, do sample_client (λ _, None) 1 (refusing_env 404 "no such page") "/x" None
       = Some (mkOutcome (None, Some (EApi e)) [build_request sample_client "GET" "/x"] [] None) ∧
    StatusCode e = 404 ∧ Message e = "no such page"%string.
Proof.
  destruct (error_status_reported sample_client (λ _, None) (refusing_env 404 "no such page")
    "GET" "/x" 0 0 (minRetryDelay sample_client) None None
    (mkResponse 404 "" (Stream "no such page" None false)) "no such page")
    as (e & He & Hs & _ & Hm); [done..|].
  exists e. split; [exact He|]. split; [exact Hs|].
  assert (Hp : parse_document "no such page" = None) by (vm_compute; reflexivity).
  rewrite Hp in Hm. apply Hm.
Defined.

Lemma search_query_roundtrip_witness :
  ∃ q, search_path "project=A&B +1" 50 50 = ("/rest/api/2/search?" ++ q)%string ∧
    ParseQuery q = Some [("jql", "project=A&B +1"); ("fields", "*all"); ("startAt", "50");
                         ("maxResults", "50")]%string.
Proof. apply (search_query_roundtrip "project=A&B +1" 50 50); by vm_compute. Defined.

Lemma projects_query_roundtrip_witness :
  int64 (3 * 20) = 60 ∧
  ∃ q, projects_path "my project" 20 (int64 (3 * 20)) = ("/rest/api/2/project?" ++ q)%string ∧
    ParseQuery q = Some [("maxResults", FormatInt 20); ("query", "my project");
                         ("searchQuery", "my project"); ("startAt", FormatInt (3 * 20))]%string.
Proof. apply (projects_query_roundtrip "my project" 20 3); by vm_compute. Defined.

Lemma New_clamped_witness :
  let cfg := resolved Config.sample_env zero_AppConfig in
  well_formed cfg ∧ maxResults (New (Jira cfg)) = 50 ∧ 0 < minRetryDelay (New (Jira cfg)).
Proof.
  intros cfg. assert (Hw : well_formed cfg) by (apply resolved_well_formed; by vm_compute).
  split; [exact Hw|]. split; [by vm_compute|].
  destruct (New_clamped cfg Hw) as (_ & _ & Hmin & _); [by vm_compute..|]. exact Hmin.
Defined.

Lemma SearchIssues_result_witness :
  ∃ r m', SearchIssues sample_client (λ _, None) 5 "project=A" 0 50 3%nat sample_env None = Some (r, m') ∧
    ∃ retries, m' = ObserveJiraRequest "search_issues" 5 (is_ok r) (Nat.iter retries IncJiraRetry None).
Proof.
  destruct (SearchIssues sample_client (λ _, None) 5 "project=A" 0 50 3%nat sample_env None)
    as [[r m']|] eqn:H; [|vm_compute in H; discriminate].
  exists r, m'. split; [done|].
  exact (proj2 (SearchIssues_result _ _ _ _ _ _ _ _ _ _ _ H)).
Defined.
