(* ===== verification/Manager.v ===== *)
(** * The in-memory registry of sync jobs (internal/service/sync/manager.go)

    Jobs are Go pointers shared by the two maps [byID] and [byKey], so the
    model keeps an explicit store [heap] (append-only; a pointer is an index)
    and the maps hold pointers.  [uuid.NewString] (third party) and
    [time.Now] are arguments of the operations that call them. *)

From S2P Require Import Prelude GoLang.
Local Open Scope Z_scope.

(** ** Time *)

(** [time.Time] as nanoseconds since the zero time, [time.Duration] in ns. *)
Definition zero_time : Z := 0.
Definition Second : Z := 1000000000.
Definition Minute : Z := 60 * Second.

(** [Time.Sub] saturates at the bounds of [time.Duration]. *)
Definition time_sub (t u : Z) : Z := Z.max min_int64 (Z.min max_int64 (t - u)).

(** ** Data *)

(** go: internal/service/sync/manager.go 11-13 jobTTL *)
Definition jobTTL : Z := 10 * Minute.

(** go: internal/service/sync/manager.go 15-20 JobStateRunning *)
Definition JobStateRunning : Z := 1.
(** go: internal/service/sync/manager.go 21-21 JobStateCompleted *)
Definition JobStateCompleted : Z := 2.
(** go: internal/service/sync/manager.go 22-23 JobStateFailed *)
Definition JobStateFailed : Z := 3.

(** go: internal/service/sync/manager.go 25-37 job *)
Record job := mkJob {
  job_id : string;
  job_projectKey : string;
  job_state : Z;
  job_processed : Z;
  job_total : Z;
  job_errMsg : string;
  job_startedAt : Z;
  job_finishedAt : Z;
}.

(** go: internal/service/sync/manager.go 39-49 JobSnapshot *)
Record JobSnapshot := mkSnapshot {
  ID : string;
  ProjectKey : string;
  State : Z;
  Processed : Z;
  Total : Z;
  ErrMsg : string;
  StartedAt : Z;
  FinishedAt : Z;
}.

(** go: internal/service/sync/manager.go 51-62 job.snapshot *)
Definition snapshot (j : job) : JobSnapshot :=
  {| ID := job_id j;
     ProjectKey := job_projectKey j;
     State := job_state j;
     Processed := job_processed j;
     Total := job_total j;
     ErrMsg := job_errMsg j;
     StartedAt := job_startedAt j;
     FinishedAt := job_finishedAt j |}.

(** go: internal/service/sync/manager.go 64-71 Manager *)
Record Manager := mkManager {
  heap : list job;
  byID : gmap string nat;
  byKey : gmap string nat;
}.

(** go: internal/service/sync/manager.go 73-79 NewManager *)
Definition NewManager : Manager := {| heap := []; byID := ∅; byKey := ∅ |}.

(** go: internal/service/sync/manager.go 81-85 StartResult *)
Record StartResult := mkStartResult {
  SyncID : string;
  Started : bool;
}.

(** ** Operations *)

(** Writing through a job pointer. *)
Definition store (l : nat) (f : job → job) (m : Manager) : Manager :=
  {| heap := alter f l (heap m); byID := byID m; byKey := byKey m |}.

(** The loop body of [evictExpiredLocked]: is this job to be deleted? *)
Definition job_expired (now : Z) (j : job) : bool :=
  if decide (job_state j = JobStateRunning) then false
  else jobTTL <=? time_sub now (job_finishedAt j).

Definition expired_ptr (now : Z) (hp : list job) (l : nat) : bool :=
  match hp !! l with
  | Some j => job_expired now j
  | None => false
  end.

(** go: internal/service/sync/manager.go 186-201 Manager.evictExpiredLocked *)
Definition evictExpiredLocked (now : Z) (m : Manager) : Manager :=
  {| heap := heap m;
     byID := filter (λ p, expired_ptr now (heap m) p.2 = false) (byID m);
     byKey := byKey m |}.

(** The job [Start] allocates: [processed] and [total] are zero atomics. *)
Definition new_job (uuid projectKey : string) (now : Z) : job :=
  {| job_id := uuid; job_projectKey := projectKey; job_state := JobStateRunning;
     job_processed := 0; job_total := 0; job_errMsg := "";
     job_startedAt := now; job_finishedAt := zero_time |}.

(** [uuid] is what [uuid.NewString()] returns, [now1] the reading of
    [time.Now()] in [evictExpiredLocked], [now2] the one for [startedAt].

    go: internal/service/sync/manager.go 87-113 Manager.Start *)
Definition Start (uuid : string) (now1 now2 : Z) (projectKey : string)
    (m : Manager) : Manager * StartResult :=
  let m := evictExpiredLocked now1 m in
  match byKey m !! projectKey with
  | Some l =>
    (m, {| SyncID := default "" (job_id <$> heap m !! l); Started := false |})
  | None =>
    let newJob := new_job uuid projectKey now2 in
    let l := length (heap m) in
    ({| heap := heap m ++ [newJob];
        byID := <[uuid := l]> (byID m);
        byKey := <[projectKey := l]> (byKey m) |},
     {| SyncID := uuid; Started := true |})
  end.

(** go: internal/service/sync/manager.go 115-127 Manager.Status *)
Definition Status (syncID : string) (m : Manager) : option JobSnapshot :=
  match byID m !! syncID with
  | None => None
  | Some found => snapshot <$> heap m !! found
  end.

Definition set_total (total : Z) (j : job) : job :=
  {| job_id := job_id j; job_projectKey := job_projectKey j;
     job_state := job_state j; job_processed := job_processed j;
     job_total := total; job_errMsg := job_errMsg j;
     job_startedAt := job_startedAt j; job_finishedAt := job_finishedAt j |}.

(** [atomic.Uint64.Add(1)] wraps at 2^64. *)
Definition incr_processed (j : job) : job :=
  {| job_id := job_id j; job_projectKey := job_projectKey j;
     job_state := job_state j; job_processed := uint64 (job_processed j + 1);
     job_total := job_total j; job_errMsg := job_errMsg j;
     job_startedAt := job_startedAt j; job_finishedAt := job_finishedAt j |}.

Definition finish (state : Z) (errMsg : option string) (now : Z) (j : job) : job :=
  {| job_id := job_id j; job_projectKey := job_projectKey j;
     job_state := state; job_processed := job_processed j;
     job_total := job_total j; job_errMsg := default (job_errMsg j) errMsg;
     job_startedAt := job_startedAt j; job_finishedAt := now |}.

(** The pointer is read under the lock and the counter stored after it is
    released; the two halves are [byID m !! syncID] and [store].

    go: internal/service/sync/manager.go 129-139 Manager.SetTotal *)
Definition SetTotal (syncID : string) (total : Z) (m : Manager) : Manager :=
  match byID m !! syncID with
  | Some found => store found (set_total total) m
  | None => m
  end.

(** go: internal/service/sync/manager.go 141-151 Manager.IncrProcessed *)
Definition IncrProcessed (syncID : string) (m : Manager) : Manager :=
  match byID m !! syncID with
  | Some found => store found incr_processed m
  | None => m
  end.

(** [delete(m.byKey, found.projectKey)] *)
Definition unregister (l : nat) (m : Manager) : Manager :=
  {| heap := heap m; byID := byID m;
     byKey := match heap m !! l with
              | Some j => delete (job_projectKey j) (byKey m)
              | None => byKey m
              end |}.

(** go: internal/service/sync/manager.go 153-167 Manager.Complete *)
Definition Complete (syncID : string) (now : Z) (m : Manager) : Manager :=
  match byID m !! syncID with
  | None => m
  | Some found =>
    unregister found (store found (finish JobStateCompleted None now) m)
  end.

(** go: internal/service/sync/manager.go 169-184 Manager.Fail *)
Definition Fail (syncID errMsg : string) (now : Z) (m : Manager) : Manager :=
  match byID m !! syncID with
  | None => m
  | Some found =>
    unregister found (store found (finish JobStateFailed (Some errMsg) now) m)
  end.

(** ** Well-formedness

    [byID] maps each id to a job carrying that id; [byKey] is exactly the index
    of the running jobs by project key, so there is at most one per key. *)
Record wf (m : Manager) : Prop := {
  wf_id : ∀ id l, byID m !! id = Some l →
    ∃ j, heap m !! l = Some j ∧ job_id j = id;
  wf_key : ∀ k l, byKey m !! k = Some l →
    ∃ j, heap m !! l = Some j ∧ job_projectKey j = k ∧
         job_state j = JobStateRunning ∧ byID m !! job_id j = Some l;
  wf_running : ∀ id l j, byID m !! id = Some l → heap m !! l = Some j →
    job_state j = JobStateRunning → byKey m !! job_projectKey j = Some l;
  wf_state : ∀ l j, heap m !! l = Some j →
    job_state j = JobStateRunning ∨ job_state j = JobStateCompleted
    ∨ job_state j = JobStateFailed;
  wf_counters : ∀ l j, heap m !! l = Some j → 0 ≤ job_processed j < 2 ^ 64;
}.

(** ** Abstract specification: a registry of snapshots without an index *)

Module Spec.

(** What callers can observe of the registry: a snapshot per known id. *)
Abbreviation registry := (gmap string JobSnapshot).

Definition running (s : JobSnapshot) : Prop := State s = JobStateRunning.

Definition expired (now : Z) (s : JobSnapshot) : bool :=
  if decide (State s = JobStateRunning) then false
  else jobTTL <=? time_sub now (FinishedAt s).

Definition evict (now : Z) (r : registry) : registry :=
  filter (λ p, expired now p.2 = false) r.

(** A fresh job is registered unless some running job has the same key; in
    that case the id of that job is returned and nothing is added. *)
Inductive start (uuid key : string) (now1 now2 : Z) (r : registry) :
    registry → StartResult → Prop :=
  | start_existing id s :
      evict now1 r !! id = Some s → ProjectKey s = key → running s →
      start uuid key now1 now2 r (evict now1 r)
        {| SyncID := id; Started := false |}
  | start_new :
      (∀ id s, evict now1 r !! id = Some s → ProjectKey s = key → ¬ running s) →
      start uuid key now1 now2 r
        (<[uuid := snapshot (new_job uuid key now2)]> (evict now1 r))
        {| SyncID := uuid; Started := true |}.

Definition set_total (id : string) (t : Z) (r : registry) : registry :=
  alter (λ s, {| ID := ID s; ProjectKey := ProjectKey s; State := State s;
                 Processed := Processed s; Total := t; ErrMsg := ErrMsg s;
                 StartedAt := StartedAt s; FinishedAt := FinishedAt s |}) id r.

Definition incr (id : string) (r : registry) : registry :=
  alter (λ s, {| ID := ID s; ProjectKey := ProjectKey s; State := State s;
                 Processed := uint64 (Processed s + 1); Total := Total s;
                 ErrMsg := ErrMsg s; StartedAt := StartedAt s;
                 FinishedAt := FinishedAt s |}) id r.

Definition finish (st : Z) (msg : option string) (now : Z) (id : string)
    (r : registry) : registry :=
  alter (λ s, {| ID := ID s; ProjectKey := ProjectKey s; State := st;
                 Processed := Processed s; Total := Total s;
                 ErrMsg := default (ErrMsg s) msg; StartedAt := StartedAt s;
                 FinishedAt := now |}) id r.

End Spec.

(** The abstraction function. *)
Definition view (m : Manager) : gmap string JobSnapshot :=
  omap (λ l, snapshot <$> heap m !! l) (byID m).

(** The operations as data, for statements about sequences of them. *)
Inductive op :=
  | OpStart (uuid : string) (now1 now2 : Z) (key : string)
  | OpSetTotal (id : string) (total : Z)
  | OpIncrProcessed (id : string)
  | OpComplete (id : string) (now : Z)
  | OpFail (id msg : string) (now : Z).

Definition exec_op (o : op) (m : Manager) : Manager * option StartResult :=
  match o with
  | OpStart uuid n1 n2 k => let '(m', r) := Start uuid n1 n2 k m in (m', Some r)
  | OpSetTotal id t => (SetTotal id t m, None)
  | OpIncrProcessed id => (IncrProcessed id m, None)
  | OpComplete id now => (Complete id now m, None)
  | OpFail id msg now => (Fail id msg now m, None)
  end.

Inductive spec_op : op → Spec.registry → Spec.registry → option StartResult → Prop :=
  | spec_start uuid n1 n2 k r r' res :
      Spec.start uuid k n1 n2 r r' res →
      spec_op (OpStart uuid n1 n2 k) r r' (Some res)
  | spec_set_total id t r :
      spec_op (OpSetTotal id t) r (Spec.set_total id t r) None
  | spec_incr id r :
      spec_op (OpIncrProcessed id) r (Spec.incr id r) None
  | spec_complete id now r :
      spec_op (OpComplete id now) r
        (Spec.finish JobStateCompleted None now id r) None
  | spec_fail id msg now r :
      spec_op (OpFail id msg now) r
        (Spec.finish JobStateFailed (Some msg) now id r) None.

(** What the callers guarantee: uuids are fresh, and a job is finished while
    it runs (each background goroutine finishes its own job, once). *)
Definition admissible (o : op) (m : Manager) : Prop :=
  match o with
  | OpStart uuid _ _ _ => byID m !! uuid = None
  | OpComplete id _ | OpFail id _ _ =>
    ∀ s, Status id m = Some s → State s = JobStateRunning
  | _ => True
  end.

(** A sequence of operations, each admissible when it is executed. *)
Inductive run : list op → Manager → Manager → Prop :=
  | run_nil m : run [] m m
  | run_cons o os m m' :
      admissible o m → run os (exec_op o m).1 m' → run (o :: os) m m'.

(** [id]'s job cannot have been evicted by the [Start] calls of a sequence. *)
Definition starts_before (t : Z) (o : op) : Prop :=
  match o with OpStart _ now1 _ _ => time_sub now1 t < jobTTL | _ => True end.

(** ** Lemmas *)

Lemma view_lookup m id : view m !! id = Status id m.
Proof.
  unfold view, Status. rewrite lookup_omap.
  by destruct (byID m !! id).
Qed.

Lemma status_some m id s :
  wf m → Status id m = Some s →
  ∃ l j, byID m !! id = Some l ∧ heap m !! l = Some j ∧ s = snapshot j ∧
         job_id j = id.
Proof.
  intros Hwf. unfold Status. destruct (byID m !! id) as [l|] eqn:Hl; [|done].
  destruct (wf_id _ Hwf _ _ Hl) as (j & Hj & Hid). rewrite Hj. intros [= <-]. eauto 10.
Qed.

Lemma evict_lookup now m id l :
  byID (evictExpiredLocked now m) !! id = Some l ↔
  byID m !! id = Some l ∧ expired_ptr now (heap m) l = false.
Proof. apply map_lookup_filter_Some. Qed.

Lemma running_not_expired now m l j :
  heap m !! l = Some j → job_state j = JobStateRunning →
  expired_ptr now (heap m) l = false.
Proof.
  intros Hj Hr. unfold expired_ptr, job_expired. rewrite Hj.
  by rewrite decide_True.
Qed.

Lemma evict_wf now m : wf m → wf (evictExpiredLocked now m).
Proof.
  intros Hwf. split.
  - intros id l [Hl _]%evict_lookup. by apply (wf_id _ Hwf).
  - intros k l Hl. destruct (wf_key _ Hwf _ _ Hl) as (j & Hj & ? & Hr & Hid).
    exists j. split_and!; try done. apply evict_lookup. split; [done|].
    by eapply running_not_expired.
  - intros id l j [Hl _]%evict_lookup. by apply (wf_running _ Hwf id).
  - apply (wf_state _ Hwf).
  - apply (wf_counters _ Hwf).
Qed.

Lemma evict_view now m :
  wf m → view (evictExpiredLocked now m) = Spec.evict now (view m).
Proof.
  intros Hwf. apply map_eq. intros id. unfold Spec.evict.
  rewrite view_lookup, map_lookup_filter, view_lookup. unfold Status. simpl.
  rewrite map_lookup_filter.
  destruct (byID m !! id) as [l|] eqn:Hl; simpl; [|done].
  destruct (wf_id _ Hwf _ _ Hl) as (j & Hj & Hid).
  unfold expired_ptr. rewrite Hj. simpl.
  change (Spec.expired now (snapshot j)) with (job_expired now j).
  destruct (job_expired now j) eqn:He; simpl; [done|]. by rewrite Hj.
Qed.

Lemma fresh_loc m id l :
  wf m → byID m !! id = Some l → (l < length (heap m))%nat.
Proof.
  intros Hwf Hl. destruct (wf_id _ Hwf _ _ Hl) as (j & Hj & _).
  by eapply lookup_lt_Some.
Qed.

Lemma insert_job_wf m uuid key now :
  wf m → byID m !! uuid = None → byKey m !! key = None →
  wf {| heap := heap m ++ [new_job uuid key now];
        byID := <[uuid := length (heap m)]> (byID m);
        byKey := <[key := length (heap m)]> (byKey m) |}.
Proof.
  intros Hwf Hu Hk. set (nj := new_job uuid key now).
  assert (Hnew : (heap m ++ [nj]) !! length (heap m) = Some nj)
    by (apply list_lookup_middle; done).
  assert (Hold : ∀ l j, heap m !! l = Some j → (heap m ++ [nj]) !! l = Some j)
    by (intros; by apply lookup_app_l_Some).
  assert (Hheap : ∀ l j, (heap m ++ [nj]) !! l = Some j →
            heap m !! l = Some j ∨ (l = length (heap m) ∧ j = nj)).
  { intros l j [|[? Hj]]%lookup_app_Some; [by left|right].
    apply list_lookup_singleton_Some in Hj as [? <-]. split; [lia|done]. }
  split; simpl.
  - intros id l [[<- <-]|[_ Hl]]%lookup_insert_Some; [by exists nj|].
    destruct (wf_id _ Hwf _ _ Hl) as (j & ? & ?). eauto.
  - intros k l [[<- <-]|[_ Hl]]%lookup_insert_Some.
    + exists nj. split_and!; try done. by rewrite lookup_insert_eq.
    + destruct (wf_key _ Hwf _ _ Hl) as (j & ? & ? & ? & Hid).
      exists j. split_and!; eauto.
      rewrite lookup_insert_ne; [done|]. congruence.
  - intros id l j [[<- <-]|[_ Hl]]%lookup_insert_Some Hj Hr.
    + rewrite Hnew in Hj. injection Hj as <-. apply lookup_insert_eq.
    + destruct (Hheap _ _ Hj) as [Hj'|[-> ->]].
      * pose proof (wf_running _ Hwf _ _ _ Hl Hj' Hr) as Hrun.
        rewrite lookup_insert_ne; [done|]. congruence.
      * apply (fresh_loc _ _ _ Hwf) in Hl. lia.
  - intros l j [Hj|[_ ->]]%Hheap; [by eapply wf_state|by left].
  - intros l j [Hj|[_ ->]]%Hheap; [by eapply wf_counters|simpl; lia].
Qed.

Lemma insert_job_view m uuid key now :
  wf m → byID m !! uuid = None →
  view {| heap := heap m ++ [new_job uuid key now];
          byID := <[uuid := length (heap m)]> (byID m);
          byKey := <[key := length (heap m)]> (byKey m) |}
  = <[uuid := snapshot (new_job uuid key now)]> (view m).
Proof.
  intros Hwf Hu. apply map_eq. intros id. rewrite view_lookup. unfold Status. simpl.
  destruct (decide (uuid = id)) as [<-|Hne].
  - rewrite !lookup_insert_eq. by rewrite list_lookup_middle.
  - rewrite !lookup_insert_ne by done. rewrite view_lookup. unfold Status.
    destruct (byID m !! id) as [l|] eqn:Hl; [|done].
    rewrite lookup_app_l; [done|]. by apply (fresh_loc _ id).
Qed.

(** Updates through a pointer. *)

Lemma store_lookup l f m k j :
  heap (store l f m) !! k = Some j →
  (k = l ∧ ∃ j0, heap m !! l = Some j0 ∧ j = f j0) ∨
  (k ≠ l ∧ heap m !! k = Some j).
Proof.
  simpl. rewrite list_lookup_alter. case_decide as Hd; [subst|by right; split; [congruence|]].
  intros (j0 & -> & ->)%fmap_Some. left. eauto.
Qed.

Lemma store_wf l f m :
  (∀ j, job_id (f j) = job_id j) →
  (∀ j, job_projectKey (f j) = job_projectKey j) →
  (∀ j, job_state (f j) = job_state j) →
  (∀ j, 0 ≤ job_processed j < 2 ^ 64 → 0 ≤ job_processed (f j) < 2 ^ 64) →
  wf m → wf (store l f m).
Proof.
  intros Hid Hkey Hst Hp Hwf.
  assert (Hback : ∀ k j, heap (store l f m) !! k = Some j →
    ∃ j0, heap m !! k = Some j0 ∧ job_id j = job_id j0 ∧
      job_projectKey j = job_projectKey j0 ∧ job_state j = job_state j0 ∧
      (0 ≤ job_processed j0 < 2 ^ 64 → 0 ≤ job_processed j < 2 ^ 64)).
  { intros k j [(-> & j0 & ? & ->)|[_ ?]]%store_lookup; eauto 10. }
  assert (Hfwd : ∀ k j0, heap m !! k = Some j0 →
    ∃ j, heap (store l f m) !! k = Some j ∧ job_id j = job_id j0 ∧
      job_projectKey j = job_projectKey j0 ∧ job_state j = job_state j0).
  { intros k j0 Hk. simpl. rewrite list_lookup_alter. case_decide; subst.
    - rewrite Hk. simpl. eauto 10.
    - eauto 10. }
  split.
  - intros id k (j0 & (j & ? & ? & ? & ?)%Hfwd & <-)%(wf_id _ Hwf). eauto.
  - intros k p (j0 & (j & Hj & Hji & ? & ?)%Hfwd & ? & ? & ?)%(wf_key _ Hwf).
    exists j. rewrite Hji. split_and!; congruence || done.
  - intros id p j Hl (j0 & Hj0 & ? & Hk & Hs & _)%Hback Hr. rewrite Hk.
    eapply (wf_running _ Hwf); eauto. congruence.
  - intros p j (j0 & Hj0 & ? & ? & -> & _)%Hback. by eapply wf_state.
  - intros p j (j0 & Hj0 & ? & ? & _ & Hq)%Hback. by eapply Hq, wf_counters.
Qed.

(** Two ids never share a pointer, so an update through the pointer of [id]
    changes the entry of [id] only. *)
Lemma store_view id l f m g bk :
  wf m → byID m !! id = Some l → (∀ j, snapshot (f j) = g (snapshot j)) →
  view {| heap := alter f l (heap m); byID := byID m; byKey := bk |}
  = alter g id (view m).
Proof.
  intros Hwf Hl Hfg. apply map_eq. intros id'. rewrite view_lookup. unfold Status. simpl.
  destruct (decide (id = id')) as [<-|Hne].
  - rewrite lookup_alter_eq, view_lookup. unfold Status. rewrite Hl.
    rewrite list_lookup_alter_eq. destruct (heap m !! l); simpl; [|done]. by rewrite Hfg.
  - rewrite lookup_alter_ne, view_lookup by done. unfold Status.
    destruct (byID m !! id') as [l'|] eqn:Hl'; [|done].
    rewrite list_lookup_alter_ne; [done|]. intros ->.
    destruct (wf_id _ Hwf _ _ Hl) as (j & Hj & <-).
    destruct (wf_id _ Hwf _ _ Hl') as (j' & Hj' & <-). congruence.
Qed.

Lemma absent_view id m g :
  byID m !! id = None → alter g id (view m) = view m.
Proof.
  intros Hl. apply map_eq. intros id'. rewrite lookup_alter.
  case_decide; [subst|done]. rewrite view_lookup. unfold Status. by rewrite Hl.
Qed.

(** [Complete] and [Fail] share their shape. *)
Definition finish_op (st : Z) (msg : option string) (id : string) (now : Z)
    (m : Manager) : Manager :=
  match byID m !! id with
  | None => m
  | Some found => unregister found (store found (finish st msg now) m)
  end.

Lemma finish_op_view st msg id now m :
  wf m → view (finish_op st msg id now m) = Spec.finish st msg now id (view m).
Proof.
  intros Hwf. unfold finish_op, Spec.finish.
  destruct (byID m !! id) as [l|] eqn:Hl; [|by rewrite absent_view].
  by apply (store_view id l (finish st msg now) m).
Qed.

Lemma finish_op_wf st msg id now m :
  st = JobStateCompleted ∨ st = JobStateFailed → wf m →
  (∀ s, Status id m = Some s → State s = JobStateRunning) →
  wf (finish_op st msg id now m).
Proof.
  intros Hst Hwf Hrun. unfold finish_op.
  destruct (byID m !! id) as [l|] eqn:Hl; [|done].
  destruct (wf_id _ Hwf _ _ Hl) as (j & Hj & Hjid).
  assert (Hjr : job_state j = JobStateRunning).
  { apply (Hrun (snapshot j)). unfold Status. by rewrite Hl, Hj. }
  assert (Hheap : ∀ p q, alter (finish st msg now) l (heap m) !! p = Some q →
    (p = l ∧ q = finish st msg now j) ∨ (p ≠ l ∧ heap m !! p = Some q)).
  { intros p q [(-> & j0 & ? & ->)|?]%(store_lookup l (finish st msg now) m);
      [left; split; congruence|by right]. }
  assert (Hterm : st ≠ JobStateRunning) by (destruct Hst as [->| ->]; done).
  pose proof (wf_running _ Hwf _ _ _ Hl Hj Hjr) as Hkey.
  unfold unregister. simpl. rewrite list_lookup_alter_eq, Hj. simpl.
  split; simpl.
  - intros id' p Hp. destruct (wf_id _ Hwf _ _ Hp) as (q & Hq & <-).
    rewrite list_lookup_alter. case_decide as Hd; [|eauto]. subst p.
    rewrite Hj. simplify_eq. simpl. eauto.
  - intros k p [Hne Hp]%lookup_delete_Some.
    destruct (wf_key _ Hwf _ _ Hp) as (q & Hq & Hk & Hr & Hid).
    exists q. split_and!; try done. rewrite list_lookup_alter_ne; [done|congruence].
  - intros id' p q Hp [[-> ->]|[Hne Hq]]%Hheap Hr; [done|].
    pose proof (wf_running _ Hwf _ _ _ Hp Hq Hr) as Hk.
    rewrite lookup_delete_ne; [done|]. congruence.
  - intros p q [[-> ->]|[Hne Hq]]%Hheap; [by right|by eapply wf_state].
  - intros p q [[-> ->]|[Hne Hq]]%Hheap;
      [exact (wf_counters _ Hwf _ _ Hj)|exact (wf_counters _ Hwf _ _ Hq)].
Qed.

Lemma new_manager_wf : wf NewManager.
Proof. split; intros; set_solver. Qed.

Lemma incr_range j :
  0 ≤ job_processed j < 2 ^ 64 → 0 ≤ job_processed (incr_processed j) < 2 ^ 64.
Proof. intros _. apply uint64_range. Qed.

Lemma update_wf id f m :
  (∀ j, job_id (f j) = job_id j) →
  (∀ j, job_projectKey (f j) = job_projectKey j) →
  (∀ j, job_state (f j) = job_state j) →
  (∀ j, 0 ≤ job_processed j < 2 ^ 64 → 0 ≤ job_processed (f j) < 2 ^ 64) →
  wf m → wf match byID m !! id with Some l => store l f m | None => m end.
Proof. intros. destruct (byID m !! id); [by apply store_wf|done]. Qed.

Lemma update_view id f g m :
  wf m → (∀ j, snapshot (f j) = g (snapshot j)) →
  view match byID m !! id with Some l => store l f m | None => m end
  = alter g id (view m).
Proof.
  intros Hwf Hfg. destruct (byID m !! id) as [l|] eqn:Hl; [|by rewrite absent_view].
  by apply (store_view id l f m).
Qed.

Lemma start_wf uuid n1 n2 k m :
  wf m → byID m !! uuid = None → wf (Start uuid n1 n2 k m).1.
Proof.
  intros Hwf Hu. apply (evict_wf n1) in Hwf. unfold Start.
  destruct (byKey _ !! k) as [l|] eqn:Hk; [done|]. simpl.
  apply (insert_job_wf (evictExpiredLocked n1 m)); [done| |done].
  apply map_lookup_filter_None. by left.
Qed.

Lemma start_refines uuid n1 n2 k m :
  wf m → byID m !! uuid = None →
  Spec.start uuid k n1 n2 (view m) (view (Start uuid n1 n2 k m).1)
    (Start uuid n1 n2 k m).2.
Proof.
  intros Hwf Hu. pose proof (evict_wf n1 _ Hwf) as Hwf'. unfold Start.
  destruct (byKey _ !! k) as [l|] eqn:Hk; simpl.
  - destruct (wf_key _ Hwf' _ _ Hk) as (j & Hj & <- & Hr & Hid).
    simpl in Hj. rewrite Hj. simpl. rewrite evict_view by done.
    apply (Spec.start_existing _ _ _ _ _ _ (snapshot j)); [|done..].
    rewrite <- evict_view, view_lookup by done. unfold Status. rewrite Hid. simpl.
    by rewrite Hj.
  - rewrite (insert_job_view (evictExpiredLocked n1 m)); [|done|].
    + rewrite evict_view by done. apply Spec.start_new. intros id s.
      rewrite <- evict_view, view_lookup by done.
      intros (l & j & Hl & Hj & -> & <-)%status_some <- Hr; [|done].
      pose proof (wf_running _ Hwf' _ _ _ Hl Hj Hr). simpl in *. congruence.
    + apply map_lookup_filter_None. by left.
Qed.

Lemma exec_op_wf o m : wf m → admissible o m → wf (exec_op o m).1.
Proof.
  intros Hwf Ha. destruct o as [u n1 n2 k|id t|id|id now|id msg now]; simpl in *.
  - pose proof (start_wf u n1 n2 k m Hwf Ha). by destruct (Start u n1 n2 k m).
  - by apply update_wf.
  - apply update_wf; [done..|apply incr_range|done].
  - apply (finish_op_wf _ None); [by left|done..].
  - apply (finish_op_wf _ (Some msg)); [by right|done..].
Qed.

Lemma exec_op_refines o m :
  wf m → admissible o m →
  spec_op o (view m) (view (exec_op o m).1) (exec_op o m).2.
Proof.
  intros Hwf Ha. destruct o as [u n1 n2 k|id t|id|id now|id msg now]; simpl in *.
  - pose proof (start_refines u n1 n2 k m Hwf Ha).
    destruct (Start u n1 n2 k m). by constructor.
  - unfold SetTotal. erewrite update_view; [constructor|done..].
  - unfold IncrProcessed. erewrite update_view; [constructor|done..].
  - change (Complete id now m) with (finish_op JobStateCompleted None id now m).
    rewrite finish_op_view by done. constructor.
  - change (Fail id msg now m) with (finish_op JobStateFailed (Some msg) id now m).
    rewrite finish_op_view by done. constructor.
Qed.

Lemma run_wf os m m' : run os m m' → wf m → wf m'.
Proof. induction 1; eauto using exec_op_wf. Qed.
#[export] Hint Resolve new_manager_wf evict_wf exec_op_wf run_wf : go.

Lemma running_unique m id1 id2 s1 s2 :
  wf m → Status id1 m = Some s1 → Status id2 m = Some s2 →
  State s1 = JobStateRunning → State s2 = JobStateRunning →
  ProjectKey s1 = ProjectKey s2 → id1 = id2.
Proof.
  intros Hwf (l1 & j1 & Hl1 & Hj1 & -> & <-)%status_some
    (l2 & j2 & Hl2 & Hj2 & -> & <-)%status_some Hr1 Hr2 Hk; [|done..].
  pose proof (wf_running _ Hwf _ _ _ Hl1 Hj1 Hr1).
  pose proof (wf_running _ Hwf _ _ _ Hl2 Hj2 Hr2). simpl in *. congruence.
Qed.

(** Same terminal status: only the counters may differ. *)
Definition same_outcome (s s' : JobSnapshot) : Prop :=
  ID s' = ID s ∧ ProjectKey s' = ProjectKey s ∧ State s' = State s ∧
  ErrMsg s' = ErrMsg s ∧ FinishedAt s' = FinishedAt s.

Lemma spec_op_keeps_finished o r r' res id s :
  spec_op o r r' res → r !! id = Some s → State s ≠ JobStateRunning →
  starts_before (FinishedAt s) o →
  (∀ u n1 n2 k, o = OpStart u n1 n2 k → r !! u = None) →
  (∀ i now, o = OpComplete i now → i ≠ id) →
  (∀ i msg now, o = OpFail i msg now → i ≠ id) →
  ∃ s', r' !! id = Some s' ∧ same_outcome s s'.
Proof.
  intros Hop Hr Hs Ht Hu Hc Hf.
  assert (Hev : ∀ n1, time_sub n1 (FinishedAt s) < jobTTL →
            Spec.evict n1 r !! id = Some s).
  { intros n1 Hn. apply map_lookup_filter_Some. split; [done|]. simpl.
    unfold Spec.expired. rewrite decide_False by done. apply Z.leb_gt. lia. }
  destruct Hop as [u n1 n2 k r r' sr Hst|i t r|i r|i now r|i msg now r]; simpl in Ht.
  - exists s. split; [|by repeat split]. destruct Hst; [by apply Hev|].
    rewrite lookup_insert_ne; [by apply Hev|]. intros ->.
    specialize (Hu _ _ _ _ eq_refl). congruence.
  - unfold Spec.set_total. rewrite lookup_alter. case_decide; subst.
    + rewrite Hr. simpl. eexists; split; [done|by repeat split].
    + exists s. by repeat split.
  - unfold Spec.incr. rewrite lookup_alter. case_decide; subst.
    + rewrite Hr. simpl. eexists; split; [done|by repeat split].
    + exists s. by repeat split.
  - exists s. split; [|by repeat split].
    unfold Spec.finish. by rewrite lookup_alter_ne by eauto.
  - exists s. split; [|by repeat split].
    unfold Spec.finish. by rewrite lookup_alter_ne by eauto.
Qed.

(** *** What the service relies on: the running job of each id *)

(** The project key of the running job [id], if it is running. *)
Definition running_key (id : string) (m : Manager) : option string :=
  s ← Status id m;
  if decide (State s = JobStateRunning) then Some (ProjectKey s) else None.

Lemma running_key_some id m k :
  running_key id m = Some k ↔
  ∃ s, Status id m = Some s ∧ State s = JobStateRunning ∧ ProjectKey s = k.
Proof.
  unfold running_key. rewrite bind_Some. split.
  - intros (s & Hs & H). case_decide; simplify_eq. eauto.
  - intros (s & Hs & Hr & <-). exists s. by rewrite decide_True.
Qed.

Lemma running_key_alter (g : JobSnapshot → JobSnapshot) m m' id id' :
  view m' = alter g id (view m) →
  (∀ s, State (g s) = State s ∧ ProjectKey (g s) = ProjectKey s) →
  running_key id' m' = running_key id' m.
Proof.
  intros Hv Hg. unfold running_key. rewrite <- !view_lookup, Hv, lookup_alter.
  case_decide; [|done]. subst. destruct (view m !! id') as [s|]; [|done].
  simpl. by destruct (Hg s) as [-> ->].
Qed.

Lemma running_key_set_total id t m id' :
  wf m → running_key id' (SetTotal id t m) = running_key id' m.
Proof.
  intros Hwf. pose proof (exec_op_refines (OpSetTotal id t) m Hwf I) as H.
  inversion H as [|? ? ? Heq1 Heq2 Heq| | |]. simpl in Heq.
  eapply running_key_alter; [symmetry; exact Heq|by intros s].
Qed.

Lemma running_key_incr id m id' :
  wf m → running_key id' (IncrProcessed id m) = running_key id' m.
Proof.
  intros Hwf. pose proof (exec_op_refines (OpIncrProcessed id) m Hwf I) as H.
  inversion H as [| |? ? Heq1 Heq2 Heq| |]. simpl in Heq.
  eapply running_key_alter; [symmetry; exact Heq|by intros s].
Qed.

Lemma running_key_finish st msg id now m id' :
  wf m → st ≠ JobStateRunning →
  running_key id' (finish_op st msg id now m)
  = if decide (id' = id) then None else running_key id' m.
Proof.
  intros Hwf Hst. unfold running_key. rewrite <- !view_lookup, finish_op_view by done.
  unfold Spec.finish. rewrite lookup_alter. case_decide as Hd.
  - subst. rewrite decide_True by done. destruct (view m !! id'); [|done]. simpl.
    by rewrite decide_False.
  - by rewrite decide_False by congruence.
Qed.

Lemma running_key_evict now m id :
  wf m → running_key id (evictExpiredLocked now m) = running_key id m.
Proof.
  intros Hwf. unfold running_key. rewrite <- !view_lookup, evict_view by done.
  unfold Spec.evict. destruct (view m !! id) as [s|] eqn:Hs.
  - destruct (filter _ (view m) !! id) as [s'|] eqn:Hf.
    + apply map_lookup_filter_Some in Hf as [Hf _]. congruence.
    + simpl. case_decide as Hr; [|done].
      apply map_lookup_filter_None in Hf as [Hf|Hf]; [congruence|].
      destruct (Hf _ Hs). simpl. unfold Spec.expired. by rewrite decide_True.
  - by rewrite (proj2 (map_lookup_filter_None _ _ _)) by (by left).
Qed.

(** [Start] of a key either adds a running job for it under the fresh id, when
    it has none, or returns its running job. *)
Lemma start_running uuid n1 n2 k m :
  wf m → byID m !! uuid = None →
  let '(m', r) := Start uuid n1 n2 k m in
  if Started r then
    SyncID r = uuid ∧ (∀ id, running_key id m ≠ Some k) ∧ running_key uuid m = None ∧
    ∀ id, running_key id m' = if decide (id = uuid) then Some k else running_key id m
  else running_key (SyncID r) m = Some k ∧ ∀ id, running_key id m' = running_key id m.
Proof.
  intros Hwf Hu. pose proof (start_refines uuid n1 n2 k m Hwf Hu) as Hs.
  destruct (Start uuid n1 n2 k m) as [m' r]. simpl in Hs.
  assert (Hev : ∀ id, running_key id m
    = s ← Spec.evict n1 (view m) !! id; if decide (State s = JobStateRunning)
                                        then Some (ProjectKey s) else None).
  { intros id. rewrite <- (running_key_evict n1 m id Hwf). unfold running_key.
    by rewrite <- view_lookup, evict_view. }
  assert (Hst : ∀ id, running_key id m' = s ← view m' !! id;
    if decide (State s = JobStateRunning) then Some (ProjectKey s) else None)
    by (intros id; unfold running_key; by rewrite view_lookup).
  inversion Hs as [id s Hid Hk Hr Hv|Hno Hv]; subst; simpl.
  - split; [|intros id'; by rewrite Hst, <- Hv, Hev].
    rewrite Hev, Hid. simpl. by rewrite decide_True.
  - split_and!; [done| | |].
    + intros id. rewrite Hev. destruct (Spec.evict n1 (view m) !! id) as [s|] eqn:Hi; [|done].
      simpl. case_decide as Hr; [|done]. intros [= Hk]. by apply (Hno id s).
    + unfold running_key, Status. by rewrite Hu.
    + intros id. rewrite Hst, <- Hv, lookup_insert. rewrite Hev.
      case_decide; [subst; by rewrite decide_True|by rewrite decide_False by congruence].
Qed.

(** *** What a poller relies on: a finished job does not change *)

Lemma set_total_view id t m : wf m → view (SetTotal id t m) = Spec.set_total id t (view m).
Proof. intros Hwf. unfold SetTotal. by erewrite update_view. Qed.

Lemma incr_view id m : wf m → view (IncrProcessed id m) = Spec.incr id (view m).
Proof. intros Hwf. unfold IncrProcessed. by erewrite update_view. Qed.

(** Only [Start] removes jobs. *)
Lemma present_alter (g : JobSnapshot → JobSnapshot) m m' id id' :
  view m' = alter g id' (view m) → is_Some (Status id m) → is_Some (Status id m').
Proof.
  intros Hv [s Hs]. rewrite <- view_lookup, Hv, lookup_alter.
  case_decide; [subst|]; rewrite view_lookup, Hs; by eexists.
Qed.

(** Every id ever given to a job: evicted jobs stay in the store. *)
Definition ids (m : Manager) : list string := job_id <$> heap m.

Lemma unused_absent m uuid : wf m → uuid ∉ ids m → byID m !! uuid = None.
Proof.
  intros Hwf Hu. destruct (byID m !! uuid) as [l|] eqn:Hl; [|done].
  destruct (wf_id _ Hwf _ _ Hl) as (j & Hj & <-). destruct Hu.
  apply list_elem_of_fmap_2. by eapply list_elem_of_lookup_2.
Qed.

Lemma ids_store l f m : (∀ j, job_id (f j) = job_id j) → ids (store l f m) = ids m.
Proof.
  intros Hf. unfold ids, store. simpl. apply list_eq. intros k.
  rewrite !list_lookup_fmap, list_lookup_alter. case_decide; [subst|done].
  destruct (heap m !! k); simpl; [by rewrite Hf|done].
Qed.

(** Observed with a final snapshot, or evicted. *)
Definition settled (id : string) (s : JobSnapshot) (m : Manager) : Prop :=
  id ∈ ids m ∧ (Status id m = Some s ∨ Status id m = None).

Lemma settled_alter (g : JobSnapshot → JobSnapshot) m m' id id' s :
  view m' = alter g id' (view m) → ids m' = ids m → id' ≠ id →
  settled id s m → settled id s m'.
Proof.
  intros Hv Hi Hne [Hin Hs]. split; [by rewrite Hi|].
  by rewrite <- view_lookup, Hv, lookup_alter_ne, view_lookup by done.
Qed.

Lemma settled_set_total id' t m id s :
  wf m → id' ≠ id → settled id s m → settled id s (SetTotal id' t m).
Proof.
  intros Hwf. eapply settled_alter; [by apply set_total_view|].
  unfold SetTotal. destruct (byID m !! id'); [by apply ids_store|done].
Qed.

Lemma settled_incr id' m id s :
  wf m → id' ≠ id → settled id s m → settled id s (IncrProcessed id' m).
Proof.
  intros Hwf. eapply settled_alter; [by apply incr_view|].
  unfold IncrProcessed. destruct (byID m !! id'); [by apply ids_store|done].
Qed.

Lemma settled_finish st msg id' now m id s :
  wf m → id' ≠ id → settled id s m → settled id s (finish_op st msg id' now m).
Proof.
  intros Hwf. eapply settled_alter; [by apply finish_op_view|].
  unfold finish_op. destruct (byID m !! id') as [l|]; [|done].
  change (ids (unregister l ?m)) with (ids m). by apply ids_store.
Qed.

Lemma settled_start uuid n1 n2 k m id s :
  wf m → uuid ∉ ids m → settled id s m → settled id s (Start uuid n1 n2 k m).1.
Proof.
  intros Hwf Hu [Hin Hs]. pose proof (start_refines uuid n1 n2 k m Hwf
    (unused_absent m uuid Hwf Hu)) as Hst.
  assert (Hsub : ids m ⊆ ids (Start uuid n1 n2 k m).1).
  { unfold Start. destruct (byKey _ !! k); simpl; [done|]. unfold ids. simpl.
    rewrite fmap_app. intros x Hx. apply elem_of_app. by left. }
  split; [by apply Hsub|].
  assert (Hev : Spec.evict n1 (view m) !! id = Some s ∨ Spec.evict n1 (view m) !! id = None).
  { destruct (Spec.evict n1 (view m) !! id) as [s'|] eqn:He; [|by right].
    apply map_lookup_filter_Some in He as [He _]. rewrite view_lookup in He.
    left. destruct Hs; congruence. }
  rewrite <- view_lookup. inversion Hst; [done|].
  rewrite lookup_insert_ne; [done|congruence].
Qed.

(** ** Properties *)

(** C4. The registry implements its abstract specification: every admissible
    operation (fresh uuid; only running jobs are finished) keeps the two maps
    consistent and has, on the snapshots callers can observe, exactly the effect
    and the result the index-free specification prescribes; in particular
    [Start] returns the running job of the key if there is one. *)
Theorem manager_refines_spec (o : op) (m : Manager) :
  wf m → admissible o m →
  wf (exec_op o m).1 ∧
  spec_op o (view m) (view (exec_op o m).1) (exec_op o m).2.
Proof. eauto using exec_op_wf, exec_op_refines. Qed.

Lemma manager_refines_spec_witness :
  let m := (Start "u1" 5 6 "PROJ" NewManager).1 in
  wf m ∧ spec_op (OpStart "u2" 7 8 "PROJ") (view m)
    (view (exec_op (OpStart "u2" 7 8 "PROJ") m).1)
    (Some {| SyncID := "u1"; Started := false |}).
Proof.
  simpl. assert (Hwf : wf (Start "u1" 5 6 "PROJ" NewManager).1).
  { apply start_wf; [apply new_manager_wf|reflexivity]. }
  split; [exact Hwf|].
  exact (proj2 (manager_refines_spec (OpStart "u2" 7 8 "PROJ") _ Hwf eq_refl)).
Defined.

(** At most one running job per project key: after any sequence of
    admissible operations from the empty registry, two running jobs with the
    same project key are the same job. *)
Theorem one_running_job_per_key (os : list op) (m : Manager) (id1 id2 : string)
    (s1 s2 : JobSnapshot) :
  run os NewManager m →
  Status id1 m = Some s1 → Status id2 m = Some s2 →
  State s1 = JobStateRunning → State s2 = JobStateRunning →
  ProjectKey s1 = ProjectKey s2 → id1 = id2.
Proof. eauto using running_unique with go. Qed.

Lemma one_running_job_per_key_witness :
  ∃ m s, run [OpStart "u1" 5 6 "P"; OpStart "u2" 7 8 "P"] NewManager m ∧
         Status "u1" m = Some s ∧ ("u1" : string) = "u1".
Proof.
  assert (Hrun : run [OpStart "u1" 5 6 "P"; OpStart "u2" 7 8 "P"] NewManager
    (Start "u2" 7 8 "P" (Start "u1" 5 6 "P" NewManager).1).1).
  { apply run_cons; [reflexivity|]. apply run_cons; [reflexivity|]. apply run_nil. }
  eexists _, _. split; [exact Hrun|]. split; [reflexivity|].
  eapply (one_running_job_per_key _ _ _ _ _ _ Hrun); reflexivity.
Defined.

(** C25. A finished job stays observable for [jobTTL]: once a job is completed
    or failed, any sequence of admissible operations whose [Start] calls happen
    less than [jobTTL] after it finished leaves its status, error message and
    finishing time in the registry. *)
Theorem finished_visible_for_ttl (os : list op) (m m' : Manager) (id : string)
    (s : JobSnapshot) :
  wf m → run os m m' → Status id m = Some s → State s ≠ JobStateRunning →
  Forall (starts_before (FinishedAt s)) os →
  ∃ s', Status id m' = Some s' ∧ same_outcome s s'.
Proof.
  intros Hwf Hrun. revert s Hwf.
  induction Hrun as [m|o os m m' Ha Hrun IH]; intros s Hwf Hs Hst Ht.
  { exists s. by repeat split. }
  apply Forall_cons in Ht as [Ho Ht].
  assert (Hfin : ∀ i, (∀ s, Status i m = Some s → State s = JobStateRunning) → i ≠ id)
    by (intros i Hi ->; eauto).
  destruct (spec_op_keeps_finished o (view m) (view (exec_op o m).1)
    (exec_op o m).2 id s) as (s1 & Hs1 & He1); rewrite ?view_lookup in *;
    [by apply exec_op_refines|done|done|done|..].
  - intros u n1 n2 k ->. rewrite view_lookup. unfold Status. simpl in Ha. by rewrite Ha.
  - intros i now ->. by apply Hfin.
  - intros i msg now ->. by apply Hfin.
  - destruct He1 as (? & ? & Hst1 & ? & Hf1).
    destruct (IH s1) as (s2 & ? & ? & ? & ? & ? & ?);
      [by apply exec_op_wf|done|congruence|by rewrite Hf1|].
    exists s2. split; [done|]. repeat split; congruence.
Qed.

Lemma finished_visible_for_ttl_witness :
  let m0 := (Start "u1" 5 6 "P" NewManager).1 in
  let m := Fail "u1" "boom" 10 m0 in
  let m' := (Start "u2" (10 + jobTTL - 1) 20 "P" m).1 in
  ∃ s', Status "u1" m' = Some s' ∧ State s' = JobStateFailed ∧ ErrMsg s' = "boom".
Proof.
  simpl. set (m0 := (Start "u1" 5 6 "P" NewManager).1).
  assert (Hwf : wf (Fail "u1" "boom" 10 m0)).
  { apply (exec_op_wf (OpFail "u1" "boom" 10)).
    - apply start_wf; [apply new_manager_wf|reflexivity].
    - intros s [= <-]. reflexivity. }
  destruct (finished_visible_for_ttl [OpStart "u2" (10 + jobTTL - 1) 20 "P"]
    (Fail "u1" "boom" 10 m0)
    (Start "u2" (10 + jobTTL - 1) 20 "P" (Fail "u1" "boom" 10 m0)).1 "u1"
    (mkSnapshot "u1" "P" 3 0 0 "boom" 6 10))
    as (s' & Hs' & _ & _ & Hst & Hmsg & _).
  - exact Hwf.
  - apply run_cons; [reflexivity|]. apply run_nil.
  - reflexivity.
  - discriminate.
  - apply Forall_singleton. reflexivity.
  - exists s'. split; [exact Hs'|]. split; [exact Hst|exact Hmsg].
Defined.

(** [Complete] and [Fail] do not check which job the key is registered to:
    finishing a job that has already finished unregisters the key of a newer
    running job, after which [Start] launches a second job for a project that
    is still being synced. *)
Theorem stale_finish_unregisters_running_job (m : Manager) (id id' : string)
    (s s' : JobSnapshot) (now now1 now2 : Z) (uuid : string) :
  wf m →
  Status id m = Some s → State s ≠ JobStateRunning →
  Status id' m = Some s' → State s' = JobStateRunning →
  ProjectKey s = ProjectKey s' →
  let m1 := Complete id now m in
  let '(m2, r) := Start uuid now1 now2 (ProjectKey s') m1 in
  r = {| SyncID := uuid; Started := true |} ∧ Status id' m1 = Some s'.
Proof.
  intros Hwf (l & j & Hl & Hj & -> & <-)%status_some Hst
    (l' & j' & Hl' & Hj' & -> & <-)%status_some Hr Hk; [|done..].
  simpl in Hst, Hr, Hk. assert (Hne : l ≠ l') by congruence.
  unfold Complete. rewrite Hl. unfold unregister. simpl.
  rewrite list_lookup_alter_eq, Hj. simpl. unfold Start. simpl.
  rewrite Hk, lookup_delete_eq. split; [done|].
  unfold Status. simpl. rewrite Hl'. by rewrite list_lookup_alter_ne, Hj' by done.
Qed.

Lemma stale_finish_unregisters_running_job_witness :
  let m0 := (Start "u1" 5 6 "P" NewManager).1 in
  let m := (Start "u2" 11 12 "P" (Complete "u1" 10 m0)).1 in
  let '(m2, r) := Start "u3" 14 15 "P" (Complete "u1" 13 m) in
  r = {| SyncID := "u3"; Started := true |}.
Proof.
  simpl. set (m0 := (Start "u1" 5 6 "P" NewManager).1).
  assert (Hwf : wf (Start "u2" 11 12 "P" (Complete "u1" 10 m0)).1).
  { apply start_wf; [|reflexivity].
    apply (exec_op_wf (OpComplete "u1" 10)).
    - apply start_wf; [apply new_manager_wf|reflexivity].
    - intros s [= <-]. reflexivity. }
  refine (proj1 (stale_finish_unregisters_running_job _ "u1" "u2"
    (mkSnapshot "u1" "P" 2 0 0 "" 6 10) (mkSnapshot "u2" "P" 1 0 0 "" 12 0)
    13 14 15 "u3" Hwf eq_refl _ eq_refl eq_refl eq_refl)).
  discriminate.
Defined.
