(* ===== verification/WorkerPool.v ===== *)
(** * The worker pool (internal/workerpool/workerpool.go)

    Goroutines, the two channels and the context are a configuration; [fire]
    executes one atomic action of one goroutine, so a run is a sequence of
    actions in any interleaving.  Channels are Go channels: a bounded buffer
    and a closed flag; a send on a closed channel panics, a receive from a
    closed and empty channel reports [ok = false], and a sender may hand its
    value directly to a waiting receiver (the only way through a channel of
    capacity 0). *)

From S2P Require Import Prelude GoLang.

Section WorkerPool.
Context {P R E : Type}.  (* payloads, results ([any]) and errors *)

(** ** Data *)

(** go: internal/workerpool/workerpool.go 17-20 Task *)
Record Task := mkTask { ID : string; Payload : P }.

(** go: internal/workerpool/workerpool.go 22-27 NewTask *)
Definition NewTask (id : string) (payload : P) : Task :=
  {| ID := id; Payload := payload |}.

(** go: internal/workerpool/workerpool.go 29-31 Task.GetID *)
Definition GetID (t : Task) : string := ID t.

(** go: internal/workerpool/workerpool.go 33-35 Task.GetPayload *)
Definition GetPayload (t : Task) : P := Payload t.

(** A nil [any] or error is [None].

    go: internal/workerpool/workerpool.go 37-41 TaskResult *)
Record TaskResult := mkTaskResult {
  TaskID : string;
  Result : option R;
  Err : option E;
}.

(** go: internal/workerpool/workerpool.go 43-49 NewTaskResult *)
Definition NewTaskResult (taskID : string) (result : option R) (err : option E)
    : TaskResult :=
  {| TaskID := taskID; Result := result; Err := err |}.

(** go: internal/workerpool/workerpool.go 51-53 TaskResult.GetTaskID *)
Definition GetTaskID (tr : TaskResult) : string := TaskID tr.

(** go: internal/workerpool/workerpool.go 55-57 TaskResult.GetErr *)
Definition GetErr (tr : TaskResult) : option E := Err tr.

(** go: internal/workerpool/workerpool.go 59-61 TaskResult.IsSuccess *)
Definition IsSuccess (tr : TaskResult) : bool :=
  match Err tr with None => true | Some _ => false end.

(** go: internal/workerpool/workerpool.go 75-78 PoolStats *)
Record PoolStats := mkStats { Processed : Z; Failed : Z }.

(** Where [sync.Once] of [Stop] stands: not called, [stopped] stored,
    [taskCh] closed. *)
Inductive once_state := NotStopped | StopStored | StopDone.

(** The logger is not modelled; [taskCh] and [resultCh] have the same capacity.

    go: internal/workerpool/workerpool.go 63-73 WorkerPool *)
Record WorkerPool := mkPool {
  workerCount : Z;
  queueSize : nat;
  taskCh : list Task;
  taskClosed : bool;
  resultCh : list TaskResult;
  resultClosed : bool;
  stats : PoolStats;
  once : once_state;
  stopped : bool;
}.

(** [make(chan T, n)] panics when [n < 0].

    go: internal/workerpool/workerpool.go 84-98 New *)
Definition New (workerCount queueSize : Z) : option WorkerPool :=
  if (queueSize <? 0)%Z then None
  else Some {| workerCount := workerCount; queueSize := Z.to_nat queueSize;
               taskCh := []; taskClosed := false;
               resultCh := []; resultClosed := false;
               stats := {| Processed := 0; Failed := 0 |};
               once := NotStopped; stopped := false |}.

(** The program points of one worker goroutine. *)
Inductive wstate :=
  | WIdle                      (* at the outer [select] *)
  | WProcessing (t : Task)     (* in [processor.Process] *)
  | WSending (r : TaskResult)  (* at the inner [select] *)
  | WExited.                   (* returned, [workerWG.Done()] called *)

(** The program points of [Run]'s watcher goroutine. *)
Inductive watcher := Waiting | WatchStored | WatchClosed.

(** A configuration: the pool, its goroutines, the [Submit] calls that have
    passed the [stopped] check, the contexts given to [Run] and [Submit], and
    the history ([accepted] tasks, results [delivered] to the consumer, results
    [dropped] because the context was done). *)
Record config := mkConfig {
  pool : WorkerPool;
  workers : list wstate;
  watch : watcher;
  inflight : list Task;
  ctxDone : bool;
  submitCtxDone : bool;
  panicked : bool;
  accepted : list Task;
  delivered : list TaskResult;
  dropped : list TaskResult;
}.

(** [Run] launches [workerCount] workers ([range n] with [n <= 0] is empty)
    and the watcher.

    go: internal/workerpool/workerpool.go 100-129 WorkerPool.Run *)
Definition Run (wp : WorkerPool) : config :=
  {| pool := wp; workers := replicate (Z.to_nat (workerCount wp)) WIdle;
     watch := Waiting; inflight := []; ctxDone := false; submitCtxDone := false;
     panicked := false; accepted := []; delivered := []; dropped := [] |}.

(** ** Field updates *)

Definition with_pool (f : WorkerPool → WorkerPool) (c : config) : config :=
  {| pool := f (pool c); workers := workers c; watch := watch c;
     inflight := inflight c; ctxDone := ctxDone c;
     submitCtxDone := submitCtxDone c; panicked := panicked c;
     accepted := accepted c; delivered := delivered c; dropped := dropped c |}.

Definition with_worker (i : nat) (w : wstate) (c : config) : config :=
  {| pool := pool c; workers := <[i := w]> (workers c); watch := watch c;
     inflight := inflight c; ctxDone := ctxDone c;
     submitCtxDone := submitCtxDone c; panicked := panicked c;
     accepted := accepted c; delivered := delivered c; dropped := dropped c |}.

Definition with_inflight (l : list Task) (c : config) : config :=
  {| pool := pool c; workers := workers c; watch := watch c;
     inflight := l; ctxDone := ctxDone c;
     submitCtxDone := submitCtxDone c; panicked := panicked c;
     accepted := accepted c; delivered := delivered c; dropped := dropped c |}.

Definition with_watch (w : watcher) (c : config) : config :=
  {| pool := pool c; workers := workers c; watch := w;
     inflight := inflight c; ctxDone := ctxDone c;
     submitCtxDone := submitCtxDone c; panicked := panicked c;
     accepted := accepted c; delivered := delivered c; dropped := dropped c |}.

Definition with_history (acc : list Task) (del dro : list TaskResult)
    (c : config) : config :=
  {| pool := pool c; workers := workers c; watch := watch c;
     inflight := inflight c; ctxDone := ctxDone c;
     submitCtxDone := submitCtxDone c; panicked := panicked c;
     accepted := accepted c ++ acc; delivered := delivered c ++ del;
     dropped := dropped c ++ dro |}.

Definition with_flags (cd sd pa : bool) (c : config) : config :=
  {| pool := pool c; workers := workers c; watch := watch c;
     inflight := inflight c; ctxDone := cd; submitCtxDone := sd; panicked := pa;
     accepted := accepted c; delivered := delivered c; dropped := dropped c |}.

Definition set_taskCh (l : list Task) (wp : WorkerPool) : WorkerPool :=
  {| workerCount := workerCount wp; queueSize := queueSize wp; taskCh := l;
     taskClosed := taskClosed wp; resultCh := resultCh wp;
     resultClosed := resultClosed wp; stats := stats wp; once := once wp;
     stopped := stopped wp |}.

Definition set_resultCh (l : list TaskResult) (wp : WorkerPool) : WorkerPool :=
  {| workerCount := workerCount wp; queueSize := queueSize wp; taskCh := taskCh wp;
     taskClosed := taskClosed wp; resultCh := l;
     resultClosed := resultClosed wp; stats := stats wp; once := once wp;
     stopped := stopped wp |}.

Definition set_stop (tc rc : bool) (o : once_state) (s : bool)
    (wp : WorkerPool) : WorkerPool :=
  {| workerCount := workerCount wp; queueSize := queueSize wp; taskCh := taskCh wp;
     taskClosed := tc; resultCh := resultCh wp;
     resultClosed := rc; stats := stats wp; once := o; stopped := s |}.

Definition set_stats (st : PoolStats) (wp : WorkerPool) : WorkerPool :=
  {| workerCount := workerCount wp; queueSize := queueSize wp; taskCh := taskCh wp;
     taskClosed := taskClosed wp; resultCh := resultCh wp;
     resultClosed := resultClosed wp; stats := st; once := once wp;
     stopped := stopped wp |}.

(** [stats.Processed.Add(1)] / [stats.Failed.Add(1)] *)
Definition count (err : option E) (s : PoolStats) : PoolStats :=
  match err with
  | None => {| Processed := uint64 (Processed s + 1); Failed := Failed s |}
  | Some _ => {| Processed := Processed s; Failed := uint64 (Failed s + 1) |}
  end.

(** ** Actions *)

Inductive action :=
  | ASubmit (t : Task)              (* [Submit] passes the [stopped] check *)
  | ASubmitSend (k : nat)           (* [wp.taskCh <- task] into the buffer *)
  | ASubmitHandoff (k i : nat)      (* [wp.taskCh <- task] to idle worker [i] *)
  | ASubmitPanic (k : nat)          (* send on closed [taskCh], recovered *)
  | ASubmitCtx (k : nat)            (* [<-ctx.Done()] in [Submit] *)
  | AReceive (i : nat)              (* [task, ok := <-wp.taskCh], ok *)
  | AReceiveClosed (i : nat)        (* [task, ok := <-wp.taskCh], not ok *)
  | AWorkerCtx (i : nat)            (* outer [<-ctx.Done()] *)
  | AProcess (i : nat) (res : option R) (err : option E)
  | ASend (i : nat)                 (* [wp.resultCh <- result] *)
  | ASendHandoff (i : nat)          (* the same, to the waiting consumer *)
  | ASendCtx (i : nat)              (* inner [<-ctx.Done()] *)
  | AWatchWait                      (* [workerWG.Wait()]; [stopped.Store(true)] *)
  | AWatchClose                     (* [close(wp.resultCh)] *)
  | AStopStore                      (* [once.Do]: [stopped.Store(true)] *)
  | AStopClose                      (* [once.Do]: [close(wp.taskCh)] *)
  | AConsume                        (* the consumer receives a result *)
  | ACancel                         (* the context of [Run] is cancelled *)
  | ACancelSubmit.                  (* the context of [Submit] is cancelled *)

(** The [stopped] check of [Submit]; [inl] is [errPoolStopped].

    go: internal/workerpool/workerpool.go 131-143 WorkerPool.Submit *)
Definition Submit (t : Task) (c : config) : string + config :=
  if stopped (pool c) then inl "worker pool is stopped"%string
  else inr (with_inflight (inflight c ++ [t]) c).

(** The [select] of [Submit] for the [k]-th call in flight.

    go: internal/workerpool/workerpool.go 145-151 WorkerPool.Submit *)
Definition submit_select (a : action) (c : config) : option config :=
  let wp := pool c in
  match a with
  | ASubmitSend k =>
    t ← inflight c !! k;
    if taskClosed wp then None
    else if decide (length (taskCh wp) < queueSize wp) then
      Some (with_history [t] [] []
        (with_inflight (delete k (inflight c))
          (with_pool (set_taskCh (taskCh wp ++ [t])) c)))
    else None
  | ASubmitHandoff k i =>
    t ← inflight c !! k;
    w ← workers c !! i;
    match w, taskCh wp, taskClosed wp with
    | WIdle, [], false =>
      Some (with_history [t] [] []
        (with_inflight (delete k (inflight c)) (with_worker i (WProcessing t) c)))
    | _, _, _ => None
    end
  | ASubmitPanic k =>
    _ ← inflight c !! k;
    if taskClosed wp then Some (with_inflight (delete k (inflight c)) c) else None
  | ASubmitCtx k =>
    _ ← inflight c !! k;
    if submitCtxDone c then Some (with_inflight (delete k (inflight c)) c) else None
  | _ => None
  end.

(** One atomic action of worker [i].

    go: internal/workerpool/workerpool.go 169-223 WorkerPool.worker *)
Definition worker (a : action) (c : config) : option config :=
  let wp := pool c in
  match a with
  | AReceive i =>
    w ← workers c !! i;
    match w, taskCh wp with
    | WIdle, t :: rest =>
      Some (with_pool (set_taskCh rest) (with_worker i (WProcessing t) c))
    | _, _ => None
    end
  | AReceiveClosed i =>
    w ← workers c !! i;
    match w, taskCh wp, taskClosed wp with
    | WIdle, [], true => Some (with_worker i WExited c)
    | _, _, _ => None
    end
  | AWorkerCtx i =>
    w ← workers c !! i;
    match w, ctxDone c with
    | WIdle, true => Some (with_worker i WExited c)
    | _, _ => None
    end
  | AProcess i res err =>
    w ← workers c !! i;
    match w with
    | WProcessing t =>
      Some (with_pool (set_stats (count err (stats wp)))
        (with_worker i (WSending (NewTaskResult (ID t) res err)) c))
    | _ => None
    end
  | ASend i =>
    w ← workers c !! i;
    match w with
    | WSending r =>
      if resultClosed wp then Some (with_flags (ctxDone c) (submitCtxDone c) true c)
      else if decide (length (resultCh wp) < queueSize wp) then
        Some (with_pool (set_resultCh (resultCh wp ++ [r])) (with_worker i WIdle c))
      else None
    | _ => None
    end
  | ASendHandoff i =>
    w ← workers c !! i;
    match w, resultCh wp, resultClosed wp with
    | WSending r, [], false => Some (with_history [] [r] [] (with_worker i WIdle c))
    | _, _, _ => None
    end
  | ASendCtx i =>
    w ← workers c !! i;
    match w, ctxDone c with
    | WSending r, true => Some (with_history [] [] [r] (with_worker i WExited c))
    | _, _ => None
    end
  | _ => None
  end.

Definition exited (w : wstate) : bool :=
  match w with WExited => true | _ => false end.

(** The watcher goroutine; closing a closed channel panics.

    go: internal/workerpool/workerpool.go 120-126 WorkerPool.Run *)
Definition watcher_step (a : action) (c : config) : option config :=
  let wp := pool c in
  match a, watch c with
  | AWatchWait, Waiting =>
    if forallb exited (workers c) then
      Some (with_watch WatchStored
        (with_pool (set_stop (taskClosed wp) (resultClosed wp) (once wp) true) c))
    else None
  | AWatchClose, WatchStored =>
    if resultClosed wp then Some (with_flags (ctxDone c) (submitCtxDone c) true c)
    else Some (with_watch WatchClosed
           (with_pool (set_stop (taskClosed wp) true (once wp) (stopped wp)) c))
  | _, _ => None
  end.

(** The function given to [once.Do]: run by the first call, two actions.

    go: internal/workerpool/workerpool.go 153-163 WorkerPool.Stop *)
Definition Stop (a : action) (c : config) : option config :=
  let wp := pool c in
  match a, once wp with
  | AStopStore, NotStopped =>
    Some (with_pool (set_stop (taskClosed wp) (resultClosed wp) StopStored true) c)
  | AStopClose, StopStored =>
    if taskClosed wp then Some (with_flags (ctxDone c) (submitCtxDone c) true c)
    else Some (with_pool (set_stop true (resultClosed wp) StopDone (stopped wp)) c)
  | _, _ => None
  end.

(** go: internal/workerpool/workerpool.go 165-167 WorkerPool.Stats *)
Definition Stats (c : config) : PoolStats := stats (pool c).

(** One action of the whole system. *)
Definition fire (a : action) (c : config) : option config :=
  match a with
  | ASubmit t => match Submit t c with inl _ => None | inr c' => Some c' end
  | ASubmitSend _ | ASubmitHandoff _ _ | ASubmitPanic _ | ASubmitCtx _ =>
    submit_select a c
  | AReceive _ | AReceiveClosed _ | AWorkerCtx _ | AProcess _ _ _ | ASend _
  | ASendHandoff _ | ASendCtx _ => worker a c
  | AWatchWait | AWatchClose => watcher_step a c
  | AStopStore | AStopClose => Stop a c
  | AConsume =>
    match resultCh (pool c) with
    | [] => None
    | r :: rest => Some (with_history [] [r] [] (with_pool (set_resultCh rest) c))
    end
  | ACancel => Some (with_flags true true (panicked c) c)
  | ACancelSubmit => Some (with_flags (ctxDone c) true (panicked c) c)
  end.

End WorkerPool.

Arguments Task : clear implicits.
Arguments TaskResult : clear implicits.
Arguments WorkerPool : clear implicits.
Arguments config : clear implicits.
Arguments action : clear implicits.
Arguments wstate : clear implicits.

(** ** Runs and invariants *)

Section Theory.
Context {P R E : Type}.

(** What [processor.Process] may return for a task (the processor talks to the
    network, so it is a relation). *)
Context (may_return : Task P → option R → option E → Prop).

Implicit Types (c : config P R E) (t : Task P) (r : TaskResult R E).

Definition allowed (a : action P R E) c : Prop :=
  match a with
  | AProcess i res err =>
    ∃ t, workers c !! i = Some (WProcessing t) ∧ may_return t res err
  | _ => True
  end.

Definition step c c' : Prop := ∃ a, allowed a c ∧ fire a c = Some c'.

(** [c] is a configuration of some run of a pool made by [New]. *)
Definition reachable (workerCount queueSize : Z) c : Prop :=
  ∃ wp, New workerCount queueSize = Some wp ∧ rtc step (Run wp) c.

(** A result produced for a task. *)
Definition result_of t r : Prop :=
  TaskID r = ID t ∧ may_return t (Result r) (Err r).

Definition tasks_of (w : wstate P R E) : list (Task P) :=
  match w with WProcessing t => [t] | _ => [] end.
Definition results_of (w : wstate P R E) : list (TaskResult R E) :=
  match w with WSending r => [r] | _ => [] end.

(** Tasks that were accepted and not processed yet; results that exist. *)
Definition pending c : list (Task P) := taskCh (pool c) ++ (workers c ≫= tasks_of).
Definition produced c : list (TaskResult R E) :=
  (workers c ≫= results_of) ++ resultCh (pool c) ++ delivered c ++ dropped c.

Definition stats_of (rs : list (TaskResult R E)) : PoolStats :=
  {| Processed := uint64 (Z.of_nat (length (filter (λ r, IsSuccess r = true) rs)));
     Failed := uint64 (Z.of_nat (length (filter (λ r, IsSuccess r = false) rs))) |}.

(** Every accepted task is either pending or has exactly one result. *)
Definition conserved c : Prop :=
  ∃ ps : list (Task P * TaskResult R E),
    accepted c ≡ₚ pending c ++ ps.*1 ∧ produced c ≡ₚ ps.*2 ∧
    Forall (λ p, result_of p.1 p.2) ps ∧ stats (pool c) = stats_of ps.*2.

Record inv (n : Z) (q : nat) c : Prop := {
  inv_count : length (workers c) = Z.to_nat n;
  inv_size : queueSize (pool c) = q;
  inv_panic : panicked c = false;
  inv_watch : match watch c with
    | Waiting => resultClosed (pool c) = false
    | WatchStored => resultClosed (pool c) = false ∧ forallb exited (workers c) = true
    | WatchClosed => resultClosed (pool c) = true ∧ forallb exited (workers c) = true
    end;
  inv_once : match once (pool c) with
    | NotStopped => taskClosed (pool c) = false
    | StopStored => taskClosed (pool c) = false ∧ stopped (pool c) = true
    | StopDone => taskClosed (pool c) = true ∧ stopped (pool c) = true
    end;
  inv_stopped : stopped (pool c) = true → once (pool c) ≠ NotStopped ∨ watch c ≠ Waiting;
  inv_exited : WExited ∈ workers c → ctxDone c = false →
    taskCh (pool c) = [] ∧ taskClosed (pool c) = true;
  inv_caps : length (taskCh (pool c)) ≤ q ∧ length (resultCh (pool c)) ≤ q;
  inv_dropped : dropped c ≠ [] → ctxDone c = true;
  inv_conserved : conserved c;
}.

(** Actions other than new calls of [Submit] and cancellations. *)
Definition internal (a : action P R E) : bool :=
  match a with ASubmit _ | ACancel | ACancelSubmit => false | _ => true end.

Definition internal_step c c' : Prop :=
  ∃ a, internal a = true ∧ allowed a c ∧ fire a c = Some c'.

(** What is left to do. *)
Definition weight (w : wstate P R E) : nat :=
  match w with WIdle => 1 | WProcessing _ => 4 | WSending _ => 3 | WExited => 0 end.
Definition measure c : nat :=
  6 * length (inflight c) + 5 * length (taskCh (pool c))
  + sum_list (weight <$> workers c) + length (resultCh (pool c))
  + match watch c with Waiting => 2 | WatchStored => 1 | WatchClosed => 0 end
  + match once (pool c) with NotStopped => 2 | StopStored => 1 | StopDone => 0 end.

(** [Stop] has returned, or the context of [Run] is done. *)
Definition closing c : Prop := once (pool c) = StopDone ∨ ctxDone c = true.

(** The consumer's [range resultCh] has ended. *)
Definition drained c : Prop := resultClosed (pool c) = true ∧ resultCh (pool c) = [].

Lemma all_exited ws i (w : wstate P R E) :
  forallb exited ws = true → ws !! i = Some w → w = WExited.
Proof.
  rewrite forallb_forall. intros H Hi. apply list_elem_of_lookup_2, list_elem_of_In in Hi.
  specialize (H _ Hi). by destruct w.
Qed.

(** Conservation: tasks move between places, results move between places,
    and [AProcess] turns one pending task into one result. *)
Lemma conserved_move c c' a :
  accepted c' = accepted c ++ a → pending c' ≡ₚ pending c ++ a →
  produced c' ≡ₚ produced c → stats (pool c') = stats (pool c) →
  conserved c → conserved c'.
Proof.
  intros Ha Hp Hr Hs (ps & Hacc & Hprod & Hall & Hst). exists ps.
  rewrite Ha, Hp, Hr, Hs, Hacc. split_and!; [solve_Permutation|done..].
Qed.

Lemma stats_of_cons r rs :
  stats_of (r :: rs) = count (Err r) (stats_of rs).
Proof.
  unfold stats_of, count, IsSuccess, uint64. rewrite !filter_cons.
  destruct (Err r); simpl; rewrite !Nat2Z.inj_succ; f_equal;
    rewrite Z.add_mod_idemp_l by lia; f_equal; lia.
Qed.

Lemma stats_of_Permutation rs rs' : rs ≡ₚ rs' → stats_of rs = stats_of rs'.
Proof. intros H. unfold stats_of. by rewrite H. Qed.

Lemma conserved_process c c' t r :
  accepted c' = accepted c → pending c ≡ₚ t :: pending c' →
  produced c' ≡ₚ r :: produced c → result_of t r →
  stats (pool c') = count (Err r) (stats (pool c)) →
  conserved c → conserved c'.
Proof.
  intros Ha Hp Hr Hres Hs (ps & Hacc & Hprod & Hall & Hst). exists ((t, r) :: ps).
  rewrite Ha, Hr, Hs, Hacc, Hp, Hprod, Hst. split_and!.
  - simpl. solve_Permutation.
  - done.
  - by constructor.
  - symmetry. apply stats_of_cons.
Qed.

(** Rewrites the tasks and results held by the workers around worker [i]. *)
Ltac worker_perm Hi :=
  unfold pending, produced; simpl;
  rewrite ?(bind_insert_Permutation _ _ _ _ _ Hi), ?(bind_lookup_Permutation _ _ _ _ Hi);
  simpl; try solve_Permutation.

(** Case analysis of a successful [fire]. *)
Ltac fire_cases H :=
  repeat match type of H with
  | context [match ?x with _ => _ end] => destruct x eqn:?; simplify_eq/=; try done
  end; simplify_eq/=.

(** The result of [fire], by cases: one successful branch per action. *)
Ltac fire_inv H :=
  simpl in H; unfold Submit in H;
  try (apply bind_Some in H as (?t & ?Ht & H));
  try (apply bind_Some in H as (?w & ?Hw & H));
  fire_cases H.

Lemma worker_conserved a c c' :
  allowed a c → worker a c = Some c' → conserved c → conserved c'.
Proof.
  intros Hal H. destruct a; simpl in H; try done;
    apply bind_Some in H as (w & Hw & H); fire_cases H.
  - apply (conserved_move _ _ []); simpl; rewrite ?app_nil_r; [done| |..]; worker_perm Hw; [|done].
    rewrite Heql. solve_Permutation.
  - apply (conserved_move _ _ []); simpl; rewrite ?app_nil_r; [done| |..]; worker_perm Hw; done.
  - apply (conserved_move _ _ []); simpl; rewrite ?app_nil_r; [done| |..]; worker_perm Hw; done.
  - simpl in Hal. destruct Hal as (t' & Ht' & Hm). rewrite Hw in Ht'. simplify_eq.
    apply (conserved_process _ _ t' (NewTaskResult (ID t') res err));
      [done|worker_perm Hw..|by split|done].
  - apply (conserved_move _ _ []); simpl; rewrite ?app_nil_r; [done| |..]; worker_perm Hw; done.
  - apply (conserved_move _ _ []); simpl; rewrite ?app_nil_r; [done| |..]; worker_perm Hw; done.
  - apply (conserved_move _ _ []); simpl; rewrite ?app_nil_r; [done| |..]; worker_perm Hw; done.
Qed.

Lemma submit_conserved a c c' :
  submit_select a c = Some c' → conserved c → conserved c'.
Proof.
  intros H. destruct a; simpl in H; try done; apply bind_Some in H as (t & Ht & H).
  - fire_cases H. apply (conserved_move _ _ [t]); [done| |..];
      unfold pending, produced; simpl; [solve_Permutation| |done].
    by rewrite !app_nil_r.
  - apply bind_Some in H as (w & Hw & H). fire_cases H.
    apply (conserved_move _ _ [t]); [done| |..]; worker_perm Hw; done.
  - by fire_cases H.
  - by fire_cases H.
Qed.

Lemma fire_conserved a c c' :
  allowed a c → fire a c = Some c' → conserved c → conserved c'.
Proof.
  intros Hal H. destruct a;
    try (exact (worker_conserved _ _ _ Hal H)); try (exact (submit_conserved _ _ _ H));
    simpl in H; try (unfold watcher_step, Stop in H; fire_cases H; exact id).
  - unfold Submit in H. destruct (stopped _); simplify_eq/=. exact id.
  - fire_cases H. apply (conserved_move _ _ []); simpl; rewrite ?app_nil_r;
      [done|done| |done]. unfold produced; simpl. rewrite Heql. solve_Permutation.
Qed.

Lemma inv_waiting n q c i w :
  inv n q c → workers c !! i = Some w → w ≠ WExited →
  watch c = Waiting ∧ resultClosed (pool c) = false.
Proof.
  intros Hinv Hw Hne. pose proof (inv_watch _ _ _ Hinv) as Hwatch.
  destruct (watch c); [done|destruct Hwatch as [_ Hall]..];
    by apply (all_exited _ _ _ Hall) in Hw.
Qed.

(** The part of the configuration a worker action leaves alone. *)
Definition same_control c c' : Prop :=
  watch c' = watch c ∧ ctxDone c' = ctxDone c ∧ panicked c' = panicked c ∧
  queueSize (pool c') = queueSize (pool c) ∧
  taskClosed (pool c') = taskClosed (pool c) ∧
  resultClosed (pool c') = resultClosed (pool c) ∧
  once (pool c') = once (pool c) ∧ stopped (pool c') = stopped (pool c).

Lemma inv_worker n q c c' i w w' :
  inv n q c → workers c !! i = Some w → w ≠ WExited →
  workers c' = <[i := w']> (workers c) → same_control c c' →
  length (taskCh (pool c')) ≤ q → length (resultCh (pool c')) ≤ q →
  (w' = WExited → ctxDone c = false → taskCh (pool c') = [] ∧ taskClosed (pool c) = true) →
  (taskCh (pool c) = [] → taskClosed (pool c) = true → taskCh (pool c') = []) →
  (dropped c' ≠ [] → ctxDone c = true) → conserved c' → inv n q c'.
Proof.
  intros Hinv Hw Hne Hws (E1 & E2 & E3 & E4 & E5 & E6 & E7 & E8) Ht Hr Hex Hemp Hd Hcons.
  destruct (inv_waiting _ _ _ _ _ Hinv Hw Hne) as [Hwait Hrc].
  split; rewrite ?E1, ?E2, ?E3, ?E4, ?E5, ?E6, ?E7, ?E8; try by apply Hinv.
  - rewrite Hws, length_insert. apply Hinv.
  - by rewrite Hwait.
  - rewrite Hws. intros Hin Hctx.
    destruct (elem_of_insert_inv _ _ _ _ Hin) as [Heq|Hold]; [by apply Hex|].
    destruct (inv_exited _ _ _ Hinv Hold Hctx) as [??]. auto.
  - done.
  - done.
  - done.
Qed.

Lemma worker_inv n q a c c' :
  allowed a c → worker a c = Some c' → inv n q c → inv n q c'.
Proof.
  intros Hal H Hinv. pose proof (worker_conserved _ _ _ Hal H (inv_conserved _ _ _ Hinv)) as Hc.
  pose proof (inv_caps _ _ _ Hinv) as [Ht Hr].
  pose proof (inv_size _ _ _ Hinv) as Hq.
  destruct a; simpl in H; try done; apply bind_Some in H as (w & Hw & H).
  all: pose proof (inv_waiting _ _ c i w Hinv Hw) as Hwait.
  all: fire_cases H; try (destruct Hwait as [_ Hwait]; [done|congruence]).
  all: eapply (inv_worker _ _ c _ i _ _ Hinv Hw); [done|done|by repeat split|..|exact Hc].
  all: simpl; rewrite ?Heql, ?length_app in *; simpl in *; try done; try lia.
  all: try (intros Hd; by apply (inv_dropped _ _ _ Hinv)).
  - congruence.
  - rewrite app_nil_r. intros Hd. by apply (inv_dropped _ _ _ Hinv).
  - congruence.
Qed.

Lemma submit_inv n q a c c' :
  submit_select a c = Some c' → inv n q c → inv n q c'.
Proof.
  intros H Hinv. pose proof (submit_conserved _ _ _ H (inv_conserved _ _ _ Hinv)) as Hc.
  pose proof (inv_caps _ _ _ Hinv) as [Ht Hr].
  pose proof (inv_size _ _ _ Hinv) as Hq.
  destruct a; simpl in H; try done; apply bind_Some in H as (t & Htk & H).
  - fire_cases H. split; simpl; try by apply Hinv.
    + intros Hin Hctx. destruct (inv_exited _ _ _ Hinv Hin Hctx). congruence.
    + rewrite length_app. simpl. split; [lia|done].
    + rewrite app_nil_r. apply Hinv.
    + done.
  - apply bind_Some in H as (w & Hw & H). fire_cases H.
    eapply (inv_worker _ _ c _ i _ _ Hinv Hw); [done|done|by repeat split|..|exact Hc];
      simpl; rewrite ?Heql, ?app_nil_r; try done; by apply Hinv.
  - fire_cases H. split; simpl; try by apply Hinv.
  - fire_cases H. split; simpl; try by apply Hinv.
Qed.

Lemma watcher_inv n q a c c' :
  watcher_step a c = Some c' → inv n q c → inv n q c'.
Proof.
  intros H Hinv. pose proof (inv_watch _ _ _ Hinv) as Hw.
  pose proof (inv_once _ _ _ Hinv) as Ho.
  unfold watcher_step in H. destruct a, (watch c) eqn:Hwc; try done; fire_cases H.
  - split; simpl; try (by apply Hinv); try done.
    + destruct (once (pool c)); [done|by destruct Ho..].
    + intros _. by right.
  - by destruct Hw.
  - split; simpl; try (by apply Hinv); try done.
    + by destruct Hw.
    + intros _. by right.
Qed.

Lemma stop_inv n q a c c' :
  Stop a c = Some c' → inv n q c → inv n q c'.
Proof.
  intros H Hinv. pose proof (inv_once _ _ _ Hinv) as Ho.
  unfold Stop in H. destruct a, (once (pool c)) eqn:Hoc; try done; fire_cases H.
  - split; simpl; try (by apply Hinv); try done. intros _. by left.
  - by destruct Ho.
  - split; simpl; try (by apply Hinv); try done.
    + by destruct Ho.
    + intros _. by left.
    + intros Hin Hctx. by destruct (inv_exited _ _ _ Hinv Hin Hctx).
Qed.

Lemma fire_inv n q a c c' :
  allowed a c → fire a c = Some c' → inv n q c → inv n q c'.
Proof.
  intros Hal H Hinv. destruct a;
    try (exact (worker_inv _ _ _ _ _ Hal H Hinv));
    try (exact (submit_inv _ _ _ _ _ H Hinv));
    try (exact (watcher_inv _ _ _ _ _ H Hinv));
    try (exact (stop_inv _ _ _ _ _ H Hinv)).
  all: pose proof (fire_conserved _ _ _ Hal H (inv_conserved _ _ _ Hinv)) as Hc;
    simpl in H; unfold Submit in H;
    try (match type of H with context [if stopped ?p then _ else _] =>
           destruct (stopped p) eqn:? end); fire_cases H.
  all: pose proof (inv_caps _ _ _ Hinv) as [? Hr].
  all: split; simpl; rewrite ?app_nil_r; try (by apply Hinv); try done.
  rewrite Heql in Hr. simpl in Hr. split; [done|lia].
Qed.

Lemma run_inv n q wp : New n q = Some wp → inv n (Z.to_nat q) (Run wp).
Proof.
  unfold New. case_match; [done|]. intros [= <-].
  split; simpl; try done.
  - apply length_replicate.
  - by intros [? _]%elem_of_replicate.
  - lia.
  - exists []. split_and!; simpl; try done.
    + unfold pending. simpl. induction (Z.to_nat n); done.
    + unfold produced. simpl. induction (Z.to_nat n); done.
Qed.

Lemma reachable_inv n q c : reachable n q c → inv n (Z.to_nat q) c.
Proof.
  intros (wp & Hnew & Hrtc).
  eapply (rtc_invariant _ (inv n (Z.to_nat q))); [|done|by apply run_inv].
  intros c1 c2 Hinv (a & Hal & Hf). by eapply fire_inv.
Qed.

Lemma measure_decreases n q c c' :
  inv n q c → internal_step c c' → measure c' < measure c.
Proof.
  intros Hinv (a & Hint & _ & H). unfold measure.
  destruct a; try done; simpl in H; unfold watcher_step, Stop in H;
    try (apply bind_Some in H as (t & Ht & H));
    try (apply bind_Some in H as (w & Hw & H)).
  all: fire_cases H; simpl; rewrite ?length_app; simpl.
  all: try match goal with Hk : inflight _ !! ?k = Some _ |- _ =>
    rewrite (length_delete _ _ (mk_is_Some _ _ Hk)); apply lookup_lt_Some in Hk end.
  all: try match goal with Hw : workers ?c !! ?i = Some ?w
      |- context [<[?i := ?w']> (workers ?c)] =>
    pose proof (sum_list_insert weight (workers c) i w w' Hw); simpl in * end.
  all: rewrite ?Heql, ?Heqw, ?Heqo in *; simpl in *; try lia.
  (* the three panicking branches *)
  - by destruct (inv_waiting _ _ _ _ _ Hinv Ht) as [_ ?]; [|congruence].
  - pose proof (inv_watch _ _ _ Hinv) as Hw. rewrite Heqw in Hw. destruct Hw. congruence.
  - pose proof (inv_once _ _ _ Hinv) as Ho. rewrite Heqo in Ho. destruct Ho. congruence.
Qed.

Lemma closing_step c c' : internal_step c c' → closing c → closing c'.
Proof.
  intros (a & Hint & _ & H) Hc. unfold closing in *.
  destruct a; try done; simpl in H; unfold watcher_step, Stop in H;
    try (apply bind_Some in H as (t & Ht & H));
    try (apply bind_Some in H as (w & Hw & H)); fire_cases H;
    solve [destruct Hc as [Hc|Hc]; [left|right]; simpl in *; congruence].
Qed.

Lemma not_all_exited (ws : list (wstate P R E)) :
  forallb exited ws = false → ∃ i w, ws !! i = Some w ∧ w ≠ WExited.
Proof.
  induction ws as [|w ws IH]; simpl; [done|]. intros [Hw|H]%andb_false_iff.
  - exists 0, w. by destruct w.
  - destruct (IH H) as (i & w' & ? & ?). by exists (S i), w'.
Qed.

(** Deadlock freedom: while the pool is closing, some goroutine can move until
    the result channel is closed and drained. *)
Lemma progress n q c :
  (∀ t, ∃ res err, may_return t res err) →
  inv n q c → closing c → drained c ∨ ∃ c', internal_step c c'.
Proof.
  intros Hproc Hinv Hclosing. pose proof (inv_watch _ _ _ Hinv) as Hwatch.
  destruct (resultCh (pool c)) as [|r rest] eqn:Hres.
  2: { right. eexists. exists AConsume. split_and!; [done..|]. simpl. by rewrite Hres. }
  destruct (watch c) eqn:Hw.
  - destruct (forallb exited (workers c)) eqn:Hex.
    { right. eexists. exists AWatchWait. split_and!; [done..|].
      simpl. by rewrite Hw, Hex. }
    destruct (not_all_exited _ Hex) as (i & w & Hi & Hne). right.
    destruct w as [|t|r|]; [|destruct (Hproc t) as (res & err & Hm)|..|done].
    + destruct (ctxDone c) eqn:Hctx.
      { eexists. exists (AWorkerCtx i). split_and!; [done..|]. simpl. by rewrite Hi, Hctx. }
      destruct Hclosing as [Honce|]; [|congruence].
      pose proof (inv_once _ _ _ Hinv) as Ho. rewrite Honce in Ho. destruct Ho as [Hcl _].
      destruct (taskCh (pool c)) as [|t rest] eqn:Ht.
      * eexists. exists (AReceiveClosed i). split_and!; [done..|]. simpl.
        by rewrite Hi, Ht, Hcl.
      * eexists. exists (AReceive i). split_and!; [done..|]. simpl. by rewrite Hi, Ht.
    + eexists. exists (AProcess i res err). split_and!; [done|by exists t|].
      simpl. by rewrite Hi.
    + eexists. exists (ASendHandoff i). split_and!; [done..|]. simpl.
      by rewrite Hi, Hres, Hwatch.
  - right. eexists. exists AWatchClose. split_and!; [done..|]. simpl.
    destruct Hwatch as [Hrc _]. by rewrite Hw, Hrc.
  - left. by destruct Hwatch.
Qed.

Lemma internal_inv n q c c' : internal_step c c' → inv n q c → inv n q c'.
Proof. intros (a & _ & ? & ?) ?. by eapply fire_inv. Qed.

Lemma internal_bounded n q k c c' :
  inv n q c → nsteps internal_step k c c' → k + measure c' ≤ measure c.
Proof.
  intros Hinv Hk. induction Hk as [|k c1 c2 c3 Hs Hk IH]; [lia|].
  pose proof (measure_decreases _ _ _ _ Hinv Hs).
  specialize (IH (internal_inv _ _ _ _ Hs Hinv)). lia.
Qed.

Lemma closing_inv_rtc n q c c' :
  rtc internal_step c c' → inv n q c ∧ closing c → inv n q c' ∧ closing c'.
Proof.
  intros H. apply (rtc_invariant internal_step (λ c, inv n q c ∧ closing c)); [|done].
  intros x y [Hi Hc] Hs. split; [by eapply internal_inv|by eapply closing_step].
Qed.

Lemma closed_all_exited n q c :
  inv n q c → resultClosed (pool c) = true → Forall (λ w, w = WExited) (workers c).
Proof.
  intros Hinv Hcl. pose proof (inv_watch _ _ _ Hinv) as Hw.
  apply Forall_lookup. intros i w Hi.
  destruct (watch c); [congruence|destruct Hw as [? Hall]..]; [congruence|].
  by eapply all_exited.
Qed.

(** Executing a list of actions, for concrete runs. *)
Definition allowed_by (chk : Task P → option R → option E → bool)
    (a : action P R E) c : bool :=
  match a with
  | AProcess i res err =>
    match workers c !! i with Some (WProcessing t) => chk t res err | _ => false end
  | _ => true
  end.

Fixpoint run_actions (chk : Task P → option R → option E → bool)
    (acts : list (action P R E)) c : option (config P R E) :=
  match acts with
  | [] => Some c
  | a :: acts' =>
    if allowed_by chk a c then fire a c ≫= run_actions chk acts' else None
  end.

Lemma run_actions_rtc chk acts c c' :
  (∀ t res err, chk t res err = true → may_return t res err) →
  run_actions chk acts c = Some c' → rtc step c c'.
Proof.
  intros Hchk. revert c. induction acts as [|a acts IH]; intros c; simpl.
  { intros [= <-]. apply rtc_refl. }
  destruct (allowed_by chk a c) eqn:Ha; [|done].
  intros (c1 & Hf & Hrun)%bind_Some. eapply rtc_l; [|by apply IH].
  exists a. split; [|done]. destruct a; try done. simpl in *.
  destruct (workers c !! i) as [[]|]; try done. eauto.
Qed.

(** Once everything has been received, results and accepted tasks correspond. *)
Lemma drained_results (n q : Z) c :
  reachable n q c → (0 < n)%Z → ctxDone c = false → drained c →
  ∃ ps : list (Task P * TaskResult R E),
    accepted c ≡ₚ ps.*1 ∧ delivered c ≡ₚ ps.*2 ∧
    Forall (λ p, result_of p.1 p.2) ps ∧ stats (pool c) = stats_of (delivered c).
Proof.
  intros Hr Hn Hctx [Hcl Hdr]. pose proof (reachable_inv _ _ _ Hr) as Hinv.
  pose proof (closed_all_exited _ _ _ Hinv Hcl) as Hex.
  assert (HinW : WExited ∈ workers c).
  { pose proof (inv_count _ _ _ Hinv). destruct (workers c) as [|w ws]; simpl in *; [lia|].
    apply Forall_cons in Hex as [-> _]. left. }
  destruct (inv_exited _ _ _ Hinv HinW Hctx) as [Ht _].
  assert (Hd : dropped c = []).
  { destruct (dropped c) eqn:He; [done|].
    rewrite (inv_dropped _ _ _ Hinv) in Hctx; [done|by rewrite He]. }
  assert (Hts : ∀ B (f : wstate P R E → list B), f WExited = [] → workers c ≫= f = []).
  { intros B f Hf. clear -Hex Hf. induction Hex as [|w ws -> _ IH]; [done|].
    simpl. by rewrite Hf. }
  destruct (inv_conserved _ _ _ Hinv) as (ps & Hacc & Hprod & Hall & Hst).
  unfold pending in Hacc. rewrite Ht, (Hts _ tasks_of eq_refl) in Hacc.
  unfold produced in Hprod. rewrite (Hts _ results_of eq_refl), Hdr, Hd, app_nil_r in Hprod.
  exists ps. split_and!; [done..|]. rewrite Hst. by apply stats_of_Permutation.
Qed.

(** ** Properties *)

(** C26. No goroutine of the pool ever sends on a closed channel or closes a
    channel twice outside the recovered [Submit], whatever the interleaving of
    [Submit], [Stop], workers and cancellation; the result channel is closed
    only after every worker has returned; and both buffers stay within
    [queueSize]. *)
Theorem pool_never_panics (n q : Z) c :
  reachable n q c →
  panicked c = false ∧
  (resultClosed (pool c) = true → Forall (λ w, w = WExited) (workers c)) ∧
  length (taskCh (pool c)) ≤ Z.to_nat q ∧ length (resultCh (pool c)) ≤ Z.to_nat q.
Proof.
  intros Hr. pose proof (reachable_inv _ _ _ Hr) as Hinv.
  split; [apply Hinv|]. split; [by eapply closed_all_exited|apply Hinv].
Qed.

(** C1. Exactly-once processing: when the consumer has received everything
    (result channel closed and drained) and the context was never cancelled, a
    pool with at least one worker has produced and delivered exactly one result
    for every accepted task, each one a result its processing may return under
    the task's own id, and the statistics count the successes and failures. *)
Theorem pool_exactly_once (n q : Z) c :
  reachable n q c → (0 < n)%Z → ctxDone c = false → drained c →
  ∃ ps : list (Task P * TaskResult R E),
    accepted c ≡ₚ ps.*1 ∧ delivered c ≡ₚ ps.*2 ∧
    Forall (λ p, result_of p.1 p.2) ps ∧ stats (pool c) = stats_of (delivered c).
Proof. apply drained_results. Qed.

(** C13. The pool always drains: once [Stop] has returned or the context is
    done, and if [Process] eventually returns, every schedule of the goroutines
    is finite (at most [measure] steps) and can only come to rest with the
    result channel closed and drained; there is no deadlock and no livelock. *)
Theorem pool_drains (n q : Z) c :
  (∀ t, ∃ res err, may_return t res err) → reachable n q c → closing c →
  (∀ k c', nsteps internal_step k c c' → k ≤ measure c) ∧
  (∀ c', rtc internal_step c c' → (∀ c'', ¬ internal_step c' c'') → drained c').
Proof.
  intros Hproc Hr Hc. pose proof (reachable_inv _ _ _ Hr) as Hinv. split.
  - intros k c' Hk. pose proof (internal_bounded _ _ _ _ _ Hinv Hk). lia.
  - intros c' Hs Hstuck.
    destruct (closing_inv_rtc _ _ _ _ Hs (conj Hinv Hc)) as [Hinv' Hc'].
    destruct (progress _ _ _ Hproc Hinv' Hc') as [|[c'' Hs']]; [done|].
    by destruct (Hstuck c'').
Qed.
End Theory.

(** ** Witnesses: one worker, a queue of one, a processor that echoes *)

Definition echo (t : Task nat) (res : option nat) (err : option string) : Prop :=
  res = Some (Payload t) ∧ err = None.

Definition demo_task : Task nat := NewTask "T" 7.

(** The configuration after one task was submitted, processed and consumed. *)
Definition demo_final : config nat nat string :=
  {| pool := {| workerCount := 1; queueSize := 1; taskCh := []; taskClosed := true;
                resultCh := []; resultClosed := true;
                stats := {| Processed := 1; Failed := 0 |};
                once := StopDone; stopped := true |};
     workers := [WExited]; watch := WatchClosed; inflight := [];
     ctxDone := false; submitCtxDone := false; panicked := false;
     accepted := [demo_task]; delivered := [NewTaskResult "T" (Some 7) None];
     dropped := [] |}.

Definition demo_actions : list (action nat nat string) :=
  [ASubmit demo_task; ASubmitSend 0; AStopStore; AStopClose; AReceive 0;
   AProcess 0 (Some 7) None; ASend 0; AReceiveClosed 0; AWatchWait; AWatchClose;
   AConsume].

Definition echo_check (t : Task nat) (res : option nat) (err : option string) : bool :=
  bool_decide (res = Some (Payload t)) && bool_decide (err = None).

Lemma demo_reachable : reachable echo 1 1 demo_final.
Proof.
  eexists. split; [reflexivity|].
  apply (run_actions_rtc echo echo_check demo_actions).
  - intros t res err [Hr He]%andb_prop.
    apply bool_decide_eq_true in Hr, He. by split.
  - vm_compute. reflexivity.
Qed.

Lemma pool_never_panics_witness : panicked demo_final = false.
Proof. exact (proj1 (pool_never_panics echo 1 1 demo_final demo_reachable)). Defined.

Lemma pool_exactly_once_witness :
  ∃ ps : list (Task nat * TaskResult nat string),
    [demo_task] ≡ₚ ps.*1 ∧ [NewTaskResult "T" (Some 7) None] ≡ₚ ps.*2 ∧
    Forall (λ p, result_of echo p.1 p.2) ps.
Proof.
  destruct (pool_exactly_once echo 1 1 demo_final demo_reachable eq_refl eq_refl
    (conj eq_refl eq_refl)) as (ps & H1 & H2 & H3 & _).
  exists ps. split; [exact H1|]. split; [exact H2|exact H3].
Defined.

Lemma pool_drains_witness :
  closing demo_final ∧
  (∀ c', rtc (internal_step echo) demo_final c' →
    (∀ c'', ¬ internal_step echo c' c'') → drained c').
Proof.
  split; [left; reflexivity|].
  refine (proj2 (pool_drains echo 1 1 demo_final _ demo_reachable (or_introl eq_refl))).
  intros t. exists (Some (Payload t)), None. split; reflexivity.
Defined.
