(* ===== verification/Repository.v ===== *)
(** * The PostgreSQL repository
    (internal/repository/postgres/postgres.go, its queries/*.sql, and the raw
    schema of internal/database/migrations)

    A statement of queries/*.sql is a function on the tables of the raw schema,
    with the schema's keys, references and column types.  A database session is
    the committed tables, the transaction in progress with its own tables, and
    the faults (lost connections, cancelled contexts) the environment has in
    store.  Transactions are serial: only this session's writes are modelled. *)

From S2P Require Import Prelude GoLang GoTime Errors RawModels.
Local Open Scope Z_scope.
Local Open Scope go_scope.

(** ** The raw schema *)

(** The TIMESTAMP columns hold the Go times they are given: the driver's
    conversion, which drops the offset and what is finer than a microsecond, is
    not modelled, nor does anything depend on it, since no query reads them.

    go: internal/database/migrations/000001_init_raw_data_scheme.up.sql 3-36 raw *)
Record Tables := mkTables {
  projects : gmap Z string;
  authors : gmap Z string;
  issues : gmap Z RawIssue;
  status_changes : list StatusChange;
}.

Definition no_tables : Tables := mkTables ∅ ∅ ∅ [].

(** A [text] value cannot hold a zero byte. *)
Definition text_ok (s : string) : bool := forallb (λ b, negb (b =? 0)) (bytes s).
Definition text_opt_ok (s : option string) : bool :=
  match s with None => true | Some s => text_ok s end.

(** Why a statement fails: the driver refuses to encode an argument (nothing is
    sent), or the server reports an error (which aborts a transaction). *)
Inductive failure := Unencodable | ServerError (code msg : string).

Definition foreign_key_violation (constraint : string) : failure :=
  ServerError "23503" ("violates foreign key constraint " ++ constraint).
Definition invalid_text : failure :=
  ServerError "22021" "invalid byte sequence for encoding".

Definition int4 (z : Z) : bool := bool_decide (in_int32 z).
Definition int4_opt (z : option Z) : bool := match z with None => true | Some z => int4 z end.

(** [if ok { k } else { fail }] *)
Definition check (ok : bool) (f : failure) (k : res failure Tables) : res failure Tables :=
  if ok then k else Err f.

Definition has {A} (m : gmap Z A) (k : Z) : bool := bool_decide (is_Some (m !! k)).

(** ON CONFLICT DO NOTHING.

    go: internal/repository/postgres/queries/insert_project.sql 1-3 insert_project *)
Definition insert_project (id : Z) (title : string) (t : Tables) : res failure Tables :=
  check (int4 id) Unencodable
  (check (text_ok title) invalid_text
  (Ok (if has (projects t) id then t
       else mkTables (<[id := title]> (projects t)) (authors t) (issues t) (status_changes t)))).

(** go: internal/repository/postgres/queries/insert_author.sql 1-3 insert_author *)
Definition insert_author (id : Z) (name : string) (t : Tables) : res failure Tables :=
  check (int4 id) Unencodable
  (check (text_ok name) invalid_text
  (Ok (if has (authors t) id then t
       else mkTables (projects t) (<[id := name]> (authors t)) (issues t) (status_changes t)))).

Definition issue_encodable (i : RawIssue) : bool :=
  int4 (ri_ID i) && int4 (ri_ProjectID i) && int4 (ri_AuthorID i)
  && int4_opt (ri_AssigneeID i) && int4_opt (ri_TimeSpent i).

Definition issue_text_ok (i : RawIssue) : bool :=
  text_ok (ri_Key i) && text_opt_ok (ri_Summary i) && text_opt_ok (ri_Description i)
  && text_opt_ok (ri_Type i) && text_opt_ok (ri_Priority i) && text_opt_ok (ri_Status i).

(** ON CONFLICT (id) DO UPDATE of every other column.

    go: internal/repository/postgres/queries/insert_issue.sql 1-22 insert_issue *)
Definition insert_issue (i : RawIssue) (t : Tables) : res failure Tables :=
  check (issue_encodable i) Unencodable
  (check (issue_text_ok i) invalid_text
  (check (has (projects t) (ri_ProjectID i)) (foreign_key_violation "issue_project_id_fkey")
  (check (has (authors t) (ri_AuthorID i)) (foreign_key_violation "issue_author_id_fkey")
  (check (match ri_AssigneeID i with None => true | Some a => has (authors t) a end)
     (foreign_key_violation "issue_assignee_id_fkey")
  (Ok (mkTables (projects t) (authors t) (<[ri_ID i := i]> (issues t)) (status_changes t))))))).

(** go: internal/repository/postgres/queries/insert_status_change.sql 1-8 insert_status_change *)
Definition insert_status_change (c : StatusChange) (t : Tables) : res failure Tables :=
  check (int4 (sc_IssueID c) && int4 (sc_AuthorID c)) Unencodable
  (check (text_opt_ok (sc_FromStatus c) && text_opt_ok (sc_ToStatus c)) invalid_text
  (check (has (issues t) (sc_IssueID c)) (foreign_key_violation "status_changes_issue_id_fkey")
  (check (has (authors t) (sc_AuthorID c)) (foreign_key_violation "status_changes_author_id_fkey")
  (Ok (mkTables (projects t) (authors t) (issues t) (status_changes t ++ [c])))))).

(** go: internal/repository/postgres/queries/delete_status_changes_by_issue.sql 1-1 delete_status_changes_by_issue *)
Definition delete_status_changes_by_issue (issue_id : Z) (t : Tables) : res failure Tables :=
  check (int4 issue_id) Unencodable
  (Ok (mkTables (projects t) (authors t) (issues t)
         (filter (λ c, sc_IssueID c ≠ issue_id) (status_changes t)))).

(** ** Sessions *)

(** What the environment does to the next round trip to the server: nothing,
    or break it, the server having [applied] the request or not. *)
Inductive fault := Fine | Broken (e : error) (applied : bool).

Record Session := mkSession {
  committed : Tables;
  tx : option (Tables * bool);   (* its tables; whether it is aborted *)
  faults : list fault;           (* [Fine] for ever after *)
}.

(** The code that uses a database keeps its session in some larger state. *)
Class HasDB (S : Type) := {
  getDB : S → Session;
  setDB : Session → S → S;
  getDB_setDB d s : getDB (setDB d s) = d;
  setDB_getDB s : setDB (getDB s) s = s;
  setDB_setDB d d' s : setDB d' (setDB d s) = setDB d' s;
}.

Definition in_failed_transaction : error :=
  EPg "25P02" "current transaction is aborted, commands ignored until end of transaction block".
Definition ErrTxDone : error :=
  ENew [L "sql: transaction has already been committed or rolled back"].
Definition ErrTxCommitRollback : error := ENew [L "commit unexpectedly resulted in rollback"].

Definition failure_error (f : failure) : error :=
  match f with
  | Unencodable => ENew [L "failed to encode args: unable to encode into binary format for int4"]
  | ServerError code msg => EPg code msg
  end.

Definition aborts (f : failure) : bool :=
  match f with Unencodable => false | ServerError _ _ => true end.

(** What [r.db] is: a [*sql.DB], a [*sql.Tx], or a test double (which accepts
    every statement). *)
Inductive querier := SqlDB | SqlTx | OtherQuerier.

(** go: internal/repository/postgres/postgres.go 54-56 PostgresRepository *)
Record PostgresRepository := mkRepo { db : querier }.

(** go: internal/repository/postgres/postgres.go 58-60 New *)
Definition New : PostgresRepository := {| db := SqlDB |}.

Section Repository.
Context {S : Type} `{HasDB S}.

Definition next_fault : M S fault := λ s,
  let d := getDB s in
  match faults d with
  | [] => (Fine, s)
  | f :: fs => (f, setDB (mkSession (committed d) (tx d) fs) s)
  end.

Definition set_committed (t : Tables) : M S unit :=
  modify (λ s, let d := getDB s in setDB (mkSession t (tx d) (faults d)) s).
Definition set_tx (x : option (Tables * bool)) : M S unit :=
  modify (λ s, let d := getDB s in setDB (mkSession (committed d) x (faults d)) s).

(** [ExecContext]; on a [*sql.DB] the statement is its own transaction. *)
Definition ExecContext (q : querier) (stmt : Tables → res failure Tables) : M S (option error) :=
  λ s,
  match q with
  | SqlDB =>
    (let* f := next_fault in
     λ s, match f, stmt (committed (getDB s)) with
          | Broken e applied, Ok t =>
            (let* _ := set_committed (if applied : bool then t else committed (getDB s)) in
             ret (Some e)) s
          | Broken e _, Err _ => ret (Some e) s
          | Fine, Ok t => (let* _ := set_committed t in ret None) s
          | Fine, Err f => ret (Some (failure_error f)) s
          end) s
  | SqlTx =>
    match tx (getDB s) with
    | None => ret (Some ErrTxDone) s
    | Some (t, true) => ret (Some in_failed_transaction) s
    | Some (t, false) =>
      (let* f := next_fault in
       match f, stmt t with
       | Broken e _, _ => let* _ := set_tx (Some (t, true)) in ret (Some e)
       | Fine, Ok t' => let* _ := set_tx (Some (t', false)) in ret None
       | Fine, Err f => let* _ := set_tx (Some (t, aborts f)) in ret (Some (failure_error f))
       end) s
    end
  | OtherQuerier => ret None s
  end.

(** ** Transactions *)

(** [db.BeginTx(ctx, nil)] *)
Definition BeginTx : M S (option error) :=
  let* f := next_fault in
  match f with
  | Broken e _ => ret (Some e)
  | Fine => λ s, (let* _ := set_tx (Some (committed (getDB s), false)) in ret None) s
  end.

(** go: internal/repository/postgres/postgres.go 62-79 PostgresRepository.NewTx *)
Definition NewTx (r : PostgresRepository) : M S (res error PostgresRepository) :=
  match db r with
  | SqlTx => ret (Err (ESentinel errNestedTransaction))
  | OtherQuerier => ret (Err (ESentinel errUnexpectedQuerierType))
  | SqlDB =>
    let* err := BeginTx in
    match err with
    | Some err => ret (Err (wrap "begin transaction" err))
    | None => ret (Ok {| db := SqlTx |})
    end
  end.

(** [tx.Commit()] of database/sql and pgx. *)
Definition tx_commit : M S (option error) := λ s,
  match tx (getDB s) with
  | None => ret (Some ErrTxDone) s
  | Some (t, aborted) =>
    (let* f := next_fault in
     let* _ := set_tx None in
     match f with
     | Broken e applied =>
       if (applied && negb aborted)%bool
       then let* _ := set_committed t in ret (Some e) else ret (Some e)
     | Fine =>
       if aborted : bool then ret (Some ErrTxCommitRollback)
       else let* _ := set_committed t in ret None
     end) s
  end.

Definition tx_rollback : M S (option error) := λ s,
  match tx (getDB s) with
  | None => ret (Some ErrTxDone) s
  | Some _ =>
    (let* f := next_fault in
     let* _ := set_tx None in
     match f with Broken e _ => ret (Some e) | Fine => ret None end) s
  end.

(** go: internal/repository/postgres/postgres.go 81-93 PostgresRepository.Commit *)
Definition Commit (r : PostgresRepository) : M S (option error) :=
  match db r with
  | SqlTx =>
    let* err := tx_commit in
    match err with Some err => ret (Some (wrap "commit transaction" err)) | None => ret None end
  | _ => ret (Some (ESentinel errCommitOutsideTx))
  end.

(** go: internal/repository/postgres/postgres.go 95-107 PostgresRepository.Rollback *)
Definition Rollback (r : PostgresRepository) : M S (option error) :=
  match db r with
  | SqlTx =>
    let* err := tx_rollback in
    match err with Some err => ret (Some (wrap "rollback transaction" err)) | None => ret None end
  | _ => ret (Some (ESentinel errRollbackOutsideTx))
  end.

(** go: internal/repository/postgres/postgres.go 109-126 PostgresRepository.WithTransaction *)
Definition WithTransaction (r : PostgresRepository)
    (operation : PostgresRepository → M S (option error)) : M S (option error) :=
  let* txRepo := NewTx r in
  match txRepo with
  | Err err => ret (Some err)
  | Ok txRepo =>
    let* execErr := operation txRepo in
    match execErr with
    | Some execErr => let* _ := Rollback txRepo in ret (Some execErr)
    | None => Commit txRepo
    end
  end.

(** ** Inserts *)

(** go: internal/repository/postgres/postgres.go 128-135 isUniqueViolation *)
Definition isUniqueViolation (err : error) : bool :=
  match errors_as_pg err with
  | Some code => String.eqb code "23505"
  | None => false
  end.

(** The error of an insert: [already] on a unique violation, else wrapped. *)
Definition insert_error (what : string) (already : sentinel) (err : option error)
    : option error :=
  match err with
  | None => None
  | Some err => Some (if isUniqueViolation err then ESentinel already else wrap what err)
  end.

(** go: internal/repository/postgres/postgres.go 137-151 PostgresRepository.InsertProject *)
Definition InsertProject (r : PostgresRepository) (project : RawProject) : M S (option error) :=
  let* err := ExecContext (db r) (insert_project (rp_ID project) (rp_Title project)) in
  ret (insert_error "insert project" ErrProjectAlreadyExists err).

(** go: internal/repository/postgres/postgres.go 153-167 PostgresRepository.InsertAuthor *)
Definition InsertAuthor (r : PostgresRepository) (author : RawAuthor) : M S (option error) :=
  let* err := ExecContext (db r) (insert_author (ra_ID author) (ra_Name author)) in
  ret (insert_error "insert author" ErrAuthorAlreadyExists err).

(** go: internal/repository/postgres/postgres.go 169-195 PostgresRepository.InsertIssue *)
Definition InsertIssue (r : PostgresRepository) (issue : RawIssue) : M S (option error) :=
  let* err := ExecContext (db r) (insert_issue issue) in
  ret (insert_error "insert issue" ErrIssueAlreadyExists err).

(** go: internal/repository/postgres/postgres.go 197-213 PostgresRepository.InsertStatusChange *)
Definition InsertStatusChange (r : PostgresRepository) (change : StatusChange)
    : M S (option error) :=
  let* err := ExecContext (db r) (insert_status_change change) in
  ret (wrap "insert status change" <$> err).

(** go: internal/repository/postgres/postgres.go 218-225 PostgresRepository.DeleteStatusChangesByIssue *)
Definition DeleteStatusChangesByIssue (r : PostgresRepository) (issueID : Z)
    : M S (option error) :=
  let* err := ExecContext (db r) (delete_status_changes_by_issue issueID) in
  ret (wrap ("delete status changes for issue " ++ FormatInt issueID) <$> err).
End Repository.

(** ** Programs that run inside a transaction *)

Section Transactions.
Context {S : Type} `{HasDB S}.

(** A program that only touches the database through the open transaction: the
    committed tables stay as they are and the transaction stays open. *)
Definition in_tx (s s' : S) : Prop :=
  is_Some (tx (getDB s)) →
  committed (getDB s') = committed (getDB s) ∧ is_Some (tx (getDB s')).

#[export] Instance in_tx_preorder : PreOrder in_tx.
Proof.
  split; [by intros s|]. intros s1 s2 s3 H12 H23 Hs.
  destruct (H12 Hs) as [<- ?]. by apply H23.
Qed.

Abbreviation TxProgram := (Keeps in_tx).

(** Updates of the state that leave the session alone. *)
Lemma TxProgram_frame {A} (m : M S A) : (∀ s, getDB (m s).2 = getDB s) → TxProgram m.
Proof. intros Hm s Hs. by rewrite Hm. Qed.

#[export] Instance TxProgram_exec stmt : TxProgram (ExecContext SqlTx stmt).
Proof.
  intros s [[t ab] Ht]. unfold ExecContext. rewrite Ht.
  destruct ab; [unfold ret; simpl; by rewrite Ht|].
  unfold bind, next_fault. destruct (faults (getDB s)) as [|f fs];
    [|destruct f as [|e ap]]; simpl; destruct (stmt t) as [t'|fl];
    unfold set_tx, modify, ret; simpl; rewrite !getDB_setDB; simpl; eauto.
Qed.

Definition txRepo : PostgresRepository := {| db := SqlTx |}.

#[export] Instance TxProgram_InsertAuthor a : TxProgram (InsertAuthor txRepo a).
Proof. apply _. Qed.
#[export] Instance TxProgram_InsertIssue i : TxProgram (InsertIssue txRepo i).
Proof. apply _. Qed.
#[export] Instance TxProgram_InsertStatusChange c : TxProgram (InsertStatusChange txRepo c).
Proof. apply _. Qed.
#[export] Instance TxProgram_Delete id : TxProgram (DeleteStatusChangesByIssue txRepo id).
Proof. apply _. Qed.

(** A program that only changes the session. *)
Definition db_only (s s' : S) : Prop := ∃ d, s' = setDB d s.

#[export] Instance db_only_preorder : PreOrder db_only.
Proof.
  split.
  - intros s. exists (getDB s). by rewrite setDB_getDB.
  - intros s1 s2 s3 [d ->] [d' ->]. exists d'. apply setDB_setDB.
Qed.

#[export] Instance db_only_modify (f : S → Session) :
  Keeps db_only (modify (λ s, setDB (f s) s)).
Proof. intros s. by exists (f s). Qed.

#[export] Instance db_only_next_fault : Keeps db_only next_fault.
Proof.
  intros s. unfold next_fault. destruct (faults (getDB s)); simpl; [reflexivity|by eexists].
Qed.

Lemma db_only_at {A} (m : M S A) (s : S) : Keeps db_only m → db_only s (m s).2.
Proof. intros Hm. apply Hm. Qed.

#[export] Instance db_only_exec q stmt : Keeps db_only (ExecContext q stmt).
Proof.
  intros s. unfold ExecContext. destruct q; [| |reflexivity].
  - revert s. apply Keeps_bind; [apply _..|]. intros f s.
    destruct f as [|e ap], (stmt (committed (getDB s))); apply db_only_at; apply _.
  - destruct (tx (getDB s)) as [[t [|]]|]; apply db_only_at; try apply _.
    apply Keeps_bind; [apply _..|]. intros [|e ap]; [destruct (stmt t)|]; apply _.
Qed.

#[export] Instance db_only_NewTx r : Keeps db_only (NewTx r).
Proof.
  unfold NewTx, BeginTx. destruct (db r); try apply _.
  apply Keeps_bind; [apply _| |apply _]. apply Keeps_bind; [apply _..|].
  intros [|e ap]; [|apply _]. intros s. apply db_only_at, _.
Qed.

#[export] Instance db_only_Commit r : Keeps db_only (Commit r).
Proof.
  unfold Commit. destruct (db r); try apply _.
  apply Keeps_bind; [apply _| |apply _]. intros s. unfold tx_commit.
  destruct (tx (getDB s)) as [[t ab]|]; apply db_only_at; [|apply _].
  apply Keeps_bind; [apply _..|]. intros f. apply Keeps_bind; [apply _..|]. intros _.
  destruct f as [|e ap]; apply _.
Qed.

#[export] Instance db_only_Rollback r : Keeps db_only (Rollback r).
Proof.
  unfold Rollback. destruct (db r); try apply _.
  apply Keeps_bind; [apply _| |apply _]. intros s. unfold tx_rollback.
  destruct (tx (getDB s)); apply db_only_at; [|apply _].
  apply Keeps_bind; [apply _..|]. intros f. apply Keeps_bind; [apply _..|]. intros _.
  destruct f; apply _.
Qed.

(** A relation that ignores the session is kept by a transaction whose operation
    keeps it. *)
Lemma WithTransaction_keeps (R : relation S) `{!PreOrder R} r operation :
  (∀ s s', db_only s s' → R s s') → (∀ r, Keeps R (operation r)) →
  Keeps R (WithTransaction r operation).
Proof.
  intros HR Hop. assert (Hdb : ∀ A (m : M S A), Keeps db_only m → Keeps R m)
    by (intros A m Hm s; apply HR, Hm).
  unfold WithTransaction. apply Keeps_bind; [done|apply Hdb, _|]. intros [r'|e]; [|apply _].
  apply Keeps_bind; [done|apply Hop|]. intros [e|]; [|apply Hdb, _].
  apply Keeps_bind; [done|apply Hdb, _|]. intros _. apply _.
Qed.

(** No fault is in store. *)
Definition healthy (s : S) : Prop := faults (getDB s) = [].

(** ** The execution of a transaction without faults *)

Lemma exec_tx_healthy stmt s t :
  healthy s → tx (getDB s) = Some (t, false) →
  ExecContext SqlTx stmt s =
    match stmt t with
    | Ok t' => (None, setDB (mkSession (committed (getDB s)) (Some (t', false)) []) s)
    | Err f => (Some (failure_error f),
                setDB (mkSession (committed (getDB s)) (Some (t, aborts f)) []) s)
    end.
Proof.
  unfold healthy. intros Hf Ht. unfold ExecContext. rewrite Ht.
  unfold bind, next_fault. rewrite Hf. simpl.
  by destruct (stmt t); unfold set_tx, modify, ret; simpl; rewrite Hf.
Qed.

(** ** Ending a transaction *)

Lemma Rollback_spec (s : S) :
  is_Some (tx (getDB s)) →
  let s' := (Rollback txRepo s).2 in
  tx (getDB s') = None ∧ committed (getDB s') = committed (getDB s).
Proof.
  intros [[t ab] Ht]. unfold Rollback, tx_rollback. cbn [db txRepo]. unfold bind. rewrite Ht.
  unfold next_fault. destruct (faults (getDB s)) as [|[|e ap] fs]; simpl;
    unfold set_tx, modify; simpl; by rewrite !getDB_setDB.
Qed.

Lemma Commit_spec (s : S) t ab :
  tx (getDB s) = Some (t, ab) →
  let '(err, s') := Commit txRepo s in
  tx (getDB s') = None ∧
  match err with
  | None => ab = false ∧ committed (getDB s') = t
  | Some err =>
    committed (getDB s') = committed (getDB s) ∨
    (ab = false ∧ committed (getDB s') = t ∧
     ∃ e, head (faults (getDB s)) = Some (Broken e true) ∧ err = wrap "commit transaction" e)
  end.
Proof.
  intros Ht. unfold Commit, tx_commit. cbn [db txRepo]. unfold bind. rewrite Ht.
  unfold next_fault. destruct (faults (getDB s)) as [|[|e ap] fs];
    [destruct ab|destruct ab|destruct ap, ab]; simpl;
    unfold set_committed, set_tx, modify, ret; simpl; rewrite !getDB_setDB; simpl;
    rewrite ?getDB_setDB; simpl; try by auto.
  split; [done|]. right. split_and!; [done..|]. by exists e.
Qed.

Lemma BeginTx_spec (s : S) :
  tx (getDB s) = None →
  let '(err, s') := BeginTx s in
  committed (getDB s') = committed (getDB s) ∧
  tx (getDB s') = match err with None => Some (committed (getDB s), false) | Some _ => None end.
Proof.
  intros Ht. unfold BeginTx, bind, next_fault.
  destruct (faults (getDB s)) as [|[|e ap] fs]; simpl;
    unfold set_tx, modify, ret; simpl; rewrite ?getDB_setDB; simpl; rewrite ?getDB_setDB; done.
Qed.

(** ** Properties *)

(** C5. A transaction is all or nothing.  Whatever the operation given to
    [WithTransaction] does inside the transaction and whatever faults occur, no
    transaction is left open.  When no error is returned the committed tables are
    the ones the operation produced in this run, in a transaction that started
    from the committed tables and was not aborted.  When an error is returned the
    committed tables are unchanged, unless the operation succeeded in this run and
    the connection then broke while the server was committing what it produced.
    An error of the operation is the one returned, and nothing of it is kept. *)
Theorem WithTransaction_atomic (operation : PostgresRepository → M S (option error)) (s : S) :
  TxProgram (operation txRepo) → tx (getDB s) = None →
  let '(err, s') := WithTransaction New operation s in
  tx (getDB s') = None ∧
  match err with
  | None => ∃ s0 s1 t, BeginTx s = (None, s0) ∧ tx (getDB s0) = Some (committed (getDB s), false) ∧
      operation txRepo s0 = (None, s1) ∧ tx (getDB s1) = Some (t, false) ∧
      committed (getDB s') = t
  | Some err => committed (getDB s') = committed (getDB s) ∨
      ∃ s0 s1 t e, BeginTx s = (None, s0) ∧ tx (getDB s0) = Some (committed (getDB s), false) ∧
        operation txRepo s0 = (None, s1) ∧ tx (getDB s1) = Some (t, false) ∧
        head (faults (getDB s1)) = Some (Broken e true) ∧
        err = wrap "commit transaction" e ∧ committed (getDB s') = t
  end ∧
  (∀ s0 s1 e, BeginTx s = (None, s0) → operation txRepo s0 = (Some e, s1) →
     err = Some e ∧ committed (getDB s') = committed (getDB s)).
Proof.
  intros Hop Hnone. unfold WithTransaction, NewTx, New. cbn [db]. unfold bind at 1 2.
  pose proof (BeginTx_spec s Hnone) as Hb. destruct (BeginTx s) as [[e|] s0]; simpl.
  { destruct Hb as [Hc Ht]. rewrite Hc. split_and!; [done|by left|done]. }
  destruct Hb as [Hc Ht]. destruct (Hop s0) as [Hc1 Ho1]; [by rewrite Ht|].
  change {| db := SqlTx |} with txRepo. unfold bind at 1.
  destruct (operation txRepo s0) as [[e|] s1] eqn:He; simpl in *.
  - destruct (Rollback_spec s1 Ho1) as [Hn Hr]. unfold bind.
    destruct (Rollback txRepo s1) as [re s']. simpl in *. rewrite Hn, Hr, Hc1, Hc.
    split_and!; [done|by left|]. intros ? ? ? [= <-] Hoe. rewrite He in Hoe. by injection Hoe as <- <-.
  - destruct Ho1 as [[t ab] Ht1]. pose proof (Commit_spec s1 t ab Ht1) as Hcm.
    destruct (Commit txRepo s1) as [[e|] s']; simpl in *; destruct Hcm as [Hn Hcm];
      (split_and!; [done| |intros ? ? ? [= <-] Hoe; congruence]).
    + rewrite Hc1, Hc in Hcm. destruct Hcm as [?|(-> & ? & e' & ? & ?)]; [by left|right; eauto 12].
    + destruct Hcm as [-> Hcm]. by exists s0, s1, t.
Qed.
End Transactions.

(** A session by itself. *)
#[export] Program Instance Session_HasDB : HasDB Session :=
  {| getDB := λ d, d; setDB := λ d _, d |}.
Next Obligation. done. Qed.
Next Obligation. done. Qed.
Next Obligation. done. Qed.

(** Two authors, the second of which cannot be stored: nothing is. *)
Definition sample_tx (r : PostgresRepository) : M Session (option error) :=
  let* err := InsertAuthor r (mkRawAuthor 7 "Ann") in
  match err with
  | Some e => ret (Some e)
  | None => InsertAuthor r (mkRawAuthor (2 ^ 31) "Bob")
  end.

Lemma WithTransaction_atomic_witness :
  ∃ e d, WithTransaction New sample_tx (mkSession no_tables None []) = (Some e, d) ∧
    tx d = None ∧ committed d = no_tables.
Proof.
  eexists _, _. split; [vm_compute; reflexivity|].
  assert (Hop : Keeps in_tx (sample_tx txRepo)).
  { apply _. }
  pose proof (WithTransaction_atomic sample_tx (mkSession no_tables None []) Hop eq_refl) as H.
  destruct H as [Ht [_ Hop']]. split; [exact Ht|].
  destruct (BeginTx (mkSession no_tables None [])) as [o s0] eqn:Hb. vm_compute in Hb.
  injection Hb as <- <-.
  refine (proj2 (Hop' _ _ _ eq_refl _)). vm_compute. reflexivity.
Defined.

(** ** Checks and keys *)

Lemma check_ok b f k t : check b f k = Ok t ↔ b = true ∧ k = Ok t.
Proof. destruct b; simpl; split; [done|by intros []|done|by intros []]. Qed.

Lemma has_spec {A} (m : gmap Z A) k : has m k = true ↔ is_Some (m !! k).
Proof. apply bool_decide_eq_true. Qed.
