(* ===== verification/Sync.v ===== *)
(** * The sync service (internal/service/sync/sync.go)

    The service's state is a [World]: the database session, the job registry
    and the metrics.  The Jira client is the Go interface [JiraClient]: what its
    calls return is the environment's choice.  The goroutine started by
    [SyncProject] is a [goroutine] advanced one loop iteration of [runSync] at a
    time; fetching a page through the worker pool is a step relation over the
    pool's configurations. *)

From S2P Require Import Prelude GoLang GoTime Errors Json JiraTypes RawModels Mapper Repository.
From S2P Require Metrics Manager WorkerPool.
Local Open Scope Z_scope.
Local Open Scope go_scope.

(** ** Constants and data *)

(** go: internal/service/sync/sync.go 24-33 defaultPageSize *)
Definition defaultPageSize : Z := 50.
Definition defaultProjectsLimit : Z := 100.
Definition defaultWorkerCount : Z := 300.
Definition defaultQueueSize : Z := 300.

(** go: internal/service/sync/sync.go 45-49 Result *)
Record Result := mkResult { SyncID : string; ResultProjectID : string; Status : string }.

(** go: internal/service/sync/sync.go 70-73 IssueTaskPayload *)
Record IssueTaskPayload := mkPayload { PayloadIssueKey : string; PayloadProjectID : Z }.

(** go: internal/service/sync/sync.go 154-160 processedIssue *)
Record processedIssue := mkProcessed {
  ItemTaskID : string;
  JiraIssue : Issue;
  Fields : IssueFields;
  ItemProjectID : Z;
  Authors : list Author;
}.

(** [any] values: of the expected type, or of another type (named for [%T]). *)
Inductive any (T : Type) := Is (x : T) | OtherType (name : string).
Arguments Is {T} x.
Arguments OtherType {T} name.

(** ** Fetching one issue *)

(** The closure [add]: the names seen and the authors so far. *)
Definition add (a : Author) (acc : gmap string bool * list Author)
    : gmap string bool * list Author :=
  let '(seen, authors) := acc in
  if decide (AuthorName a ≠ "" ∧ default false (seen !! AuthorName a) = false)
  then (<[AuthorName a := true]> seen,
        authors ++ [mkAuthor (AuthorName a) (AuthorDisplayName a)])
  else acc.

(** go: internal/service/sync/sync.go 195-217 collectAuthors *)
Definition collectAuthors (issue : Issue) (fields : IssueFields) : list Author :=
  let acc := add (Creator fields) (∅, []) in
  let acc := add (Assignee fields) acc in
  let acc := match IssueChangelog issue with
             | Some changelog =>
               fold_left (λ acc h, add (HistoryAuthor h) acc) (Histories changelog) acc
             | None => acc
             end in
  acc.2.

(** [GetIssue] is what the Jira client returns for the task's key.

    go: internal/service/sync/sync.go 166-193 issueFetcher.Process *)
Definition Process (GetIssue : string → res error Issue)
    (task : WorkerPool.Task (any IssueTaskPayload))
    : option (any processedIssue) * option error :=
  match WorkerPool.Payload task with
  | OtherType name =>
    (None, Some (EWrap [] (ESentinel errInvalidPayloadType) [L (": " ++ name)]))
  | Is payload =>
    match GetIssue (PayloadIssueKey payload) with
    | Err err => (None, Some (wrap ("get issue " ++ PayloadIssueKey payload) err))
    | Ok issue =>
      match UnmarshalRaw dec_IssueFields (IssueFieldsRaw issue) zero_IssueFields with
      | (_, Some err) => (None, Some (wrap "unmarshal fields" err))
      | (fields, None) =>
        (Some (Is {| ItemTaskID := WorkerPool.ID task;
                     JiraIssue := issue;
                     Fields := fields;
                     ItemProjectID := PayloadProjectID payload;
                     Authors := collectAuthors issue fields |}), None)
      end
    end
  end.

(** ** Fetching a page *)

Abbreviation any_payload := (any IssueTaskPayload).
Abbreviation any_result := (any processedIssue).
Abbreviation pool_config := (WorkerPool.config any_payload any_result error).
Abbreviation task_result := (WorkerPool.TaskResult any_result error).

(** The task of an issue.

    go: internal/service/sync/sync.go 392-395 Service.fetchPageIssues *)
Definition issue_task (projectID : Z) (iss : Issue) : WorkerPool.Task any_payload :=
  WorkerPool.NewTask (IssueKey iss) (Is (mkPayload (IssueKey iss) projectID)).

(** The submitting goroutine of the group: in its loop, inside [pool.Submit]
    for an issue, running the deferred [pool.Stop], or returned. *)
Inductive submitter :=
  | Looping (todo : list Issue)
  | InSubmit (iss : Issue) (todo : list Issue)
  | Stopping (err : option error)
  | Returned (err : option error).

Definition submit_failed (iss : Issue) (err : error) : submitter :=
  Stopping (Some (wrap ("submit " ++ IssueKey iss) err)).

(** The receiving goroutine: what it has collected from the results.

    go: internal/service/sync/sync.go 407-435 Service.fetchPageIssues *)
Fixpoint collect (results : list task_result) (collected : list processedIssue)
    : res error (list processedIssue) :=
  match results with
  | [] => Ok collected
  | r :: rest =>
    match WorkerPool.Err r with
    | Some _ => collect rest collected
    | None =>
      match WorkerPool.Result r with
      | Some (Is item) => collect rest (collected ++ [item])
      | Some (OtherType name) =>
        Err (EWrap [] (ESentinel errUnexpectedResultType) [L (": " ++ name)])
      | None => Err (EWrap [] (ESentinel errUnexpectedResultType) [L ": <nil>"])
      end
    end
  end.

Section Page.

(** What [JiraClient.GetIssue] may return for a key, and the context error. *)
Context (may_get : string → res error Issue → Prop) (ctx_error : error).

Definition may_return (t : WorkerPool.Task any_payload) (r : option any_result)
    (e : option error) : Prop :=
  ∃ get, (∀ key, may_get key (get key)) ∧ Process get t = (r, e).

(** The actions of the pool's own goroutines and of the receiver. *)
Definition pool_side (a : WorkerPool.action any_payload any_result error) : bool :=
  match a with
  | WorkerPool.AReceive _ | WorkerPool.AReceiveClosed _ | WorkerPool.AWorkerCtx _
  | WorkerPool.AProcess _ _ _ | WorkerPool.ASend _ | WorkerPool.ASendHandoff _
  | WorkerPool.ASendCtx _ | WorkerPool.AWatchWait | WorkerPool.AWatchClose
  | WorkerPool.AConsume | WorkerPool.ACancel => true
  | _ => false
  end.

(** One step of [fetchPageIssues]: of the submitter or of the pool.

    go: internal/service/sync/sync.go 380-405 Service.fetchPageIssues *)
Inductive page_step (projectID : Z) : submitter * pool_config → submitter * pool_config → Prop :=
  | page_submit iss todo c c' :
      WorkerPool.Submit (issue_task projectID iss) c = inr c' →
      page_step projectID (Looping (iss :: todo), c) (InSubmit iss todo, c')
  | page_submit_stopped iss todo c msg :
      WorkerPool.Submit (issue_task projectID iss) c = inl msg →
      page_step projectID (Looping (iss :: todo), c)
        (submit_failed iss (ESentinel errPoolStopped), c)
  | page_sent iss todo c c' :
      WorkerPool.fire (WorkerPool.ASubmitSend 0) c = Some c' →
      page_step projectID (InSubmit iss todo, c) (Looping todo, c')
  | page_handed iss todo i c c' :
      WorkerPool.fire (WorkerPool.ASubmitHandoff 0 i) c = Some c' →
      page_step projectID (InSubmit iss todo, c) (Looping todo, c')
  | page_submit_panic iss todo c c' :
      WorkerPool.fire (WorkerPool.ASubmitPanic 0) c = Some c' →
      page_step projectID (InSubmit iss todo, c)
        (submit_failed iss (ESentinel errSubmitPanic), c')
  | page_submit_ctx iss todo c c' :
      WorkerPool.fire (WorkerPool.ASubmitCtx 0) c = Some c' →
      page_step projectID (InSubmit iss todo, c) (submit_failed iss ctx_error, c')
  | page_submitted c :
      page_step projectID (Looping [], c) (Stopping None, c)
  | page_stop_store err c c' :
      WorkerPool.fire WorkerPool.AStopStore c = Some c' →
      page_step projectID (Stopping err, c) (Stopping err, c')
  | page_stop_close err c c' :
      WorkerPool.fire WorkerPool.AStopClose c = Some c' →
      page_step projectID (Stopping err, c) (Returned err, c')
  | page_pool sub a c c' :
      pool_side a = true → WorkerPool.allowed may_return a c →
      WorkerPool.fire a c = Some c' →
      page_step projectID (sub, c) (sub, c').

(** [group.Wait()]: the submitter's error, else the receiver's. *)
Definition page_result (err : option error) (c : pool_config)
    : res error (list processedIssue) :=
  match err with
  | Some e => Err (wrap "fetch page" e)
  | None => res_map_err (wrap "fetch page") (collect (WorkerPool.delivered c) [])
  end.

(** A complete run of [fetchPageIssues] in which the context was [cancelled]
    or not: both goroutines have returned, the results channel being closed and
    drained.

    go: internal/service/sync/sync.go 375-443 Service.fetchPageIssues *)
Definition fetchPageIssues (workerCount queueSize projectID : Z) (pageIssues : list Issue)
    (cancelled : bool) (r : res error (list processedIssue)) : Prop :=
  ∃ wp err c, WorkerPool.New workerCount queueSize = Some wp ∧
    rtc (page_step projectID) (Looping pageIssues, WorkerPool.Run wp) (Returned err, c) ∧
    WorkerPool.drained c ∧ WorkerPool.ctxDone c = cancelled ∧ r = page_result err c.
End Page.

(** ** The service *)

(** The state a sync works on. *)
Record World := mkWorld {
  w_db : Session;
  w_mgr : Manager.Manager;
  w_mtr : option Metrics.Metrics;
}.

#[export] Program Instance World_HasDB : HasDB World :=
  {| getDB := w_db; setDB := λ d w, mkWorld d (w_mgr w) (w_mtr w) |}.
Next Obligation. done. Qed.
Next Obligation. by intros []. Qed.
Next Obligation. done. Qed.

Definition manager (f : Manager.Manager → Manager.Manager) : M World unit :=
  modify (λ w, mkWorld (w_db w) (f (w_mgr w)) (w_mtr w)).
Definition mtr (f : option Metrics.Metrics → option Metrics.Metrics) : M World unit :=
  modify (λ w, mkWorld (w_db w) (w_mgr w) (f (w_mtr w))).

(** The loop over the authors of an item. *)
Definition insert_author_of (txRepo : PostgresRepository) (a : Author)
    : M World (option error) :=
  let* authorErr := InsertAuthor txRepo (MapAuthorToRaw a) in
  ret (match authorErr with
       | Some e => if errors_is e ErrAuthorAlreadyExists then None
                   else Some (wrap ("author " ++ AuthorName a) e)
       | None => None
       end).

(** A status change that fails is logged only. *)
Definition insert_change (txRepo : PostgresRepository) (ch : StatusChange)
    : M World (option error) :=
  let* _ := InsertStatusChange txRepo ch in ret None.

(** go: internal/service/sync/sync.go 483-528 Service.insertProcessedIssue *)
Definition insertProcessedIssue (txRepo : PostgresRepository) (item : processedIssue)
    : M World (option error) :=
  let* authorErr := for_each (Authors item) (insert_author_of txRepo) in
  match authorErr with
  | Some e => ret (Some e)
  | None =>
    match (MapIssueToRaw (JiraIssue item) (ItemProjectID item) (Fields item)).2 with
    | Err err => ret (Some (wrap "map issue" err))
    | Ok rawIssue =>
      let* issueErr := InsertIssue txRepo rawIssue in
      match issueErr with
      | Some e => ret (Some (wrap ("insert issue " ++ IssueKey (JiraIssue item)) e))
      | None =>
        let* delErr := DeleteStatusChangesByIssue txRepo (ri_ID rawIssue) in
        match delErr with
        | Some e => ret (Some (wrap ("reset status changes " ++ IssueKey (JiraIssue item)) e))
        | None =>
          for_each (MapChangelogToRaw (JiraIssue item) (ri_ID rawIssue)) (insert_change txRepo)
        end
      end
    end
  end.

(** The body of the loop of [commitPage]. *)
Definition commit_item (syncID : string) (txRepo : PostgresRepository) (item : processedIssue)
    : M World (option error) :=
  let* insertErr := insertProcessedIssue txRepo item in
  match insertErr with
  | Some e => ret (Some e)
  | None =>
    let* _ := manager (Manager.IncrProcessed syncID) in
    let* _ := mtr Metrics.IncIssuesProcessed in
    ret None
  end.

(** The progress log after the transaction is left out.

    go: internal/service/sync/sync.go 446-481 Service.commitPage *)
Definition commitPage (pgRepo : PostgresRepository) (syncID : string)
    (collected : list processedIssue) : M World (option error) :=
  let* txErr := WithTransaction pgRepo
                  (λ txRepo, for_each collected (commit_item syncID txRepo)) in
  ret (wrap "commit page" <$> txErr).

(** What the environment gives to the [n]-th iteration of a [runSync] loop: the
    context's state, the reply to [SearchIssues], and which of its outcomes the
    call [fetchPageIssues projectID pageIssues] has, the schedule of its
    goroutines being the environment's choice.  That it is one of its outcomes
    is [fetches] below, a condition of the steps of the system. *)
Record round := mkRound {
  round_ctx : option error;
  round_search : string → Z → Z → res error SearchResponse;
  round_fetch : Z → list Issue → res error (list processedIssue);
}.

(** go: internal/service/sync/sync.go 358-371 Service.processPage *)
Definition processPage (pgRepo : PostgresRepository) (syncID : string) (projectID : Z)
    (rd : round) (pageIssues : list Issue) : M World (option error) :=
  match round_fetch rd projectID pageIssues with
  | Err err => ret (Some err)
  | Ok collected => commitPage pgRepo syncID collected
  end.

(** [if len(resp.Issues) > 0 { ... }] *)
Definition process_nonempty (pgRepo : PostgresRepository) (syncID : string) (projectID : Z)
    (rd : round) (pageIssues : list Issue) : M World (option error) :=
  match pageIssues with
  | [] => ret None
  | _ => processPage pgRepo syncID projectID rd pageIssues
  end.

(** The locals of [runSync]'s loop. *)
Record loop := mkLoop { startAt : Z; totalSet : bool }.

(** One iteration: the next locals, or the value returned.

    go: internal/service/sync/sync.go 320-353 Service.runSync *)
Definition runSync_iter (pgRepo : PostgresRepository) (syncID projectKey : string)
    (projectID : Z) (rd : round) (l : loop) : M World (loop + option error) :=
  let jql := ("project=" ++ projectKey)%string in
  match round_ctx rd with
  | Some e => ret (inr (Some (wrap "sync context cancelled" e)))
  | None =>
    match round_search rd jql (startAt l) defaultPageSize with
    | Err err =>
      ret (inr (Some (wrap ("search issues (startAt=" ++ FormatInt (startAt l) ++ ")") err)))
    | Ok resp =>
      let* _ := (if totalSet l then ret tt
                 else manager (Manager.SetTotal syncID (uint64 (SearchTotal resp)))) in
      let* pageErr := process_nonempty pgRepo syncID projectID rd (Issues resp) in
      match pageErr with
      | Some e =>
        ret (inr (Some (wrap ("process page (startAt=" ++ FormatInt (startAt l) ++ ")") e)))
      | None =>
        let next := int64 (startAt l + Z.of_nat (length (Issues resp))) in
        if SearchTotal resp <=? next then ret (inr None)
        else ret (inl {| startAt := next; totalSet := true |})
      end
    end
  end.

(** The loop on a fuel, in the environment [env].

    go: internal/service/sync/sync.go 310-354 Service.runSync *)
Fixpoint runSync (fuel : nat) (pgRepo : PostgresRepository) (syncID projectKey : string)
    (projectID : Z) (env : nat → round) (n : nat) (l : loop) (w : World) : option (option error * World) :=
  match fuel with
  | O => None
  | S fuel =>
    match runSync_iter pgRepo syncID projectKey projectID (env n) l w with
    | (inr err, w') => Some (err, w')
    | (inl l', w') => runSync fuel pgRepo syncID projectKey projectID env (S n) l' w'
    end
  end.

Definition loop_start : loop := {| startAt := 0; totalSet := false |}.

(** ** Starting a sync *)

(** The [for] loop over the projects: [found] runs on the first with the key. *)
Fixpoint find_project (key : string) (ps : list Project) : option Project :=
  match ps with
  | [] => None
  | p :: ps' => if decide (ProjectKey p = key) then Some p else find_project key ps'
  end.

(** [projects] is what [GetProjects(ctx, "", 100, 0)] returns.

    go: internal/service/sync/sync.go 530-551 Service.ensureProject *)
Definition ensureProject (repo : PostgresRepository) (projects : res error ProjectsResponse)
    (projectKey : string) : M World (res error Z) :=
  match projects with
  | Err err => ret (Err (wrap "get projects" err))
  | Ok projectsResp =>
    match find_project projectKey (Values projectsResp) with
    | Some proj =>
      let rawProject := MapProjectToRaw proj in
      let* insertErr := InsertProject repo rawProject in
      ret (match insertErr with
           | Some e => if errors_is e ErrProjectAlreadyExists then Ok (rp_ID rawProject)
                       else Err (wrap "insert project" e)
           | None => Ok (rp_ID rawProject)
           end)
    | None =>
      ret (Err (EWrap [] (ESentinel ErrProjectNotFound) [L (": " ++ projectKey)%string]))
    end
  end.

(** go: internal/service/sync/sync.go 76-84 Service *)
Record Service := mkService {
  repo : PostgresRepository + unit;   (* or another implementation *)
  workerCount : Z;
  queueSize : Z;
}.

(** go: internal/service/sync/sync.go 87-109 ServiceOption *)
Inductive ServiceOption := WithWorkerPool (workerCount queueSize : Z).

Definition apply_option (o : ServiceOption) (s : Service) : Service :=
  match o with WithWorkerPool w q => mkService (repo s) w q end.

(** The client, registry, logger and metrics are in the environment and in the
    [World].

    go: internal/service/sync/sync.go 112-133 NewService *)
Definition NewService (repo : PostgresRepository + unit) (opts : list ServiceOption) : Service :=
  fold_left (λ svc opt, apply_option opt svc) opts
    (mkService repo defaultWorkerCount defaultQueueSize).

(** go: internal/service/sync/sync.go 136-147 Service.GetAvailableProjects *)
Definition GetAvailableProjects (GetProjects : string → Z → Z → res error ProjectsResponse)
    (searchQuery : string) (limit page : Z) : res error ProjectsResponse :=
  res_map_err (wrap "get projects") (GetProjects searchQuery limit page).

(** A background sync between two atomic steps: in [runSync]'s loop, about to
    observe its duration, about to report to the registry, about to count. *)
Inductive phase :=
  | Running (l : loop) (n : nat)
  | Observing (err : option error)
  | Reporting (err : option error)
  | Counting (failed : bool).

Record goroutine := mkGoroutine {
  g_syncID : string;
  g_projectKey : string;
  g_projectID : Z;
  g_phase : phase;
}.

(** [manager.Start] and, for a new job, [SyncJobStarted], as one step: nothing
    between them reads the metrics or the registry. *)
Definition start_job (uuid : string) (now1 now2 : Z) (projectKey : string)
    : M World Manager.StartResult := λ w,
  let '(m, r) := Manager.Start uuid now1 now2 projectKey (w_mgr w) in
  (r, mkWorld (w_db w) m
        (if Manager.Started r then Metrics.SyncJobStarted (w_mtr w) else w_mtr w)).

(** The result, and the goroutine started.

    go: internal/service/sync/sync.go 221-305 Service.SyncProject *)
Definition SyncProject (s : Service) (projects : res error ProjectsResponse) (uuid : string)
    (now1 now2 : Z) (projectKey : string) : M World (res error Result * option goroutine) :=
  match repo s with
  | inr _ => ret (Err (ESentinel errInvalidRepository), None)
  | inl pgRepo =>
    let* projectID := ensureProject pgRepo projects projectKey in
    match projectID with
    | Err err => ret (Err (wrap "ensure project" err), None)
    | Ok projectID =>
      let* r := start_job uuid now1 now2 projectKey in
      ret (if Manager.Started r
           then (Ok (mkResult (Manager.SyncID r) (FormatInt projectID) "running"),
                 Some (mkGoroutine (Manager.SyncID r) projectKey projectID (Running loop_start 0)))
           else (Ok (mkResult (Manager.SyncID r) (FormatInt projectID) "already_running"), None))
    end
  end.

Section Background.
Context `{GoText}.

(** One atomic step of the goroutine [SyncProject] starts; [None] when it ends.
    [rd], [elapsed] and [now] are the environment's.

    go: internal/service/sync/sync.go 259-298 Service.SyncProject *)
Definition background (pgRepo : PostgresRepository) (rd : round) (elapsed now : Z)
    (g : goroutine) : M World (option goroutine) :=
  let go ph := ret (Some (mkGoroutine (g_syncID g) (g_projectKey g) (g_projectID g) ph)) in
  match g_phase g with
  | Running l n =>
    let* r := runSync_iter pgRepo (g_syncID g) (g_projectKey g) (g_projectID g) rd l in
    match r with
    | inl l' => go (Running l' (S n))
    | inr err => go (Observing err)
    end
  | Observing err =>
    let* _ := mtr (Metrics.ObserveSyncDuration elapsed) in go (Reporting err)
  | Reporting err =>
    let* _ := manager (match err with
                       | Some e => Manager.Fail (g_syncID g) (error_text e) now
                       | None => Manager.Complete (g_syncID g) now
                       end) in
    go (Counting (match err with Some _ => true | None => false end))
  | Counting failed => let* _ := mtr (Metrics.SyncJobFinished failed) in ret None
  end.

(** The page that a round brings to a goroutine in its loop is an outcome of
    [fetchPageIssues], with the pool of the service, the goroutine's project and
    the issues of its search, under some schedule of the page's goroutines and
    whatever the Jira client answers.  (With a queue size that [make] refuses
    the process panics there: it takes no step.) *)
Definition fetches (svc : Service) (g : goroutine) (rd : round) : Prop :=
  match g_phase g with
  | Running l _ => ∀ resp,
      round_search rd ("project=" ++ g_projectKey g)%string (startAt l) defaultPageSize = Ok resp →
      Issues resp ≠ [] → ∃ may_get ctx_error cancelled,
        fetchPageIssues may_get ctx_error (workerCount svc) (queueSize svc) (g_projectID g)
          (Issues resp) cancelled (round_fetch rd (g_projectID g) (Issues resp))
  | _ => True
  end.

(** The process: the shared state and the background syncs. *)
Record System := mkSystem { world : World; syncs : list goroutine }.

(** [uuid.NewString] never repeats an id of the process. *)
Inductive sys_step (svc : Service) : System → System → Prop :=
  | sys_request projects uuid now1 now2 projectKey s r g w' :
      uuid ∉ Manager.ids (w_mgr (world s)) →
      SyncProject svc projects uuid now1 now2 projectKey (world s) = ((r, g), w') →
      sys_step svc s (mkSystem w' (syncs s ++ option_list g))
  | sys_background i g pgRepo rd elapsed now s g' w' :
      syncs s !! i = Some g → repo svc = inl pgRepo → fetches svc g rd →
      background pgRepo rd elapsed now g (world s) = (g', w') →
      sys_step svc s (mkSystem w' (match g' with
                                   | Some g' => <[i := g']> (syncs s)
                                   | None => delete i (syncs s)
                                   end)).

Definition initial (w : World) : System := mkSystem w [].
End Background.
