(* ===== verification/SyncJobs.v ===== *)
(** * The background syncs of the service

    Theorems on the system of [Sync.v]: whatever the interleaving of requests
    and background goroutines, the registry, the goroutines and the metrics
    agree. *)

From S2P Require Import Prelude GoLang GoTime Errors JiraTypes RawModels Mapper Repository.
From S2P Require Metrics Manager.
From S2P Require Import Sync.
Local Open Scope Z_scope.
#[local] Set Warnings "-clear-no-such-hyp".

(** ** What a sync's work keeps *)

(** An iteration of the sync's loop keeps whatever the database accesses, the
    job's two counters and the issue counter keep. *)
Section Work.
Context (R : relation World) `{!PreOrder R} (id : string).
Hypothesis R_db : ∀ w w', db_only w w' → R w w'.
Context `{∀ t, Keeps R (manager (Manager.SetTotal id t))}.
Context `{!Keeps R (manager (Manager.IncrProcessed id))} `{!Keeps R (mtr Metrics.IncIssuesProcessed)}.

Lemma db_keeps {A} (m : M World A) : Keeps db_only m → Keeps R m.
Proof. intros Hm w. apply R_db, Hm. Qed.

Lemma insert_keeps r item : Keeps R (insertProcessedIssue r item).
Proof.
  apply db_keeps. unfold insertProcessedIssue, insert_author_of, insert_change.
  unfold InsertAuthor, InsertIssue, DeleteStatusChangesByIssue, InsertStatusChange.
  apply _.
Qed.
#[local] Existing Instance insert_keeps.

Lemma commitPage_keeps r items : Keeps R (commitPage r id items).
Proof.
  unfold commitPage. apply Keeps_bind; [done| |apply _].
  apply WithTransaction_keeps; [done|done|]. intros r'.
  apply Keeps_for_each; [apply _|]. intros item. unfold commit_item. apply _.
Qed.
#[local] Existing Instance commitPage_keeps.

Lemma iter_keeps r key pid rd l : Keeps R (runSync_iter r id key pid rd l).
Proof.
  unfold runSync_iter, process_nonempty, processPage. destruct (round_ctx rd); [apply _|].
  destruct (round_search rd _ _ _) as [resp|]; [|apply _].
  apply Keeps_bind; [apply _..|]. intros _. apply Keeps_bind; [apply _| |].
  - destruct (Issues resp); [apply _|]. destruct (round_fetch rd _ _); apply _.
  - intros [e|]; [apply _|]. case_match; apply _.
Qed.
End Work.

Lemma ensureProject_db r ps key : Keeps db_only (ensureProject r ps key).
Proof.
  unfold ensureProject, InsertProject.
  destruct ps; [|apply _]. destruct (find_project _ _); apply _.
Qed.

(** The running jobs are the same, and the metrics agree with as many jobs. *)
Definition same_jobs (w w' : World) : Prop :=
  Manager.wf (w_mgr w) →
  Manager.wf (w_mgr w') ∧
  (∀ id, Manager.running_key id (w_mgr w') = Manager.running_key id (w_mgr w)) ∧
  ∀ a, Metrics.ledger a (w_mtr w) → Metrics.ledger a (w_mtr w').

#[export] Instance same_jobs_preorder : PreOrder same_jobs.
Proof.
  split; [by intros w|]. intros w1 w2 w3 H12 H23 Hwf.
  destruct (H12 Hwf) as (Hwf2 & Hk2 & Hl2). destruct (H23 Hwf2) as (Hwf3 & Hk3 & Hl3).
  split_and!; [done| |by auto]. intros id. by rewrite Hk3.
Qed.

Lemma same_jobs_db w w' : db_only w w' → same_jobs w w'.
Proof. by intros [d ->] Hwf. Qed.

#[export] Instance same_jobs_of_db {A} (m : M World A) : Keeps db_only m → Keeps same_jobs m.
Proof. intros Hm w. apply same_jobs_db, Hm. Qed.

#[export] Instance same_jobs_incr id : Keeps same_jobs (manager (Manager.IncrProcessed id)).
Proof.
  intros w Hwf. simpl. split_and!; [|intros; by apply Manager.running_key_incr|done].
  by apply (Manager.exec_op_wf (Manager.OpIncrProcessed id)).
Qed.

#[export] Instance same_jobs_total id t : Keeps same_jobs (manager (Manager.SetTotal id t)).
Proof.
  intros w Hwf. simpl. split_and!; [|intros; by apply Manager.running_key_set_total|done].
  by apply (Manager.exec_op_wf (Manager.OpSetTotal id t)).
Qed.

#[export] Instance same_jobs_issue : Keeps same_jobs (mtr Metrics.IncIssuesProcessed).
Proof. intros w Hwf. split_and!; [done..|]. intros a. apply Metrics.ledger_issue. Qed.

#[export] Instance same_jobs_duration d : Keeps same_jobs (mtr (Metrics.ObserveSyncDuration d)).
Proof. intros w Hwf. split_and!; [done..|]. intros a. apply Metrics.ledger_duration. Qed.

#[export] Instance same_jobs_iter r id key pid rd l :
  Keeps same_jobs (runSync_iter r id key pid rd l).
Proof. apply iter_keeps; first [apply same_jobs_db|apply _]. Qed.

#[export] Instance same_jobs_ensure r ps key : Keeps same_jobs (ensureProject r ps key).
Proof. apply same_jobs_of_db, ensureProject_db. Qed.

(** ** The invariant of the system *)

(** The goroutine has not reported its end to the registry yet. *)
Definition live (g : goroutine) : bool :=
  match g_phase g with Counting _ => false | _ => true end.

Definition live_ids (gs : list goroutine) : list string :=
  g_syncID <$> filter (λ g, live g = true) gs.

Record sys_inv (s : System) : Prop := {
  inv_wf : Manager.wf (w_mgr (world s));
  inv_key : ∀ g, g ∈ syncs s → live g = true →
    Manager.running_key (g_syncID g) (w_mgr (world s)) = Some (g_projectKey g);
  inv_owned : ∀ id k, Manager.running_key id (w_mgr (world s)) = Some k →
    id ∈ live_ids (syncs s);
  inv_nodup : NoDup (live_ids (syncs s));
  inv_ledger : Metrics.ledger (Z.of_nat (length (syncs s))) (w_mtr (world s));
}.

Lemma live_ids_app gs gs' : live_ids (gs ++ gs') = live_ids gs ++ live_ids gs'.
Proof. unfold live_ids. by rewrite filter_app, fmap_app. Qed.

Lemma live_ids_cons g gs :
  live_ids (g :: gs) = if live g then g_syncID g :: live_ids gs else live_ids gs.
Proof. unfold live_ids. rewrite filter_cons. by destruct (live g). Qed.

Lemma elem_of_live_ids id gs :
  id ∈ live_ids gs ↔ ∃ g, g ∈ gs ∧ live g = true ∧ g_syncID g = id.
Proof.
  unfold live_ids. rewrite list_elem_of_fmap. split.
  - intros (g & -> & [Hl Hg]%list_elem_of_filter). eauto.
  - intros (g & Hg & Hl & <-). exists g. split; [done|]. by apply list_elem_of_filter.
Qed.

(** The list of goroutines before and after a step of the [i]-th one. *)
Lemma syncs_split (gs : list goroutine) i g g' :
  gs !! i = Some g →
  ∃ l1 l2, gs = l1 ++ g :: l2 ∧
    match g' with Some g' => <[i := g']> gs | None => delete i gs end
    = l1 ++ option_list g' ++ l2.
Proof.
  intros Hi. exists (take i gs), (drop (S i) gs). split; [by rewrite take_drop_middle|].
  destruct g' as [g'|]; simpl.
  - apply insert_take_drop. by eapply lookup_lt_Some.
  - apply delete_take_drop.
Qed.

(** A step that keeps the running jobs and the goroutine's identity. *)
Lemma inv_same_jobs w w' l1 l2 g g' :
  same_jobs w w' → live g = true → live g' = true →
  g_syncID g' = g_syncID g → g_projectKey g' = g_projectKey g →
  sys_inv (mkSystem w (l1 ++ g :: l2)) → sys_inv (mkSystem w' (l1 ++ g' :: l2)).
Proof.
  intros Hs Hl Hl' Hid Hkey [Hwf Hk Ho Hn Hm]. simpl in *.
  destruct (Hs Hwf) as (Hwf' & Hrk & Hled).
  assert (Hids : live_ids (l1 ++ g' :: l2) = live_ids (l1 ++ g :: l2))
    by (rewrite !live_ids_app, !live_ids_cons, Hl, Hl'; by rewrite Hid).
  split; simpl; [done| | | |].
  - intros h Hh Hlh. rewrite Hrk. apply elem_of_app in Hh as [Hh|[->|Hh]%elem_of_cons].
    + apply Hk; [set_solver|done].
    + rewrite Hid, Hkey. apply Hk; [set_solver|done].
    + apply Hk; [set_solver|done].
  - intros id k Hr. rewrite Hids. rewrite Hrk in Hr. by eapply Ho.
  - by rewrite Hids.
  - rewrite length_app in *. simpl in *. by apply Hled.
Qed.

Lemma inv_request w w' gs g uuid n1 n2 key pid :
  Manager.byID (w_mgr w) !! uuid = None →
  (let '(r, w') := start_job uuid n1 n2 key w in
   (if Manager.Started r then Some (mkGoroutine (Manager.SyncID r) key pid (Running loop_start 0))
    else None, w')) = (g, w') →
  sys_inv (mkSystem w gs) → sys_inv (mkSystem w' (gs ++ option_list g)).
Proof.
  intros Hu Hg [Hwf Hk Ho Hn Hm]. simpl in *. unfold start_job in Hg.
  pose proof (Manager.start_running uuid n1 n2 key (w_mgr w) Hwf Hu) as Hs.
  pose proof (Manager.start_wf uuid n1 n2 key (w_mgr w) Hwf Hu) as Hwf'.
  destruct (Manager.Start uuid n1 n2 key (w_mgr w)) as [m r]. simpl in *.
  destruct (Manager.Started r); simplify_eq/=.
  - destruct Hs as (Hid & Hnone & Hfresh & Hrk). rewrite Hid.
    assert (Hnew : uuid ∉ live_ids gs).
    { intros (h & Hh & Hl & He)%elem_of_live_ids. specialize (Hk h Hh Hl). congruence. }
    split; simpl; [done| | | |].
    + intros h [Hh| ->%list_elem_of_singleton]%elem_of_app Hl; rewrite Hrk; simpl;
        [|by rewrite decide_True].
      rewrite decide_False; [by apply Hk|]. intros He. apply Hnew. rewrite <- He.
      apply elem_of_live_ids. eauto.
    + intros id k. rewrite Hrk, live_ids_app, elem_of_app. case_decide as Hd.
      * subst. intros _. right. by left.
      * intros Hr. left. by eapply Ho.
    + rewrite live_ids_app, NoDup_app. split_and!; [done| |apply NoDup_singleton].
      intros x Hx ->%list_elem_of_singleton. done.
    + rewrite length_app. simpl. rewrite Nat2Z.inj_add. by apply Metrics.ledger_started.
  - destruct Hs as [_ Hrk]. rewrite app_nil_r. split; simpl; try done.
    + intros h Hh Hl. rewrite Hrk. by apply Hk.
    + intros id k. rewrite Hrk. apply Ho.
Qed.

(** The goroutine reports to the registry: its job is no longer running. *)
Lemma inv_report w l1 l2 g g' st msg now :
  st = Manager.JobStateCompleted ∨ st = Manager.JobStateFailed →
  live g = true → live g' = false →
  sys_inv (mkSystem w (l1 ++ g :: l2)) →
  sys_inv (mkSystem (mkWorld (w_db w) (Manager.finish_op st msg (g_syncID g) now (w_mgr w))
                       (w_mtr w)) (l1 ++ g' :: l2)).
Proof.
  intros Hst Hl Hl' [Hwf Hk Ho Hn Hm]. simpl in *.
  rewrite live_ids_app, live_ids_cons, Hl in Hn, Ho.
  assert (Hids : live_ids (l1 ++ g' :: l2) = live_ids l1 ++ live_ids l2)
    by (by rewrite live_ids_app, live_ids_cons, Hl').
  assert (Hrk : ∀ id, Manager.running_key id
                        (Manager.finish_op st msg (g_syncID g) now (w_mgr w))
                = if decide (id = g_syncID g) then None
                  else Manager.running_key id (w_mgr w))
    by (intros id; apply Manager.running_key_finish; [done|by destruct Hst as [->| ->]]).
  assert (Hnot : g_syncID g ∉ live_ids l1 ++ live_ids l2).
  { rewrite <- Permutation_middle in Hn. by apply NoDup_cons in Hn as [? _]. }
  split; simpl.
  - apply Manager.finish_op_wf; [done..|]. intros s Hs.
    specialize (Hk g ltac:(set_solver) Hl).
    apply Manager.running_key_some in Hk as (s' & Hs' & Hr & _). congruence.
  - intros h Hh Hlh. rewrite Hrk.
    assert (Hin : g_syncID h ∈ live_ids (l1 ++ g' :: l2)) by (apply elem_of_live_ids; eauto).
    rewrite Hids in Hin. rewrite decide_False by congruence.
    apply elem_of_app in Hh as [Hh|[->|Hh]%elem_of_cons]; [|congruence|];
      (apply Hk; [set_solver|done]).
  - intros id k. rewrite Hrk, Hids. case_decide as Hd; [done|]. intros Hr.
    specialize (Ho id k Hr). set_solver.
  - rewrite Hids. rewrite <- Permutation_middle in Hn. by apply NoDup_cons in Hn as [_ ?].
  - rewrite length_app in *. done.
Qed.

Lemma inv_count w l1 l2 g failed :
  live g = false → sys_inv (mkSystem w (l1 ++ g :: l2)) →
  sys_inv (mkSystem (mkWorld (w_db w) (w_mgr w) (Metrics.SyncJobFinished failed (w_mtr w)))
             (l1 ++ l2)).
Proof.
  intros Hl [Hwf Hk Ho Hn Hm]. simpl in *. rewrite live_ids_app, live_ids_cons, Hl in Hn, Ho.
  split; simpl; [done| | | |].
  - intros h Hh Hlh. apply Hk; [|done]. set_solver.
  - intros id k. rewrite live_ids_app. apply Ho.
  - by rewrite live_ids_app.
  - apply (Metrics.ledger_finished _ failed) in Hm. rewrite length_app in *. simpl in Hm.
    by replace (Z.of_nat (length l1 + length l2))
      with (Z.of_nat (length l1 + S (length l2)) - 1) by lia.
Qed.

Section System.
Context `{GoText} (svc : Service).

(** A request: the project is looked up and stored, then the job started. *)
Lemma SyncProject_shape projects uuid n1 n2 key w :
  let '((r, g), w') := SyncProject svc projects uuid n1 n2 key w in
  (g = None ∧ same_jobs w w') ∨
  (∃ w1 pid, same_jobs w w1 ∧ w_mgr w1 = w_mgr w ∧
    (let '(r, w') := start_job uuid n1 n2 key w1 in
     (if Manager.Started r then Some (mkGoroutine (Manager.SyncID r) key pid (Running loop_start 0))
      else None, w')) = (g, w')).
Proof.
  unfold SyncProject. destruct (repo svc) as [pgRepo|[]]; [|by left].
  unfold bind. pose proof (keeps (R := same_jobs) (m := ensureProject pgRepo projects key) w) as He.
  assert (Hm : w_mgr (ensureProject pgRepo projects key w).2 = w_mgr w).
  { by destruct (ensureProject_db pgRepo projects key w) as [d ->]. }
  destruct (ensureProject pgRepo projects key w) as [[pid|e] w1]; [|by left].
  destruct (start_job uuid n1 n2 key w1) as [r w'] eqn:Hst. unfold ret.
  destruct (Manager.Started r) eqn:Hr;
    (right; exists w1, pid; split; [exact He|]; split; [exact Hm|]; by rewrite Hst, Hr).
Qed.

Lemma inv_world_only w w' gs :
  same_jobs w w' → sys_inv (mkSystem w gs) → sys_inv (mkSystem w' gs).
Proof.
  intros Hs [Hwf Hk Ho Hn Hm]. simpl in *. destruct (Hs Hwf) as (Hwf' & Hrk & Hled).
  split; simpl; auto.
  - intros g Hg Hl. rewrite Hrk. auto.
  - intros id k. rewrite Hrk. apply Ho.
Qed.

Lemma sys_step_inv s s' : sys_step svc s s' → sys_inv s → sys_inv s'.
Proof.
  intros Hstep Hinv. destruct s as [w gs].
  destruct Hstep as [projects uuid n1 n2 key [w0 gs0] r g w' Hu Heq
                    |i g pgRepo rd elapsed now [w0 gs0] g' w' Hi Hrepo _ Heq]; simpl in *.
  - pose proof (SyncProject_shape projects uuid n1 n2 key w0) as Hsh. rewrite Heq in Hsh.
    destruct Hsh as [[-> Hs]|(w1 & pid & Hs & Hm & Hst)].
    + rewrite app_nil_r. by eapply inv_world_only.
    + eapply (inv_request w1 _ _ _ uuid n1 n2 key pid);
        [rewrite Hm; by apply Manager.unused_absent; [apply (inv_wf _ Hinv)|]|exact Hst
        |by eapply inv_world_only].
  - destruct (syncs_split gs0 i g g' Hi) as (l1 & l2 & -> & ->).
    unfold background in Heq. destruct g as [id key pid ph]. simpl in Heq.
    destruct ph as [l n|err|err|failed]; unfold bind, ret in Heq.
    + pose proof (keeps (R := same_jobs) (m := runSync_iter pgRepo id key pid rd l) w0) as Hs.
      destruct (runSync_iter pgRepo id key pid rd l w0) as [[l'|err] w1]; simplify_eq/=;
        (eapply inv_same_jobs; [exact Hs| | | | |exact Hinv]; done).
    + simplify_eq/=. eapply inv_same_jobs; [| | | | |exact Hinv]; [|done..].
      apply (keeps (R := same_jobs) (m := mtr (Metrics.ObserveSyncDuration elapsed))).
    + simplify_eq/=. destruct err as [e|].
      * eapply (inv_report w0 _ _ (mkGoroutine id key pid (Reporting (Some e)))); eauto.
      * eapply (inv_report w0 _ _ (mkGoroutine id key pid (Reporting None)) _ _ None); eauto.
    + simplify_eq/=. eapply inv_count; [|exact Hinv]. done.
Qed.

(** A process that has just started. *)
Definition fresh (w : World) : Prop :=
  w_mgr w = Manager.NewManager ∧ Metrics.ledger 0 (w_mtr w).

Lemma initial_inv w : fresh w → sys_inv (initial w).
Proof.
  intros [Hm Hl]. split; simpl; rewrite ?Hm; [apply Manager.new_manager_wf|..|done].
  - intros g Hg. by apply not_elem_of_nil in Hg.
  - intros id k Hk. apply Manager.running_key_some in Hk as (s & Hs & _).
    unfold Manager.Status in Hs. simpl in Hs. by rewrite lookup_empty in Hs.
  - constructor.
Qed.

Lemma sys_reachable_inv w s : fresh w → rtc (sys_step svc) (initial w) s → sys_inv s.
Proof.
  intros Hf Hr. eapply (rtc_invariant _ sys_inv); [|done|by apply initial_inv].
  intros s1 s2 Hi Hs. by eapply sys_step_inv.
Qed.

Lemma NoDup_fmap_via {A B C} (f : A → B) (h : A → C) (l : list A) :
  NoDup (f <$> l) → (∀ x y, x ∈ l → y ∈ l → h x = h y → f x = f y) → NoDup (h <$> l).
Proof.
  intros Hn Hinj. induction l as [|x l IH]; simpl in *; constructor; apply NoDup_cons in Hn as [Hx Hn].
  - intros (y & Hy & Hin)%list_elem_of_fmap. apply Hx. apply list_elem_of_fmap.
    exists y. split; [|done]. apply Hinj; [by left|by right|done].
  - apply IH; [done|]. intros a b Ha Hb. apply Hinj; by right.
Qed.

(** What the invariant says of the projects. *)
Lemma inv_one_sync s :
  sys_inv s →
  NoDup (g_projectKey <$> filter (λ g, live g = true) (syncs s)) ∧
  ∀ id key, Manager.running_key id (w_mgr (world s)) = Some key ↔
    ∃ g, g ∈ syncs s ∧ live g = true ∧ g_syncID g = id ∧ g_projectKey g = key.
Proof.
  intros [Hwf Hk Ho Hn Hm]. split.
  - eapply NoDup_fmap_via; [exact Hn|].
    intros g1 g2 [Hl1 Hg1]%list_elem_of_filter [Hl2 Hg2]%list_elem_of_filter He.
    pose proof (Hk g1 Hg1 Hl1) as H1. pose proof (Hk g2 Hg2 Hl2) as H2.
    apply Manager.running_key_some in H1 as (s1 & Hs1 & Hr1 & Hk1).
    apply Manager.running_key_some in H2 as (s2 & Hs2 & Hr2 & Hk2).
    eapply Manager.running_unique; [exact Hwf|exact Hs1|exact Hs2|done|done|congruence].
  - intros id key. split.
    + intros Hrk. pose proof (Ho id key Hrk) as (g & Hg & Hl & <-)%elem_of_live_ids.
      exists g. split_and!; try done. pose proof (Hk g Hg Hl). congruence.
    + intros (g & Hg & Hl & <- & <-). by apply Hk.
Qed.

(** ** Properties *)

(** C9. At most one background sync per project: in every state reachable from
    a fresh process, by any interleaving of requests and of the steps of the
    background goroutines, no two goroutines that have not reported their end
    work for the same project; and the registry shows a running job of a project
    exactly when such a goroutine exists. *)
Theorem one_sync_per_project w s :
  fresh w → rtc (sys_step svc) (initial w) s →
  NoDup (g_projectKey <$> filter (λ g, live g = true) (syncs s)) ∧
  ∀ id key, Manager.running_key id (w_mgr (world s)) = Some key ↔
    ∃ g, g ∈ syncs s ∧ live g = true ∧ g_syncID g = id ∧ g_projectKey g = key.
Proof. intros Hf Hr. by apply inv_one_sync, (sys_reachable_inv w). Qed.

(** C24. The sync metrics account for every job: in every reachable state of a
    process with metrics, jobs_active is the number of background goroutines,
    and jobs started = completed + failed + active (the two counters that the
    start of a job or its end updates being updated in one step). *)
Theorem sync_metrics_balanced w s m :
  fresh w → rtc (sys_step svc) (initial w) s → w_mtr (world s) = Some m →
  Metrics.value (Metrics.SyncActive m) = Z.of_nat (length (syncs s)) ∧
  Metrics.value (Metrics.SyncStarted m)
  = Metrics.value (Metrics.SyncCompleted m) + Metrics.value (Metrics.SyncFailed m)
    + Metrics.value (Metrics.SyncActive m).
Proof.
  intros Hf Hr Hm. pose proof (inv_ledger _ (sys_reachable_inv w s Hf Hr)) as Hl.
  rewrite Hm in Hl. simpl in Hl. lia.
Qed.

(** What a request that succeeds returns and starts. *)
Lemma SyncProject_ok projects uuid n1 n2 key w r g w' :
  Manager.wf (w_mgr w) → Manager.byID (w_mgr w) !! uuid = None →
  SyncProject svc projects uuid n1 n2 key w = ((Ok r, g), w') →
  ∃ ps proj, projects = Ok ps ∧ find_project key (Values ps) = Some proj ∧
    ResultProjectID r = FormatInt (rp_ID (MapProjectToRaw proj)) ∧
    ((Status r = "already_running"%string ∧ g = None ∧
      Manager.running_key (SyncID r) (w_mgr w) = Some key ∧
      Manager.running_key (SyncID r) (w_mgr w') = Some key) ∨
     (Status r = "running"%string ∧ SyncID r = uuid ∧
      g = Some (mkGoroutine uuid key (rp_ID (MapProjectToRaw proj)) (Running loop_start 0)) ∧
      (∀ id, Manager.running_key id (w_mgr w) ≠ Some key) ∧
      Manager.running_key uuid (w_mgr w') = Some key)).
Proof.
  intros Hwf Hu Heq. unfold SyncProject in Heq. destruct (repo svc) as [pgRepo|]; [|done].
  unfold bind in Heq. destruct (ensureProject pgRepo projects key w) as [pid w1] eqn:He.
  assert (Hm : w_mgr w1 = w_mgr w ∧ ∀ id, pid = Ok id → ∃ ps proj, projects = Ok ps ∧
    find_project key (Values ps) = Some proj ∧ id = rp_ID (MapProjectToRaw proj)).
  { clear Heq. unfold ensureProject, ret in He.
    destruct projects as [ps|]; [|by injection He as <- <-].
    destruct (find_project key (Values ps)) as [proj|] eqn:Hp; [|by injection He as <- <-].
    unfold bind in He.
    destruct (keeps (R := db_only) (m := InsertProject pgRepo (MapProjectToRaw proj)) w) as [d Hd].
    destruct (InsertProject pgRepo (MapProjectToRaw proj) w) as [err w2]. simpl in Hd. subst w2.
    destruct err as [e|]; [destruct (errors_is e _)|]; injection He as <- <-;
      (split; [done|]); intros id Hid; simplify_eq; eauto. }
  destruct Hm as [Hm Hpid]. destruct pid as [pid|]; [|by simplify_eq/=].
  destruct (Hpid pid eq_refl) as (ps & proj & -> & Hproj & ->).
  unfold start_job in Heq. rewrite Hm in Heq.
  pose proof (Manager.start_running uuid n1 n2 key (w_mgr w) Hwf Hu) as Hs.
  destruct (Manager.Start uuid n1 n2 key (w_mgr w)) as [m sr].
  unfold ret in Heq. destruct (Manager.Started sr); simplify_eq/=; (exists ps, proj; split; [done|]; split; [done|]; split; [done|]).
  - right. destruct Hs as (-> & Hnone & _ & Hrk). split_and!; try done.
    rewrite Hrk. by rewrite decide_True.
  - left. destruct Hs as [Hrk Hsame]. split_and!; try done. by rewrite Hsame.
Qed.

(** C18. What a request that succeeds does.  The project was found in what Jira
    lists, and its id is the result's.  If the project is being synced, nothing
    starts: the result is already_running with the id of the running job, which
    stays the running one.  Otherwise one goroutine starts, for that project and
    its id, at the beginning of its loop, under the fresh id that the result says
    running for, and the registry has that job as the project's running one. *)
Theorem SyncProject_result projects uuid n1 n2 key w r g w' :
  Manager.wf (w_mgr w) → Manager.byID (w_mgr w) !! uuid = None →
  SyncProject svc projects uuid n1 n2 key w = ((Ok r, g), w') →
  ∃ ps proj, projects = Ok ps ∧ find_project key (Values ps) = Some proj ∧
    ResultProjectID r = FormatInt (rp_ID (MapProjectToRaw proj)) ∧
    ((Status r = "already_running"%string ∧ g = None ∧
      Manager.running_key (SyncID r) (w_mgr w) = Some key ∧
      Manager.running_key (SyncID r) (w_mgr w') = Some key) ∨
     (Status r = "running"%string ∧ SyncID r = uuid ∧
      g = Some (mkGoroutine uuid key (rp_ID (MapProjectToRaw proj)) (Running loop_start 0)) ∧
      (∀ id, Manager.running_key id (w_mgr w) ≠ Some key) ∧
      Manager.running_key uuid (w_mgr w') = Some key)).
Proof. apply SyncProject_ok. Qed.
End System.

(** ** Witnesses: one project requested twice *)

Definition demo_text : GoText :=
  {| is_print := λ _, true; json_error_text := λ _, "json error"%string;
     pg_error_text := λ code msg, (msg ++ code)%string; status_text := λ _ msg, msg |}.
#[local] Existing Instance demo_text.

Definition demo_service : Service := NewService (inl New) [WithWorkerPool 2 2].
Definition demo_world : World :=
  mkWorld (mkSession no_tables None []) Manager.NewManager (Metrics.New []).
Definition demo_projects : res error ProjectsResponse :=
  Ok (mkProjectsResponse [mkProject "10" "A" "Alpha" ""] 1 0 0 true).

(** The system after a request. *)
Definition request (uuid key : string) (s : System) : System :=
  let '((_, g), w) := SyncProject demo_service demo_projects uuid 0 0 key (world s) in
  mkSystem w (syncs s ++ option_list g).

Lemma request_step uuid key s :
  uuid ∉ Manager.ids (w_mgr (world s)) →
  sys_step demo_service s (request uuid key s).
Proof.
  intros Hu. unfold request.
  destruct (SyncProject demo_service demo_projects uuid 0 0 key (world s)) as [[r g] w] eqn:He.
  by eapply sys_request.
Qed.

Definition demo_system : System := request "u2" "A" (request "u1" "A" (initial demo_world)).

Lemma demo_fresh : fresh demo_world.
Proof. split; [done|]. vm_compute. intuition congruence. Qed.

Lemma demo_sys_reachable : rtc (sys_step demo_service) (initial demo_world) demo_system.
Proof.
  eapply rtc_l; [apply (request_step "u1" "A")|].
  { apply (bool_decide_unpack _). by vm_compute. }
  eapply rtc_l; [apply (request_step "u2" "A")|apply rtc_refl].
  apply (bool_decide_unpack _). by vm_compute.
Qed.

Lemma one_sync_per_project_witness :
  g_syncID <$> syncs demo_system = ["u1"%string] ∧
  NoDup (g_projectKey <$> filter (λ g, live g = true) (syncs demo_system)).
Proof.
  split; [vm_compute; reflexivity|].
  exact (proj1 (one_sync_per_project demo_service demo_world demo_system demo_fresh demo_sys_reachable)).
Defined.

Lemma sync_metrics_balanced_witness :
  ∃ m, w_mtr (world demo_system) = Some m ∧ Metrics.value (Metrics.SyncActive m) = 1.
Proof.
  destruct (w_mtr (world demo_system)) as [m|] eqn:Hm; [|vm_compute in Hm; discriminate].
  exists m. split; [done|].
  rewrite (proj1 (sync_metrics_balanced demo_service demo_world demo_system m demo_fresh
                    demo_sys_reachable Hm)).
  vm_compute. reflexivity.
Defined.

Lemma SyncProject_result_witness :
  ∃ r g w', SyncProject demo_service demo_projects "u1" 0 0 "A" demo_world = ((Ok r, g), w') ∧
    ResultProjectID r = "10"%string ∧
    g = Some (mkGoroutine "u1" "A" 10 (Running loop_start 0)).
Proof.
  destruct (SyncProject demo_service demo_projects "u1" 0 0 "A" demo_world)
    as [[[r|e] g] w'] eqn:He; [|vm_compute in He; discriminate].
  exists r, g, w'. split; [done|].
  destruct (SyncProject_result demo_service demo_projects "u1" 0 0 "A" demo_world r g w'
    Manager.new_manager_wf) as (ps & proj & Hps & Hp & Hid & Hor); [done..|].
  injection Hps as <-.
  assert (Hproj : rp_ID (MapProjectToRaw proj) = 10)
    by (vm_compute in Hp; injection Hp as <-; vm_compute; reflexivity).
  rewrite Hproj in Hid, Hor. split; [rewrite Hid; vm_compute; reflexivity|].
  destruct Hor as [(Hst & _)|(_ & _ & Hg & _)]; [|exact Hg].
  exfalso. vm_compute in He. injection He as <- _ _. discriminate Hst.
Defined.
