(* ===== verification/SyncData.v ===== *)
(** * What a sync stores

    Theorems on [collectAuthors], [insertProcessedIssue] and [commitPage]: the
    tables a page of issues leaves, when a page is stored and when it is lost. *)

From S2P Require Import Prelude GoLang GoTime Errors Json JiraTypes RawModels Mapper Repository.
From S2P Require Metrics Manager WorkerPool.
From S2P Require Import Sync.
Local Open Scope Z_scope.
#[local] Set Warnings "-clear-no-such-hyp".

(** ** The authors of an issue *)

Definition names (authors : list Author) : list string := AuthorName <$> authors.

(** [seen] holds the names collected so far. *)
Record add_inv (acc : gmap string bool * list Author) : Prop := {
  add_seen : ∀ n, default false (acc.1 !! n) = true ↔ n ∈ names acc.2;
  add_nodup : NoDup (names acc.2);
  add_nonempty : "" ∉ names acc.2;
}.

Lemma add_spec a acc :
  add_inv acc →
  add_inv (add a acc) ∧
  ∀ n, n ∈ names (add a acc).2 ↔ n ∈ names acc.2 ∨ (n = AuthorName a ∧ n ≠ "").
Proof.
  destruct acc as [seen authors]. intros [Hs Hn He]. simpl in *. unfold add.
  destruct (decide _) as [[Hne Hns]|Hd].
  - assert (Hnew : AuthorName a ∉ names authors) by (rewrite <- Hs, Hns; done).
    split; [split|]; simpl; unfold names in *; rewrite ?fmap_app; simpl.
    + intros n. rewrite elem_of_app, list_elem_of_singleton.
      rewrite lookup_insert. case_decide as Hd; simpl; [split; [by right|done]|].
      rewrite Hs. split; [by left|]. intros [?| ->]; done.
    + apply NoDup_app. split_and!; [done| |apply NoDup_singleton].
      intros x Hx ->%list_elem_of_singleton. done.
    + rewrite elem_of_app, list_elem_of_singleton. intros [?|?]; congruence.
    + intros n. rewrite elem_of_app, list_elem_of_singleton. simpl.
      split; [intros [?| ->]; auto|intros [?|[-> _]]; auto].
  - split; [by split|]. intros n. split; [by left|]. intros [?|[-> Hne]]; [done|].
    apply Hs. destruct (default false _) eqn:E; [done|]. by destruct Hd.
Qed.

Lemma add_histories_spec hs acc :
  add_inv acc →
  let acc' := fold_left (λ acc h, add (HistoryAuthor h) acc) hs acc in
  add_inv acc' ∧
  ∀ n, n ∈ names acc'.2 ↔
    n ∈ names acc.2 ∨ (∃ h, h ∈ hs ∧ n = AuthorName (HistoryAuthor h) ∧ n ≠ "").
Proof.
  revert acc. induction hs as [|h hs IH]; intros acc Ha; simpl.
  - split; [done|]. intros n. split; [by left|].
    intros [?|(h & Hh & _)]; [done|]. by apply not_elem_of_nil in Hh.
  - destruct (add_spec (HistoryAuthor h) acc Ha) as [Ha1 Hn1].
    destruct (IH _ Ha1) as [Ha2 Hn2]. split; [done|]. intros n. rewrite Hn2, Hn1. split.
    + intros [[?|[-> ?]]|(h' & Hh & ? & ?)]; [by left|right..].
      * exists h. split; [by left|done].
      * exists h'. split; [by right|done].
    + intros [?|(h' & [->|Hh]%elem_of_cons & ? & ?)]; [by left; left|by left; right|].
      right. eauto.
Qed.

Lemma collectAuthors_names issue fields :
  let authors := collectAuthors issue fields in
  NoDup (names authors) ∧
  ∀ n, n ∈ names authors ↔
    n ≠ "" ∧ (n = AuthorName (Creator fields) ∨ n = AuthorName (Assignee fields) ∨
              ∃ h, h ∈ histories_of issue ∧ n = AuthorName (HistoryAuthor h)).
Proof.
  assert (H0 : add_inv (∅, [])).
  { split; simpl; [|constructor|apply not_elem_of_nil]. intros n. rewrite lookup_empty. simpl.
    split; [done|]. intros H. by apply not_elem_of_nil in H. }
  destruct (add_spec (Creator fields) _ H0) as [H1 Hn1].
  destruct (add_spec (Assignee fields) _ H1) as [H2 Hn2].
  destruct (add_histories_spec (histories_of issue) _ H2) as [H3 Hn3].
  assert (He : collectAuthors issue fields = (fold_left (λ acc h, add (HistoryAuthor h) acc)
                 (histories_of issue) (add (Assignee fields) (add (Creator fields) (∅, [])))).2).
  { unfold collectAuthors, histories_of. by destruct (IssueChangelog issue). }
  rewrite He. split; [apply H3|]. intros n. rewrite Hn3, Hn2, Hn1. simpl. split.
  - intros [[[Hin|[-> ?]]|[-> ?]]|(h & ? & -> & ?)]; eauto 10. by apply not_elem_of_nil in Hin.
  - intros [Hne [->|[->|(h & ? & ->)]]]; eauto 10.
Qed.

(** The authors collected from an issue are exactly the non-empty names of
    its creator, its assignee and the authors of its history, each once. *)
Theorem collectAuthors_complete issue fields :
  let authors := collectAuthors issue fields in
  NoDup (names authors) ∧
  ∀ n, n ∈ names authors ↔
    n ≠ "" ∧ (n = AuthorName (Creator fields) ∨ n = AuthorName (Assignee fields) ∨
              ∃ h, h ∈ histories_of issue ∧ n = AuthorName (HistoryAuthor h)).
Proof. apply collectAuthors_names. Qed.

(** ** The tables a page leaves *)

(** ON CONFLICT DO NOTHING. *)
Definition store_author (a : Author) (t : Tables) : Tables :=
  let raw := MapAuthorToRaw a in
  if has (authors t) (ra_ID raw) then t
  else mkTables (projects t) (<[ra_ID raw := ra_Name raw]> (authors t)) (issues t)
         (status_changes t).

(** The row of an item, if it has one. *)
Definition item_row (item : processedIssue) : option RawIssue :=
  res_opt (MapIssueToRaw (JiraIssue item) (ItemProjectID item) (Fields item)).2.

Definition store_item (item : processedIssue) (t : Tables) : Tables :=
  let t := fold_left (λ t a, store_author a t) (Authors item) t in
  match item_row item with
  | None => t
  | Some row =>
    mkTables (projects t) (authors t) (<[ri_ID row := row]> (issues t))
      (filter (λ c, sc_IssueID c ≠ ri_ID row) (status_changes t)
       ++ MapChangelogToRaw (JiraIssue item) (ri_ID row))
  end.

Definition store_items (items : list processedIssue) (t : Tables) : Tables :=
  fold_left (λ t item, store_item item t) items t.

(** The ids of the author rows an item brings. *)
Definition author_ids (item : processedIssue) : list Z := HashID <$> names (Authors item).

(** An item the schema accepts, given the projects stored: it has a row whose
    numbers fit int4 and whose project exists, its author rows cover the
    authors its rows refer to, and no text contains a zero byte. *)
Record storable (ps : gmap Z string) (item : processedIssue) (row : RawIssue) : Prop := {
  st_row : item_row item = Some row;
  st_names : Forall (λ a, text_ok (AuthorDisplayName a) = true) (Authors item);
  st_encodable : issue_encodable row = true;
  st_text : issue_text_ok row = true;
  st_project : is_Some (ps !! ri_ProjectID row);
  st_author : ri_AuthorID row ∈ author_ids item;
  st_assignee : ∀ a, ri_AssigneeID row = Some a → a ∈ author_ids item;
  st_changes : Forall (λ c, sc_AuthorID c ∈ author_ids item ∧
      text_opt_ok (sc_FromStatus c) = true ∧ text_opt_ok (sc_ToStatus c) = true)
    (MapChangelogToRaw (JiraIssue item) (ri_ID row));
}.

(** A world with a healthy transaction in progress. *)
Definition with_tx (c t : Tables) (w : World) : World :=
  mkWorld (mkSession c (Some (t, false)) []) (w_mgr w) (w_mtr w).

Lemma exec_with_tx stmt c t t' w :
  stmt t = Ok t' → ExecContext SqlTx stmt (with_tx c t w) = (None, with_tx c t' w).
Proof.
  intros H. rewrite (exec_tx_healthy stmt (with_tx c t w) t); [by rewrite H|done..].
Qed.

Lemma HashID_int4 s : int4 (HashID s) = true.
Proof. apply bool_decide_eq_true. unfold in_int32. pose proof (HashID_bounds s). lia. Qed.

Lemma insert_author_store a t :
  text_ok (AuthorDisplayName a) = true →
  insert_author (ra_ID (MapAuthorToRaw a)) (ra_Name (MapAuthorToRaw a)) t = Ok (store_author a t).
Proof.
  intros Ht. unfold insert_author, store_author. simpl. by rewrite HashID_int4, Ht.
Qed.

Lemma insert_author_of_ok a c t w :
  text_ok (AuthorDisplayName a) = true →
  insert_author_of txRepo a (with_tx c t w) = (None, with_tx c (store_author a t) w).
Proof.
  intros Ht. unfold insert_author_of, InsertAuthor, bind. cbn [db txRepo].
  by rewrite (exec_with_tx _ _ _ _ _ (insert_author_store a t Ht)).
Qed.

Lemma insert_authors_ok l c t w :
  Forall (λ a, text_ok (AuthorDisplayName a) = true) l →
  for_each l (insert_author_of txRepo) (with_tx c t w)
  = (None, with_tx c (fold_left (λ t a, store_author a t) l t) w).
Proof.
  intros Hl. revert t. induction Hl as [|a l Ha _ IH]; intros t; [done|].
  cbn [for_each]. unfold bind. rewrite insert_author_of_ok by done. apply IH.
Qed.

(** *** What [store_author] adds *)

Lemma store_authors_spec l t :
  let t' := fold_left (λ t a, store_author a t) l t in
  projects t' = projects t ∧ issues t' = issues t ∧ status_changes t' = status_changes t ∧
  ∀ id, is_Some (authors t' !! id) ↔ is_Some (authors t !! id) ∨ id ∈ HashID <$> names l.
Proof.
  revert t. induction l as [|a l IH]; intros t; cbn [fold_left].
  - split_and!; [done..|]. intros id. split; [by left|].
    intros [?|H]; [done|]. by apply not_elem_of_nil in H.
  - destruct (IH (store_author a t)) as (Hp & Hi & Hc & Ha). unfold names in *.
    rewrite Hp, Hi, Hc. unfold store_author in *. simpl in *.
    destruct (has (authors t) (HashID (AuthorName a))) eqn:Hh.
    + split_and!; [done..|]. intros id. rewrite Ha, elem_of_cons.
      apply has_spec in Hh. split; [intros [?|?]; auto|intros [?|[->|?]]; auto].
    + simpl. split_and!; [done..|]. intros id. rewrite Ha, elem_of_cons. simpl.
      rewrite lookup_insert_is_Some. split.
      * intros [[->|[_ ?]]|?]; auto.
      * intros [?|[->|?]]; auto. destruct (decide (HashID (AuthorName a) = id)); auto.
Qed.

Lemma store_item_projects item t : projects (store_item item t) = projects t.
Proof.
  unfold store_item. destruct (store_authors_spec (Authors item) t) as (Hp & _).
  by destruct (item_row item).
Qed.

(** *** Inserting the changes of an item *)

Lemma insert_changes_ok l c t w :
  Forall (λ ch, insert_status_change ch t
                = Ok (mkTables (projects t) (authors t) (issues t) (status_changes t ++ [ch]))) l →
  for_each l (insert_change txRepo) (with_tx c t w)
  = (None, with_tx c (mkTables (projects t) (authors t) (issues t) (status_changes t ++ l)) w).
Proof.
  intros Hl. revert t Hl. induction l as [|ch l IH]; intros t Hl.
  { rewrite app_nil_r. by destruct t. }
  apply Forall_cons in Hl as [Hch Hl]. cbn [for_each]. unfold bind at 1.
  unfold insert_change, InsertStatusChange. cbn [db txRepo].
  unfold bind. rewrite (exec_with_tx _ _ _ _ _ Hch). unfold ret at 1 2.
  rewrite IH; simpl.
  - by rewrite <- app_assoc.
  - eapply Forall_impl; [exact Hl|]. intros ch' H. unfold insert_status_change in *. simpl.
    rewrite !check_ok in *. destruct H as (? & ? & ? & ? & _). done.
Qed.

Lemma insert_status_change_ok ch t :
  int4 (sc_IssueID ch) = true → int4 (sc_AuthorID ch) = true →
  text_opt_ok (sc_FromStatus ch) = true → text_opt_ok (sc_ToStatus ch) = true →
  is_Some (issues t !! sc_IssueID ch) → is_Some (authors t !! sc_AuthorID ch) →
  insert_status_change ch t
  = Ok (mkTables (projects t) (authors t) (issues t) (status_changes t ++ [ch])).
Proof.
  intros H1 H2 H3 H4 H5%has_spec H6%has_spec.
  unfold insert_status_change. by rewrite H1, H2, H3, H4, H5, H6.
Qed.

Lemma author_ids_int4 item id : id ∈ author_ids item → int4 id = true.
Proof. intros (n & -> & _)%list_elem_of_fmap. apply HashID_int4. Qed.

Lemma change_issue ch issue id : ch ∈ MapChangelogToRaw issue id → sc_IssueID ch = id.
Proof.
  rewrite MapChangelogToRaw_rows. intros (h & Hc & _)%list_elem_of_bind.
  unfold history_rows in Hc. destruct (parseJiraTime _).
  - apply list_elem_of_fmap in Hc as (i & -> & _). done.
  - by apply not_elem_of_nil in Hc.
Qed.

(** An acceptable item is stored, inside a healthy transaction. *)
Lemma insertProcessedIssue_ok item row c t w :
  storable (projects t) item row →
  insertProcessedIssue txRepo item (with_tx c t w) = (None, with_tx c (store_item item t) w).
Proof.
  intros [Hrow Hnames Henc Htext Hproj Hau Has Hch].
  destruct (store_authors_spec (Authors item) t) as (Hp & Hi & Hc & Ha).
  unfold insertProcessedIssue, bind. rewrite insert_authors_ok by done.
  unfold store_item. set (t1 := fold_left _ _ t) in *. fold (author_ids item) in Ha.
  rewrite Hrow. unfold item_row in Hrow.
  destruct (MapIssueToRaw _ _ _).2 as [row'|]; simpl in Hrow; [|done]. injection Hrow as ->.
  assert (Hid : int4 (ri_ID row) = true)
    by (unfold issue_encodable in Henc; rewrite !andb_true_iff in Henc; apply Henc).
  assert (Hii : insert_issue row t1
                = Ok (mkTables (projects t1) (authors t1) (<[ri_ID row := row]> (issues t1))
                        (status_changes t1))).
  { unfold insert_issue. rewrite Henc, Htext. rewrite Hp.
    apply has_spec in Hproj. rewrite Hproj. simpl.
    rewrite (proj2 (has_spec (authors t1) (ri_AuthorID row))) by (apply Ha; by right).
    simpl. destruct (ri_AssigneeID row) as [a|]; [|done].
    by rewrite (proj2 (has_spec (authors t1) a)) by (apply Ha; right; by apply Has). }
  unfold InsertIssue. cbn [db txRepo]. unfold bind.
  rewrite (exec_with_tx _ _ _ _ _ Hii). simpl.
  unfold DeleteStatusChangesByIssue. cbn [db txRepo]. unfold bind.
  erewrite exec_with_tx
    by (unfold delete_status_changes_by_issue; rewrite Hid; reflexivity).
  simpl. rewrite insert_changes_ok; [done|].
  apply Forall_forall. intros ch Hin. rewrite Forall_forall in Hch.
  destruct (Hch ch Hin) as (Hca & Hf & Hto). pose proof (change_issue _ _ _ Hin) as Hci.
  apply insert_status_change_ok; simpl; rewrite ?Hci; try done.
  - by eapply author_ids_int4.
  - rewrite lookup_insert_eq. by eexists.
  - apply Ha. by right.
Qed.

(** ** A whole page *)

(** [n] issues counted. *)
Definition count_issues (syncID : string) (n : nat) (w : World) : World :=
  mkWorld (w_db w) (Nat.iter n (Manager.IncrProcessed syncID) (w_mgr w))
    (Nat.iter n Metrics.IncIssuesProcessed (w_mtr w)).

Lemma commit_item_ok syncID item row c t w :
  storable (projects t) item row →
  commit_item syncID txRepo item (with_tx c t w)
  = (None, with_tx c (store_item item t) (count_issues syncID 1 w)).
Proof.
  intros Hst. unfold commit_item, bind. by rewrite (insertProcessedIssue_ok item row) by done.
Qed.

Lemma commit_items_ok syncID items c t w :
  Forall (λ item, ∃ row, storable (projects t) item row) items →
  for_each items (commit_item syncID txRepo) (with_tx c t w)
  = (None, with_tx c (store_items items t) (count_issues syncID (length items) w)).
Proof.
  revert t w. induction items as [|item items IH]; intros t w Hl; [by destruct w|].
  apply Forall_cons in Hl as [[row Hst] Hl]. cbn [for_each]. unfold bind at 1.
  rewrite (commit_item_ok _ _ row) by done. rewrite IH by (by rewrite store_item_projects).
  unfold count_issues, with_tx. cbn [w_mgr w_mtr length]. by rewrite !Nat.iter_succ_r.
Qed.

(** ** What a page leaves, table by table *)

Definition add_author (m : gmap Z string) (a : Author) : gmap Z string :=
  if has m (HashID (AuthorName a)) then m
  else <[HashID (AuthorName a) := AuthorDisplayName a]> m.

Definition upd_authors (items : list processedIssue) (m : gmap Z string) : gmap Z string :=
  fold_left add_author (items ≫= Authors) m.

Definition upd_issue (m : gmap Z RawIssue) (item : processedIssue) : gmap Z RawIssue :=
  match item_row item with Some row => <[ri_ID row := row]> m | None => m end.

Definition upd_changes (l : list StatusChange) (item : processedIssue) : list StatusChange :=
  match item_row item with
  | Some row => filter (λ c, sc_IssueID c ≠ ri_ID row) l
                ++ MapChangelogToRaw (JiraIssue item) (ri_ID row)
  | None => l
  end.

Lemma store_authors_table l t :
  fold_left (λ t a, store_author a t) l t
  = mkTables (projects t) (fold_left add_author l (authors t)) (issues t) (status_changes t).
Proof.
  revert t. induction l as [|a l IH]; intros t; simpl; [by destruct t|]. rewrite IH.
  unfold store_author, add_author. simpl. by destruct (has (authors t) (HashID (AuthorName a))).
Qed.

Lemma store_items_tables items t :
  store_items items t
  = mkTables (projects t) (upd_authors items (authors t))
      (fold_left upd_issue items (issues t)) (fold_left upd_changes items (status_changes t)).
Proof.
  revert t. induction items as [|item items IH]; intros t; simpl; [by destruct t|].
  unfold store_items in *. simpl. rewrite IH. unfold store_item at 1 2 3 4. unfold upd_authors. simpl.
  rewrite fold_left_app, !store_authors_table. unfold upd_issue at 3, upd_changes at 3.
  by destruct (item_row item).
Qed.

Lemma add_authors_lookup l id :
  ∃ d, ∀ m, fold_left add_author l m !! id = match m !! id with Some n => Some n | None => d end.
Proof.
  induction l as [|a l [d IH]]; [exists None; intros m; simpl; by destruct (m !! id)|].
  destruct (decide (HashID (AuthorName a) = id)) as [He|He].
  - exists (Some (AuthorDisplayName a)). intros m. simpl. rewrite IH. unfold add_author.
    rewrite He. destruct (has m id) eqn:Hh.
    + apply has_spec in Hh as [n Hn]. by rewrite Hn.
    + rewrite lookup_insert_eq. destruct (m !! id) eqn:Hm; [|done].
      by rewrite (proj2 (has_spec m id)) in Hh by by eexists.
  - exists d. intros m. simpl. rewrite IH. unfold add_author.
    destruct (has m _); [done|]. by rewrite lookup_insert_ne.
Qed.

Lemma upd_issues_lookup items id :
  (∃ r, ∀ m, fold_left upd_issue items m !! id = Some r) ∨
  (∀ m, fold_left upd_issue items m !! id = m !! id).
Proof.
  induction items as [|item items [[r IH]|IH]]; [by right|left; exists r; intros m; apply IH|].
  destruct (item_row item) as [row|] eqn:Hr.
  - destruct (decide (ri_ID row = id)) as [He|He].
    + left. exists row. intros m. simpl. rewrite IH. unfold upd_issue. rewrite Hr, He.
      apply lookup_insert_eq.
    + right. intros m. simpl. rewrite IH. unfold upd_issue. rewrite Hr.
      by apply lookup_insert_ne.
  - right. intros m. simpl. rewrite IH. unfold upd_issue. by rewrite Hr.
Qed.

(** The issues whose changes a page replaces. *)
Definition page_ids (items : list processedIssue) : list Z := ri_ID <$> omap item_row items.

Lemma upd_changes_shape items :
  ∃ rows, Forall (λ c, sc_IssueID c ∈ page_ids items) rows ∧
  ∀ l, fold_left upd_changes items l = filter (λ c, sc_IssueID c ∉ page_ids items) l ++ rows.
Proof.
  induction items as [|item items (rows & Hrows & IH)].
  { exists []. split; [constructor|]. intros l. simpl. rewrite app_nil_r.
    unfold page_ids. simpl. symmetry. apply list_filter_all. intros c _. apply not_elem_of_nil. }
  unfold page_ids in *. simpl. destruct (item_row item) as [row|] eqn:Hr; simpl.
  - exists (filter (λ c, sc_IssueID c ∉ (ri_ID <$> omap item_row items))
              (MapChangelogToRaw (JiraIssue item) (ri_ID row)) ++ rows).
    split.
    + apply Forall_app. split.
      * apply Forall_forall. intros c [_ Hc]%list_elem_of_filter.
        rewrite (change_issue _ _ _ Hc). by left.
      * eapply Forall_impl; [exact Hrows|]. intros c Hc. by right.
    + intros l. rewrite IH. unfold upd_changes. rewrite Hr, filter_app, <- app_assoc.
      f_equal. rewrite list_filter_filter. apply list_filter_iff. intros c.
      rewrite not_elem_of_cons. tauto.
  - exists rows. split; [done|]. intros l. rewrite IH. unfold upd_changes. by rewrite Hr.
Qed.

(** ** Properties *)

(** The state between two pages: no transaction open, no fault in store. *)
Definition quiet (c : Tables) (w : World) : Prop := w_db w = mkSession c None [].

Lemma BeginTx_quiet c w : quiet c w → BeginTx w = (None, with_tx c c w).
Proof.
  unfold quiet. intros Hq. unfold BeginTx, bind, next_fault, set_tx, modify, ret.
  cbn [getDB World_HasDB]. rewrite Hq. simpl. by rewrite Hq.
Qed.

Lemma commitPage_ok syncID items c w :
  quiet c w → Forall (λ item, ∃ row, storable (projects c) item row) items →
  commitPage New syncID items w
  = (None, mkWorld (mkSession (store_items items c) None [])
             (w_mgr (count_issues syncID (length items) w))
             (w_mtr (count_issues syncID (length items) w))).
Proof.
  intros Hq Hst. unfold commitPage, WithTransaction, NewTx, New. cbn [db].
  unfold bind at 1 2 3 4. rewrite (BeginTx_quiet c) by done. unfold ret at 1.
  change {| db := SqlTx |} with txRepo. by rewrite commit_items_ok.
Qed.

(** C16. A page of acceptable issues is stored completely in one transaction:
    the committed tables gain the missing authors, the issues' rows are inserted
    or replaced, the status changes of those issues are replaced by the ones of
    their changelogs, everything else is untouched, and every issue is counted
    once. *)
Theorem commitPage_stores syncID items c w :
  quiet c w → Forall (λ item, ∃ row, storable (projects c) item row) items →
  let '(err, w') := commitPage New syncID items w in
  err = None ∧
  quiet (mkTables (projects c) (upd_authors items (authors c))
           (fold_left upd_issue items (issues c))
           (fold_left upd_changes items (status_changes c))) w' ∧
  w_mgr w' = Nat.iter (length items) (Manager.IncrProcessed syncID) (w_mgr w) ∧
  w_mtr w' = Nat.iter (length items) Metrics.IncIssuesProcessed (w_mtr w).
Proof.
  intros Hq Hst. rewrite (commitPage_ok syncID items c w Hq Hst). unfold quiet. simpl.
  by rewrite store_items_tables.
Qed.

Lemma store_items_projects items t : projects (store_items items t) = projects t.
Proof. by rewrite store_items_tables. Qed.

(** Storing the same items again changes nothing. *)
Lemma store_items_idem items t : store_items items (store_items items t) = store_items items t.
Proof.
  rewrite !store_items_tables. simpl. f_equal.
  - apply map_eq. intros id. unfold upd_authors.
    destruct (add_authors_lookup (items ≫= Authors) id) as [d Hd]. rewrite !Hd.
    destruct (authors t !! id); [done|]. by destruct d.
  - apply map_eq. intros id. destruct (upd_issues_lookup items id) as [[r Hr]|Hr].
    + by rewrite !Hr.
    + by rewrite Hr.
  - destruct (upd_changes_shape items) as (rows & Hrows & Hs). rewrite !Hs.
    rewrite filter_app, list_filter_filter, (list_filter_none _ rows), app_nil_r.
    + f_equal. apply list_filter_iff. tauto.
    + intros c Hc Hn. rewrite Forall_forall in Hrows. by apply Hn, Hrows.
Qed.

(** C17. Synchronising the same page again changes nothing in the tables: no
    author is renamed, no issue moves, and no status change is duplicated,
    although every issue is counted as processed again. *)
Theorem resync_idempotent syncID syncID' items c w :
  quiet c w → Forall (λ item, ∃ row, storable (projects c) item row) items →
  let '(err1, w1) := commitPage New syncID items w in
  let '(err2, w2) := commitPage New syncID' items w1 in
  err1 = None ∧ err2 = None ∧ w_db w2 = w_db w1 ∧
  w_mgr w2 = Nat.iter (length items) (Manager.IncrProcessed syncID') (w_mgr w1).
Proof.
  intros Hq Hst. rewrite (commitPage_ok syncID items c w Hq Hst).
  set (w1 := mkWorld _ _ _).
  rewrite (commitPage_ok syncID' items (store_items items c) w1); [|done|].
  - simpl. by rewrite store_items_idem.
  - by rewrite store_items_projects.
Qed.

(** ** Items as the fetcher makes them *)

(** Every author a row of the item refers to has a name. *)
Definition authors_named (item : processedIssue) : Prop :=
  AuthorName (Creator (Fields item)) ≠ "" ∧
  ∀ h, h ∈ histories_of (JiraIssue item) → (∃ i, i ∈ HistoryItems h ∧ ItemField i = "status") →
    AuthorName (HistoryAuthor h) ≠ "".

Lemma author_id_covered item n :
  n ∈ names (Authors item) → HashID n ∈ author_ids item.
Proof. intros H. by apply list_elem_of_fmap_2. Qed.

(** C27. Whatever issue the fetcher returns, the authors stored with it cover
    every reference of its rows, provided its creator and the authors of its
    status changes have names: the foreign keys on authors then hold. *)
Theorem fetched_authors_cover get task item row :
  Process get task = (Some (Is item), None) → authors_named item → item_row item = Some row →
  ri_AuthorID row ∈ author_ids item ∧
  (∀ a, ri_AssigneeID row = Some a → a ∈ author_ids item) ∧
  Forall (λ c, sc_AuthorID c ∈ author_ids item)
    (MapChangelogToRaw (JiraIssue item) (ri_ID row)).
Proof.
  unfold Process. destruct (WorkerPool.Payload task) as [p|]; [|done].
  destruct (get (PayloadIssueKey p)) as [issue|]; [|done].
  destruct (UnmarshalRaw dec_IssueFields _ _) as [fields [e|]] eqn:Hu; [done|].
  intros [= <-] [Hcr Hh] Hrow. unfold item_row, author_ids in *. cbn [JiraIssue Fields Authors
    ItemProjectID] in *.
  destruct (collectAuthors_names issue fields) as [_ Hn].
  pose proof (MapIssueToRaw_again issue (PayloadProjectID p) _ _ Hu) as Hm.
  destruct (MapIssueToRaw issue (PayloadProjectID p) fields) as [f' r]. simpl in Hrow.
  destruct Hm as (_ & _ & Hm). destruct r as [row'|]; [|done]. injection Hrow as ->.
  destruct (Hm row eq_refl) as (_ & _ & Hau & Has). split_and!.
  - rewrite Hau. unfold MapAuthorToRaw. cbn [ra_ID]. apply list_elem_of_fmap_2, Hn. eauto.
  - intros a Ha. destruct (Has a Ha) as [Hne ->].
    unfold MapAuthorToRaw. cbn [ra_ID]. apply list_elem_of_fmap_2, Hn. eauto.
  - apply Forall_forall. intros c. rewrite MapChangelogToRaw_rows.
    intros (h & Hc & Hin)%list_elem_of_bind. unfold history_rows in Hc.
    destruct (parseJiraTime _); [|by apply not_elem_of_nil in Hc].
    apply list_elem_of_fmap in Hc as (i & -> & [Hi Hii]%list_elem_of_filter). simpl.
    apply list_elem_of_fmap_2, Hn. split; [apply (Hh h); eauto|eauto 10].
Qed.

(** ** Pages that are lost *)

Section Lost.
Context (c : Tables).

(** The transaction in progress satisfies [P] (of its tables, and whether it is
    aborted); no fault is in store. *)
Definition tx_state (P : Tables → bool → Prop) (w : World) : Prop :=
  ∃ t ab, w_db w = mkSession c (Some (t, ab)) [] ∧ P t ab.

Definition keeps_tx_state (P : Tables → bool → Prop) (w w' : World) : Prop :=
  tx_state P w → tx_state P w'.

#[export] Instance keeps_tx_state_preorder P : PreOrder (keeps_tx_state P).
Proof. split; [intros w Hw; exact Hw|]. intros w1 w2 w3 H12 H23 H. by apply H23, H12. Qed.

(** [P] survives a statement that succeeds and one that fails. *)
Lemma exec_tx_state P stmt :
  (∀ t t', P t false → stmt t = Ok t' → P t' false) →
  (∀ t f, P t false → P t (aborts f)) →
  Keeps (keeps_tx_state P) (ExecContext SqlTx stmt).
Proof.
  intros Hok Herr w (t & ab & Hw & HP). unfold ExecContext. cbn [getDB World_HasDB].
  rewrite Hw. cbn [tx]. destruct ab; [by exists t, true|].
  unfold bind, next_fault. cbn [getDB World_HasDB]. rewrite Hw. simpl.
  destruct (stmt t) as [t'|f] eqn:Hs; unfold set_tx, modify, ret; simpl; rewrite Hw; simpl.
  - exists t', false. eauto.
  - exists t, (aborts f). eauto.
Qed.

(** Aborted, or still without an author of id 0. *)
Definition doomed (t : Tables) (ab : bool) : Prop := ab = true ∨ authors t !! 0 = None.
Definition dead (t : Tables) (ab : bool) : Prop := ab = true.

#[local] Instance exec_dead stmt : Keeps (keeps_tx_state dead) (ExecContext SqlTx stmt).
Proof. by apply exec_tx_state. Qed.

Lemma exec_doomed stmt :
  (∀ t t', authors t !! 0 = None → stmt t = Ok t' → authors t' !! 0 = None) →
  Keeps (keeps_tx_state doomed) (ExecContext SqlTx stmt).
Proof.
  intros H. apply exec_tx_state.
  - intros t t' [?|Ha] Hs; [done|]. right. by eapply H.
  - intros t f [?|Ha]; [done|]. by right.
Qed.

#[local] Instance exec_doomed_issue i :
  Keeps (keeps_tx_state doomed) (ExecContext SqlTx (insert_issue i)).
Proof.
  apply exec_doomed. intros t t' Ha. unfold insert_issue. rewrite !check_ok.
  by intros (_ & _ & _ & _ & _ & [= <-]).
Qed.

#[local] Instance exec_doomed_change ch :
  Keeps (keeps_tx_state doomed) (ExecContext SqlTx (insert_status_change ch)).
Proof.
  apply exec_doomed. intros t t' Ha. unfold insert_status_change. rewrite !check_ok.
  by intros (_ & _ & _ & _ & [= <-]).
Qed.

#[local] Instance exec_doomed_delete id :
  Keeps (keeps_tx_state doomed) (ExecContext SqlTx (delete_status_changes_by_issue id)).
Proof.
  apply exec_doomed. intros t t' Ha. unfold delete_status_changes_by_issue. rewrite !check_ok.
  by intros (_ & [= <-]).
Qed.

Lemma authors_doomed l :
  0 ∉ HashID <$> names l →
  Keeps (keeps_tx_state doomed) (for_each l (insert_author_of txRepo)).
Proof.
  intros Hl. induction l as [|a l IH]; [apply _|]. cbn [for_each].
  unfold names in *. cbn [fmap list_fmap] in Hl. apply not_elem_of_cons in Hl as [Ha Hl].
  apply Keeps_bind; [apply _| |intros [e|]; [apply _|by apply IH]].
  unfold insert_author_of, InsertAuthor. apply Keeps_bind; [apply _| |apply _].
  apply Keeps_bind; [apply _| |apply _]. apply exec_doomed.
  intros t t' Hn. unfold insert_author. rewrite !check_ok. intros (_ & _ & [= <-]).
  destruct (has _ _); [done|]. simpl. by rewrite lookup_insert_ne by (simpl; congruence).
Qed.

#[local] Instance state_modify P (f : World → World) :
  (∀ w, w_db (f w) = w_db w) → Keeps (keeps_tx_state P) (modify f).
Proof. intros Hf w (t & ab & Hw & HP). exists t, ab. simpl. by rewrite Hf. Qed.

Lemma item_doomed item :
  0 ∉ author_ids item → Keeps (keeps_tx_state doomed) (insertProcessedIssue txRepo item).
Proof.
  intros Hi. unfold insertProcessedIssue.
  apply Keeps_bind; [apply _|by apply authors_doomed|]. intros [e|]; [apply _|].
  destruct (MapIssueToRaw _ _ _).2 as [row|]; [|apply _].
  unfold InsertIssue, DeleteStatusChangesByIssue, insert_change, InsertStatusChange.
  cbn [db txRepo]. apply _.
Qed.

(** A predicate no statement breaks. *)
Lemma commit_item_keeps P id item :
  (∀ stmt, Keeps (keeps_tx_state P) (ExecContext SqlTx stmt)) →
  Keeps (keeps_tx_state P) (commit_item id txRepo item).
Proof.
  intros HP. unfold commit_item. apply Keeps_bind; [apply _| |].
  - unfold insertProcessedIssue, insert_author_of, insert_change, InsertAuthor, InsertIssue,
      DeleteStatusChangesByIssue, InsertStatusChange. cbn [db txRepo]. apply _.
  - intros [e|]; [apply _|].
    unfold manager, mtr. apply Keeps_bind; [apply _|by apply state_modify|]. intros _.
    apply Keeps_bind; [apply _|by apply state_modify|]. intros _. apply _.
Qed.

#[local] Instance commit_item_dead id item :
  Keeps (keeps_tx_state dead) (commit_item id txRepo item).
Proof. apply commit_item_keeps, _. Qed.

Lemma commit_item_doomed id item :
  0 ∉ author_ids item → Keeps (keeps_tx_state doomed) (commit_item id txRepo item).
Proof.
  intros Hi. unfold commit_item. apply Keeps_bind; [apply _|by apply item_doomed|].
  intros [e|]; [apply _|].
  unfold manager, mtr. apply Keeps_bind; [apply _|by apply state_modify|]. intros _.
  apply Keeps_bind; [apply _|by apply state_modify|]. intros _. apply _.
Qed.

(** The program fails, or leaves the transaction aborted. *)
Definition fatal (m : M World (option error)) (w : World) : Prop :=
  let '(r, w') := m w in is_Some r ∨ tx_state dead w'.

Lemma fatal_bind m k w :
  fatal m w → (∀ e, k (Some e) = ret (Some e)) → Keeps (keeps_tx_state dead) (k None) →
  fatal (bind m k) w.
Proof.
  unfold fatal, bind. intros Hm He Hk. destruct (m w) as [[e|] w'].
  - rewrite He. left. by eexists.
  - destruct Hm as [[? ?]|Hd]; [done|]. specialize (Hk w' Hd).
    destruct (k None w') as [r w'']. by right.
Qed.

(** What [ExecContext] does in a doomed transaction to a statement the server
    rejects. *)
Lemma exec_rejected stmt w :
  tx_state doomed w → (∀ t, authors t !! 0 = None → ∃ f, stmt t = Err f ∧ aborts f = true) →
  is_Some (ExecContext SqlTx stmt w).1 ∧ tx_state dead (ExecContext SqlTx stmt w).2.
Proof.
  intros (t & ab & Hw & HP) Hrej. unfold ExecContext. cbn [getDB World_HasDB].
  rewrite Hw. cbn [tx]. destruct ab.
  { split; [by eexists|]. by exists t, true. }
  destruct HP as [?|HP]; [done|]. destruct (Hrej t HP) as (f & Hf & Hab).
  unfold bind, next_fault. cbn [getDB World_HasDB]. rewrite Hw. simpl. rewrite Hf.
  unfold set_tx, modify, ret. simpl. rewrite Hw. simpl. split; [by eexists|].
  exists t, (aborts f). done.
Qed.

Lemma insert_change_none ch w : (insert_change txRepo ch w).1 = None.
Proof. unfold insert_change, bind. by destruct (InsertStatusChange txRepo ch w). Qed.

Lemma change_fatal ch w :
  tx_state doomed w → sc_AuthorID ch = 0 → int4 (sc_IssueID ch) = true →
  tx_state dead (insert_change txRepo ch w).2.
Proof.
  intros Hw H0 Hid. destruct (exec_rejected (insert_status_change ch) w Hw) as [_ Hd].
  - intros t Ha. unfold insert_status_change. rewrite Hid, H0. cbn [int4 andb check].
    change (int4 0) with true. cbn [andb check].
    destruct (text_opt_ok _ && text_opt_ok _); cbn [check]; [|by eexists].
    destruct (has (issues t) _); cbn [check]; [|by eexists].
    unfold has. rewrite Ha. cbn [check]. rewrite bool_decide_false by (by intros []). by eexists.
  - unfold insert_change, InsertStatusChange, bind. cbn [db txRepo].
    by destruct (ExecContext SqlTx (insert_status_change ch) w).
Qed.

#[local] Instance insert_change_dead ch : Keeps (keeps_tx_state dead) (insert_change txRepo ch).
Proof. unfold insert_change, InsertStatusChange. cbn [db txRepo]. apply _. Qed.

Lemma changes_fatal l ch w :
  ch ∈ l → tx_state doomed w → sc_AuthorID ch = 0 → int4 (sc_IssueID ch) = true →
  tx_state dead (for_each l (insert_change txRepo) w).2.
Proof.
  intros Hin Hw H0 Hid. revert w Hw. induction Hin as [ch l|ch ch' l Hin IH]; intros w Hw;
    cbn [for_each]; unfold bind.
  - pose proof (change_fatal ch w Hw H0 Hid) as Hd. pose proof (insert_change_none ch w) as Hn.
    destruct (insert_change txRepo ch w) as [r w']. simpl in *. subst r.
    by apply (keeps (R := keeps_tx_state dead) (m := for_each l (insert_change txRepo))).
  - pose proof (insert_change_none ch' w) as Hn.
    assert (Hk : Keeps (keeps_tx_state doomed) (insert_change txRepo ch')).
    { unfold insert_change, InsertStatusChange. cbn [db txRepo]. apply _. }
    specialize (Hk w Hw). destruct (insert_change txRepo ch' w) as [r w']. simpl in *. subst r.
    by apply IH.
Qed.

Lemma insert_issue_encodable row w w' :
  tx_state doomed w → InsertIssue txRepo row w = (None, w') → issue_encodable row = true.
Proof.
  intros (t & ab & Hw & _). unfold InsertIssue, bind, ExecContext. cbn [db txRepo getDB World_HasDB].
  rewrite Hw. cbn [tx]. destruct ab; [done|].
  unfold bind, next_fault. cbn [getDB World_HasDB]. rewrite Hw. simpl.
  unfold insert_issue. by destruct (issue_encodable row).
Qed.

(** The item has a row that refers to the author of id 0, the one of an empty
    name. *)
Definition refers_to_nobody (item : processedIssue) : Prop :=
  ∃ row, item_row item = Some row ∧
    (ri_AuthorID row = 0 ∨
     ∃ ch, ch ∈ MapChangelogToRaw (JiraIssue item) (ri_ID row) ∧ sc_AuthorID ch = 0).

Lemma item_fatal item w :
  0 ∉ author_ids item → refers_to_nobody item → tx_state doomed w →
  fatal (insertProcessedIssue txRepo item) w.
Proof.
  intros Hids (row & Hrow & H0) Hw. unfold insertProcessedIssue, item_row, fatal in *.
  unfold bind. pose proof (authors_doomed (Authors item) Hids w Hw) as Hw1.
  destruct (for_each (Authors item) (insert_author_of txRepo) w) as [[e|] w1];
    [left; by eexists|]. simpl in Hw1.
  destruct (MapIssueToRaw _ _ _).2 as [row'|]; simpl in Hrow; [|done]. injection Hrow as ->.
  destruct (InsertIssue txRepo row w1) as [ie w2] eqn:Hie.
  assert (Hw2 : tx_state doomed w2).
  { assert (Hk : Keeps (keeps_tx_state doomed) (InsertIssue txRepo row))
      by (unfold InsertIssue; cbn [db txRepo]; apply _).
    specialize (Hk w1 Hw1). by rewrite Hie in Hk. }
  destruct ie as [e|]; [left; by eexists|].
  pose proof (insert_issue_encodable row w1 w2 Hw1 Hie) as Henc.
  destruct H0 as [H0|(ch & Hch & H0)].
  { exfalso. clear Hw2. destruct Hw1 as (t & ab & Hw1 & HP). revert Hie.
    unfold InsertIssue, bind, ExecContext. cbn [db txRepo getDB World_HasDB].
    rewrite Hw1. cbn [tx]. destruct ab; [done|]. destruct HP as [?|HP]; [done|].
    unfold bind, next_fault. cbn [getDB World_HasDB]. rewrite Hw1. simpl.
    unfold insert_issue. rewrite Henc. cbn [check]. rewrite H0.
    assert (Hh : has (authors t) 0 = false)
      by (unfold has; rewrite HP; by apply bool_decide_false; intros []).
    rewrite Hh. cbn [check].
    by destruct (issue_text_ok row), (has (projects t) (ri_ProjectID row)). }
  assert (Hk : Keeps (keeps_tx_state doomed) (DeleteStatusChangesByIssue txRepo (ri_ID row)))
    by (unfold DeleteStatusChangesByIssue; cbn [db txRepo]; apply _).
  specialize (Hk w2 Hw2).
  destruct (DeleteStatusChangesByIssue txRepo (ri_ID row) w2) as [[e|] w3];
    [left; by eexists|].
  pose proof (changes_fatal (MapChangelogToRaw (JiraIssue item) (ri_ID row)) ch w3 Hch Hk H0) as Hd.
  destruct (for_each _ _ w3) as [r w4]. right. apply Hd.
  rewrite (change_issue _ _ _ Hch). unfold issue_encodable in Henc.
  rewrite !andb_true_iff in Henc. apply Henc.
Qed.

Lemma items_fatal id items item w :
  item ∈ items → Forall (λ item, 0 ∉ author_ids item) items → refers_to_nobody item →
  tx_state doomed w → fatal (for_each items (commit_item id txRepo)) w.
Proof.
  intros Hin Hids Hbad. revert w. induction Hin as [item items|item item' items Hin IH]; intros w Hw;
    apply Forall_cons in Hids as [Hid Hids]; cbn [for_each].
  - apply fatal_bind; [|done|apply _]. unfold commit_item.
    apply fatal_bind; [by apply item_fatal|done|].
    unfold manager, mtr. apply Keeps_bind; [apply _|by apply state_modify|]. intros _.
    apply Keeps_bind; [apply _|by apply state_modify|]. intros _. apply _.
  - pose proof (commit_item_doomed id item' Hid w Hw) as Hw1. unfold fatal, bind.
    destruct (commit_item id txRepo item' w) as [[e|] w1]; [left; by eexists|].
    by apply IH.
Qed.
End Lost.

(** C38. An issue without a creator name, or with a status change by an author
    without a name, loses its whole page: such authors get id 0 and are never
    inserted, so the foreign key fails; although a failed status change is only
    logged, it aborts the transaction, and nothing of the page is committed. *)
Theorem anonymous_author_loses_page syncID items item c w :
  quiet c w → authors c !! 0 = None → Forall (λ item, 0 ∉ author_ids item) items →
  item ∈ items → refers_to_nobody item →
  let '(err, w') := commitPage New syncID items w in
  is_Some err ∧ quiet c w'.
Proof.
  intros Hq H0 Hids Hin Hbad. unfold commitPage, WithTransaction, NewTx, New. cbn [db].
  unfold bind at 1 2 3 4. rewrite (BeginTx_quiet c) by done. unfold ret at 1.
  change {| db := SqlTx |} with txRepo. unfold bind at 1.
  assert (Hw : tx_state c doomed (with_tx c c w)) by (exists c, false; split; [done|by right]).
  pose proof (items_fatal c syncID items item (with_tx c c w) Hin Hids Hbad Hw) as Hf.
  assert (Hk : Keeps (keeps_tx_state c (λ _ _, True))
                 (for_each items (commit_item syncID txRepo))).
  { apply Keeps_for_each; [apply _|]. intros x. apply commit_item_keeps. intros stmt.
    by apply exec_tx_state. }
  specialize (Hk (with_tx c c w) (ex_intro _ c (ex_intro _ false (conj eq_refl I)))).
  unfold fatal in Hf.
  destruct (for_each items (commit_item syncID txRepo) (with_tx c c w)) as [[e|] w1].
  - destruct Hk as (t & ab & Hw1 & _). simpl in Hw1. unfold Rollback, tx_rollback, bind.
    cbn [db txRepo getDB World_HasDB]. rewrite Hw1. cbn [tx].
    unfold next_fault, set_tx, modify, ret, quiet. cbn [getDB World_HasDB]. rewrite Hw1. simpl.
    rewrite Hw1. split; [by eexists|done].
  - destruct Hf as [[? ?]|(t & ab & Hw1 & ->)]; [done|]. unfold Commit, tx_commit, bind.
    cbn [db txRepo getDB World_HasDB]. rewrite Hw1. cbn [tx].
    unfold next_fault, set_tx, modify, ret, quiet. cbn [getDB World_HasDB]. rewrite Hw1. simpl.
    rewrite Hw1. split; [by eexists|done].
Qed.

(** ** Witnesses *)

Definition demo_task : WorkerPool.Task any_payload :=
  WorkerPool.NewTask "PRJ-1" (Is (mkPayload "PRJ-1" 7)).

Definition demo_item : processedIssue :=
  mkProcessed "PRJ-1" sample_issue sample_fields 7 [mkAuthor "ann" "Ann"; mkAuthor "bob" ""].

Definition no_row : RawIssue :=
  mkRawIssue 0 0 0 None "" None None None None None None None None None.
Definition demo_row : RawIssue := default no_row (item_row demo_item).

Definition demo_tables : Tables := mkTables {[7 := "Project"%string]} ∅ ∅ [].
Definition demo_world : World :=
  mkWorld (mkSession demo_tables None []) Manager.NewManager None.

Lemma demo_storable : storable (projects demo_tables) demo_item demo_row.
Proof.
  split; try (vm_compute; reflexivity).
  - repeat constructor; vm_compute; reflexivity.
  - by eexists.
  - apply (bool_decide_unpack _). vm_compute. exact I.
  - intros a Ha. vm_compute in Ha. injection Ha as <-.
    apply (bool_decide_unpack _). vm_compute. exact I.
  - apply (bool_decide_unpack _). vm_compute. exact I.
Qed.

Lemma collectAuthors_complete_witness :
  names (collectAuthors sample_issue sample_fields) = ["ann"; "bob"]%string ∧
  NoDup (names (collectAuthors sample_issue sample_fields)).
Proof.
  split; [vm_compute; reflexivity|].
  exact (proj1 (collectAuthors_complete sample_issue sample_fields)).
Defined.

Lemma commitPage_stores_witness :
  ∃ w', commitPage New "job" [demo_item] demo_world = (None, w') ∧
    map_size (issues (committed (w_db w'))) = 1%nat ∧ length (status_changes (committed (w_db w'))) = 1%nat.
Proof.
  pose proof (commitPage_stores "job" [demo_item] demo_tables demo_world eq_refl
    (Forall_cons_2 _ _ _ (ex_intro _ demo_row demo_storable) (Forall_nil_2 _))) as H.
  destruct (commitPage New "job" [demo_item] demo_world) as [err w']. destruct H as (-> & Hq & _).
  exists w'. split; [reflexivity|]. rewrite Hq. vm_compute. split; reflexivity.
Defined.

Lemma resync_idempotent_witness :
  ∃ w1 w2, commitPage New "job" [demo_item] demo_world = (None, w1) ∧
    commitPage New "again" [demo_item] w1 = (None, w2) ∧ w_db w2 = w_db w1 ∧
    length (status_changes (committed (w_db w1))) = 1%nat.
Proof.
  pose proof (resync_idempotent "job" "again" [demo_item] demo_tables demo_world eq_refl
    (Forall_cons_2 _ _ _ (ex_intro _ demo_row demo_storable) (Forall_nil_2 _))) as H.
  assert (Hl : length (status_changes (committed (w_db
    (commitPage New "job" [demo_item] demo_world).2))) = 1%nat) by (vm_compute; reflexivity).
  destruct (commitPage New "job" [demo_item] demo_world) as [err1 w1].
  destruct (commitPage New "again" [demo_item] w1) as [err2 w2] eqn:He.
  destruct H as (-> & -> & Hd & _). exists w1, w2.
  split; [reflexivity|]. split; [exact He|]. split; [exact Hd|exact Hl].
Defined.

Lemma fetched_authors_cover_witness :
  Process (λ _, Ok sample_issue) demo_task = (Some (Is demo_item), None) ∧
  ri_AuthorID demo_row ∈ author_ids demo_item.
Proof.
  assert (Hp : Process (λ _, Ok sample_issue) demo_task = (Some (Is demo_item), None))
    by (vm_compute; reflexivity).
  split; [exact Hp|].
  assert (Hn : authors_named demo_item).
  { split; [done|]. intros h Hh _. apply list_elem_of_singleton in Hh as ->. done. }
  refine (proj1 (fetched_authors_cover _ _ _ demo_row Hp Hn _)). vm_compute. reflexivity.
Defined.

(** The same issue, its creator's account deleted. *)
Definition anonymous_item : processedIssue :=
  let issue := mkIssue "PRJ-2" "" "10002" (Some (JObj [("creator", JNull)])) None in
  mkProcessed "PRJ-2" issue zero_IssueFields 7 [].

Lemma anonymous_author_loses_page_witness :
  Process (λ _, Ok (JiraIssue anonymous_item))
    (WorkerPool.NewTask "PRJ-2" (Is (mkPayload "PRJ-2" 7)))
    = (Some (Is anonymous_item), None) ∧
  ∃ e w', commitPage New "job" [demo_item; anonymous_item] demo_world = (Some e, w') ∧
    quiet demo_tables w'.
Proof.
  split; [vm_compute; reflexivity|].
  pose proof (anonymous_author_loses_page "job" [demo_item; anonymous_item] anonymous_item
    demo_tables demo_world eq_refl eq_refl) as H.
  destruct (commitPage New "job" [demo_item; anonymous_item] demo_world) as [err w'].
  destruct H as [[e ->] Hq].
  - apply (bool_decide_unpack _). vm_compute. exact I.
  - right. left.
  - exists (default no_row (item_row anonymous_item)).
    split; [vm_compute; reflexivity|left; vm_compute; reflexivity].
  - exists e, w'. split; [reflexivity|exact Hq].
Defined.
