(* ===== verification/TableOrder.v ===== *)
(** * The order of a page does not matter

    The worker pool delivers the issues of a page in any order.  Tables are
    compared up to the order of the status changes (a table has no order); the
    operations that store a page respect this equivalence, and items that do not
    contend for a row commute. *)

From S2P Require Import Prelude GoLang GoTime Errors JiraTypes RawModels Mapper Repository.
From S2P Require Import Sync SyncData.
Local Open Scope Z_scope.
#[local] Set Warnings "-clear-no-such-hyp".

(** ** The equivalence *)

#[export] Instance tables_equiv : Equiv Tables := λ t t',
  projects t = projects t' ∧ authors t = authors t' ∧ issues t = issues t' ∧
  status_changes t ≡ₚ status_changes t'.

#[export] Instance tables_equivalence : Equivalence (≡@{Tables}).
Proof.
  split.
  - intros t. by split_and!.
  - intros t t' (? & ? & ? & ?). by split_and!.
  - intros t1 t2 t3 (? & ? & ? & H12) (? & ? & ? & H23). split_and!; try congruence.
    by rewrite H12.
Qed.

(** Observables of equivalent tables. *)
#[export] Instance projects_proper : Proper ((≡) ==> (=)) projects.
Proof. by intros t t' (? & _). Qed.
#[export] Instance authors_proper : Proper ((≡) ==> (=)) authors.
Proof. by intros t t' (_ & ? & _). Qed.
#[export] Instance issues_proper : Proper ((≡) ==> (=)) issues.
Proof. by intros t t' (_ & _ & ? & _). Qed.
#[export] Instance status_changes_proper : Proper ((≡) ==> (≡ₚ)) status_changes.
Proof. by intros t t' (_ & _ & _ & ?). Qed.

#[export] Instance filter_proper {A} (P : A → Prop) `{∀ x, Decision (P x)} :
  Proper ((≡ₚ) ==> (≡ₚ)) (filter P : list A → list A).
Proof.
  intros l k Hlk. induction Hlk as [|x l k _ IH|x y l|l k m _ IH1 _ IH2]; [done| | |].
  - rewrite !filter_cons. case_decide; [by f_equiv|done].
  - rewrite !filter_cons. repeat case_decide; try done. apply Permutation_swap.
  - by rewrite IH1.
Qed.

#[export] Instance upd_changes_proper : Proper ((≡ₚ) ==> (=) ==> (≡ₚ)) upd_changes.
Proof.
  intros l k Hlk item ? <-. unfold upd_changes. destruct (item_row item); [|done].
  by rewrite Hlk.
Qed.

#[export] Instance upd_changes_fold_proper items :
  Proper ((≡ₚ) ==> (≡ₚ)) (fold_left upd_changes items).
Proof.
  induction items as [|item items IH]; intros l k Hlk; [done|]. simpl. apply IH. by rewrite Hlk.
Qed.

#[export] Instance store_items_proper : Proper ((=) ==> (≡) ==> (≡)) store_items.
Proof.
  intros items ? <- t t' Ht. rewrite !store_items_tables.
  destruct Ht as (Hp & Ha & Hi & Hc). unfold equiv, tables_equiv. simpl.
  rewrite Hp, Ha, Hi. split_and!; [done..|]. by rewrite Hc.
Qed.

(** ** Items that do not contend *)

(** Author rows with the same id are the same row: the names that hash alike
    are shown alike. *)
Definition agree (l : list Author) : Prop :=
  ∀ a b, a ∈ l → b ∈ l → HashID (AuthorName a) = HashID (AuthorName b) →
    AuthorDisplayName a = AuthorDisplayName b.

(** No two items of a page store the same issue row, and their authors agree. *)
Definition compatible (items : list processedIssue) : Prop :=
  NoDup (page_ids items) ∧ agree (items ≫= Authors).

Lemma agree_sub l k : l ⊆ k → agree k → agree l.
Proof. intros Hs Hk a b Ha Hb. apply Hk; by apply Hs. Qed.

#[export] Instance compatible_proper : Proper ((≡ₚ) ==> iff) compatible.
Proof.
  assert (H : ∀ l k : list processedIssue, l ≡ₚ k → compatible l → compatible k).
  { intros l k Hlk [Hn Ha]. split.
    - unfold page_ids in *. assert (Hp : omap item_row l ≡ₚ omap item_row k).
      { clear -Hlk. induction Hlk as [|x l k _ IH|x y l|l k m _ IH1 _ IH2]; simpl;
          [done| | |by rewrite IH1].
        - destruct (item_row x); [by f_equiv|done].
        - destruct (item_row x), (item_row y); try done. apply Permutation_swap. }
      by rewrite <- Hp.
    - eapply agree_sub; [|exact Ha]. intros a (item & Hi & Hin)%list_elem_of_bind.
      apply list_elem_of_bind. exists item. split; [done|]. by rewrite Hlk. }
  intros l k Hlk. split; by apply H.
Qed.

Lemma compatible_cons item items : compatible (item :: items) → compatible items.
Proof.
  intros [Hn Ha]. split.
  - unfold page_ids in *. simpl in Hn. destruct (item_row item); [|done].
    simpl in Hn. by apply NoDup_cons in Hn as [_ ?].
  - eapply agree_sub; [|exact Ha]. simpl. intros a Hin. apply elem_of_app. by right.
Qed.

Lemma compatible_sublist items items' :
  items `sublist_of` items' → compatible items' → compatible items.
Proof.
  intros Hs. induction Hs as [|x l k Hs IH|x l k Hs IH]; [done| |].
  - intros Hc. pose proof (compatible_cons _ _ Hc) as Hc'. destruct Hc as [Hn Ha].
    destruct (IH Hc') as [Hn' _]. split.
    + unfold page_ids in *. simpl in *. destruct (item_row x) as [row|]; [|done]. simpl in *.
      apply NoDup_cons in Hn as [Hx _]. apply NoDup_cons. split; [|done].
      intros (r & Hr & (i & Hi & Hir)%list_elem_of_omap)%list_elem_of_fmap. apply Hx.
      apply list_elem_of_fmap. exists r. split; [done|]. apply list_elem_of_omap. exists i.
      split; [|done]. by eapply elem_of_submseteq; [|apply sublist_submseteq].
    + eapply agree_sub; [|exact Ha]. intros a (i & Hi & Hin)%list_elem_of_bind.
      apply list_elem_of_bind. exists i. split; [done|].
      apply elem_of_cons in Hin as [->|Hin]; [by left|right].
      by eapply elem_of_submseteq; [|apply sublist_submseteq].
  - intros Hc. apply IH. by eapply compatible_cons.
Qed.

(** *** Authors *)

Lemma add_authors_agree l id m :
  agree l →
  fold_left add_author l m !! id =
    match m !! id with
    | Some n => Some n
    | None => AuthorDisplayName <$> head (filter (λ a, HashID (AuthorName a) = id) l)
    end.
Proof.
  revert m. induction l as [|a l IH]; intros m Ha; [simpl; by destruct (m !! id)|].
  simpl. rewrite IH by (eapply agree_sub; [|exact Ha]; intros x Hx; by right).
  unfold add_author. destruct (has m (HashID (AuthorName a))) eqn:Hh.
  - destruct (m !! id) as [n|] eqn:Hm; [done|]. rewrite filter_cons_False; [done|].
    intros He. rewrite He in Hh. apply has_spec in Hh as [? Hh]. congruence.
  - destruct (decide (HashID (AuthorName a) = id)) as [He|He].
    + rewrite filter_cons_True by done. subst id. rewrite lookup_insert_eq.
      destruct (m !! _) eqn:Hm; [|done].
      by rewrite (proj2 (has_spec m _)) in Hh by by eexists.
    + by rewrite filter_cons_False, lookup_insert_ne.
Qed.

Lemma agree_head l k id :
  l ≡ₚ k → agree l →
  AuthorDisplayName <$> head (filter (λ a, HashID (AuthorName a) = id) l)
  = AuthorDisplayName <$> head (filter (λ a, HashID (AuthorName a) = id) k).
Proof.
  intros Hlk Ha. assert (Hf := filter_proper (λ a, HashID (AuthorName a) = id) l k Hlk).
  destruct (filter _ l) as [|a fl] eqn:Hl; destruct (filter _ k) as [|b fk] eqn:Hk.
  - done.
  - by apply Permutation_nil_l in Hf.
  - by symmetry in Hf; apply Permutation_nil_l in Hf.
  - simpl. f_equal.
    assert (Hin : a ∈ filter (λ a, HashID (AuthorName a) = id) l) by (rewrite Hl; by left).
    assert (Hin' : b ∈ filter (λ a, HashID (AuthorName a) = id) k) by (rewrite Hk; by left).
    apply list_elem_of_filter in Hin as [Hia Hin]. apply list_elem_of_filter in Hin' as [Hib Hin'].
    apply Ha; [done|by rewrite Hlk|congruence].
Qed.

(** *** Two items *)

Lemma store_items_swap x y t :
  compatible [x; y] → store_items [x; y] t ≡ store_items [y; x] t.
Proof.
  intros [Hn Ha]. rewrite !store_items_tables. unfold equiv, tables_equiv. simpl.
  split_and!; [done| | |].
  - apply map_eq. intros id. unfold upd_authors.
    assert (Hp : [x; y] ≫= Authors ≡ₚ [y; x] ≫= Authors)
      by (simpl; rewrite !app_nil_r; apply Permutation_app_comm).
    rewrite !add_authors_agree.
    + by rewrite (agree_head _ _ id Hp Ha).
    + eapply agree_sub; [|exact Ha]. intros a Hin. by rewrite Hp.
    + done.
  - unfold upd_issue, page_ids in *. simpl in Hn.
    destruct (item_row x) as [rx|], (item_row y) as [ry|]; try done.
    simpl in Hn. apply insert_insert_ne. intros He.
    apply NoDup_cons in Hn as [Hn _]. apply Hn. rewrite He. by left.
  - unfold upd_changes, page_ids in *. simpl in Hn.
    destruct (item_row x) as [rx|] eqn:Hx, (item_row y) as [ry|] eqn:Hy; try done.
    assert (Hne : ri_ID rx ≠ ri_ID ry).
    { simpl in Hn. intros He. apply NoDup_cons in Hn as [Hn _]. apply Hn. rewrite He. by left. }
    assert (Hkeep : ∀ i r r', ri_ID r ≠ ri_ID r' →
      filter (λ c, sc_IssueID c ≠ ri_ID r') (MapChangelogToRaw i (ri_ID r))
      = MapChangelogToRaw i (ri_ID r)).
    { intros i r r' Hr. apply list_filter_all. intros c Hc. by rewrite (change_issue _ _ _ Hc). }
    rewrite !filter_app, !Hkeep by done. rewrite <- !app_assoc.
    rewrite (list_filter_filter _ _ (status_changes t)), (list_filter_filter _ _ (status_changes t)).
    rewrite (list_filter_iff _ (λ c, sc_IssueID c ≠ ri_ID rx ∧ sc_IssueID c ≠ ri_ID ry)
      (status_changes t)) by tauto.
    f_equiv. apply Permutation_app_comm.
Qed.

(** The tables do not depend on the order in which compatible items are stored. *)
Lemma store_items_perm items items' t :
  compatible items → items ≡ₚ items' → store_items items t ≡ store_items items' t.
Proof.
  intros Hc Hp. revert t Hc.
  induction Hp as [|x l k _ IH|x y l|l k m Hlk IH1 _ IH2]; intros t Hc; [done| | |].
  - change (store_items (x :: l) t) with (store_items l (store_item x t)).
    change (store_items (x :: k) t) with (store_items k (store_item x t)).
    apply IH. by eapply compatible_cons.
  - change (store_items (y :: x :: l) t) with (store_items l (store_items [y; x] t)).
    change (store_items (x :: y :: l) t) with (store_items l (store_items [x; y] t)).
    apply store_items_proper; [done|]. apply store_items_swap.
    eapply compatible_sublist; [|exact Hc]. by do 2 apply sublist_skip; apply sublist_nil_l.
  - rewrite IH1 by done. apply IH2. by rewrite <- Hlk.
Qed.
