(* ===== verification/PageFetch.v ===== *)
(** * Fetching a page through the worker pool

    Theorems on [fetchPageIssues]: one goroutine submits the issues of the page
    and stops the pool, another receives the results, while the pool's workers
    run; the context may be cancelled at any time. *)

From S2P Require Import Prelude GoLang GoTime Errors Json JiraTypes RawModels Mapper Repository.
From S2P Require Metrics Manager WorkerPool.
From S2P Require Import Sync.
Local Open Scope Z_scope.
#[local] Set Warnings "-clear-no-such-hyp".

(** ** One page through the worker pool *)

Section Page.
Context (may_get : string → res error Issue → Prop) (ctx_error : error).
Context (workerCount queueSize projectID : Z).
Hypothesis workers : 0 < workerCount.

Local Abbreviation tasks := (fmap (issue_task projectID)).
Local Abbreviation returns := (may_return may_get).

(** The pool's own goroutines and the receiver submit nothing. *)
Lemma pool_side_frame a (c c' : pool_config) :
  pool_side a = true → WorkerPool.fire a c = Some c' →
  WorkerPool.accepted c' = WorkerPool.accepted c ∧
  WorkerPool.inflight c' = WorkerPool.inflight c ∧
  WorkerPool.once (WorkerPool.pool c') = WorkerPool.once (WorkerPool.pool c) ∧
  (WorkerPool.ctxDone c' = WorkerPool.ctxDone c ∧
   WorkerPool.submitCtxDone c' = WorkerPool.submitCtxDone c ∨
   WorkerPool.ctxDone c' = true ∧ WorkerPool.submitCtxDone c' = true).
Proof.
  intros Ha H. destruct a; try done; simpl in H;
    unfold WorkerPool.watcher_step in H;
    repeat (case_match; simplify_eq/=); try done; simplify_eq/=;
    try (apply bind_Some in H as (w & Hw & H); repeat (case_match; simplify_eq/=); try done);
    simpl; rewrite ?app_nil_r; split_and!; auto.
Qed.

(** The error of a submission that was refused. *)
Definition refused (all : list Issue) (e : error) : Prop :=
  ∃ iss cause, iss ∈ all ∧ (cause = ESentinel errPoolStopped ∨ cause = ctx_error) ∧
    e = wrap ("submit " ++ IssueKey iss)%string cause.

(** What the submitter has handed over when it leaves its loop. *)
Definition stopping (all : list Issue) (err : option error) (c : pool_config) : Prop :=
  WorkerPool.inflight c = [] ∧
  match err with
  | None => WorkerPool.accepted c = tasks all
  | Some e => WorkerPool.ctxDone c = true ∧ refused all e
  end.

Definition submitted (all : list Issue) (sub : submitter) (c : pool_config) : Prop :=
  match sub with
  | Looping todo =>
    WorkerPool.once (WorkerPool.pool c) = WorkerPool.NotStopped ∧
    WorkerPool.inflight c = [] ∧ WorkerPool.accepted c ++ tasks todo = tasks all
  | InSubmit iss todo =>
    WorkerPool.once (WorkerPool.pool c) = WorkerPool.NotStopped ∧
    WorkerPool.inflight c = [issue_task projectID iss] ∧
    WorkerPool.accepted c ++ tasks (iss :: todo) = tasks all
  | Stopping err => stopping all err c ∧ WorkerPool.once (WorkerPool.pool c) ≠ WorkerPool.StopDone
  | Returned err => stopping all err c ∧ WorkerPool.once (WorkerPool.pool c) = WorkerPool.StopDone
  end.

Definition page_inv (all : list Issue) (p : submitter * pool_config) : Prop :=
  WorkerPool.inv returns workerCount (Z.to_nat queueSize) p.2 ∧
  WorkerPool.submitCtxDone p.2 = WorkerPool.ctxDone p.2 ∧
  submitted all p.1 p.2.

Lemma refused_intro all iss (acc : list (WorkerPool.Task any_payload)) todo cause :
  acc ++ tasks (iss :: todo) = tasks all →
  cause = ESentinel errPoolStopped ∨ cause = ctx_error →
  refused all (wrap ("submit " ++ IssueKey iss)%string cause).
Proof.
  intros Hacc Hc. assert (Hin : issue_task projectID iss ∈ tasks all)
    by (rewrite <- Hacc; apply elem_of_app; right; by left).
  apply list_elem_of_fmap in Hin as (iss' & He & Hin).
  assert (IssueKey iss = IssueKey iss') as -> by (unfold issue_task, WorkerPool.NewTask in He; congruence).
  by exists iss', cause.
Qed.

(** Before [Stop], a pool refuses tasks only when its context is done. *)
Lemma refused_cancelled c :
  WorkerPool.inv returns workerCount (Z.to_nat queueSize) c →
  WorkerPool.once (WorkerPool.pool c) = WorkerPool.NotStopped →
  WorkerPool.stopped (WorkerPool.pool c) = true → WorkerPool.ctxDone c = true.
Proof.
  intros Hinv Honce Hst. destruct (WorkerPool.ctxDone c) eqn:Hctx; [done|]. exfalso.
  pose proof (WorkerPool.inv_once _ _ _ _ Hinv) as Ho. rewrite Honce in Ho.
  destruct (WorkerPool.inv_stopped _ _ _ _ Hinv Hst) as [?|Hw]; [done|].
  pose proof (WorkerPool.inv_watch _ _ _ _ Hinv) as Hwatch.
  assert (Hex : forallb WorkerPool.exited (WorkerPool.workers c) = true)
    by (destruct (WorkerPool.watch c); [done|by destruct Hwatch..]).
  pose proof (WorkerPool.inv_count _ _ _ _ Hinv) as Hn.
  destruct (WorkerPool.workers c) as [|w ws] eqn:Hws; simpl in Hn; [lia|].
  simpl in Hex. apply andb_true_iff in Hex as [Hex _].
  assert (Hin : WorkerPool.WExited ∈ WorkerPool.workers c)
    by (rewrite Hws; destruct w; try done; by left).
  destruct (WorkerPool.inv_exited _ _ _ _ Hinv Hin Hctx). congruence.
Qed.

Lemma page_step_inv all p p' :
  page_step may_get ctx_error projectID p p' → page_inv all p → page_inv all p'.
Proof.
  intros Hstep (Hinv & Hctx & Hsub). unfold page_inv in *.
  destruct Hstep as [iss todo c c' H|iss todo c msg H|iss todo c c' H|iss todo i c c' H
    |iss todo c c' H|iss todo c c' H|c|err c c' H|err c c' H|sub a c c' Ha Hal H];
    cbn [fst snd] in *.
  - destruct Hsub as (Ho & Hi & Hacc).
    assert (Hf : WorkerPool.fire (WorkerPool.ASubmit (issue_task projectID iss)) c = Some c')
      by (simpl; by rewrite H).
    split; [by eapply WorkerPool.fire_inv; [|exact Hf|]|].
    unfold WorkerPool.Submit in H. case_match; simplify_eq/=. rewrite Hi. done.
  - destruct Hsub as (Ho & Hi & Hacc). split; [done|]. split; [done|]. simpl.
    unfold WorkerPool.Submit in H. case_match eqn:Hs; simplify_eq/=.
    split; [|by rewrite Ho]. split; [done|]. split; [by eapply refused_cancelled|].
    eapply refused_intro; [exact Hacc|by left].
  - destruct Hsub as (Ho & Hi & Hacc). split; [by eapply WorkerPool.fire_inv; [|exact H|]|].
    simpl in H. rewrite Hi in H. simpl in H. repeat (case_match; simplify_eq/=).
    split; [done|]. split_and!; [done..|]. rewrite <- Hacc. by rewrite <- app_assoc.
  - destruct Hsub as (Ho & Hi & Hacc). split; [by eapply WorkerPool.fire_inv; [|exact H|]|].
    simpl in H. rewrite Hi in H. simpl in H.
    apply bind_Some in H as (w & Hw & H). repeat (case_match; simplify_eq/=).
    split; [done|]. split_and!; [done..|]. rewrite <- Hacc. by rewrite <- app_assoc.
  - destruct Hsub as (Ho & Hi & Hacc). split; [by eapply WorkerPool.fire_inv; [|exact H|]|].
    pose proof (WorkerPool.inv_once _ _ _ _ Hinv) as Hcl. rewrite Ho in Hcl.
    simpl in H. rewrite Hi in H. simpl in H. rewrite Hcl in H. done.
  - destruct Hsub as (Ho & Hi & Hacc). split; [by eapply WorkerPool.fire_inv; [|exact H|]|].
    simpl in H. rewrite Hi in H. simpl in H. case_match eqn:Hs; simplify_eq/=.
    split; [congruence|]. split; [|by rewrite Ho]. split; [done|]. split; [simpl; congruence|].
    eapply refused_intro; [exact Hacc|by right].
  - destruct Hsub as (Ho & Hi & Hacc). split; [done|]. split; [done|].
    split; [|by rewrite Ho]. split; [done|]. by rewrite app_nil_r in Hacc.
  - split; [by eapply WorkerPool.fire_inv; [|exact H|]|].
    simpl in H. unfold WorkerPool.Stop in H. case_match; simplify_eq/=.
    split; [done|]. by destruct Hsub.
  - split; [by eapply WorkerPool.fire_inv; [|exact H|]|].
    pose proof (WorkerPool.inv_once _ _ _ _ Hinv) as Ho.
    simpl in H. unfold WorkerPool.Stop in H.
    destruct (WorkerPool.once (WorkerPool.pool c)); [done| |done].
    destruct Ho as [Ho _]. rewrite Ho in H. simplify_eq/=. split; [done|].
    by destruct Hsub.
  - split; [by eapply WorkerPool.fire_inv; [exact Hal|exact H|]|].
    destruct (pool_side_frame a c c' Ha H) as (Eacc & Einf & Eonce & Ectx).
    split; [destruct Ectx as [[-> ->]|[-> ->]]; done|].
    assert (Hc : WorkerPool.ctxDone c = true → WorkerPool.ctxDone c' = true)
      by (destruct Ectx as [[-> _]|[-> _]]; done).
    destruct sub as [todo|iss todo|[e|]|[e|]]; simpl in *; unfold stopping in *;
      rewrite ?Eacc, ?Einf, ?Eonce; naive_solver.
Qed.

Lemma page_reachable p p' :
  page_step may_get ctx_error projectID p p' → rtc (WorkerPool.step returns) p.2 p'.2.
Proof.
  intros Hstep. destruct Hstep as [iss todo c c' H|iss todo c msg H|iss todo c c' H
    |iss todo i c c' H|iss todo c c' H|iss todo c c' H|c|err c c' H|err c c' H|sub a c c' Ha Hal H];
    simpl; try apply rtc_refl; apply rtc_once.
  - exists (WorkerPool.ASubmit (issue_task projectID iss)). split; [done|]. simpl. by rewrite H.
  - by exists (WorkerPool.ASubmitSend 0).
  - by exists (WorkerPool.ASubmitHandoff 0 i).
  - by exists (WorkerPool.ASubmitPanic 0).
  - by exists (WorkerPool.ASubmitCtx 0).
  - by exists WorkerPool.AStopStore.
  - by exists WorkerPool.AStopClose.
  - by exists a.
Qed.

(** *** The results collected *)

(** A result as [Process] makes it for an issue's task. *)
Definition typed (r : task_result) : Prop :=
  match WorkerPool.Err r with
  | Some _ => True
  | None => ∃ item, WorkerPool.Result r = Some (Is item)
  end.

Definition result_item (r : task_result) : option processedIssue :=
  match WorkerPool.Err r, WorkerPool.Result r with
  | None, Some (Is item) => Some item
  | _, _ => None
  end.

Lemma collect_typed rs acc :
  Forall typed rs → collect rs acc = Ok (acc ++ omap result_item rs).
Proof.
  intros Hrs. revert acc. induction Hrs as [|r rs Hr _ IH]; intros acc; simpl;
    [by rewrite app_nil_r|]. unfold result_item, typed in *.
  destruct (WorkerPool.Err r); [apply IH|]. destruct Hr as [item ->].
  rewrite IH. by rewrite <- app_assoc.
Qed.

(** What processing an issue gives when the dynamic types are as expected: the
    item of the issue read, or the error of reading it or of decoding its
    fields; never that of a failed type assertion. *)
Definition processed (get : string → res error Issue) (iss : Issue)
    (out : option any_result * option error) : Prop :=
  match get (IssueKey iss) with
  | Err e => out = (None, Some (wrap ("get issue " ++ IssueKey iss)%string e))
  | Ok issue =>
    (∃ fields, UnmarshalRaw dec_IssueFields (IssueFieldsRaw issue) zero_IssueFields = (fields, None) ∧
       out = (Some (Is (mkProcessed (IssueKey iss) issue fields projectID
                          (collectAuthors issue fields))), None)) ∨
    (∃ fields e,
       UnmarshalRaw dec_IssueFields (IssueFieldsRaw issue) zero_IssueFields = (fields, Some e) ∧
       out = (None, Some (wrap "unmarshal fields" e)))
  end.

Lemma Process_processed get iss : processed get iss (Process get (issue_task projectID iss)).
Proof.
  unfold processed, Process. simpl. destruct (get (IssueKey iss)) as [issue|]; [|done].
  destruct (UnmarshalRaw _ _ _) as [fields [e|]]; [right|left]; eauto.
Qed.

(** What processing the issue gives: an item, or nothing when it failed. *)
Definition outcome_item (o : option any_result * option error) : option processedIssue :=
  match o with (Some (Is item), None) => Some item | _ => None end.

Lemma Process_typed get iss :
  match (Process get (issue_task projectID iss)).2 with
  | Some _ => True
  | None => ∃ item, (Process get (issue_task projectID iss)).1 = Some (Is item)
  end.
Proof.
  pose proof (Process_processed get iss) as Hp. unfold processed in Hp.
  destruct (get (IssueKey iss)); [|by rewrite Hp].
  destruct Hp as [(fields & _ & ->)|(fields & e & _ & ->)]; simpl; eauto.
Qed.

Lemma omap_Permutation {A B} (f : A → option B) (l k : list A) :
  l ≡ₚ k → omap f l ≡ₚ omap f k.
Proof.
  induction 1 as [|x l k _ IH|x y l|l k m _ IH1 _ IH2]; simpl; [done| | |by rewrite IH1].
  - destruct (f x); [by f_equiv|done].
  - destruct (f x), (f y); try done. apply Permutation_swap.
Qed.

(** The tasks of the page in order, each with a result its processing may give,
    from the pairs of the pool. *)
Lemma align_results (all : list Issue) (ps : list (WorkerPool.Task any_payload * task_result)) :
  tasks all ≡ₚ ps.*1 → Forall (λ p, WorkerPool.result_of returns p.1 p.2) ps →
  ∃ outs, Forall2 (λ iss out, ∃ get, (∀ key, may_get key (get key)) ∧
                     Process get (issue_task projectID iss) = out) all outs ∧
    omap result_item ps.*2 ≡ₚ omap outcome_item outs ∧ Forall typed ps.*2.
Proof.
  intros Hp Hall. destruct (Permutation_map_inv fst ps Hp) as (ps' & Htasks & Hps).
  assert (Hall' : Forall (λ p, WorkerPool.result_of returns p.1 p.2) ps') by (by rewrite <- Hps).
  change (map fst ps') with (ps'.*1) in Htasks.
  assert (Hgoal : ∃ outs, Forall2 (λ iss out, ∃ get, (∀ key, may_get key (get key)) ∧
                     Process get (issue_task projectID iss) = out) all outs ∧
    omap result_item ps'.*2 = omap outcome_item outs ∧ Forall typed ps'.*2).
  { clear -Htasks Hall'. revert ps' Htasks Hall'.
    induction all as [|iss all IH]; intros [|[t r] ps'] Htasks Hall'; simplify_eq/=.
    { exists []. split_and!; constructor. }
    apply Forall_cons in Hall' as [[Hid (get & Hget & Hpr)] Hall'].
    destruct (IH ps') as (outs & Hf & Ho & Ht); [done..|].
    pose proof (Process_typed get iss) as Hty.
    exists ((WorkerPool.Result r, WorkerPool.Err r) :: outs). simpl in *. rewrite Hpr in Hty.
    split_and!; [constructor; [by exists get|done]| |constructor; [|done]].
    - unfold result_item at 1. rewrite Ho. simpl in Hty.
      destruct (WorkerPool.Err r), (WorkerPool.Result r) as [[]|]; done.
    - unfold typed. simpl in Hty. by destruct (WorkerPool.Err r). }
  destruct Hgoal as (outs & Hf & Ho & Ht). exists outs. split_and!; [done| |].
  - rewrite <- Ho. by apply omap_Permutation, fmap_Permutation.
  - by rewrite Hps.
Qed.

(** The page's first configuration, and what holds of its last. *)
Lemma page_start all wp :
  WorkerPool.New workerCount queueSize = Some wp →
  page_inv all (Looping all, WorkerPool.Run wp).
Proof.
  intros Hnew. split; [by apply WorkerPool.run_inv|]. split; [done|]. split_and!; try done.
  simpl. unfold WorkerPool.New in Hnew. case_match; by simplify_eq/=.
Qed.

Lemma page_steps_inv all p p' :
  rtc (page_step may_get ctx_error projectID) p p' → page_inv all p → page_inv all p'.
Proof.
  apply (rtc_invariant (page_step may_get ctx_error projectID) (page_inv all)).
  intros q q' Hq Hs. by eapply page_step_inv.
Qed.

Lemma page_steps_reach wp sub p :
  WorkerPool.New workerCount queueSize = Some wp →
  rtc (page_step may_get ctx_error projectID) (sub, WorkerPool.Run wp) p →
  WorkerPool.reachable returns workerCount queueSize p.2.
Proof.
  intros Hnew Hr. exists wp. split; [done|].
  change (WorkerPool.Run wp) with (sub, WorkerPool.Run wp : pool_config).2.
  revert Hr. generalize (sub, WorkerPool.Run wp : pool_config) p.
  intros q q' Hr. clear -Hr. induction Hr as [|p1 p2 p3 Hs _ IH]; [apply rtc_refl|].
  etransitivity; [by apply (page_reachable p1 p2)|exact IH].
Qed.

Lemma fetchPageIssues_items pageIssues r :
  fetchPageIssues may_get ctx_error workerCount queueSize projectID pageIssues false r →
  ∃ outs items,
    Forall2 (λ iss out, ∃ get, (∀ key, may_get key (get key)) ∧
               Process get (issue_task projectID iss) = out) pageIssues outs ∧
    r = Ok items ∧ items ≡ₚ omap outcome_item outs.
Proof.
  intros (wp & err & c & Hnew & Hrun & Hdr & Hctx & ->).
  pose proof (page_steps_inv pageIssues _ _ Hrun (page_start pageIssues wp Hnew)) as Hend.
  pose proof (page_steps_reach wp _ _ Hnew Hrun) as Hreach. cbn [snd] in Hreach.
  destruct Hend as (_ & _ & [[_ Hsub] _]). simpl in Hsub.
  destruct err as [e|]; [destruct Hsub; congruence|].
  destruct (WorkerPool.drained_results returns workerCount queueSize c Hreach workers Hctx Hdr)
    as (ps & Hacc & Hdel & Hall & _).
  rewrite Hsub in Hacc.
  destruct (align_results pageIssues ps Hacc Hall) as (outs & Hf & Ho & Ht).
  exists outs, (omap result_item (WorkerPool.delivered c)). split_and!; [done| |].
  - unfold page_result. by rewrite collect_typed by (by rewrite Hdel).
  - rewrite <- Ho. by apply omap_Permutation.
Qed.

(** *** A page always ends *)

(** The cancellation of the context, by the caller. *)
Definition cancel (c : pool_config) : pool_config :=
  WorkerPool.with_flags true true (WorkerPool.panicked c) c.

(** A step of one of the goroutines. *)
Definition page_work (p p' : submitter * pool_config) : Prop :=
  page_step may_get ctx_error projectID p p' ∧ p' ≠ (p.1, cancel p.2).

(** What is left to do. *)
Definition page_measure (p : submitter * pool_config) : nat :=
  (match p.1 with
   | Looping todo => S (7 * length todo)
   | InSubmit _ todo => S (7 * length todo)
   | Stopping _ | Returned _ => 0
   end + WorkerPool.measure p.2)%nat.

(** What a page of [n] issues starts with. *)
Lemma page_measure_start all wp :
  WorkerPool.New workerCount queueSize = Some wp →
  page_measure (Looping all, WorkerPool.Run wp)
    = (7 * length all + 5 + Z.to_nat workerCount)%nat.
Proof.
  unfold WorkerPool.New. destruct (queueSize <? 0); [done|]. intros [= <-].
  unfold page_measure, WorkerPool.measure.
  assert (Hw : ∀ n, sum_list (WorkerPool.weight <$> replicate n
    (WorkerPool.WIdle : WorkerPool.wstate any_payload any_result error)) = n)
    by (intros n; induction n as [|n IH]; simpl; [done|by f_equal]).
  cbn -[Nat.mul sum_list fmap replicate Z.to_nat]. rewrite Hw. lia.
Qed.

Lemma pool_action_decreases a (c c' : pool_config) :
  WorkerPool.inv returns workerCount (Z.to_nat queueSize) c → WorkerPool.internal a = true →
  WorkerPool.allowed returns a c → WorkerPool.fire a c = Some c' →
  (WorkerPool.measure c' < WorkerPool.measure c)%nat.
Proof.
  intros Hinv Ha Hal H. eapply (WorkerPool.measure_decreases returns); [exact Hinv|].
  by exists a.
Qed.

Lemma page_work_decreases all p p' :
  page_inv all p → page_work p p' → (page_measure p' < page_measure p)%nat.
Proof.
  intros [Hinv _] [Hstep Hne].
  destruct Hstep as [iss todo c c' H|iss todo c msg H|iss todo c c' H|iss todo i c c' H
    |iss todo c c' H|iss todo c c' H|c|err c c' H|err c c' H|sub a c c' Ha Hal H];
    unfold page_measure; cbn [fst snd] in *.
  - unfold WorkerPool.Submit in H. case_match; simplify_eq/=.
    unfold WorkerPool.measure. simpl. rewrite length_app. simpl. lia.
  - unfold submit_failed. simpl. lia.
  - apply (pool_action_decreases _ _ _ Hinv) in H; [|done..]. lia.
  - apply (pool_action_decreases _ _ _ Hinv) in H; [|done..]. lia.
  - apply (pool_action_decreases _ _ _ Hinv) in H; [|done..]. unfold submit_failed. lia.
  - apply (pool_action_decreases _ _ _ Hinv) in H; [|done..]. unfold submit_failed. lia.
  - simpl. lia.
  - apply (pool_action_decreases _ _ _ Hinv) in H; [|done..]. lia.
  - apply (pool_action_decreases _ _ _ Hinv) in H; [|done..]. lia.
  - assert (Hint : WorkerPool.internal a = true).
    { destruct a; try done. simpl in H. injection H as <-. by destruct Hne. }
    pose proof (pool_action_decreases _ _ _ Hinv Hint Hal H). lia.
Qed.

Lemma page_work_bounded all k p p' :
  page_inv all p → nsteps page_work k p p' → (k + page_measure p' ≤ page_measure p)%nat.
Proof.
  intros Hinv Hk. induction Hk as [|k p1 p2 p3 Hs Hk IH]; [lia|].
  pose proof (page_work_decreases _ _ _ Hinv Hs).
  specialize (IH (page_step_inv all _ _ (proj1 Hs) Hinv)). lia.
Qed.

(** A step of a goroutine of the pool is one of the page. *)
Lemma pool_work sub a (c c' : pool_config) :
  WorkerPool.inv returns workerCount (Z.to_nat queueSize) c →
  pool_side a = true → WorkerPool.internal a = true → WorkerPool.allowed returns a c →
  WorkerPool.fire a c = Some c' → page_work (sub, c) (sub, c').
Proof.
  intros Hinv Ha Hint Hal H. split; [by eapply page_pool|]. simpl. intros [= He].
  pose proof (pool_action_decreases _ _ _ Hinv Hint Hal H) as Hd.
  rewrite He in Hd. unfold cancel, WorkerPool.measure in Hd. simpl in Hd. lia.
Qed.

Lemma submit_progress iss todo all c :
  (∃ get, ∀ key, may_get key (get key)) → page_inv all (InSubmit iss todo, c) →
  ∃ p', page_work (InSubmit iss todo, c) p'.
Proof.
  intros [get Hget] (Hinv & Hctx & Ho & Hi & _). cbn [fst snd] in *.
  destruct (WorkerPool.ctxDone c) eqn:Hd.
  { eexists. split; [eapply page_submit_ctx; simpl; by rewrite Hi, Hctx|intros [=]]. }
  pose proof (WorkerPool.inv_once _ _ _ _ Hinv) as Hcl. rewrite Ho in Hcl.
  assert (Hnex : WorkerPool.WExited ∉ WorkerPool.workers c).
  { intros Hin. destruct (WorkerPool.inv_exited _ _ _ _ Hinv Hin Hd). congruence. }
  destruct (WorkerPool.workers c) as [|w ws] eqn:Hws.
  { pose proof (WorkerPool.inv_count _ _ _ _ Hinv) as Hn. rewrite Hws in Hn. simpl in Hn. lia. }
  assert (H0 : WorkerPool.workers c !! 0%nat = Some w) by by rewrite Hws.
  assert (Hrc : WorkerPool.resultClosed (WorkerPool.pool c) = false).
  { pose proof (WorkerPool.inv_watch _ _ _ _ Hinv) as Hw.
    destruct (WorkerPool.watch c); [done|by destruct Hw|]. destruct Hw as [_ Hex].
    rewrite Hws in Hex. simpl in Hex. destruct w; try done. destruct Hnex. by left. }
  destruct (WorkerPool.resultCh (WorkerPool.pool c)) as [|r rest] eqn:Hres.
  2: { eexists. eapply (pool_work _ WorkerPool.AConsume); [done..|]. simpl. by rewrite Hres. }
  destruct w as [|t|r|]; [| | |destruct Hnex; by left].
  - destruct (WorkerPool.taskCh (WorkerPool.pool c)) as [|t rest] eqn:Ht.
    + eexists. split.
      * eapply (page_handed _ _ _ _ _ 0). simpl. by rewrite Hi, H0, Ht, Hcl.
      * intros [=].
    + eexists. eapply (pool_work _ (WorkerPool.AReceive 0)); [done..|]. simpl. by rewrite H0, Ht.
  - eexists. eapply (pool_work _ (WorkerPool.AProcess 0 (Process get t).1 (Process get t).2)); [done..| |].
    + exists t. split; [done|]. exists get. split; [done|]. by destruct (Process get t).
    + simpl. by rewrite H0.
  - eexists. eapply (pool_work _ (WorkerPool.ASendHandoff 0)); [done..|]. simpl.
    by rewrite H0, Hres, Hrc.
Qed.

Lemma page_progress all p :
  (∃ get, ∀ key, may_get key (get key)) → page_inv all p →
  (∃ err c, p = (Returned err, c) ∧ WorkerPool.drained c) ∨ ∃ p', page_work p p'.
Proof.
  intros Hget Hpi. destruct p as [[todo|iss todo|err|err] c].
  - right. destruct todo as [|iss todo].
    { eexists. split; [eapply page_submitted|intros [=]]. }
    destruct (WorkerPool.Submit (issue_task projectID iss) c) as [msg|c'] eqn:Hs.
    + eexists. split; [by eapply page_submit_stopped|intros [=]].
    + eexists. split; [by eapply page_submit|intros [=]].
  - right. by eapply submit_progress.
  - destruct Hpi as (Hinv & _ & _ & Ho). cbn [fst snd] in *. right.
    pose proof (WorkerPool.inv_once _ _ _ _ Hinv) as Hcl.
    assert (Hne : ∀ c' : pool_config, WorkerPool.once (WorkerPool.pool c') = WorkerPool.StopStored →
      WorkerPool.once (WorkerPool.pool c) = WorkerPool.NotStopped →
      (Stopping err, c') ≠ (Stopping err, cancel c)).
    { intros c' H1 H2 [= He]. rewrite He in H1. simpl in H1. congruence. }
    destruct (WorkerPool.once (WorkerPool.pool c)) eqn:Honce; [| |done].
    + eexists. split; [eapply page_stop_store; simpl; by rewrite Honce|by apply Hne].
    + destruct Hcl as [Hcl _].
      eexists. split; [eapply page_stop_close; simpl; by rewrite Honce, Hcl|intros [=]].
  - destruct Hpi as (Hinv & _ & [Hi _] & Ho). cbn [fst snd] in *.
    destruct Hget as [get Hget].
    destruct (WorkerPool.progress returns workerCount (Z.to_nat queueSize) c) as [Hd|[c' (a & Ha & Hal & H)]];
      [|done|by left| |].
    + intros t. exists (Process get t).1, (Process get t).2. exists get.
      split; [done|]. by destruct (Process get t).
    + left. by exists err, c.
    + right. exists (Returned err, c'). apply (pool_work _ a); try done.
      destruct a; try done; simpl in H; rewrite ?Hi, ?Ho in H; done.
Qed.

(** *** What is received when the context may have been cancelled *)

(** The results delivered belong to some of the page's issues, each once. *)
Lemma delivered_typed all c :
  WorkerPool.inv returns workerCount (Z.to_nat queueSize) c →
  WorkerPool.accepted c = tasks all →
  ∃ got outs, got ⊆+ all ∧
    Forall2 (λ iss out, ∃ get, (∀ key, may_get key (get key)) ∧
               Process get (issue_task projectID iss) = out) got outs ∧
    omap result_item (WorkerPool.delivered c) ≡ₚ omap outcome_item outs ∧
    Forall typed (WorkerPool.delivered c).
Proof.
  intros Hinv Hacc. destruct (WorkerPool.inv_conserved _ _ _ _ Hinv) as (ps & Ha & Hp & Hall & _).
  set (dl := WorkerPool.delivered c) in *.
  assert (Hd : ∃ rest, dl ++ rest ≡ₚ ps.*2).
  { exists ((WorkerPool.workers c ≫= WorkerPool.results_of)
            ++ WorkerPool.resultCh (WorkerPool.pool c) ++ WorkerPool.dropped c).
    etransitivity; [|exact Hp]. unfold WorkerPool.produced. fold dl. solve_Permutation. }
  destruct Hd as [rest Hd].
  destruct (Permutation_map_inv snd ps Hd) as (qs & Hqs & Hps).
  assert (Hsplit : ∃ q1 q2, qs = q1 ++ q2 ∧ dl = q1.*2).
  { exists (take (length dl) qs), (drop (length dl) qs). split; [by rewrite take_drop|].
    rewrite fmap_take. change (qs.*2) with (map snd qs). rewrite <- Hqs. by rewrite take_app_length. }
  destruct Hsplit as (q1 & q2 & -> & Hdl).
  assert (Hts : tasks all ≡ₚ q1.*1 ++ (q2.*1 ++ WorkerPool.pending c)).
  { rewrite <- Hacc, Ha, Hps, fmap_app. solve_Permutation. }
  destruct (Permutation_map_inv (issue_task projectID) all (Permutation_sym Hts)) as (all' & He & Hall').
  exists (take (length q1) all').
  assert (Htk : tasks (take (length q1) all') = q1.*1).
  { rewrite fmap_take. change (tasks all') with (map (issue_task projectID) all').
    rewrite <- He. rewrite take_app_length'; [done|by rewrite length_fmap]. }
  destruct (align_results (take (length q1) all') q1) as (outs & Hf & Ho & Ht).
  { by rewrite Htk. }
  { rewrite Hps in Hall. by apply Forall_app in Hall as [? _]. }
  exists outs. rewrite Hdl. split_and!; [|done..].
  rewrite Hall'. apply sublist_submseteq, sublist_take.
Qed.

(** The outcomes of a page: its items, or a submission refused. *)
Lemma fetchPageIssues_outcomes pageIssues cancelled r :
  fetchPageIssues may_get ctx_error workerCount queueSize projectID pageIssues cancelled r →
  match r with
  | Ok items => ∃ got outs, got ⊆+ pageIssues ∧
      Forall2 (λ iss out, ∃ get, (∀ key, may_get key (get key)) ∧
                 Process get (issue_task projectID iss) = out) got outs ∧
      items ≡ₚ omap outcome_item outs
  | Err e => cancelled = true ∧ ∃ cause, refused pageIssues cause ∧ e = wrap "fetch page" cause
  end.
Proof.
  intros (wp & err & c & Hnew & Hrun & Hdr & Hctx & ->).
  pose proof (page_steps_inv pageIssues _ _ Hrun (page_start pageIssues wp Hnew)) as Hend.
  destruct Hend as (Hinv & _ & [[_ Hsub] _]). simpl in *. destruct err as [e|]; simpl.
  - destruct Hsub as [Hc Href]. split; [congruence|]. by exists e.
  - destruct (delivered_typed pageIssues c Hinv Hsub) as (got & outs & Hg & Hf & Ho & Ht).
    rewrite collect_typed by done. simpl. by exists got, outs.
Qed.

(** Every task the pool has accepted is that of an issue of the page. *)
Lemma page_accepted all p p' :
  page_step may_get ctx_error projectID p p' → page_inv all p →
  WorkerPool.accepted p.2 ⊆ tasks all → WorkerPool.accepted p'.2 ⊆ tasks all.
Proof.
  intros Hstep Hinv Hacc. pose proof (page_step_inv all p p' Hstep Hinv) as (_ & _ & Hsub).
  assert (Hin : ∀ todo acc, acc ++ tasks todo = tasks all → acc ⊆ tasks all)
    by (intros todo acc <-; apply list_subseteq_app_l; reflexivity).
  destruct Hstep as [iss todo c c' H|iss todo c msg H|iss todo c c' H|iss todo i c c' H
    |iss todo c c' H|iss todo c c' H|c|err c c' H|err c c' H|sub a c c' Ha Hal H];
    cbn [fst snd submitted] in *; try done;
    try (destruct Hsub as (_ & _ & Hsub); by eapply Hin, Hsub);
    try (by destruct (pool_side_frame a c c' Ha H) as [-> _]).
  all: simpl in H; unfold WorkerPool.Stop in H; repeat (case_match; simplify_eq/=); try done.
  all: apply bind_Some in H as (t & _ & H); 
    repeat (case_match; simplify_eq/=); by simplify_eq/=.
Qed.

Lemma page_steps_accepted all p p' :
  rtc (page_step may_get ctx_error projectID) p p' → page_inv all p →
  WorkerPool.accepted p.2 ⊆ tasks all → WorkerPool.accepted p'.2 ⊆ tasks all.
Proof.
  induction 1 as [p|p1 p2 p3 Hs _ IH]; intros Hinv Hacc; [done|].
  apply IH; [by eapply page_step_inv|by eapply page_accepted].
Qed.

(** Every result delivered so far is that of an issue of the page. *)
Lemma delivered_processed pageIssues wp p res :
  WorkerPool.New workerCount queueSize = Some wp →
  rtc (page_step may_get ctx_error projectID) (Looping pageIssues, WorkerPool.Run wp) p →
  res ∈ WorkerPool.delivered p.2 →
  ∃ iss get, iss ∈ pageIssues ∧ (∀ key, may_get key (get key)) ∧
    processed get iss (WorkerPool.Result res, WorkerPool.Err res).
Proof.
  intros Hnew Hr Hin. pose proof (page_start pageIssues wp Hnew) as Hst.
  destruct (page_steps_inv pageIssues _ _ Hr Hst) as (Hinv & _).
  assert (Hacc : WorkerPool.accepted p.2 ⊆ tasks pageIssues)
    by (eapply page_steps_accepted; [exact Hr|exact Hst|apply list_subseteq_nil]).
  destruct (WorkerPool.inv_conserved _ _ _ _ Hinv) as (ps & Ha & Hp & Hall & _).
  assert (Hps : res ∈ ps.*2).
  { rewrite <- Hp. unfold WorkerPool.produced. rewrite !elem_of_app. tauto. }
  apply list_elem_of_fmap in Hps as ([t r'] & -> & Hps).
  rewrite Forall_forall in Hall. destruct (Hall _ Hps) as [_ (get & Hget & Hpr)].
  assert (Ht : t ∈ tasks pageIssues).
  { apply Hacc. rewrite Ha. apply elem_of_app. right. apply list_elem_of_fmap. by exists (t, r'). }
  apply list_elem_of_fmap in Ht as (iss & -> & Hiss). exists iss, get. split; [done|].
  split; [done|]. simpl in *. rewrite <- Hpr. apply Process_processed.
Qed.

(** C6. A page fetched without cancellation is complete: whatever the schedule of
    the submitting goroutine, the workers and the receiver, [fetchPageIssues]
    returns no error, and its items are, up to order, exactly the successes of
    processing each issue of the page once; an issue that fails is skipped. *)
Theorem fetchPageIssues_complete pageIssues r :
  fetchPageIssues may_get ctx_error workerCount queueSize projectID pageIssues false r →
  ∃ outs items,
    Forall2 (λ iss out, ∃ get, (∀ key, may_get key (get key)) ∧
               Process get (issue_task projectID iss) = out) pageIssues outs ∧
    r = Ok items ∧ items ≡ₚ omap outcome_item outs.
Proof. apply fetchPageIssues_items. Qed.

(** C7. A page always ends.  With a queue size that [make] accepts, and
    if [GetIssue] returns, every schedule of the goroutines is finite whether or
    not the context is cancelled on the way (at most [page_measure] steps of
    theirs, which is [7 * n + 5] and one per worker at the start of a page of [n]
    issues), and it can come to rest only when both goroutines have returned, the
    results closed and drained: that is a run of [fetchPageIssues]. *)
Theorem fetchPageIssues_returns pageIssues wp p :
  (∃ get, ∀ key, may_get key (get key)) → WorkerPool.New workerCount queueSize = Some wp →
  rtc (page_step may_get ctx_error projectID) (Looping pageIssues, WorkerPool.Run wp) p →
  page_measure (Looping pageIssues, WorkerPool.Run wp)
    = (7 * length pageIssues + 5 + Z.to_nat workerCount)%nat ∧
  (∀ k p', nsteps page_work k p p' → (k ≤ page_measure p)%nat) ∧
  (∀ p', rtc page_work p p' → (∀ p'', ¬ page_work p' p'') →
     ∃ err c, p' = (Returned err, c) ∧
       fetchPageIssues may_get ctx_error workerCount queueSize projectID pageIssues
         (WorkerPool.ctxDone c) (page_result err c)).
Proof.
  intros Hget Hnew Hr.
  pose proof (page_steps_inv pageIssues _ _ Hr (page_start pageIssues wp Hnew)) as Hp.
  split_and!.
  - by apply page_measure_start.
  - intros k p' Hk. pose proof (page_work_bounded _ _ _ _ Hp Hk). lia.
  - intros p' Hw Hstuck.
    assert (Hr' : rtc (page_step may_get ctx_error projectID) p p')
      by (eapply rtc_subrel; [|exact Hw]; by intros ? ? [? _]).
    destruct (page_progress _ _ Hget (page_steps_inv _ _ _ Hr' Hp)) as [(err & c & -> & Hd)|[p'' Hs]];
      [|by destruct (Hstuck p'')].
    exists err, c. split; [done|]. exists wp, err, c. split_and!; try done.
    by etransitivity.
Qed.

(** C8. The dynamic types of the pool's values are never wrong, whether or not the
    context is cancelled.  In every configuration a page can reach, each result
    received is that of an issue of the page, whose payload was of the expected
    type: the item of the issue read, or the error of reading it or of decoding
    its fields.  And no item received is of an unexpected type: an error of the
    page is always that of a submission refused because of the cancellation,
    naming the issue; without an error, the items are successes of some of the
    page's issues, each at most once. *)
Theorem fetchPageIssues_typed pageIssues wp :
  WorkerPool.New workerCount queueSize = Some wp →
  (∀ p res, rtc (page_step may_get ctx_error projectID) (Looping pageIssues, WorkerPool.Run wp) p →
     res ∈ WorkerPool.delivered p.2 →
     ∃ iss get, iss ∈ pageIssues ∧ (∀ key, may_get key (get key)) ∧
       processed get iss (WorkerPool.Result res, WorkerPool.Err res)) ∧
  (∀ cancelled r,
     fetchPageIssues may_get ctx_error workerCount queueSize projectID pageIssues cancelled r →
     match r with
     | Ok items => ∃ got outs, got ⊆+ pageIssues ∧
         Forall2 (λ iss out, ∃ get, (∀ key, may_get key (get key)) ∧
                    Process get (issue_task projectID iss) = out ∧ processed get iss out) got outs ∧
         items ≡ₚ omap outcome_item outs
     | Err e => cancelled = true ∧ ∃ iss cause, iss ∈ pageIssues ∧
         (cause = ESentinel errPoolStopped ∨ cause = ctx_error) ∧
         e = wrap "fetch page" (wrap ("submit " ++ IssueKey iss) cause)
     end).
Proof.
  intros Hnew. split; [intros p res; by eapply delivered_processed|].
  intros cancelled r Hr. apply fetchPageIssues_outcomes in Hr. destruct r as [items|e].
  - destruct Hr as (got & outs & Hg & Hf & Hi). exists got, outs. split_and!; [done| |done].
    eapply Forall2_impl; [exact Hf|]. intros iss out (get & Hget & <-). exists get.
    split_and!; [done|done|apply Process_processed].
  - destruct Hr as [Hc (cause & (iss & cause' & Hin & Hor & ->) & ->)]. split; [done|].
    by exists iss, cause'.
Qed.
End Page.

(** *** A witness: one issue, one worker *)

Definition light_issue : Issue := mkIssue "A-1" "" "1" (Some (JObj [])) None.
Definition light_get (key : string) (r : res error Issue) : Prop := r = Ok light_issue.
Definition light_item : processedIssue :=
  mkProcessed "A-1" light_issue zero_IssueFields 7 [].

Definition light_pool : WorkerPool.WorkerPool any_payload any_result error :=
  WorkerPool.mkPool 1 1 [] false [] false (WorkerPool.mkStats 0 0) WorkerPool.NotStopped false.

Ltac pool_action a :=
  eapply rtc_l;
    [eapply (page_pool _ _ _ _ a); [reflexivity|try exact I|cbv; reflexivity]|].

(** A run of the page [light_issue] in which [get] answers. *)
Lemma light_run may_get get item :
  (∀ key, may_get key (get key)) →
  Process get (issue_task 7 light_issue) = (Some (Is item), None) →
  fetchPageIssues may_get (ESentinel context_Canceled) 1 1 7 [light_issue] false (Ok [item]).
Proof.
  intros Hget Hproc. exists light_pool, None. eexists. split; [reflexivity|]. split; [|split].
  - eapply rtc_l; [eapply page_submit; cbv; reflexivity|].
    eapply rtc_l; [eapply page_sent; cbv; reflexivity|].
    eapply rtc_l; [eapply page_submitted|].
    eapply rtc_l; [eapply page_stop_store; cbv; reflexivity|].
    eapply rtc_l; [eapply page_stop_close; cbv; reflexivity|].
    pool_action (WorkerPool.AReceive (P := any_payload) (R := any_result) (E := error) 0).
    eapply rtc_l.
    { eapply (page_pool _ _ _ _ (WorkerPool.AProcess 0 (Some (Is item)) None));
        [reflexivity| |cbv; reflexivity].
      eexists. split; [cbv; reflexivity|]. exists get. split; [exact Hget|exact Hproc]. }
    pool_action (WorkerPool.ASend (P := any_payload) (R := any_result) (E := error) 0).
    pool_action (WorkerPool.AReceiveClosed (P := any_payload) (R := any_result) (E := error) 0).
    pool_action (WorkerPool.AWatchWait (P := any_payload) (R := any_result) (E := error)).
    pool_action (WorkerPool.AWatchClose (P := any_payload) (R := any_result) (E := error)).
    pool_action (WorkerPool.AConsume (P := any_payload) (R := any_result) (E := error)).
    apply rtc_refl.
  - split; reflexivity.
  - split; reflexivity.
Qed.

Lemma fetchPageIssues_complete_witness :
  ∃ r, fetchPageIssues light_get (ESentinel context_Canceled) 1 1 7 [light_issue] false r ∧
    ∃ items, r = Ok items.
Proof.
  assert (Hr : fetchPageIssues light_get (ESentinel context_Canceled) 1 1 7 [light_issue] false
                 (Ok [light_item])).
  { apply (light_run light_get (λ _, Ok light_issue)); [intros key; reflexivity|].
    vm_compute. reflexivity. }
  exists (Ok [light_item]). split; [exact Hr|].
  destruct (fetchPageIssues_complete light_get (ESentinel context_Canceled) 1 1 7 eq_refl
    [light_issue] _ Hr) as (outs & items & _ & He & _).
  exists items. exact He.
Defined.

Lemma fetchPageIssues_returns_witness :
  page_measure (Looping [light_issue], WorkerPool.Run light_pool) = 13%nat ∧
  ¬ (∃ p, nsteps (page_work light_get (ESentinel context_Canceled) 7) 14
            (Looping [light_issue], WorkerPool.Run light_pool) p).
Proof.
  destruct (fetchPageIssues_returns light_get (ESentinel context_Canceled) 1 1 7 eq_refl
    [light_issue] light_pool (Looping [light_issue], WorkerPool.Run light_pool)
    (ex_intro _ (λ _, Ok light_issue) (λ _, eq_refl)) eq_refl (rtc_refl _ _)) as (Hm & Hb & _).
  split; [exact Hm|]. intros [p Hp]. apply Hb in Hp. rewrite Hm in Hp. simpl in Hp. lia.
Defined.

Lemma fetchPageIssues_typed_witness :
  ∃ items, fetchPageIssues light_get (ESentinel context_Canceled) 1 1 7 [light_issue] false
             (Ok items) ∧
    ∃ got, got ⊆+ [light_issue] ∧ (length items ≤ length got)%nat.
Proof.
  assert (Hr : fetchPageIssues light_get (ESentinel context_Canceled) 1 1 7 [light_issue] false
                 (Ok [light_item])).
  { apply (light_run light_get (λ _, Ok light_issue)); [intros key; reflexivity|].
    vm_compute. reflexivity. }
  exists [light_item]. split; [exact Hr|].
  destruct (proj2 (fetchPageIssues_typed light_get (ESentinel context_Canceled) 1 1 7 eq_refl
    [light_issue] light_pool eq_refl) false _ Hr) as (got & outs & Hg & Hf & Hp).
  exists got. split; [exact Hg|]. rewrite Hp. apply Forall2_length in Hf. rewrite Hf.
  apply length_omap_le.
Defined.
