(* ===== verification/SyncPages.v ===== *)
(** * Fetching the pages of a project

    Theorems on the pagination loop [runSync]. *)

From S2P Require Import Prelude GoLang GoTime Errors Json JiraTypes RawModels Mapper Repository.
From S2P Require Metrics Manager WorkerPool.
From S2P Require Import Sync SyncData PageFetch.
Local Open Scope Z_scope.
#[local] Set Warnings "-clear-no-such-hyp".

(** ** The pages of a project *)

Section Pagination.
Context (r : PostgresRepository) (syncID projectKey : string) (projectID : Z) (env : nat → round).

Local Abbreviation jql := ("project=" ++ projectKey)%string.

(** The pages of a sync, one after the other, up to the first that fails. *)
Fixpoint sync_pages (n : nat) (start : Z) (pages : list (list Issue)) : M World (option error) :=
  match pages with
  | [] => ret None
  | page :: pages' =>
    bind (processPage r syncID projectID (env n) page) (λ err,
      match err with
      | Some e =>
        ret (Some (wrap ("process page (startAt=" ++ FormatInt start ++ ")") e))
      | None => sync_pages (S n) (start + Z.of_nat (length page)) pages'
      end)
  end.

Lemma sync_pages_app n start pre pages w :
  sync_pages n start (pre ++ pages) w =
    match sync_pages n start pre w with
    | (Some e, w') => (Some e, w')
    | (None, w') =>
      sync_pages (n + length pre) (start + Z.of_nat (length (concat pre))) pages w'
    end.
Proof.
  revert n start w. induction pre as [|page pre IH]; intros n start w.
  { simpl. by rewrite Nat.add_0_r, Z.add_0_r. }
  simpl. unfold bind. destruct (processPage _ _ _ _ page w) as [[e|] w']; [done|].
  rewrite IH, length_app, Nat2Z.inj_add, Z.add_assoc. by rewrite Nat.add_succ_r.
Qed.

Definition set_total (total : Z) (w : World) : World :=
  mkWorld (w_db w) (Manager.SetTotal syncID (uint64 total) (w_mgr w)) (w_mtr w).

(** The offsets at which a sync searches. *)
Definition searched (all : list Issue) (start : nat) : Prop :=
  start = 0%nat ∨ (start < length all)%nat.

(** A search from the offset [start] that is answered: with some of the issues
    [all] from there on, at least one if there is any, and their total number. *)
Definition answered (all : list Issue) (start : nat) (resp : SearchResponse) : Prop :=
  ∃ k, 0 < k ∧ Issues resp = take (Z.to_nat k) (drop start all) ∧
    SearchTotal resp = Z.of_nat (length all).

(** A server that holds the issues [all]: a search may fail, and one that does
    not is answered. *)
Definition answers (all : list Issue) : Prop :=
  ∀ n start resp, searched all start →
    round_search (env n) jql (Z.of_nat start) defaultPageSize = Ok resp →
    answered all start resp.

(** A server that answers every search, while the context stays alive. *)
Definition serves (all : list Issue) : Prop :=
  ∀ n, round_ctx (env n) = None ∧
  ∀ start : nat, searched all start → ∃ k resp, 0 < k ∧
    round_search (env n) jql (Z.of_nat start) defaultPageSize = Ok resp ∧
    Issues resp = take (Z.to_nat k) (drop start all) ∧
    SearchTotal resp = Z.of_nat (length all).

(** Why the loop stops before its [n]-th search, from the offset [start], or at
    it: nothing is left, the context is done, or the search fails. *)
Inductive stops (n start : nat) (rest : list Issue) : option error → Prop :=
  | stops_done : rest = [] → stops n start rest None
  | stops_cancelled e :
      round_ctx (env n) = Some e →
      stops n start rest (Some (wrap "sync context cancelled" e))
  | stops_failed e :
      round_ctx (env n) = None →
      round_search (env n) jql (Z.of_nat start) defaultPageSize = Err e →
      stops n start rest
        (Some (wrap ("search issues (startAt=" ++ FormatInt (Z.of_nat start) ++ ")") e)).

(** The [n]-th search is made and answered. *)
Definition opened (n start : nat) : bool :=
  match round_ctx (env n), round_search (env n) jql (Z.of_nat start) defaultPageSize with
  | None, Ok _ => true
  | _, _ => false
  end.

(** The first error, of the pages or of what stops the loop after them. *)
Definition first_error (reason : option error) (out : option error * World) : option error * World :=
  (match out.1 with Some e => Some e | None => reason end, out.2).

Lemma serves_answers all : serves all → answers all.
Proof.
  intros Hs n start resp Hst Hr. destruct (Hs n) as [_ Hsearch].
  destruct (Hsearch start Hst) as (k & resp' & Hk & Hr' & Hi & Ht).
  rewrite Hr in Hr'. injection Hr' as <-. by exists k.
Qed.

Lemma serves_opened all n start : serves all → searched all start → opened n start = true.
Proof.
  intros Hs Hst. destruct (Hs n) as [Hctx Hsearch].
  destruct (Hsearch start Hst) as (k & resp & _ & Hr & _). unfold opened. by rewrite Hctx, Hr.
Qed.

Lemma serves_stops all n start rest reason :
  serves all → searched all start → stops n start rest reason → reason = None ∧ rest = [].
Proof.
  intros Hs Hst Hstop. pose proof (serves_opened all n start Hs Hst) as Ho. unfold opened in Ho.
  destruct Hstop as [->|e He|e Hc He]; [done| |]; [by rewrite He in Ho|by rewrite Hc, He in Ho].
Qed.

Lemma process_nonempty_cons rd page :
  page ≠ [] →
  process_nonempty r syncID projectID rd page = processPage r syncID projectID rd page.
Proof. by destruct page. Qed.

(** What an answered search brings. *)
Lemma answered_page all start resp :
  answered all start resp → searched all start →
  (Issues resp = [] ↔ start = length all) ∧
  Issues resp ++ drop (start + length (Issues resp)) all = drop start all ∧
  (start + length (Issues resp) ≤ length all)%nat.
Proof.
  intros (k & Hk & -> & _) Hst.
  assert (Hle : (start ≤ length all)%nat) by (unfold searched in Hst; lia).
  assert (Hlen : length (take (Z.to_nat k) (drop start all)) = Nat.min (Z.to_nat k) (length all - start))
    by (by rewrite length_take, length_drop).
  split_and!.
  - rewrite <- length_zero_iff_nil, Hlen. lia.
  - rewrite Hlen. rewrite <- (take_drop (Z.to_nat k) (drop start all)) at 2. f_equal.
    rewrite drop_drop. destruct (decide (Z.to_nat k ≤ length all - start)%nat).
    + f_equal. lia.
    + rewrite !drop_ge; [done|lia|lia].
  - rewrite Hlen. lia.
Qed.

(** An iteration whose search is answered. *)
Lemma iter_answered all n start resp set w :
  answered all start resp → searched all start → Z.of_nat (length all) < 2 ^ 62 →
  round_ctx (env n) = None →
  round_search (env n) jql (Z.of_nat start) defaultPageSize = Ok resp →
  runSync_iter r syncID projectKey projectID (env n)
    {| startAt := Z.of_nat start; totalSet := set |} w =
    let page := Issues resp in
    let '(err, w2) := process_nonempty r syncID projectID (env n) page
                        (if set then w else set_total (Z.of_nat (length all)) w) in
    (match err with
     | Some e =>
       inr (Some (wrap ("process page (startAt=" ++ FormatInt (Z.of_nat start) ++ ")") e))
     | None =>
       if decide (start + length page = length all)%nat then inr None
       else inl {| startAt := Z.of_nat (start + length page); totalSet := true |}
     end, w2).
Proof.
  intros Ha Hst Hbig Hctx Hr. destruct (answered_page _ _ _ Ha Hst) as (_ & _ & Hle).
  destruct Ha as (_ & _ & _ & Htot). unfold runSync_iter. rewrite Hctx. cbn [startAt].
  rewrite Hr, Htot. unfold bind. set (w1 := if set then w else _).
  assert (Hw1 : (if set then ret tt else manager (Manager.SetTotal syncID
      (uint64 (Z.of_nat (length all))))) w = (tt, w1)) by (unfold w1; by destruct set).
  cbn [totalSet]. rewrite Hw1. cbv zeta.
  destruct (process_nonempty r syncID projectID (env n) _ w1) as [[e|] w2]; [done|].
  rewrite int64_id by (unfold in_int64; lia). unfold ret.
  rewrite <- Nat2Z.inj_add. case_decide as Hd.
  - by rewrite (proj2 (Z.leb_le _ _)) by lia.
  - by rewrite (proj2 (Z.leb_gt _ _)) by lia.
Qed.

(** An iteration that goes on is at an offset at which a sync searches. *)
Lemma iter_offset all n start set w l' w' :
  answers all → searched all start → Z.of_nat (length all) < 2 ^ 62 →
  runSync_iter r syncID projectKey projectID (env n)
    {| startAt := Z.of_nat start; totalSet := set |} w = (inl l', w') →
  ∃ start', searched all start' ∧ l' = {| startAt := Z.of_nat start'; totalSet := true |}.
Proof.
  intros Ha Hst Hbig Hit. destruct (round_ctx (env n)) as [e|] eqn:Hctx;
    [unfold runSync_iter in Hit; by rewrite Hctx in Hit|].
  destruct (round_search (env n) jql (Z.of_nat start) defaultPageSize) as [resp|e] eqn:Hr;
    [|unfold runSync_iter in Hit; rewrite Hctx in Hit; cbn [startAt] in Hit; by rewrite Hr in Hit].
  pose proof (Ha n start resp Hst Hr) as Hans.
  destruct (answered_page _ _ _ Hans Hst) as (_ & _ & Hle).
  rewrite (iter_answered all n start resp set w Hans Hst Hbig Hctx Hr) in Hit. cbv zeta in Hit.
  destruct (process_nonempty _ _ _ _ _ _) as [[e|] w2]; [done|].
  case_decide as Hd; [done|]. injection Hit as <- _. eexists. split; [|done]. right. lia.
Qed.

(** The loop from an offset on: the pages it processes and why it stops. *)
Lemma runSync_until all fuel n m set :
  answers all → searched all m → Z.of_nat (length all) < 2 ^ 62 →
  (Nat.max 1 (length all - m) ≤ fuel)%nat →
  ∃ pages rest reason, concat pages ++ rest = drop m all ∧ Forall (λ p, p ≠ []) pages ∧
    stops (n + length pages) (m + length (concat pages)) rest reason ∧
    (reason = None ∨ searched all (m + length (concat pages))) ∧
    (∀ i, (i < length pages)%nat → round_ctx (env (n + i)%nat) = None) ∧
    ∀ w, runSync fuel r syncID projectKey projectID env n
           {| startAt := Z.of_nat m; totalSet := set |} w
         = Some (first_error reason (sync_pages n (Z.of_nat m) pages
             (if set || negb (opened n m) then w else set_total (Z.of_nat (length all)) w))).
Proof.
  intros Ha. revert n m set. induction fuel as [|fuel IH]; intros n m set Hm Hbig Hf; [lia|].
  cbn [runSync]. destruct (round_ctx (env n)) as [e|] eqn:Hctx.
  { exists [], (drop m all), (Some (wrap "sync context cancelled" e)).
    rewrite !Nat.add_0_r. split_and!; [done|done|by constructor|by right|simpl; lia|].
    intros w. unfold runSync_iter, opened. rewrite Hctx, orb_true_r. done. }
  destruct (round_search (env n) jql (Z.of_nat m) defaultPageSize) as [resp|e] eqn:Hr.
  2: { eexists [], (drop m all), _. rewrite !Nat.add_0_r.
       split_and!; [done|done|by apply stops_failed|by right|simpl; lia|].
       intros w. unfold runSync_iter, opened. rewrite Hctx. cbn [startAt].
       rewrite Hr, orb_true_r. done. }
  pose proof (Ha n m resp Hm Hr) as Hans.
  destruct (answered_page _ _ _ Hans Hm) as (Hp1 & Hp2 & Hp3).
  assert (Hop : opened n m = true) by (unfold opened; by rewrite Hctx, Hr).
  pose proof (λ w, iter_answered all n m resp set w Hans Hm Hbig Hctx Hr) as Hiter. cbv zeta in Hiter.
  rewrite Hop, orb_false_r. set (page := Issues resp) in *.
  destruct (decide (page = [])) as [He|Hne].
  { exists [], [], None. pose proof (proj1 Hp1 He) as Hd. rewrite He in *.
    split_and!; [by rewrite Hd, drop_ge|done|by constructor|by left|simpl; lia|]. intros w. rewrite Hiter.
    simpl. rewrite decide_True by lia. done. }
  assert (Hpos : (0 < length page)%nat) by (destruct page; [done|simpl; lia]).
  destruct (decide (m + length page = length all)%nat) as [Hd|Hd].
  - exists [page], [], None. simpl. rewrite !app_nil_r. rewrite drop_ge, app_nil_r in Hp2 by lia.
    split_and!; [done|by repeat constructor|by constructor|by left| |].
    { intros [|i] Hi; [by rewrite Nat.add_0_r|lia]. }
    intros w. rewrite Hiter.
    rewrite process_nonempty_cons by done. unfold bind.
    destruct (processPage r syncID projectID (env n) page _) as [[e|] w2]; done.
  - destruct (IH (S n) (m + length page)%nat true) as (pages & rest & reason & Hc & Hall & Hstop & Hso & Hctxs & Hrun);
      [right; lia|done|lia|].
    exists (page :: pages), rest, reason. simpl. rewrite <- app_assoc, Hc, length_app.
    replace (n + S (length pages))%nat with (S n + length pages)%nat by lia.
    rewrite Nat.add_assoc. split_and!; [done|by constructor|done|done| |].
    { intros [|i] Hi; [by rewrite Nat.add_0_r|]. rewrite Nat.add_succ_r. apply Hctxs. simpl in Hi. lia. }
    intros w. rewrite Hiter, process_nonempty_cons by done. unfold bind.
    destruct (processPage r syncID projectID (env n) page _) as [[e|] w2]; [done|].
    rewrite Hrun. simpl. by rewrite Nat2Z.inj_add.
Qed.

Lemma runSync_all all fuel :
  serves all → Z.of_nat (length all) < 2 ^ 62 → (Nat.max 1 (length all) ≤ fuel)%nat →
  ∃ pages, concat pages = all ∧ Forall (λ p, p ≠ []) pages ∧
    ∀ w, runSync fuel r syncID projectKey projectID env 0 loop_start w
         = Some (sync_pages 0 0 pages (set_total (Z.of_nat (length all)) w)).
Proof.
  intros Hs Hbig Hf.
  destruct (runSync_until all fuel 0 0 false) as (pages & rest & reason & Hc & Hall & Hstop & Hso & _ & Hrun);
    [by apply serves_answers|by left|done|lia|].
  assert (reason = None ∧ rest = []) as [-> ->].
  { destruct Hso as [->|Hso]; [by inversion Hstop|by eapply serves_stops]. }
  exists pages. rewrite app_nil_r, drop_0 in Hc. split_and!; [done..|]. intros w.
  unfold loop_start. change 0 with (Z.of_nat 0). rewrite Hrun.
  rewrite (serves_opened all) by (done || by left). simpl. unfold first_error.
  by destruct (sync_pages _ _ _ _) as [[e|] w'].
Qed.

(** C12. Pagination is exact and terminates: against a server that answers every
    search with at least one of the remaining issues and the true total, the sync
    returns after at most one search per issue (one if there are none); the pages
    it processes are non-empty and together are exactly the project's issues, in
    order; it stops at the first page that fails, with that page's error; and the
    total of the job is set once, from the first answer. *)
Theorem runSync_exact all fuel :
  serves all → Z.of_nat (length all) < 2 ^ 62 → (Nat.max 1 (length all) ≤ fuel)%nat →
  ∃ pages, concat pages = all ∧ Forall (λ p, p ≠ []) pages ∧
    ∀ w, runSync fuel r syncID projectKey projectID env 0 loop_start w
         = Some (sync_pages 0 0 pages (set_total (Z.of_nat (length all)) w)).
Proof. apply runSync_all. Qed.

(** C40. A server that keeps answering with an empty page while the total says
    that there are issues makes the sync search the same page for ever: no fuel
    is enough as long as the context lives. *)
Theorem runSync_stalls total fuel w :
  0 < total →
  (∀ n, round_ctx (env n) = None ∧
        round_search (env n) jql 0 defaultPageSize = Ok (mkSearchResponse [] total 0 50)) →
  runSync fuel r syncID projectKey projectID env 0 loop_start w = None.
Proof.
  intros Ht Henv. unfold loop_start. generalize 0%nat false w. clear w.
  induction fuel as [|fuel IH]; intros n set w; [done|].
  destruct (Henv n) as [Hctx Hs]. simpl. unfold runSync_iter. rewrite Hctx. cbn [startAt].
  rewrite Hs. unfold bind, process_nonempty, manager, modify, ret. simpl.
  change (int64 (0 + Z.of_nat 0)) with 0. rewrite (proj2 (Z.leb_gt total 0)) by done.
  destruct set; apply IH.
Qed.
End Pagination.

(** ** A whole sync *)

Lemma store_items_app l k t : store_items (l ++ k) t = store_items k (store_items l t).
Proof. apply fold_left_app. Qed.

(** The items the pages bring, when every fetch succeeds. *)
Section Items.
Context (items : nat → list Issue → list processedIssue).

Fixpoint fetched (n : nat) (pages : list (list Issue)) : list processedIssue :=
  match pages with [] => [] | page :: pages' => items n page ++ fetched (S n) pages' end.

Lemma sync_pages_ok syncID projectID env pages n start c w :
  (∀ i page, pages !! i = Some page →
     round_fetch (env (n + i)%nat) projectID page = Ok (items (n + i)%nat page)) → quiet c w →
  Forall (λ item, ∃ row, storable (projects c) item row) (fetched n pages) →
  let '(err, w') := sync_pages Repository.New syncID projectID env n start pages w in
  err = None ∧ quiet (store_items (fetched n pages) c) w' ∧
  w_mgr w' = Nat.iter (length (fetched n pages)) (Manager.IncrProcessed syncID) (w_mgr w).
Proof.
  revert n start c w. induction pages as [|page pages IH]; intros n start c w Hfetch Hq Hall.
  { done. }
  simpl in Hall. apply Forall_app in Hall as [Hp Hall]. cbn [sync_pages].
  pose proof (Hfetch 0%nat page eq_refl) as Hpage. rewrite Nat.add_0_r in Hpage.
  unfold bind, processPage. rewrite Hpage, (commitPage_ok syncID (items n page) c w) by done.
  set (w1 := mkWorld _ _ _).
  specialize (IH (S n) (start + Z.of_nat (length page)) (store_items (items n page) c) w1).
  destruct (sync_pages _ _ _ _ _ _ pages w1) as [err w']. destruct IH as (He & Hq' & Hm).
  { intros i p Hi. replace (S n + i)%nat with (n + S i)%nat by lia. by apply Hfetch. }
  { done. }
  { by rewrite store_items_projects. }
  simpl. split_and!; [done| |].
  - by rewrite store_items_app.
  - rewrite Hm, length_app, Nat.add_comm. unfold w1. cbn [w_mgr count_issues].
    by rewrite Nat.iter_add.
Qed.
End Items.

Lemma fetched_bind items_of n pages :
  fetched (λ _ page, page ≫= items_of) n pages = concat pages ≫= items_of.
Proof.
  revert n. induction pages as [|p pages IH]; intros n; [done|].
  simpl. by rewrite IH, bind_app.
Qed.

(** A sync against such a server whose issues are all fetched and acceptable
    to the schema returns without error and commits exactly them: the tables are
    the old ones with every fetched issue stored (authors added, rows inserted or
    replaced, status changes replaced), and each is counted once. *)
Theorem runSync_stores syncID projectKey projectID env items_of all fuel c w :
  serves projectKey env all → Z.of_nat (length all) < 2 ^ 62 →
  (Nat.max 1 (length all) ≤ fuel)%nat →
  (∀ n page, round_fetch (env n) projectID page = Ok (page ≫= items_of)) → quiet c w →
  Forall (λ iss, Forall (λ item, ∃ row, storable (projects c) item row) (items_of iss)) all →
  ∃ w', runSync fuel Repository.New syncID projectKey projectID env 0 loop_start w = Some (None, w') ∧
    quiet (store_items (all ≫= items_of) c) w' ∧
    w_mgr w' = Nat.iter (length (all ≫= items_of)) (Manager.IncrProcessed syncID)
                 (Manager.SetTotal syncID (uint64 (Z.of_nat (length all))) (w_mgr w)).
Proof.
  intros Hs Hbig Hf Hfetch Hq Hall.
  destruct (runSync_all Repository.New syncID projectKey projectID env all fuel Hs Hbig Hf)
    as (pages & Hc & _ & Hrun). rewrite Hrun.
  pose proof (sync_pages_ok (λ _ page, page ≫= items_of) syncID projectID env pages 0 0 c
    (set_total syncID (Z.of_nat (length all)) w)) as Hok.
  rewrite !fetched_bind, !Hc in Hok.
  destruct (sync_pages _ _ _ _ _ _ _ _) as [err w']. destruct Hok as (-> & Hq' & Hm); [auto|done| |].
  - clear -Hall. induction Hall as [|iss all H _ IH]; [constructor|].
    cbn [mbind list_bind]. by apply Forall_app.
  - by exists w'.
Qed.

(** *** Witnesses: a server with one issue per page *)

Definition two_issues : list Issue := [sample_issue; light_issue].

Definition demo_env (n : nat) : round :=
  mkRound None
    (λ _ start _, Ok (mkSearchResponse (take 1 (drop (Z.to_nat start) two_issues)) 2 start 1))
    (λ _ page, Ok (page ≫= λ _, [demo_item])).

Lemma demo_serves : serves "A" demo_env two_issues.
Proof.
  intros n. split; [done|]. intros start _. eexists 1, _. split_and!; [done|reflexivity| |done].
  simpl. by rewrite Nat2Z.id.
Qed.

Lemma runSync_exact_witness :
  ∃ pages, concat pages = two_issues ∧ Forall (λ p, p ≠ []) pages ∧
    runSync 2 Repository.New "job" "A" 7 demo_env 0 loop_start demo_world
    = Some (sync_pages Repository.New "job" 7 demo_env 0 0 pages (set_total "job" 2 demo_world)).
Proof.
  destruct (runSync_exact Repository.New "job" "A" 7 demo_env two_issues 2 demo_serves)
    as (pages & Hc & Hn & Hr); [done|simpl; lia|].
  exists pages. split; [exact Hc|]. split; [exact Hn|apply Hr].
Defined.

Lemma runSync_stalls_witness :
  runSync (Z.to_nat 1000000) Repository.New "job" "A" 7
    (λ _, mkRound None (λ _ _ _, Ok (mkSearchResponse [] 3 0 50)) (λ _ _, Ok [])) 0 loop_start
    demo_world = None.
Proof.
  apply (runSync_stalls Repository.New "job" "A" 7 _ 3); [lia|]. intros n. split; reflexivity.
Defined.

Lemma runSync_stores_witness :
  ∃ w', runSync 2 Repository.New "job" "A" 7 demo_env 0 loop_start demo_world = Some (None, w') ∧
    quiet (store_items [demo_item; demo_item] demo_tables) w'.
Proof.
  destruct (runSync_stores "job" "A" 7 demo_env (λ _, [demo_item]) two_issues 2 demo_tables demo_world
    demo_serves) as (w' & Hr & Hq & _); [done|simpl; lia|done|done| |].
  - assert (Hs : Forall (λ item, ∃ row, storable (projects demo_tables) item row) [demo_item])
      by (constructor; [exists demo_row; exact demo_storable|constructor]).
    constructor; [exact Hs|constructor; [exact Hs|constructor]].
  - exists w'. split; [exact Hr|exact Hq].
Defined.
