(* ===== verification/SyncFlow.v ===== *)
(** * A whole sync, from the HTTP server to the tables

    The components together: the Jira client's calls against a server that may
    fail, the worker pool in any interleaving, cancelled or not, the mapper and
    the transactions.  What a sync leaves in the database is determined by the
    server's documents, by where it ended and by which issues could be fetched. *)

From S2P Require Import Prelude GoLang GoTime Errors Json JiraTypes RawModels Mapper Repository.
From S2P Require Metrics Manager WorkerPool Config JiraClient.
From S2P Require Import Sync SyncData TableOrder PageFetch SyncPages.
Local Open Scope Z_scope.
#[local] Set Warnings "-clear-no-such-hyp".

(** ** Through the worker pool *)

Section Pool.
Context (may_get : string → res error Issue → Prop) (ctx_error : error).
Context (workerCount queueSize projectID : Z) (syncID projectKey : string).
Context (env : nat → round) (cancelled : nat → bool).
Hypothesis workers : 0 < workerCount.

(** What processing an issue may give. *)
Definition possible (iss : Issue) (out : option any_result * option error) : Prop :=
  ∃ get, (∀ key, may_get key (get key)) ∧ Process get (issue_task projectID iss) = out.

(** Every page of the issues [all] is fetched by a run of the pool, cancelled in
    the [n]-th round or not. *)
Definition pooled (all : list Issue) : Prop :=
  ∀ n before page after, all = before ++ page ++ after → page ≠ [] →
    fetchPageIssues may_get ctx_error workerCount queueSize projectID page (cancelled n)
      (round_fetch (env n) projectID page).

(** The items of a page as the pool returned them. *)
Definition pool_items (n : nat) (page : list Issue) : list processedIssue :=
  match round_fetch (env n) projectID page with Ok items => items | Err _ => [] end.

(** The page fetched in the [n]-th round is lost to a cancellation. *)
Definition lost (n : nat) (page : list Issue) (e : error) : Prop :=
  round_fetch (env n) projectID page = Err e ∧ cancelled n = true ∧
  ∃ cause, refused ctx_error page cause ∧ e = wrap "fetch page" cause.

Lemma pooled_page all before page after n :
  pooled all → all = before ++ page ++ after → page ≠ [] →
  (∃ e, lost n page e) ∨
  ∃ got outs, round_fetch (env n) projectID page = Ok (pool_items n page) ∧ got ⊆+ page ∧
    Forall2 possible got outs ∧ pool_items n page ≡ₚ omap outcome_item outs ∧
    (cancelled n = false → got = page).
Proof.
  intros Hp Hall Hne. pose proof (Hp n before page after Hall Hne) as Hr.
  unfold pool_items, lost. destruct (cancelled n) eqn:Hc.
  - apply fetchPageIssues_outcomes in Hr; [|done].
    destruct (round_fetch (env n) projectID page) as [items|e]; [right|left].
    + destruct Hr as (got & outs & Hg & Hf & Hi). by exists got, outs.
    + exists e. by destruct Hr as [_ Hr].
  - right. apply fetchPageIssues_items in Hr as (outs & items & Hf & -> & Hi); [|done].
    by exists page, outs.
Qed.

(** The pages up to the first that is lost. *)
Lemma pooled_pages all before pages after n :
  pooled all → all = before ++ concat pages ++ after → Forall (λ p, p ≠ []) pages →
  ∃ pre post, pages = pre ++ post ∧
    (post = [] ∨ ∃ page post' e, post = page :: post' ∧ lost (n + length pre) page e) ∧
    (∀ i page, pre !! i = Some page →
       round_fetch (env (n + i)%nat) projectID page = Ok (pool_items (n + i)%nat page)) ∧
    ∃ got outs, got ⊆+ concat pre ∧ Forall2 possible got outs ∧
      fetched pool_items n pre ≡ₚ omap outcome_item outs ∧
      ((∀ k, cancelled k = false) → got = concat pre).
Proof.
  intros Hp. revert before n. induction pages as [|page pages IH]; intros before n Hall Hne.
  { exists [], []. split_and!; [done|by left|done|]. exists [], []. by split_and!. }
  apply Forall_cons in Hne as [Hpage Hne]. simpl in Hall. rewrite <- app_assoc in Hall.
  destruct (pooled_page all before page (concat pages ++ after) n Hp Hall Hpage)
    as [[e He]|(got & outs & He & Hg & Hf & Hi & Hc)].
  { exists [], (page :: pages). split_and!; [done| |done|].
    - right. exists page, pages, e. split; [done|]. by rewrite Nat.add_0_r.
    - exists [], []. by split_and!. }
  destruct (IH (before ++ page) (S n)) as (pre & post & -> & Hpost & Hok & got' & outs' & Hg' & Hf' & Hi' & Hc');
    [by rewrite <- app_assoc|done|].
  exists (page :: pre), post. split_and!; [done| | |].
  - simpl. by rewrite Nat.add_succ_r.
  - intros [|i] p Hi0; simplify_eq/=; [by rewrite Nat.add_0_r|].
    rewrite Nat.add_succ_r. by apply (Hok i).
  - exists (got ++ got'), (outs ++ outs'). simpl. split_and!.
    + by apply submseteq_app.
    + by apply Forall2_app.
    + by rewrite omap_app, Hi, Hi'.
    + intros Hno. rewrite Hc by done. by rewrite Hc'.
Qed.

(** Why a sync ends after its rounds before the [n]-th, whose pages, committed,
    hold [m] issues of the list. *)
Inductive sync_ending (all : list Issue) (n m : nat) : option error → Prop :=
  | ending_complete : m = length all → sync_ending all n m None
  | ending_context e :
      round_ctx (env n) = Some e →
      sync_ending all n m (Some (wrap "sync context cancelled" e))
  | ending_search e :
      round_ctx (env n) = None → searched all m →
      round_search (env n) ("project=" ++ projectKey)%string (Z.of_nat m) defaultPageSize = Err e →
      sync_ending all n m
        (Some (wrap ("search issues (startAt=" ++ FormatInt (Z.of_nat m) ++ ")") e))
  | ending_page iss cause :
      round_ctx (env n) = None → cancelled n = true → iss ∈ drop m all →
      cause = ESentinel errPoolStopped ∨ cause = ctx_error →
      sync_ending all n m
        (Some (wrap ("process page (startAt=" ++ FormatInt (Z.of_nat m) ++ ")")
                 (wrap "fetch page" (wrap ("submit " ++ IssueKey iss) cause)))).

Lemma lost_ending all m n page after e :
  round_ctx (env n) = None → drop m all = page ++ after → lost n page e →
  sync_ending all n m (Some (wrap ("process page (startAt=" ++ FormatInt (Z.of_nat m) ++ ")") e)).
Proof.
  intros Hctx Hd (_ & Hc & cause & (iss & cause' & Hin & Hor & ->) & ->).
  apply ending_page; [done|done| |done]. rewrite Hd. apply elem_of_app. by left.
Qed.

Lemma pages_length (pages : list (list Issue)) :
  Forall (λ p, p ≠ []) pages → (length pages ≤ length (concat pages))%nat.
Proof.
  induction 1 as [|p pages Hp _ IH]; [done|]. simpl. rewrite length_app.
  destruct p; [done|simpl; lia].
Qed.

(** A sync whose pages go through the pool. *)
Lemma runSync_pooled all fuel c w :
  answers projectKey env all → Z.of_nat (length all) < 2 ^ 62 →
  (Nat.max 1 (length all) ≤ fuel)%nat → pooled all → quiet c w →
  (∀ got outs, got ⊆+ all → Forall2 possible got outs →
     Forall (λ item, ∃ row, storable (projects c) item row) (omap outcome_item outs)) →
  ∃ n m err stored got outs w', (n ≤ m ≤ length all)%nat ∧
    (∀ i, (i < n)%nat → round_ctx (env i) = None) ∧ sync_ending all n m err ∧
    got ⊆+ take m all ∧ Forall2 possible got outs ∧ stored ≡ₚ omap outcome_item outs ∧
    ((∀ k, cancelled k = false) → got = take m all) ∧
    runSync fuel Repository.New syncID projectKey projectID env 0 loop_start w = Some (err, w') ∧
    quiet (store_items stored c) w' ∧
    w_mgr w' = Nat.iter (length stored) (Manager.IncrProcessed syncID)
                 (w_mgr (if opened projectKey env 0 0
                         then set_total syncID (Z.of_nat (length all)) w else w)).
Proof.
  intros Hs Hbig Hf Hp Hq Hitems.
  destruct (runSync_until Repository.New syncID projectKey projectID env all fuel 0 0 false)
    as (pages & rest & reason & Hc & Hne & Hstop & Hso & Hctx & Hrun); [done|by left|done|lia|].
  rewrite drop_0 in Hc. simpl in Hstop, Hso, Hctx.
  destruct (pooled_pages all [] pages rest 0 Hp) as
    (pre & post & -> & Hpost & Hfetch & got & outs & Hg & Hpos & Hperm & Hno); [done..|].
  set (w0 := if opened projectKey env 0 0 then set_total syncID (Z.of_nat (length all)) w else w).
  assert (Hw0 : quiet c w0) by (unfold w0; by destruct (opened _ _ _ _)).
  assert (Hm : take (length (concat pre)) all = concat pre).
  { rewrite <- Hc, concat_app, <- app_assoc. apply take_app_length. }
  assert (Hd : drop (length (concat pre)) all = concat post ++ rest).
  { rewrite <- Hc, concat_app, <- app_assoc. apply drop_app_length. }
  assert (Hle : (length (concat pre) ≤ length all)%nat)
    by (rewrite <- Hc, concat_app, !length_app; lia).
  assert (Hst : Forall (λ item, ∃ row, storable (projects c) item row) (fetched pool_items 0 pre)).
  { rewrite Hperm. apply (Hitems got); [|done]. etransitivity; [exact Hg|]. rewrite <- Hm.
    apply sublist_submseteq, sublist_take. }
  pose proof (sync_pages_ok pool_items syncID projectID env pre 0 0 c w0 Hfetch Hw0 Hst) as Hok.
  specialize (Hrun w). unfold loop_start. change 0 with (Z.of_nat 0). rewrite Hrun.
  change (if false || negb _ then w else ?b) with (if negb (opened projectKey env 0 0) then w else b).
  replace (if negb _ then w else _) with w0 by (unfold w0; by destruct (opened _ _ _ _)).
  rewrite sync_pages_app. change (Z.of_nat 0) with 0.
  destruct (sync_pages Repository.New syncID projectID env 0 0 pre w0) as [err w'].
  destruct Hok as (-> & Hq' & Hmgr).
  apply Forall_app in Hne as [Hne _]. pose proof (pages_length pre Hne) as Hn.
  exists (length pre), (length (concat pre)), (first_error reason (sync_pages Repository.New syncID projectID env
    (0 + length pre) (0 + Z.of_nat (length (concat pre))) post w')).1,
    (fetched pool_items 0 pre), got, outs, w'.
  rewrite Hm. destruct Hpost as [-> |(page & post' & e & -> & Hlost)].
  - rewrite app_nil_r in *. simpl. split_and!; try done.
    destruct Hstop as [Hr|e He|e Hcn He].
    + subst rest. rewrite app_nil_r in Hc. apply ending_complete. by rewrite <- Hc.
    + by apply ending_context.
    + apply ending_search; [done|by destruct Hso|exact He].
  - assert (Hbad : sync_pages Repository.New syncID projectID env (0 + length pre)
        (0 + Z.of_nat (length (concat pre))) (page :: post') w'
      = (Some (wrap ("process page (startAt=" ++ FormatInt (Z.of_nat (length (concat pre))) ++ ")") e), w')).
    { simpl. unfold bind, processPage. destruct Hlost as [He _]. simpl in He. by rewrite He. }
    rewrite Hbad. simpl. rewrite length_app in Hctx. simpl in Hctx. split_and!; try done.
    + intros i Hi. apply Hctx. lia.
    + eapply lost_ending; [apply Hctx; lia| |exact Hlost]. rewrite Hd. simpl. by rewrite <- app_assoc.
Qed.
End Pool.

(** ** From the HTTP server *)

Section Http.
Context (c : JiraClient.Client) (newRequestErr : string → option error).
Context (server : JiraClient.Request → JiraClient.Response).

(** An environment in which the server may be unreachable, slow or unavailable
    at any attempt, but a reply with status 200 is the server's document. *)
Definition truthful (env : nat → JiraClient.attempt) : Prop :=
  ∀ n req resp, JiraClient.reply (env n) req = Ok resp → JiraClient.RespStatus resp = 200 →
    resp = server req.

(** A result the client may return for a search or an issue. *)
Definition may_search (jql : string) (start size : Z) (r : res error SearchResponse) : Prop :=
  ∃ elapsed fuel env m m', truthful env ∧
    JiraClient.SearchIssues c newRequestErr elapsed jql start size fuel env m = Some (r, m').
Definition may_get (key : string) (r : res error Issue) : Prop :=
  ∃ elapsed fuel env m m', truthful env ∧
    JiraClient.GetIssue c newRequestErr elapsed key fuel env m = Some (r, m').

(** The server's documents. *)
Definition search_doc (jql : string) (start : Z) : SearchResponse * option error :=
  JiraClient.DecodeBody dec_SearchResponse
    (JiraClient.RespBody (server (JiraClient.build_request c "GET"
       (JiraClient.search_path jql start defaultPageSize)))) zero_SearchResponse.
Definition issue_doc (key : string) : Issue * option error :=
  JiraClient.DecodeBody dec_Issue
    (JiraClient.RespBody (server (JiraClient.build_request c "GET"
       ("/rest/api/2/issue/" ++ key ++ "?expand=changelog")))) zero_Issue.

(** The server lists the issues [all] of the project: a search answers with some
    of them from the offset on, at least one if there is any, and the total. *)
Definition lists (projectKey : string) (all : list Issue) : Prop :=
  ∀ start : nat, searched all start → ∃ k resp, 0 < k ∧
    search_doc ("project=" ++ projectKey)%string (Z.of_nat start) = (resp, None) ∧
    Issues resp = take (Z.to_nat k) (drop start all) ∧ SearchTotal resp = Z.of_nat (length all).

(** The item an issue of the list gives, from the server's document. *)
Definition server_item (projectID : Z) (iss : Issue) : option processedIssue :=
  match issue_doc (IssueKey iss) with
  | (issue, None) => outcome_item (Process (λ _, Ok issue) (issue_task projectID iss))
  | (_, Some _) => None
  end.

Lemma may_search_ok jql start v :
  may_search jql start defaultPageSize (Ok v) → search_doc jql start = (v, None).
Proof.
  intros (elapsed & fuel & env & m & m' & Ht & H).
  apply JiraClient.SearchIssues_ok in H as (n & resp & Hr & Hs & Hd); [|done].
  unfold search_doc. by rewrite <- (Ht n _ resp Hr Hs).
Qed.

Lemma may_get_ok key v : may_get key (Ok v) → issue_doc key = (v, None).
Proof.
  intros (elapsed & fuel & env & m & m' & Ht & H).
  apply JiraClient.GetIssue_ok in H as (n & resp & Hr & Hs & Hd).
  unfold issue_doc. by rewrite <- (Ht n _ resp Hr Hs).
Qed.

(** The results of the calls of [GetIssue] that a sync makes. *)
Context (calls : string → res error Issue → Prop).
Hypothesis calls_client : ∀ key r, calls key r → may_get key r.

(** An issue is processed as the server has it, or not at all. *)
Lemma possible_item projectID iss out :
  possible calls projectID iss out →
  outcome_item out = server_item projectID iss ∨ outcome_item out = None.
Proof.
  intros (get & Hget & <-). unfold Process. simpl. unfold server_item.
  pose proof (Hget (IssueKey iss)) as Hg. destruct (get (IssueKey iss)) as [issue|e]; [|by right].
  rewrite (may_get_ok _ _ (calls_client _ _ Hg)). left. done.
Qed.

Lemma possible_items projectID all outs :
  Forall2 (possible calls projectID) all outs →
  omap outcome_item outs `sublist_of` omap (server_item projectID) all.
Proof.
  induction 1 as [|iss out all outs Hp _ IH]; [done|]. simpl.
  destruct (possible_item _ _ _ Hp) as [-> | ->].
  - destruct (server_item projectID iss); [by apply sublist_skip|done].
  - destruct (server_item projectID iss); [by apply sublist_cons|done].
Qed.

(** All of them if no call fails. *)
Lemma possible_items_all projectID all outs :
  (∀ iss e, iss ∈ all → ¬ calls (IssueKey iss) (Err e)) →
  Forall2 (possible calls projectID) all outs →
  omap outcome_item outs = omap (server_item projectID) all.
Proof.
  intros Hno. induction 1 as [|iss out all outs Hp _ IH]; [done|]. simpl.
  assert (Ho : outcome_item out = server_item projectID iss).
  { destruct Hp as (get & Hget & <-). unfold Process, server_item. simpl.
    pose proof (Hget (IssueKey iss)) as Hg. destruct (get (IssueKey iss)) as [issue|e].
    - by rewrite (may_get_ok _ _ (calls_client _ _ Hg)).
    - destruct (Hno iss e); [by left|done]. }
  assert (Hrest : omap outcome_item outs = omap (server_item projectID) all)
    by (apply IH; intros iss' e Hin; apply Hno; by right).
  rewrite Ho. destruct (server_item projectID iss); [by f_equal|done].
Qed.

Lemma omap_submseteq {A B} (f : A → option B) (l k : list A) : l ⊆+ k → omap f l ⊆+ omap f k.
Proof.
  intros (k' & Hk)%submseteq_Permutation. apply (omap_Permutation f) in Hk. rewrite Hk, omap_app.
  by apply submseteq_inserts_r.
Qed.

(** ** Properties *)

Section Sync.
Context (ctx_error : error) (workerCount queueSize projectID : Z).
Context (syncID projectKey : string) (env : nat → round) (cancelled : nat → bool).
Local Abbreviation jql := ("project=" ++ projectKey)%string.

(** The rounds of the loop: the searches are calls of the client, which may fail,
    and the pages go through a pool that calls the client, and may be
    cancelled; nothing is said of the context. *)
Record connected (all : list Issue) : Prop := {
  conn_workers : 0 < workerCount;
  conn_search : ∀ n (start : nat), searched all start →
    may_search jql (Z.of_nat start) defaultPageSize
      (round_search (env n) jql (Z.of_nat start) defaultPageSize);
  conn_pool : pooled calls ctx_error workerCount queueSize projectID env cancelled all;
}.

Lemma connected_answers all : connected all → lists projectKey all → answers projectKey env all.
Proof.
  intros Hc Hl n start resp Hst Hr. pose proof (conn_search _ Hc n start Hst) as Hm.
  rewrite Hr in Hm. apply may_search_ok in Hm.
  destruct (Hl start Hst) as (k & resp' & Hk & Hd & Hi & Ht). rewrite Hm in Hd. injection Hd as <-.
  by exists k.
Qed.

(** The whole sync. *)
Lemma sync_stored all fuel t w :
  connected all → lists projectKey all → Z.of_nat (length all) < 2 ^ 62 →
  (Nat.max 1 (length all) ≤ fuel)%nat → quiet t w →
  Forall (λ item, ∃ row, storable (projects t) item row) (omap (server_item projectID) all) →
  ∃ n m err stored w', (n ≤ m ≤ length all)%nat ∧
    (∀ i, (i < n)%nat → round_ctx (env i) = None) ∧
    sync_ending ctx_error projectKey env cancelled all n m err ∧
    stored ⊆+ omap (server_item projectID) (take m all) ∧
    ((∀ n, cancelled n = false) → (∀ iss e, iss ∈ all → ¬ calls (IssueKey iss) (Err e)) →
       stored ≡ₚ omap (server_item projectID) (take m all)) ∧
    runSync fuel Repository.New syncID projectKey projectID env 0 loop_start w = Some (err, w') ∧
    quiet (store_items stored t) w' ∧
    (∀ order, stored ≡ₚ order → compatible stored →
       store_items stored t ≡ store_items order t) ∧
    w_mgr w' = Nat.iter (length stored) (Manager.IncrProcessed syncID)
                 (w_mgr (if opened projectKey env 0 0
                         then set_total syncID (Z.of_nat (length all)) w else w)).
Proof.
  intros Hc Hl Hbig Hf Hq Hst.
  destruct (runSync_pooled calls ctx_error workerCount queueSize projectID syncID projectKey env
    cancelled (conn_workers _ Hc) all fuel t w (connected_answers all Hc Hl) Hbig Hf (conn_pool _ Hc) Hq)
    as (n & m & err & stored & got & outs & w' & Hm & Hctx & Hend & Hg & Houts & Hperm & Hno & Hrun & Hq' & Hmgr).
  { intros got outs Hg Houts. pose proof (possible_items _ _ _ Houts) as Hsub.
    rewrite Forall_forall in Hst |- *. intros item Hin. apply Hst.
    eapply elem_of_submseteq; [exact Hin|]. etransitivity; [by apply sublist_submseteq|].
    by apply omap_submseteq. }
  destruct Hm as [Hnm Hm]. exists n, m, err, stored, w'. split_and!; try done.
  - rewrite Hperm. etransitivity; [by apply sublist_submseteq, possible_items|].
    by apply omap_submseteq.
  - intros Hnc Hcalls. rewrite Hno in Houts by done. rewrite Hperm.
    rewrite (possible_items_all projectID (take m all)); [done| |done].
    intros iss e (i & Hi%list_elem_of_lookup_2 & _)%elem_of_take. by apply Hcalls.
  - intros order Ho Hcomp. by apply store_items_perm.
Qed.

End Sync.
End Http.

(** ** Witness: a server with one issue *)

(** JSON text written with apostrophes. *)
Fixpoint json_text (s : string) : string :=
  match s with
  | EmptyString => EmptyString
  | String a s' => String (if Z.eqb (byte_of a) 39 then of_byte 34 else a) (json_text s')
  end.

Definition demo_client : JiraClient.Client := JiraClient.sample_client.

Definition demo_server (req : JiraClient.Request) : JiraClient.Response :=
  JiraClient.mkResponse 200 ""
    (JiraClient.Stream
       (json_text
          (if decide (JiraClient.URL req = "https://jira.example/rest/api/2/search?jql=project%3DA&fields=*all&startAt=0&maxResults=50"%string)
           then "{'issues':[{'key':'A-1','id':'1','fields':{}}],'total':1}"
           else "{'key':'A-1','id':'1','fields':{'creator':{'name':'ann','displayName':'Ann'}}}"))
       None false).

Definition demo_attempt (n : nat) : JiraClient.attempt :=
  JiraClient.mkAttempt None (λ req, Ok (demo_server req)) None (λ _, None).

Definition client_result {A} (o : option (res error A * option Metrics.Metrics)) : res error A :=
  match o with Some (r, _) => r | None => Err (ENew []) end.
Definition demo_get (key : string) : res error Issue :=
  client_result (JiraClient.GetIssue demo_client (λ _, None) 0 key 1%nat demo_attempt None).
Definition demo_search (jql : string) (start size : Z) : res error SearchResponse :=
  client_result (JiraClient.SearchIssues demo_client (λ _, None) 0 jql start size 1%nat demo_attempt None).

Definition stored_item : processedIssue :=
  default light_item (server_item demo_client demo_server 7 light_issue).
Definition demo_rounds (n : nat) : round := mkRound None demo_search (λ _ _, Ok [stored_item]).

Lemma demo_truthful : truthful demo_server demo_attempt.
Proof. intros n req resp [= <-] _. done. Qed.

Lemma demo_calls key r :
  r = demo_get key → may_get demo_client (λ _, None) demo_server key r.
Proof.
  intros ->. exists 0, 1%nat, demo_attempt, None. unfold demo_get.
  destruct (JiraClient.GetIssue demo_client (λ _, None) 0 key 1%nat demo_attempt None)
    as [[r m']|] eqn:He.
  - exists m'. split; [apply demo_truthful|]. reflexivity.
  - exfalso. unfold JiraClient.GetIssue, JiraClient.instrumented, JiraClient.fetchIssue,
      JiraClient.do in He. cbn [JiraClient.do_loop] in He. unfold demo_attempt at 1 2 3 in He.
    cbn [JiraClient.waitErr JiraClient.reply JiraClient.handleResponse] in He.
    unfold demo_server in He at 1. simpl in He. discriminate.
Qed.

Lemma demo_connected :
  connected demo_client (λ _, None) demo_server (λ key r, r = demo_get key)
    (ESentinel context_Canceled) 1 1 7 "A" demo_rounds (λ _, false) [light_issue].
Proof.
  split; [done| |].
  - intros n start Hst. assert (start = 0%nat) as ->
      by (destruct Hst as [->|Hs]; [done|simpl in Hs; lia]).
    exists 0, 1%nat, demo_attempt, None. eexists. split; [apply demo_truthful|].
    vm_compute. reflexivity.
  - intros n before page after Hall Hne.
    assert (page = [light_issue]) as ->.
    { destruct before as [|b before]; destruct page as [|p page]; try done.
      - simpl in Hall. injection Hall as <- Hall. by destruct page.
      - simpl in Hall. injection Hall as _ Hall. by destruct before. }
    apply (light_run _ demo_get); [done|]. vm_compute. reflexivity.
Qed.

(** The sync of the witness is not cut short. *)
Lemma demo_ending n m err :
  sync_ending (ESentinel context_Canceled) "A" demo_rounds (λ _, false) [light_issue] n m err →
  m = 1%nat ∧ err = None.
Proof.
  intros Hend. destruct Hend as [->|e He|e _ Hs He|iss cause _ Hc]; [done|done| |done].
  exfalso. assert (m = 0%nat) as -> by (destruct Hs as [->|Hs]; [done|simpl in Hs; lia]).
  vm_compute in He. discriminate.
Qed.

Lemma demo_lists : lists demo_client demo_server "A" [light_issue].
Proof.
  intros start [->|Hs]; [|simpl in Hs; assert (start = 0%nat) as -> by lia];
    (exists 1; eexists; split; [lia|]; split; [vm_compute; reflexivity|];
     split; vm_compute; reflexivity).
Qed.

Lemma demo_compatible : compatible [stored_item].
Proof.
  split.
  - apply (bool_decide_unpack _). vm_compute. exact I.
  - intros a b Ha Hb. vm_compute in Ha, Hb.
    apply list_elem_of_singleton in Ha as ->, Hb as ->. done.
Qed.

Lemma server_item_storable ps :
  is_Some (ps !! 7) → Forall (λ item, ∃ row, storable ps item row) [stored_item].
Proof.
  intros Hp. constructor; [|constructor].
  exists (default no_row (item_row stored_item)). split; try (vm_compute; reflexivity).
  - repeat constructor.
  - exact Hp.
  - apply (bool_decide_unpack _). vm_compute. exact I.
  - intros a Ha. vm_compute in Ha. discriminate.
  - apply (bool_decide_unpack _). vm_compute. exact I.
Qed.

