(* ===== verification/GoFlag.v ===== *)
(** * Go's flag package

    What [flag.Parse] of the standard library makes of the command line, for
    string and int flags, with [strconv.ParseInt(s, 0, 64)], which int flags are
    read with. *)

From S2P Require Import Prelude GoLang.
Local Open Scope Z_scope.

(** ** strconv with the base in the text *)

(** [lower(c)]: an ASCII letter in lower case. *)
Definition lower (c : Z) : Z := Z.lor c 32.

Definition digit36 (c : Z) : option Z :=
  if in_range 48 57 c then Some (c - 48)
  else if in_range 97 122 (lower c) then Some (lower c - 97 + 10) else None.

(** The base a prefix gives, and the digits after it. *)
Definition base_prefix (bs : list Z) : Z * list Z :=
  match bs with
  | c0 :: rest =>
    if c0 =? 48 then
      match rest with
      | c :: (_ :: _) as digits =>
        if lower c =? 98 then (2, tail rest)
        else if lower c =? 111 then (8, tail rest)
        else if lower c =? 120 then (16, tail rest)
        else (8, rest)
      | _ => (8, rest)
      end
    else (10, bs)
  | [] => (10, [])
  end.

(** The digit loop; underscores are skipped. *)
Fixpoint digits0 (base n : Z) (bs : list Z) : option Z :=
  match bs with
  | [] => Some n
  | c :: bs =>
    if c =? 95 then digits0 base n bs
    else d ← digit36 c; if base <=? d then None else digits0 base (n * base + d) bs
  end.

(** The last character seen: the beginning, a digit or prefix, an underscore,
    another one. *)
Inductive saw := SawStart | SawDigit | SawUnderscore | SawOther.

Fixpoint underscore_loop (hex : bool) (s : saw) (bs : list Z) : bool :=
  match bs with
  | [] => match s with SawUnderscore => false | _ => true end
  | c :: bs =>
    if in_range 48 57 c || (hex && in_range 97 102 (lower c)) then underscore_loop hex SawDigit bs
    else if c =? 95 then
      match s with SawDigit => underscore_loop hex SawUnderscore bs | _ => false end
    else match s with SawUnderscore => false | _ => underscore_loop hex SawOther bs end
  end.

(** Underscores must separate digits; a base prefix counts as a digit. *)
Definition underscoreOK (bs : list Z) : bool :=
  match bs with
  | c0 :: c :: rest =>
    if (c0 =? 48) && ((lower c =? 98) || (lower c =? 111) || (lower c =? 120))
    then underscore_loop (lower c =? 120) SawDigit rest
    else underscore_loop false SawStart bs
  | _ => underscore_loop false SawStart bs
  end.

Definition sign_of (bs : list Z) : bool * list Z :=
  match bs with
  | c :: rest => if c =? 45 then (true, rest) else if c =? 43 then (false, rest) else (false, bs)
  | [] => (false, [])
  end.

(** [strconv.ParseInt(s, 0, 64)] where it succeeds (any error is fatal to
    [flag.Parse]). *)
Definition ParseInt0 (s : string) : option Z :=
  let '(neg, ds) := sign_of (bytes s) in
  match ds with
  | [] => None
  | _ =>
    let '(base, rest) := base_prefix ds in
    un ← digits0 base 0 rest;
    if 2 ^ 64 <=? un then None
    else if existsb (Z.eqb 95) rest && negb (underscoreOK ds) then None
    else if neg then (if 2 ^ 63 <? un then None else Some (- un))
    else if 2 ^ 63 <=? un then None else Some un
  end.

Example parse_int0_ex :
  ParseInt0 <$> ["10"; "-0x1F"; "0b101"; "017"; "1_000"; "0"; "_1"; "1__0"; "0x"; "9223372036854775808"]%string
  = [Some 10; Some (-31); Some 5; Some 15; Some 1000; Some 0; None; None; None; None].
Proof. vm_compute. reflexivity. Qed.

(** ** Flags *)

Inductive flag_value := FString (v : string) | FInt (v : Z).
Definition flags : Type := gmap string flag_value.

(** [Value.Set] *)
Definition Set_value (old : flag_value) (v : string) : option flag_value :=
  match old with FString _ => Some (FString v) | FInt _ => FInt <$> ParseInt0 v end.

(** The text before the first [=], and the text after it. *)
Fixpoint cut_equals (s : string) : string * option string :=
  match s with
  | EmptyString => (EmptyString, None)
  | String c s' =>
    if byte_of c =? 61 then (EmptyString, Some s')
    else let '(a, b) := cut_equals s' in (String c a, b)
  end.

(** What one argument is. *)
Inductive argument := NotFlag | BadSyntax | Flag (name : string) (value : option string).

Definition read_name (name : string) : argument :=
  match name with
  | EmptyString => BadSyntax
  | String c rest =>
    if (byte_of c =? 45) || (byte_of c =? 61) then BadSyntax
    else let '(a, b) := cut_equals rest in Flag (String c a) b
  end.

Definition read_argument (s : string) : argument :=
  match s with
  | String c (String d rest) =>
    if negb (byte_of c =? 45) then NotFlag
    else if byte_of d =? 45 then
      match rest with EmptyString => NotFlag | _ => read_name rest end
    else read_name (String d rest)
  | _ => NotFlag
  end.

(** The flags set, or the status [flag.Parse] exits with: 0 when asked for help,
    else 2. *)
Inductive parsed := Parsed (fs : flags) | ExitWith (status : Z).

Fixpoint Parse (args : list string) (fs : flags) : parsed :=
  match args with
  | [] => Parsed fs
  | s :: rest =>
    match read_argument s with
    | NotFlag => Parsed fs
    | BadSyntax => ExitWith 2
    | Flag name value =>
      match fs !! name with
      | None => ExitWith (if decide (name = "help" ∨ name = "h")%string then 0 else 2)
      | Some old =>
        match value, rest with
        | Some v, _ =>
          match Set_value old v with Some new => Parse rest (<[name := new]> fs) | None => ExitWith 2 end
        | None, v :: rest' =>
          match Set_value old v with Some new => Parse rest' (<[name := new]> fs) | None => ExitWith 2 end
        | None, [] => ExitWith 2
        end
      end
    end
  end.

Example parse_ex :
  (match Parse ["-n=5"; "--s"; "-x"; "--"; "-n"]%string {["n" := FInt 1; "s" := FString ""]}%string with
   | Parsed fs => Some (fs !! "n"%string, fs !! "s"%string) | _ => None end)
  = Some (Some (FInt 5), Some (FString "-x")).
Proof. vm_compute. reflexivity. Qed.

(** ** Reading decimal numbers back *)

Lemma digits0_uint ds n v :
  parse_uint_loop n ds = Ok v → digits0 10 n ds = Some v ∧ existsb (Z.eqb 95) ds = false.
Proof.
  revert n. induction ds as [|c ds IH]; intros n;
    cbn [parse_uint_loop digits0 existsb]; [by intros [= ->]|].
  unfold digit_of, digit36. destruct (in_range 48 57 c) eqn:Hc; [|done].
  assert (48 <= c <= 57) by (unfold in_range in Hc; lia).
  destruct (2 ^ 64 <=? n * 10 + (c - 48)); [done|]. intros Hp.
  destruct (IH _ Hp) as [IH1 IH2]. rewrite (proj2 (Z.eqb_neq c 95)) by lia.
  rewrite (proj2 (Z.eqb_neq 95 c)) by lia. split; [|done]. cbn [mbind option_bind].
  by rewrite (proj2 (Z.leb_gt _ _)) by lia.
Qed.

(** A positive number is written without a leading zero. *)
Lemma digits_rev_lead f n :
  1 ≤ n < 10 ^ Z.of_nat (S f) → ∃ d ds, rev (digits_rev (S f) n) = d :: ds ∧ 49 ≤ d.
Proof.
  revert n. induction f as [|f IH]; intros n Hn; cbn [digits_rev rev].
  - assert (n < 10) by (simpl in Hn; lia). rewrite (proj2 (Z.ltb_lt _ _)) by lia.
    rewrite Z.mod_small by lia. simpl. eexists _, _. split; [done|lia].
  - destruct (n <? 10) eqn:Hlt.
    + apply Z.ltb_lt in Hlt. rewrite Z.mod_small by lia. simpl. eexists _, _. split; [done|lia].
    + apply Z.ltb_ge in Hlt. destruct (IH (n / 10)) as (d & ds & He & Hd).
      { split; [apply Z.div_le_lower_bound; lia|]. apply Z.div_lt_upper_bound; [lia|].
        rewrite <- Z.pow_succ_r, <- Nat2Z.inj_succ by lia. apply Hn. }
      cbn [digits_rev rev] in He |- *. rewrite He. simpl. eauto.
Qed.

Lemma decimal_digits n :
  1 ≤ n < 2 ^ 64 →
  ∃ d ds, rev (digits_rev 20 n) = d :: ds ∧ 49 ≤ d ≤ 57 ∧ base_prefix (d :: ds) = (10, d :: ds) ∧
    digits0 10 0 (d :: ds) = Some n ∧ existsb (Z.eqb 95) (d :: ds) = false.
Proof.
  intros Hn. destruct (parse_uint_digits n) as (d & ds & He & Hd & Hp); [lia|].
  destruct (digits_rev_lead 19 n) as (d' & ds' & He' & Hlead).
  { assert (2 ^ 64 < 10 ^ Z.of_nat 20) by reflexivity. lia. }
  rewrite He in He'. injection He' as <- <-. destruct (digits0_uint (d :: ds) 0 n Hp) as [H1 H2].
  exists d, ds. split_and!; try done; try lia. unfold base_prefix.
  by rewrite (proj2 (Z.eqb_neq d 48)) by lia.
Qed.

Lemma ParseInt0_FormatInt z : in_int64 z → ParseInt0 (FormatInt z) = Some z.
Proof.
  unfold in_int64, ParseInt0, FormatInt. intros Hz.
  destruct (decide (z = 0)) as [->|Hne]; [done|].
  destruct (z <? 0) eqn:Hs; [apply Z.ltb_lt in Hs|apply Z.ltb_ge in Hs].
  - destruct (decimal_digits (- z)) as (d & ds & He & Hd & Hb & Hp & Hu); [lia|].
    cbn [bytes]. rewrite byte_of_of_byte by (unfold is_byte; lia).
    rewrite bytes_of_bytes by (apply Forall_rev, digits_rev_bytes; lia). rewrite He.
    cbn [sign_of]. simpl (45 =? 45). cbv iota. rewrite Hb, Hp. simpl option_bind.
    rewrite Hu. simpl. rewrite (proj2 (Z.leb_gt _ _)), (proj2 (Z.ltb_ge _ _)) by lia.
    f_equal. lia.
  - destruct (decimal_digits z) as (d & ds & He & Hd & Hb & Hp & Hu); [lia|].
    rewrite bytes_of_bytes by (apply Forall_rev, digits_rev_bytes; lia). rewrite He.
    cbn [sign_of]. rewrite (proj2 (Z.eqb_neq d 45)), (proj2 (Z.eqb_neq d 43)) by lia.
    rewrite Hb, Hp. simpl option_bind. rewrite Hu. simpl.
    by rewrite !(proj2 (Z.leb_gt _ _)) by lia.
Qed.

(** A flag given as a separate argument, without a second dash in its name. *)
Lemma Parse_flag (name v : string) (rest : list string) (fs : flags) old new :
  fs !! name = Some old → read_argument (String (of_byte 45) name) = Flag name None →
  Set_value old v = Some new →
  Parse (String (of_byte 45) name :: v :: rest) fs = Parse rest (<[name := new]> fs).
Proof. intros Hl Hr Hv. cbn [Parse]. by rewrite Hr, Hl, Hv. Qed.
