(* ===== verification/Handler.v ===== *)
(** * The gRPC handler (internal/handler/grpc/handler.go)

    The three calls over the interface [Service] the handler asks for, the
    mapping of errors to gRPC statuses, and the interface implemented by the
    sync service on a running system.  The messages are those of
    api/proto/connector/v1/connector.proto. *)

From S2P Require Import Prelude GoLang GoTime Errors JiraTypes RawModels Mapper Repository.
From S2P Require Metrics Manager.
From S2P Require Import Sync SyncJobs.
Local Open Scope Z_scope.
Local Open Scope go_scope.
#[local] Set Warnings "-clear-no-such-hyp".

(** ** Messages *)

Record GetAvailableProjectsRequest := mkProjectsRequest {
  SearchQuery : string; Limit : Z; Page : Z }.
Record JiraProject := mkJiraProject {
  JP_Id : string; JP_Key : string; JP_Title : string; JP_Self : string }.
Record GetAvailableProjectsResponse := mkProjectsReply {
  Projects : list JiraProject; ProjectsReplyTotal : Z; ProjectsReplyIsLast : bool }.
Record DownloadProjectResponse := mkDownloadReply {
  DL_ProjectId : string; DL_SyncId : string; DL_Status : string; DL_Message : string }.
Inductive SyncState :=
  SYNC_STATE_UNSPECIFIED | SYNC_STATE_RUNNING | SYNC_STATE_COMPLETED | SYNC_STATE_FAILED.
Record GetSyncStatusResponse := mkStatusReply {
  ST_SyncId : string; ST_State : SyncState; ST_Processed : Z; ST_Total : Z;
  ST_Error : string; ST_ProjectKey : string }.

(** google.golang.org/grpc/codes *)
Definition OK : Z := 0.
Definition Canceled : Z := 1.
Definition Unknown : Z := 2.
Definition InvalidArgument : Z := 3.
Definition NotFound : Z := 5.
Definition Internal : Z := 13.

(** [status.Code(err)]: the status found along the chain of wrapped errors. *)
Fixpoint status_code (err : error) : Z :=
  match err with
  | EStatus code _ => code
  | EWrap _ inner _ => status_code inner
  | _ => Unknown
  end.

(** ** The handler *)

(** go: internal/handler/grpc/handler.go 180-190 toGRPCError *)
Definition toGRPCError (err : error) : error :=
  if errors_is err context_Canceled then
    EStatus Canceled (EWrap [L "request cancelled: "] err [])
  else if errors_is err ErrProjectNotFound then
    EStatus NotFound (EWrap [L "project not found: "] err [])
  else EStatus Internal (EWrap [L "connector error: "] err []).

(** go: internal/handler/grpc/handler.go 164-178 syncStateToProto *)
Definition syncStateToProto (s : Z) : SyncState :=
  if decide (s = Manager.JobStateRunning) then SYNC_STATE_RUNNING
  else if decide (s = Manager.JobStateCompleted) then SYNC_STATE_COMPLETED
  else if decide (s = Manager.JobStateFailed) then SYNC_STATE_FAILED
  else SYNC_STATE_UNSPECIFIED.

(** What the handler asks of the service layer, whose state is [W].

    go: internal/handler/grpc/handler.go 20-33 Service *)
Class SyncService (W : Type) := {
  svc_GetAvailableProjects : string → Z → Z → M W (res error ProjectsResponse);
  svc_SyncProject : string → M W (res error Result);
  svc_Manager : W → Manager.Manager;
}.

Section Handler.
Context {W : Type} `{SyncService W}.

(** [int(req.GetLimit())] of an int32 is the same number.

    go: internal/handler/grpc/handler.go 77-107 Handler.GetAvailableProjects *)
Definition GetAvailableProjects (req : GetAvailableProjectsRequest)
    : M W (res error GetAvailableProjectsResponse) :=
  let* projResp := svc_GetAvailableProjects (SearchQuery req) (Limit req) (Page req) in
  match projResp with
  | Err err => ret (Err (toGRPCError err))
  | Ok projResp =>
    let projects := (λ proj, mkJiraProject (ProjectID proj) (ProjectKey proj)
                               (ProjectName proj) (ProjectSelf proj)) <$> Values projResp in
    ret (Ok (mkProjectsReply projects (int32 (ProjectsTotal projResp)) (IsLast projResp)))
  end.

(** go: internal/handler/grpc/handler.go 109-137 Handler.DownloadProject *)
Definition DownloadProject (projectKey : string) : M W (res error DownloadProjectResponse) :=
  if decide (projectKey = ""%string) then
    ret (Err (EStatus InvalidArgument (ENew [L "project_key is required"])))
  else
    let* result := svc_SyncProject projectKey in
    match result with
    | Err err => ret (Err (toGRPCError err))
    | Ok result =>
      let msg := if decide (Status result = "already_running"%string)
                 then ("sync already in progress for project " ++ projectKey)%string
                 else ("sync started for project " ++ projectKey)%string in
      ret (Ok (mkDownloadReply (ResultProjectID result) (SyncID result) (Status result) msg))
    end.

(** go: internal/handler/grpc/handler.go 139-162 Handler.GetSyncStatus *)
Definition GetSyncStatus (syncID : string) (w : W) : res error GetSyncStatusResponse :=
  if decide (syncID = ""%string) then
    Err (EStatus InvalidArgument (ENew [L "sync_id is required"]))
  else
    match Manager.Status syncID (svc_Manager w) with
    | None => Err (EStatus NotFound (ENew [L "sync job "; Q syncID; L " not found"]))
    | Some snap =>
      Ok (mkStatusReply (Manager.ID snap) (syncStateToProto (Manager.State snap))
            (uint32 (Manager.Processed snap)) (uint32 (Manager.Total snap))
            (Manager.ErrMsg snap) (Manager.ProjectKey snap))
    end.

(** The interceptor passes the handler's result on; with it, the code logged.

    go: internal/handler/grpc/handler.go 50-75 LoggingInterceptor *)
Definition LoggingInterceptor {Req Resp} (handler : Req → M W (res error Resp)) (req : Req)
    : M W (res error Resp * Z) :=
  let* resp := handler req in
  ret (resp, match resp with Ok _ => OK | Err err => status_code err end).
End Handler.

(** ** The sync service behind the handler *)

Section Wired.
Context `{GoText} (svc : Service).

(** What one request meets: the Jira client's answers, the uuid and the clock. *)
Record request_env := mkRequestEnv {
  env_GetProjects : string → Z → Z → res error ProjectsResponse;
  env_uuid : string;
  env_now1 : Z;
  env_now2 : Z;
}.

Definition System_service (env : request_env) : SyncService System := {|
  svc_GetAvailableProjects q limit page :=
    ret (Sync.GetAvailableProjects (env_GetProjects env) q limit page);
  svc_SyncProject key := λ s,
    let '((r, g), w') := SyncProject svc (env_GetProjects env "" defaultProjectsLimit 0)
                           (env_uuid env) (env_now1 env) (env_now2 env) key (world s) in
    (r, mkSystem w' (syncs s ++ option_list g));
  svc_Manager s := w_mgr (world s);
|}.

Definition download (env : request_env) (key : string)
    : M System (res error DownloadProjectResponse) :=
  @DownloadProject _ (System_service env) key.

(** The registry is read without the other operations of the interface. *)
Definition poll (id : string) (s : System) : res error GetSyncStatusResponse :=
  @GetSyncStatus _ (System_service (mkRequestEnv (λ _ _ _, Err (ENew [])) "" 0 0)) id s.

(** A download is a step of the system, or changes nothing. *)
Lemma download_step env key s r s' :
  env_uuid env ∉ Manager.ids (w_mgr (world s)) → download env key s = (r, s') →
  s' = s ∨ sys_step svc s s'.
Proof.
  intros Hu. unfold download, DownloadProject, bind, ret. case_decide; [intros [= _ <-]; by left|].
  simpl. destruct (SyncProject _ _ _ _ _ _ _) as [[res g] w'] eqn:He.
  intros Hr. right. assert (Hs : s' = mkSystem w' (syncs s ++ option_list g))
    by (by destruct res; simplify_eq/=).
  rewrite Hs. by eapply sys_request.
Qed.

(** ** Polling a job *)

Lemma poll_status id s r :
  poll id s = Ok r ↔ id ≠ ""%string ∧ ∃ snap, Manager.Status id (w_mgr (world s)) = Some snap ∧
    r = mkStatusReply (Manager.ID snap) (syncStateToProto (Manager.State snap))
          (uint32 (Manager.Processed snap)) (uint32 (Manager.Total snap))
          (Manager.ErrMsg snap) (Manager.ProjectKey snap).
Proof.
  unfold poll, GetSyncStatus. simpl. case_decide; [naive_solver|].
  destruct (Manager.Status id _) as [snap|]; naive_solver.
Qed.

(** The registry after a request: as before, or after [Start]. *)
Lemma SyncProject_mgr projects uuid n1 n2 key w :
  let m := w_mgr (SyncProject svc projects uuid n1 n2 key w).2 in
  m = w_mgr w ∨ m = (Manager.Start uuid n1 n2 key (w_mgr w)).1.
Proof.
  unfold SyncProject. destruct (repo svc) as [pgRepo|]; [|by left]. unfold bind.
  destruct (ensureProject_db pgRepo projects key w) as [d Hd].
  destruct (ensureProject pgRepo projects key w) as [[pid|e] w1]; simpl in Hd; subst w1;
    [|by left].
  right. unfold start_job. simpl. destruct (Manager.Start uuid n1 n2 key (w_mgr w)) as [m r].
  by destruct (Manager.Started r).
Qed.

Section Settled.
Context (id : string) (snap : Manager.JobSnapshot).

(** The state of a finished or evicted job is kept. *)
Definition spares (w w' : World) : Prop :=
  Manager.wf (w_mgr w) →
  Manager.wf (w_mgr w') ∧
  (Manager.settled id snap (w_mgr w) → Manager.settled id snap (w_mgr w')).

#[local] Instance spares_preorder : PreOrder spares.
Proof.
  split; [by intros w|]. intros w1 w2 w3 H12 H23 Hwf.
  destruct (H12 Hwf) as [Hwf2 ?]. destruct (H23 Hwf2). auto.
Qed.

Lemma iter_spares r id' key pid rd l : id' ≠ id → Keeps spares (runSync_iter r id' key pid rd l).
Proof.
  intros Hne. apply iter_keeps.
  - apply _.
  - by intros w w' [d ->] Hwf.
  - intros t w Hwf. split; [by apply (Manager.exec_op_wf (Manager.OpSetTotal id' t))|].
    by apply Manager.settled_set_total.
  - intros w Hwf. split; [by apply (Manager.exec_op_wf (Manager.OpIncrProcessed id'))|].
    by apply Manager.settled_incr.
  - by intros w Hwf.
Qed.

Lemma settled_step s s' :
  Manager.State snap ≠ Manager.JobStateRunning → sys_inv s → sys_step svc s s' →
  Manager.settled id snap (w_mgr (world s)) → Manager.settled id snap (w_mgr (world s')).
Proof.
  intros Hst Hinv Hstep Hset. pose proof (inv_wf _ Hinv) as Hwf.
  destruct Hstep as [projects uuid n1 n2 key s r g w' Hu Heq
                    |i g pgRepo rd elapsed now s g' w' Hi Hrepo _ Heq]; simpl in *.
  - pose proof (SyncProject_mgr projects uuid n1 n2 key (world s)) as Hm. rewrite Heq in Hm.
    simpl in Hm. destruct Hm as [-> | ->]; [done|]. by apply Manager.settled_start.
  - assert (Hne : live g = true → g_syncID g ≠ id).
    { intros Hl <-. pose proof (inv_key _ Hinv g (list_elem_of_lookup_2 _ _ _ Hi) Hl) as Hk.
      apply Manager.running_key_some in Hk as (sn & Hsn & Hr & _).
      destruct Hset as [_ [?|?]]; congruence. }
    unfold background in Heq. destruct g as [id' key pid ph]. unfold live in Hne. simpl in *.
    destruct ph as [l n|err|err|failed]; unfold bind, ret in Heq.
    + pose proof (iter_spares pgRepo id' key pid rd l (Hne eq_refl) (world s) Hwf) as [_ Hs].
      destruct (runSync_iter pgRepo id' key pid rd l (world s)) as [[l'|e] w1]; simplify_eq/=; auto.
    + by simplify_eq/=.
    + simplify_eq/=. destruct err as [e|].
      * by apply (Manager.settled_finish _ (Some (error_text e))); [..|apply Hne|].
      * by apply (Manager.settled_finish _ None); [..|apply Hne|].
    + by simplify_eq/=.
Qed.

Lemma settled_steps s s' :
  Manager.State snap ≠ Manager.JobStateRunning → sys_inv s → rtc (sys_step svc) s s' →
  Manager.settled id snap (w_mgr (world s)) → Manager.settled id snap (w_mgr (world s')).
Proof.
  intros Hst Hinv Hr. induction Hr as [|s1 s2 s3 Hstep _ IH]; [done|]. intros Hset.
  apply IH; [by eapply sys_step_inv|by eapply settled_step].
Qed.
End Settled.

(** A job of the store reports one of the three states. *)
Lemma poll_state s id r :
  Manager.wf (w_mgr (world s)) → poll id s = Ok r → ST_State r ≠ SYNC_STATE_UNSPECIFIED.
Proof.
  intros Hwf (_ & snap & Hs & ->)%poll_status. simpl.
  apply Manager.status_some in Hs as (l & j & _ & Hj & -> & _); [|done].
  destruct (Manager.wf_state _ Hwf l j Hj) as [Hst|[Hst|Hst]]; simpl; by rewrite Hst.
Qed.

(** ** Properties *)

(** C35. A download that is refused starts nothing: the registry and the
    background syncs are as before, and the status says why.  A missing key is
    InvalidArgument; a failure to list Jira's projects is Canceled if it comes
    from a cancelled context and Internal otherwise (NotFound only if the error
    says so); a key that is not among the projects listed is NotFound; in these
    cases the database is not touched either. *)
Theorem download_refused pgRepo env key s e s' :
  repo svc = inl pgRepo → download env key s = (Err e, s') →
  w_mgr (world s') = w_mgr (world s) ∧ syncs s' = syncs s ∧
  (key = ""%string → status_code e = InvalidArgument ∧ s' = s) ∧
  (key ≠ ""%string →
   match env_GetProjects env "" defaultProjectsLimit 0 with
   | Err ge => s' = s ∧
       status_code e = if errors_is ge context_Canceled then Canceled
                       else if errors_is ge ErrProjectNotFound then NotFound else Internal
   | Ok ps => find_project key (Values ps) = None → s' = s ∧ status_code e = NotFound
   end).
Proof.
  intros Hrepo. unfold download, DownloadProject, bind, ret. destruct s as [w gs].
  case_decide as Hk; [by intros [= <- <-]|]. simpl. unfold SyncProject. rewrite Hrepo.
  unfold bind. set (ps := env_GetProjects env "" defaultProjectsLimit 0).
  destruct (ensureProject_db pgRepo ps key w) as [d Hd].
  destruct (ensureProject pgRepo ps key w) as [[pid|err] w1] eqn:He; simpl in Hd; subst w1.
  - unfold start_job. simpl.
    destruct (Manager.Start _ _ _ key (w_mgr w)) as [m r]. by destruct (Manager.Started r).
  - unfold ret. intros [= <- <-]. rewrite app_nil_r. split_and!; [done..|]. intros _.
    unfold ensureProject in He. destruct ps as [ps|ge].
    + intros Hf. rewrite Hf in He. injection He as <- Hw. by rewrite <- Hw.
    + injection He as <- Hw. rewrite <- Hw. split; [done|]. unfold toGRPCError. simpl.
      by destruct (errors_is ge context_Canceled), (errors_is ge ErrProjectNotFound).
Qed.

(** What a successful download leaves. *)
Lemma download_polls w s env key reply s' :
  fresh w → rtc (sys_step svc) (initial w) s →
  env_uuid env ∉ Manager.ids (w_mgr (world s)) →
  download env key s = (Ok reply, s') → DL_SyncId reply ≠ ""%string →
  (∃ st, poll (DL_SyncId reply) s' = Ok st ∧ ST_SyncId st = DL_SyncId reply ∧
     ST_State st = SYNC_STATE_RUNNING ∧ ST_ProjectKey st = key) ∧
  (∃ g, g ∈ syncs s' ∧ live g = true ∧ g_syncID g = DL_SyncId reply ∧ g_projectKey g = key) ∧
  (DL_Status reply = "running"%string ∧ length (syncs s') = S (length (syncs s)) ∨
   DL_Status reply = "already_running"%string ∧ syncs s' = syncs s).
Proof.
  intros Hf Hr Hu Hd Hne. pose proof (sys_reachable_inv svc w s Hf Hr) as Hinv.
  assert (Hinv' : sys_inv s').
  { destruct (download_step env key s _ s' Hu Hd) as [-> |Hs]; [done|by eapply sys_step_inv]. }
  assert (Hrun : Manager.running_key (DL_SyncId reply) (w_mgr (world s')) = Some key ∧
    (DL_Status reply = "running"%string ∧ length (syncs s') = S (length (syncs s)) ∨
     DL_Status reply = "already_running"%string ∧ syncs s' = syncs s)).
  { unfold download, DownloadProject, bind, ret in Hd. case_decide; [done|]. simpl in Hd.
    destruct (SyncProject _ _ _ _ _ _ _) as [[[r|e] g] w'] eqn:He; [|done].
    injection Hd as <- <-. simpl.
    pose proof (Manager.unused_absent _ _ (inv_wf _ Hinv) Hu) as Hnone.
    destruct (SyncProject_ok svc _ _ _ _ _ _ _ _ _ (inv_wf _ Hinv) Hnone He) as (ps & proj & _ & _ & _ & [H1|H1]).
    - destruct H1 as (-> & -> & _ & Hk). split; [done|]. right. by rewrite app_nil_r.
    - destruct H1 as (-> & -> & -> & _ & Hk). split; [done|]. left. rewrite length_app. simpl. by rewrite Nat.add_1_r. }
  destruct Hrun as [Hk Hst]. split_and!; [| |done].
  - apply Manager.running_key_some in Hk as (snap & Hs & Hrn & Hkey).
    pose proof (Manager.status_some _ _ _ (inv_wf _ Hinv') Hs) as (l & j & _ & _ & Hj & Hid).
    eexists. split; [apply poll_status; eauto|]. simpl. rewrite Hrn, Hj. simpl. subst. auto.
  - pose proof (inv_owned _ Hinv' _ _ Hk) as (g & Hg & Hl & Hid)%elem_of_live_ids.
    exists g. split_and!; [done..|]. pose proof (inv_key _ Hinv' g Hg Hl) as Hgk. congruence.
Qed.

(** C19. A download that succeeds can be polled at once: whether it started a
    sync or found one running, the sync_id it returns is reported RUNNING with
    the requested project, and a background sync of that project owns it.  The
    download is asynchronous, as the comment on [SyncProject] says: its reply
    says running or already_running, before a search was made.  (The tests
    TestE2E_DownloadProject_HappyPath and _JiraError of
    tests/e2e/connector_test.go expect a synchronous one, a reply completed with
    the rows stored, or Internal when the search answers 503; the code does not
    do so: see the findings.) *)
Theorem download_then_poll w s env key reply s' :
  fresh w → rtc (sys_step svc) (initial w) s →
  env_uuid env ∉ Manager.ids (w_mgr (world s)) →
  download env key s = (Ok reply, s') → DL_SyncId reply ≠ ""%string →
  (∃ st, poll (DL_SyncId reply) s' = Ok st ∧ ST_SyncId st = DL_SyncId reply ∧
     ST_State st = SYNC_STATE_RUNNING ∧ ST_ProjectKey st = key) ∧
  (∃ g, g ∈ syncs s' ∧ live g = true ∧ g_syncID g = DL_SyncId reply ∧ g_projectKey g = key) ∧
  (DL_Status reply = "running"%string ∧ length (syncs s') = S (length (syncs s)) ∨
   DL_Status reply = "already_running"%string ∧ syncs s' = syncs s).
Proof. apply download_polls. Qed.

(** C21. A reported end is final: once a poll says COMPLETED or FAILED (the only
    states but RUNNING that are ever reported), every later poll of that sync_id,
    after any steps of the system, gets the same response (state, error and
    counters), or NotFound once the job has been evicted; never RUNNING again. *)
Theorem status_final w s s' id r :
  fresh w → rtc (sys_step svc) (initial w) s → rtc (sys_step svc) s s' →
  poll id s = Ok r → ST_State r ≠ SYNC_STATE_RUNNING →
  (ST_State r = SYNC_STATE_COMPLETED ∨ ST_State r = SYNC_STATE_FAILED) ∧
  (poll id s' = Ok r ∨ ∃ e, poll id s' = Err (EStatus NotFound e)).
Proof.
  intros Hf Hr Hr' Hp Hst. pose proof (sys_reachable_inv svc w s Hf Hr) as Hinv.
  pose proof (poll_state s id r (inv_wf _ Hinv) Hp) as Hun.
  split; [destruct (ST_State r); auto; done|].
  apply poll_status in Hp as (Hne & snap & Hs & ->).
  assert (Hset : Manager.settled id snap (w_mgr (world s))).
  { split; [|by left]. apply Manager.status_some in Hs as (l & j & _ & Hj & _ & <-);
      [|apply (inv_wf _ Hinv)]. apply list_elem_of_fmap_2. by eapply list_elem_of_lookup_2. }
  apply (settled_steps id snap s s') in Hset; [|by intros Hrn; simpl in Hst; rewrite Hrn in Hst|done..].
  destruct Hset as [_ [Hs'|Hs']]; [left; apply poll_status; eauto|right].
  unfold poll, GetSyncStatus. simpl. rewrite decide_False by done. rewrite Hs'. eauto.
Qed.
End Wired.

(** ** Witnesses: a project downloaded twice, and a sync that ends *)

#[local] Existing Instance demo_text.

Definition demo_env (uuid : string) : request_env :=
  mkRequestEnv (λ _ _ _, demo_projects) uuid 0 0.

(** The system after a step of the first background sync. *)
Definition advance (rd : round) (s : System) : System :=
  match syncs s with
  | g :: gs =>
    let '(g', w) := background New rd 1 1 g (world s) in
    mkSystem w (match g' with Some g' => g' :: gs | None => gs end)
  | [] => s
  end.

(** Nothing to sync. *)
Definition empty_round : round :=
  mkRound None (λ _ _ _, Ok (mkSearchResponse [] 0 0 50)) (λ _ _, Ok []).

Lemma empty_round_fetches svc g : fetches svc g empty_round.
Proof. unfold fetches. destruct (g_phase g); [|done..]. by intros resp [= <-]. Qed.

Lemma advance_steps rd s :
  (∀ g, fetches demo_service g rd) → rtc (sys_step demo_service) s (advance rd s).
Proof.
  intros Hf. unfold advance. destruct s as [w [|g gs]]; [apply rtc_refl|]. simpl.
  destruct (background New rd 1 1 g w) as [g' w'] eqn:He. apply rtc_once.
  pose proof (sys_background demo_service 0 g New rd 1 1 (mkSystem w (g :: gs)) g' w'
                eq_refl eq_refl (Hf g) He) as Hs.
  by destruct g'.
Qed.

Definition demo_running : System := request "u1" "A" (initial demo_world).
Definition demo_ended : System :=
  advance empty_round (advance empty_round (advance empty_round demo_running)).
Definition demo_later : System := request "u2" "A" demo_ended.

Lemma demo_running_reachable : rtc (sys_step demo_service) (initial demo_world) demo_running.
Proof.
  apply rtc_once, request_step. apply (bool_decide_unpack _). by vm_compute.
Qed.

Lemma demo_ended_reachable : rtc (sys_step demo_service) (initial demo_world) demo_ended.
Proof.
  unfold demo_ended. do 3 (etransitivity; [|apply advance_steps, empty_round_fetches]).
  apply demo_running_reachable.
Qed.

Lemma download_refused_witness :
  ∃ e s', download demo_service (demo_env "u1") "B" (initial demo_world) = (Err e, s') ∧
    s' = initial demo_world ∧ status_code e = NotFound.
Proof.
  destruct (download demo_service (demo_env "u1") "B" (initial demo_world)) as [[r|e] s'] eqn:He;
    [vm_compute in He; discriminate|]. exists e, s'.
  destruct (download_refused demo_service New _ _ _ e s' eq_refl He) as (_ & _ & _ & H).
  split; [reflexivity|]. apply H; [discriminate|vm_compute; reflexivity].
Defined.

Lemma download_then_poll_witness :
  ∃ reply s', download demo_service (demo_env "u2") "A" demo_running = (Ok reply, s') ∧
    DL_SyncId reply = "u1"%string ∧
    ∃ st, poll demo_service "u1" s' = Ok st ∧ ST_State st = SYNC_STATE_RUNNING.
Proof.
  assert (Hu : env_uuid (demo_env "u2") ∉ Manager.ids (w_mgr (world demo_running)))
    by (apply (bool_decide_unpack _); vm_compute; exact I).
  destruct (download demo_service (demo_env "u2") "A" demo_running) as [[reply|e] s'] eqn:He;
    [|vm_compute in He; discriminate].
  assert (Hid : DL_SyncId reply = "u1"%string)
    by (vm_compute in He; injection He as <- _; reflexivity).
  exists reply, s'. split; [reflexivity|]. split; [exact Hid|].
  destruct (download_then_poll demo_service demo_world demo_running (demo_env "u2") "A" reply s'
    demo_fresh demo_running_reachable Hu He) as [(st & Hp & _ & Hst & _) _];
    [rewrite Hid; discriminate|].
  exists st. rewrite Hid in Hp. split; [exact Hp|exact Hst].
Defined.

Lemma status_final_witness :
  ∃ r, poll demo_service "u1" demo_ended = Ok r ∧ ST_State r = SYNC_STATE_COMPLETED ∧
    (poll demo_service "u1" demo_later = Ok r ∨ ∃ e, poll demo_service "u1" demo_later = Err (EStatus NotFound e)).
Proof.
  destruct (poll demo_service "u1" demo_ended) as [r|e] eqn:Hp; [|vm_compute in Hp; discriminate].
  assert (Hr : ST_State r = SYNC_STATE_COMPLETED)
    by (vm_compute in Hp; injection Hp as <-; reflexivity).
  exists r. split; [reflexivity|]. split; [exact Hr|].
  refine (proj2 (status_final demo_service demo_world demo_ended demo_later "u1" r demo_fresh
    demo_ended_reachable _ Hp _)); [|rewrite Hr; discriminate].
  apply rtc_once, request_step. apply (bool_decide_unpack _). vm_compute. exact I.
Defined.
