(* ===== verification/Client.v ===== *)
(** * The test client (cmd/internal/cli/client/client.go)

    A command that lists projects or starts a download over gRPC and prints the
    reply.  The generated stub is the interface [ConnectorServiceClient]; the
    connector's own handler implements it on a running system.  Logs go to the
    standard error and are left out. *)

From S2P Require Import Prelude GoLang GoTime Errors JiraTypes RawModels Mapper Repository.
From S2P Require Metrics Manager.
From S2P Require Import Sync SyncJobs Handler GoFlag.
Local Open Scope Z_scope.
Local Open Scope go_scope.

(** ** The client *)

Class ConnectorServiceClient (W : Type) := {
  call_GetAvailableProjects : GetAvailableProjectsRequest → M W (res error GetAvailableProjectsResponse);
  call_DownloadProject : string → M W (res error DownloadProjectResponse);
}.

Definition newline : string := String (of_byte 10) EmptyString.
Definition format_bool (b : bool) : string := if b then "true" else "false".

(** A project as it is printed. *)
Definition project_lines (p : JiraProject) : string :=
  ("  [" ++ JP_Key p ++ "] " ++ JP_Title p ++ newline ++ "    " ++ JP_Self p ++ newline)%string.

Section Client.
Context {W : Type} `{ConnectorServiceClient W}.

(** The exit status, and what is printed.

    go: cmd/internal/cli/client/client.go 63-91 listProjects *)
Definition listProjects (search : string) (limit page : Z) : M W (Z * string) :=
  let* resp := call_GetAvailableProjects (mkProjectsRequest search (int32 limit) (int32 page)) in
  match resp with
  | Err _ => ret (1, ""%string)
  | Ok resp =>
    let projects := Projects resp in
    ret (0, ("Found " ++ FormatInt (Z.of_nat (length projects)) ++ " projects (total: "
             ++ FormatInt (ProjectsReplyTotal resp) ++ ", is_last: "
             ++ format_bool (ProjectsReplyIsLast resp) ++ "):" ++ newline
             ++ String.concat "" (project_lines <$> projects))%string)
  end.

(** go: cmd/internal/cli/client/client.go 93-111 downloadProject *)
Definition downloadProject (key : string) : M W (Z * string) :=
  let* resp := call_DownloadProject key in
  match resp with
  | Err _ => ret (1, ""%string)
  | Ok resp =>
    ret (0, ("Sync ID:   " ++ DL_SyncId resp ++ newline ++ "Status:    " ++ DL_Status resp ++ newline
             ++ "Message:   " ++ DL_Message resp ++ newline)%string)
  end.

(** go: cmd/internal/cli/client/client.go 15-17 defaultLimit *)
Definition defaultLimit : Z := 10.

(** go: cmd/internal/cli/client/client.go 25-30 run *)
Definition client_flags : flags :=
  <["addr" := FString "localhost:50052"]> (<["cmd" := FString "projects"]>
  (<["key" := FString ""]> (<["search" := FString ""]>
  (<["limit" := FInt defaultLimit]> {["page" := FInt 0]})))).

Definition string_flag (fs : flags) (name : string) : string :=
  match fs !! name with Some (FString v) => v | _ => ""%string end.
Definition int_flag (fs : flags) (name : string) : Z :=
  match fs !! name with Some (FInt v) => v | _ => 0 end.

(** [dial] is [grpc.NewClient]'s error for an address.

    go: cmd/internal/cli/client/client.go 24-61 run *)
Definition run (dial : string → option error) (args : list string) : M W (Z * string) :=
  match Parse args client_flags with
  | ExitWith status => ret (status, ""%string)
  | Parsed fs =>
    match dial (string_flag fs "addr") with
    | Some _ => ret (1, ""%string)
    | None =>
      let cmd := string_flag fs "cmd" in
      if decide (cmd = "projects"%string) then
        listProjects (string_flag fs "search") (int_flag fs "limit") (int_flag fs "page")
      else if decide (cmd = "download"%string) then
        if decide (string_flag fs "key" = ""%string) then ret (1, ""%string)
        else downloadProject (string_flag fs "key")
      else ret (1, ""%string)
    end
  end.

(** The parsed flags of the two command lines of interest. *)
Lemma Parse_download key :
  Parse ["-cmd"; "download"; "-key"; key]%string client_flags
  = Parsed (<["key" := FString key]> (<["cmd" := FString "download"]> client_flags))%string.
Proof.
  rewrite (Parse_flag "cmd" "download" _ _ (FString "projects") (FString "download")) by done.
  by rewrite (Parse_flag "key" key [] _ (FString "") (FString key)).
Qed.

Lemma Parse_projects search limit page :
  in_int64 limit → in_int64 page →
  Parse ["-search"; search; "-limit"; FormatInt limit; "-page"; FormatInt page]%string client_flags
  = Parsed (<["page" := FInt page]> (<["limit" := FInt limit]>
      (<["search" := FString search]> client_flags)))%string.
Proof.
  intros Hl Hp.
  rewrite (Parse_flag "search" search _ _ (FString "") (FString search)) by done.
  rewrite (Parse_flag "limit" (FormatInt limit) _ _ (FInt 10) (FInt limit))
    by (try done; simpl; by rewrite ParseInt0_FormatInt).
  by rewrite (Parse_flag "page" (FormatInt page) [] _ (FInt 0) (FInt page))
    by (try done; simpl; by rewrite ParseInt0_FormatInt).
Qed.
End Client.

(** ** Against the connector itself *)

Section Wired.
Context `{GoText} (svc : Service) (env : request_env).

(** Calls that reach the server, through its interceptor, and whose reply comes
    back. *)
#[local] Instance System_client : ConnectorServiceClient System := {|
  call_GetAvailableProjects req :=
    let* r := @LoggingInterceptor System _ _ (@GetAvailableProjects _ (System_service svc env)) req in
    ret r.1;
  call_DownloadProject key :=
    let* r := @LoggingInterceptor System _ _ (download svc env) key in ret r.1;
|}.

Definition client_run := run (W := System).

(** What the reply of a listing is printed as. *)
Definition printed (resp : ProjectsResponse) : string :=
  ("Found " ++ FormatInt (Z.of_nat (length (Values resp))) ++ " projects (total: "
   ++ FormatInt (int32 (ProjectsTotal resp)) ++ ", is_last: " ++ format_bool (IsLast resp) ++ "):"
   ++ newline ++ String.concat ""
        ((λ p, project_lines (mkJiraProject (ProjectID p) (ProjectKey p) (ProjectName p) (ProjectSelf p)))
           <$> Values resp))%string.

(** ** Properties *)

(** C20. A download from the command line.  [-cmd download -key K], when the address
    can be dialled, is one download request to the service: status 0 exactly when
    the service accepted it; the sync id that is then printed can be polled at
    once and is reported RUNNING for K; else status 1 and nothing is printed.
    Status 0 does not say that the sync has ended or will end well: the reply
    comes before a search is made (tests/e2e/connector_test.go expects the reply
    completed, and an error when the search fails, which the asynchronous code
    does not give: see the findings). *)
Theorem client_download w s dial key status out s' :
  fresh w → rtc (sys_step svc) (initial w) s → env_uuid env ∉ Manager.ids (w_mgr (world s)) →
  dial "localhost:50052"%string = None → key ≠ ""%string →
  client_run dial ["-cmd"; "download"; "-key"; key]%string s = ((status, out), s') →
  (status = 0 ∧ ∃ reply, download svc env key s = (Ok reply, s') ∧
     out = ("Sync ID:   " ++ DL_SyncId reply ++ newline ++ "Status:    " ++ DL_Status reply
            ++ newline ++ "Message:   " ++ DL_Message reply ++ newline)%string ∧
     (DL_SyncId reply ≠ ""%string →
      ∃ st, poll svc (DL_SyncId reply) s' = Ok st ∧ ST_State st = SYNC_STATE_RUNNING ∧
        ST_ProjectKey st = key)) ∨
  (status = 1 ∧ out = ""%string ∧ ∃ e, download svc env key s = (Err e, s')).
Proof.
  intros Hf Hr Hu Hd Hk. unfold client_run, run. rewrite Parse_download.
  change (string_flag _ "addr") with "localhost:50052"%string.
  change (string_flag (<["key" := FString key]> _)%string "cmd") with "download"%string.
  change (string_flag (<["key" := FString key]> _)%string "key") with key.
  rewrite Hd, decide_False, decide_True, decide_False by done.
  unfold downloadProject, bind, LoggingInterceptor, ret. simpl.
  unfold bind, LoggingInterceptor, bind, ret.
  destruct (download svc env key s) as [[reply|e] s1] eqn:He; intros [= <- <- <-]; [left|right].
  - split; [done|]. exists reply. split_and!; [done..|]. intros Hne.
    destruct (download_polls svc w s env key reply s1 Hf Hr Hu He Hne) as [(st & ? & _ & ? & ?) _].
    by exists st.
  - split_and!; [done..|]. by exists e.
Qed.

(** C31. A listing from the command line asks Jira for the search text given and for
    the limit and page given, each wrapped to 32 bits on the way (the numbers
    themselves when they fit), prints the projects of the answer and changes
    nothing. *)
Theorem client_projects s dial search limit page :
  in_int64 limit → in_int64 page → dial "localhost:50052"%string = None →
  client_run dial ["-search"; search; "-limit"; FormatInt limit; "-page"; FormatInt page]%string s
  = match env_GetProjects env search (int32 limit) (int32 page) with
    | Ok resp => ((0, printed resp), s)
    | Err _ => ((1, ""%string), s)
    end ∧
  (in_int32 limit → int32 limit = limit) ∧ (in_int32 page → int32 page = page).
Proof.
  intros Hl Hp Hd. split; [|split; apply int32_id]. unfold client_run, run.
  rewrite Parse_projects by done.
  change (string_flag _ "addr") with "localhost:50052"%string.
  change (string_flag _ "cmd") with "projects"%string.
  change (string_flag (<["page" := _]> _)%string "search") with search.
  change (int_flag _ "limit") with limit.
  change (int_flag _ "page") with page.
  rewrite Hd, decide_True by done.
  unfold listProjects, bind, LoggingInterceptor, ret. simpl.
  unfold LoggingInterceptor, GetAvailableProjects, bind, ret. simpl.
  unfold ret, Sync.GetAvailableProjects.
  destruct (env_GetProjects env search (int32 limit) (int32 page)) as [resp|e]; simpl; [|done].
  unfold printed. rewrite length_fmap, <- list_fmap_compose. done.
Qed.
End Wired.

(** ** Witnesses *)

#[local] Existing Instance demo_text.

Lemma client_download_witness :
  ∃ s', client_run demo_service (demo_env "u1") (λ _, None)
          ["-cmd"; "download"; "-key"; "A"]%string (initial demo_world)
        = ((0, ("Sync ID:   u1" ++ newline ++ "Status:    running" ++ newline ++
                "Message:   sync started for project A" ++ newline)%string), s') ∧
    ∃ st, poll demo_service "u1" s' = Ok st ∧ ST_State st = SYNC_STATE_RUNNING.
Proof.
  destruct (client_run demo_service (demo_env "u1") (λ _, None)
    ["-cmd"; "download"; "-key"; "A"]%string (initial demo_world)) as [[status out] s'] eqn:Hrun.
  assert (Hu : env_uuid (demo_env "u1") ∉ Manager.ids (w_mgr (world (initial demo_world))))
    by (apply (bool_decide_unpack _); vm_compute; exact I).
  destruct (client_download demo_service (demo_env "u1") demo_world (initial demo_world) (λ _, None) "A"
    status out s' demo_fresh (rtc_refl _ _) Hu eq_refl ltac:(discriminate) Hrun)
    as [(-> & reply & Hd & -> & Hp)|(-> & _ & e & Hd)]; [|vm_compute in Hd; discriminate].
  assert (Hid : reply = mkDownloadReply "10" "u1" "running" "sync started for project A")
    by (vm_compute in Hd; injection Hd as <- _; reflexivity).
  subst reply. exists s'. split; [reflexivity|].
  destruct Hp as (st & Hp & Hst & _); [discriminate|]. exists st. split; [exact Hp|exact Hst].
Defined.

Lemma client_projects_witness :
  client_run demo_service (demo_env "u1") (λ _, None)
    ["-search"; "al"; "-limit"; FormatInt 4294967306; "-page"; FormatInt 0]%string
    (initial demo_world)
  = ((0, ("Found 1 projects (total: 1, is_last: true):" ++ newline ++ "  [A] Alpha" ++ newline
          ++ "    " ++ newline)%string), initial demo_world) ∧
  int32 4294967306 = 10.
Proof.
  split; [|reflexivity].
  destruct (client_projects demo_service (demo_env "u1") (initial demo_world) (λ _, None) "al"
    4294967306 0) as [H _]; [split; discriminate || reflexivity|split; discriminate || reflexivity|reflexivity|].
  rewrite H. vm_compute. reflexivity.
Defined.
