(* ===== verification/Database.v ===== *)
(** * Opening the database (internal/database/connection.go)

    Handles ([*sql.DB]) are pointers into a store that remembers their settings
    and whether they are open.  database/sql, pgx and golang-migrate are the
    environment: functions of the connection string. *)

From S2P Require Import Prelude GoLang Errors Config.
Local Open Scope Z_scope.
Local Open Scope go_scope.

(** ** Connection strings *)

(** [net.JoinHostPort] *)
Definition JoinHostPort (host port : string) : string :=
  if existsb (Z.eqb 58) (bytes host) then ("[" ++ host ++ "]:" ++ port)%string
  else (host ++ ":" ++ port)%string.

(** [strings.Replace(s, old, new, 1)] *)
Fixpoint Replace1 (s old new : string) : string :=
  if String.prefix old s
  then (new ++ String.substring (String.length old) (String.length s - String.length old) s)%string
  else match s with
       | EmptyString => EmptyString
       | String c s' => String c (Replace1 s' old new)
       end.

(** The connection string after its scheme. *)
Definition authority (cfg : DBConfig) : string :=
  (User cfg ++ ":" ++ Password cfg ++ "@" ++ JoinHostPort (Host cfg) (FormatInt (Port cfg))
   ++ "/" ++ DBName cfg ++ "?sslmode=disable")%string.

(** go: internal/database/connection.go 34-41 NewConnection *)
Definition dsn (cfg : DBConfig) : string := ("postgres://" ++ authority cfg)%string.

(** ** Handles *)

(** go: internal/database/connection.go 27-31 maxOpenConns *)
Definition maxOpenConns : Z := 25.
Definition maxIdleConns : Z := 5.
Definition connMaxLifetime : Z := 5 * 60 * 1000000000.

Record handle := mkHandle {
  isOpen : bool; openLimit : Z; idleLimit : Z; lifetime : Z }.

(** The handles of the process and the migrators not closed yet. *)
Record Pools := mkPools { handles : list handle; migrators : Z }.

Definition open_handles (p : Pools) : list handle := filter (λ h, isOpen h = true) (handles p).

Definition update (l : nat) (f : handle → handle) : M Pools unit :=
  modify (λ p, mkPools (alter f l (handles p)) (migrators p)).

Definition Close (l : nat) : M Pools unit :=
  update l (λ h, mkHandle false (openLimit h) (idleLimit h) (lifetime h)).
Definition SetMaxOpenConns (l : nat) (n : Z) : M Pools unit :=
  update l (λ h, mkHandle (isOpen h) n (idleLimit h) (lifetime h)).
Definition SetMaxIdleConns (l : nat) (n : Z) : M Pools unit :=
  update l (λ h, mkHandle (isOpen h) (openLimit h) n (lifetime h)).
Definition SetConnMaxLifetime (l : nat) (d : Z) : M Pools unit :=
  update l (λ h, mkHandle (isOpen h) (openLimit h) (idleLimit h) d).

(** What the libraries do with a connection string; [source_err] is the error
    of the embedded migrations' driver. *)
Record db_env := mkDbEnv {
  open_err : string → option error;
  ping_err : string → option error;
  source_err : option error;
  init_err : string → option error;
  up_err : string → option error;
}.

Section Database.
Context (env : db_env).

(** [sql.Open]: a handle with the default limits. *)
Definition Open (conn : string) : M Pools (res error nat) := λ p,
  match open_err env conn with
  | Some err => (Err err, p)
  | None => (Ok (length (handles p)), mkPools (handles p ++ [mkHandle true 0 2 0]) (migrators p))
  end.

(** [migrator.Close] is deferred once the migrator exists.

    go: internal/database/connection.go 69-89 runMigrations *)
Definition runMigrations (originalDSN : string) : M Pools (option error) :=
  let migrateDSN := Replace1 originalDSN "postgres://" "pgx5://" in
  match source_err env with
  | Some err => ret (Some (wrap "create iofs driver" err))
  | None =>
    match init_err env migrateDSN with
    | Some err => ret (Some (wrap "init migrate" err))
    | None =>
      let* _ := modify (λ p, mkPools (handles p) (migrators p + 1)) in
      let r := match up_err env migrateDSN with
               | Some err => if errors_is err migrate_ErrNoChange then None
                             else Some (wrap "apply migrations" err)
               | None => None
               end in
      let* _ := modify (λ p, mkPools (handles p) (migrators p - 1)) in
      ret r
    end
  end.

(** go: internal/database/connection.go 33-67 NewConnection *)
Definition NewConnection (cfg : DBConfig) : M Pools (res error nat) :=
  let* database := Open (dsn cfg) in
  match database with
  | Err err => ret (Err (wrap "open database" err))
  | Ok database =>
    let* _ := SetMaxOpenConns database maxOpenConns in
    let* _ := SetMaxIdleConns database maxIdleConns in
    let* _ := SetConnMaxLifetime database connMaxLifetime in
    match ping_err env (dsn cfg) with
    | Some err => let* _ := Close database in ret (Err (wrap "ping database" err))
    | None =>
      let* err := runMigrations (dsn cfg) in
      match err with
      | Some err => let* _ := Close database in ret (Err (wrap "run migrations" err))
      | None => ret (Ok database)
      end
    end
  end.

(** ** Lemmas *)

Lemma string_prefix_app s t : String.prefix s (s ++ t)%string = true.
Proof. induction s as [|c s IH]; simpl; [by destruct t|]. by destruct (Ascii.ascii_dec c c). Qed.

Lemma substring_all s : String.substring 0 (String.length s) s = s.
Proof. induction s as [|c s IH]; simpl; [done|]. by rewrite IH. Qed.

Lemma substring_app s t :
  String.substring (String.length s) (String.length (s ++ t) - String.length s) (s ++ t)%string = t.
Proof.
  induction s as [|c s IH]; simpl; [rewrite Nat.sub_0_r; apply substring_all|exact IH].
Qed.

Lemma Replace1_prefix old new t : Replace1 (old ++ t)%string old new = (new ++ t)%string.
Proof.
  assert (Hu : ∀ s, String.prefix old s = true → Replace1 s old new
    = (new ++ String.substring (String.length old) (String.length s - String.length old) s)%string)
    by (intros s Hs; destruct s; cbn [Replace1]; by rewrite Hs).
  rewrite Hu by apply string_prefix_app. by rewrite substring_app.
Qed.

(** The handle as [NewConnection] configures it. *)
Definition configured (is_open : bool) : handle :=
  mkHandle is_open maxOpenConns maxIdleConns connMaxLifetime.

Lemma alter_last {A} (f : A → A) l x : alter f (length l) (l ++ [x]) = l ++ [f x].
Proof. induction l as [|y l IH]; simpl; [done|]. by rewrite <- IH. Qed.

Lemma open_handles_closed hs b m m' :
  open_handles (mkPools (hs ++ [configured false]) m) = open_handles (mkPools hs m') ∧
  b = false ∨ b = true.
Proof.
  destruct b; [by right|]. left. split; [|done].
  unfold open_handles. simpl. by rewrite filter_app, app_nil_r.
Qed.

Lemma runMigrations_result cfg p :
  runMigrations (dsn cfg) p
  = (match source_err env, init_err env ("pgx5://" ++ authority cfg)%string with
     | Some err, _ => Some (wrap "create iofs driver" err)
     | None, Some err => Some (wrap "init migrate" err)
     | None, None =>
       match up_err env ("pgx5://" ++ authority cfg)%string with
       | Some err => if errors_is err migrate_ErrNoChange then None
                     else Some (wrap "apply migrations" err)
       | None => None
       end
     end, p).
Proof.
  unfold runMigrations, dsn. rewrite Replace1_prefix. destruct p as [hs m].
  destruct (source_err env); [done|]. destruct (init_err env _); [done|].
  unfold bind, modify, ret. simpl. by rewrite Z.add_simpl_r.
Qed.

Lemma NewConnection_result cfg p :
  let '(r, p') := NewConnection cfg p in
  migrators p' = migrators p ∧
  match r with
  | Err _ => open_handles p' = open_handles p
  | Ok l => l = length (handles p) ∧ handles p' = handles p ++ [configured true] ∧
      open_err env (dsn cfg) = None ∧ ping_err env (dsn cfg) = None ∧
      source_err env = None ∧ init_err env ("pgx5://" ++ authority cfg)%string = None ∧
      match up_err env ("pgx5://" ++ authority cfg)%string with
      | Some e => errors_is e migrate_ErrNoChange = true
      | None => True
      end
  end.
Proof.
  destruct p as [hs m]. unfold NewConnection, Open. unfold bind at 1.
  destruct (open_err env (dsn cfg)); [done|]. cbn [handles].
  unfold bind at 1 2 3, SetMaxOpenConns, SetMaxIdleConns, SetConnMaxLifetime, update, modify.
  cbn [handles migrators]. rewrite !alter_last. cbn [isOpen openLimit idleLimit lifetime].
  change (mkHandle true _ _ _) with (configured true).
  assert (Hclose : ∀ e : error, let '(r, p') :=
    (let* _ := Close (length hs) in ret (Err (T := nat) e)) (mkPools (hs ++ [configured true]) m) in
    migrators p' = m ∧ r = Err e ∧ open_handles p' = open_handles (mkPools hs m)).
  { intros e. unfold bind, Close, update, modify, ret. cbn [handles migrators].
    rewrite alter_last. split_and!; [done..|].
    by destruct (open_handles_closed hs false m m) as [[? _]|?]. }
  destruct (ping_err env (dsn cfg)) as [e|].
  { specialize (Hclose (wrap "ping database" e)).
    destruct (bind _ _ _) as [r p']. by destruct Hclose as (-> & -> & ?). }
  unfold bind at 1. rewrite runMigrations_result.
  destruct (source_err env) as [e|]; [|destruct (init_err env _) as [e|];
    [|destruct (up_err env _) as [e|] eqn:Hup; [destruct (errors_is e _) eqn:Hn|]]].
  all: try done.
  all: match goal with |- context [wrap "run migrations" ?x] =>
         specialize (Hclose (wrap "run migrations" x)) end;
    destruct (bind _ _ _) as [r p']; by destruct Hclose as (-> & -> & ?).
Qed.

Lemma NewConnection_shape cfg p :
  let '(r, p') := NewConnection cfg p in
  match r with
  | Err _ => open_handles p' = open_handles p
  | Ok l => l = length (handles p) ∧ handles p' = handles p ++ [configured true]
  end.
Proof.
  pose proof (NewConnection_result cfg p) as H. destruct (NewConnection cfg p) as [[l|e] p'].
  - by destruct H as (_ & ? & ? & _).
  - by destruct H as [_ ?].
Qed.

(** ** Properties *)

(** Opening the database leaks nothing: when [NewConnection] fails, at
    whatever point, every handle it opened is closed again; when it succeeds,
    it has opened exactly one handle, with the pool limits set, after the ping
    and the migrations succeeded (there being nothing to migrate is success);
    the migrations connect with the same user, host and database under the
    scheme of golang-migrate's driver, and their migrator is always closed. *)
Theorem NewConnection_releases cfg p :
  let '(r, p') := NewConnection cfg p in
  migrators p' = migrators p ∧
  match r with
  | Err _ => open_handles p' = open_handles p
  | Ok l => l = length (handles p) ∧ handles p' = handles p ++ [configured true] ∧
      open_err env (dsn cfg) = None ∧ ping_err env (dsn cfg) = None ∧
      source_err env = None ∧ init_err env ("pgx5://" ++ authority cfg)%string = None ∧
      match up_err env ("pgx5://" ++ authority cfg)%string with
      | Some e => errors_is e migrate_ErrNoChange = true
      | None => True
      end
  end.
Proof. apply NewConnection_result. Qed.
End Database.

(** The user and password are not escaped: different configurations give the
    same connection string. *)
Example dsn_ambiguous :
  dsn (mkDBConfig "db" 5432 "u" "p:q" "jira") = dsn (mkDBConfig "db" 5432 "u:p" "q" "jira").
Proof. reflexivity. Qed.
