(* ===== verification/App.v ===== *)
(** * The one-shot sync of the command line

    [App] of cmd/internal/app/app.go, which starts a sync in its own process
    and polls the registry until the job ends, and the [run] command of
    cmd/internal/cli/run.go around it. *)

From S2P Require Import Prelude GoLang GoTime Errors Config JiraTypes RawModels Mapper Repository.
From S2P Require Metrics Manager Database.
From S2P Require Import Sync SyncJobs.
From S2P Require Handler.
Local Open Scope Z_scope.
Local Open Scope go_scope.
#[local] Set Warnings "-clear-no-such-hyp".

(** ** Waiting for the job *)

(** What the [select] of an iteration receives: the end of the context, or a
    tick, with what the registry then says of the job. *)
Inductive event := CtxDone (err : error) | Tick (snap : option Manager.JobSnapshot).

(** The loop on a fuel; a state that is none of the three keeps it waiting.

    go: cmd/internal/app/app.go 102-133 App.waitForSync *)
Fixpoint waitForSync (fuel : nat) (env : nat → event) (n : nat) (syncID : string)
    : option (option error) :=
  match fuel with
  | O => None
  | S fuel =>
    match env n with
    | CtxDone err => Some (Some (wrap "context cancelled while waiting for sync" err))
    | Tick None => Some (Some (EWrap [] (ESentinel errJobDisappeared) [L (": " ++ syncID)%string]))
    | Tick (Some snap) =>
      if decide (Manager.State snap = Manager.JobStateRunning) then
        waitForSync fuel env (S n) syncID
      else if decide (Manager.State snap = Manager.JobStateCompleted) then Some None
      else if decide (Manager.State snap = Manager.JobStateFailed) then
        Some (Some (EWrap [] (ESentinel errSyncFailed) [L (": " ++ Manager.ErrMsg snap)%string]))
      else waitForSync fuel env (S n) syncID
    end
  end.

(** The system after the request, and the result of the wait.

    go: cmd/internal/app/app.go 86-100 App.run *)
Definition run (svc : Service) (projects : res error ProjectsResponse) (uuid : string)
    (now1 now2 : Z) (projectKey : string) (fuel : nat) (env : nat → event) (w : World)
    : System * option (option error) :=
  let '((result, g), w') := SyncProject svc projects uuid now1 now2 projectKey w in
  (mkSystem w' (option_list g),
   match result with
   | Err err => Some (Some (wrap "sync project failed" err))
   | Ok result => waitForSync fuel env 0 (SyncID result)
   end).

(** ** The command *)

(** [project] is the flag's value; the client and the service are built without
    fail.

    go: cmd/internal/app/app.go 37-59 New *)
Definition New (env : Database.db_env) (cfg : AppConfig) : M Database.Pools (res error nat) :=
  let* dbConn := Database.NewConnection env (DB cfg) in
  ret (res_map_err (wrap "init database") dbConn).

(** What the final [select] receives: the signal, or the result of [Run]. *)
Inductive ending := Signal | Finished (err : option error).

(** go: cmd/internal/cli/run.go 42-81 NewRunCmd *)
Definition RunE (config_flag project_flag : res error string)
    (load : string → res error AppConfig) (db : Database.db_env) (e : ending)
    : M Database.Pools (option error) :=
  match config_flag with
  | Err err => ret (Some (wrap "get config flag" err))
  | Ok cfgFile =>
    match load cfgFile with
    | Err err => ret (Some (wrap "load config" err))
    | Ok cfg =>
      match project_flag with
      | Err err => ret (Some (wrap "failed to get project flag" err))
      | Ok projectKey =>
        if decide (projectKey = ""%string) then ret (Some (ESentinel errNoProjectKey))
        else
          let* connector := New db cfg in
          match connector with
          | Err err => ret (Some (EJoin [ESentinel errInitApplication; err]))
          | Ok conn =>
            let* _ := Database.Close conn in   (* deferred *)
            ret (match e with Signal => None | Finished err => err end)
          end
      end
    end
  end.

(** An interrupted sync is reported as success. *)
Lemma RunE_interrupted cfg key load db s l :
  key ≠ ""%string → load ""%string = Ok cfg → (New db cfg s).1 = Ok l →
  (RunE (Ok ""%string) (Ok key) load db Signal s).1 = None.
Proof.
  intros Hk Hl Hn. unfold RunE. rewrite Hl, decide_False by done. unfold bind.
  destruct (New db cfg s) as [r s']. simpl in Hn. by subst r.
Qed.

(** ** Properties *)

Section Wait.
Context `{GoText} (svc : Service).

(** The steps of a process that serves no requests. *)
Inductive bg_step : System → System → Prop :=
  | bg_background i g pgRepo rd elapsed now s g' w' :
      syncs s !! i = Some g → repo svc = inl pgRepo → fetches svc g rd →
      background pgRepo rd elapsed now g (world s) = (g', w') →
      bg_step s (mkSystem w' (match g' with
                              | Some g' => <[i := g']> (syncs s)
                              | None => delete i (syncs s)
                              end)).

Lemma bg_step_sys s s' : bg_step s s' → sys_step svc s s'.
Proof. intros []. by eapply sys_background. Qed.

Lemma bg_steps_sys s s' : rtc bg_step s s' → rtc (sys_step svc) s s'.
Proof. apply rtc_subrel. exact bg_step_sys. Qed.

(** No job disappears without [Start]. *)
Definition keeps_present (id : string) (w w' : World) : Prop :=
  Manager.wf (w_mgr w) →
  Manager.wf (w_mgr w') ∧
  (is_Some (Manager.Status id (w_mgr w)) → is_Some (Manager.Status id (w_mgr w'))).

#[local] Instance keeps_present_preorder id : PreOrder (keeps_present id).
Proof.
  split; [by intros w|]. intros w1 w2 w3 H12 H23 Hwf.
  destruct (H12 Hwf) as [Hwf2 ?]. destruct (H23 Hwf2). auto.
Qed.

Lemma iter_present id r id' key pid rd l :
  Keeps (keeps_present id) (runSync_iter r id' key pid rd l).
Proof.
  apply iter_keeps.
  - apply _.
  - by intros w w' [d ->] Hwf.
  - intros t w Hwf. split; [by apply (Manager.exec_op_wf (Manager.OpSetTotal id' t))|].
    eapply Manager.present_alter. by apply Manager.set_total_view.
  - intros w Hwf. split; [by apply (Manager.exec_op_wf (Manager.OpIncrProcessed id'))|].
    eapply Manager.present_alter. by apply Manager.incr_view.
  - by intros w Hwf.
Qed.

Lemma bg_step_present id s s' :
  Manager.wf (w_mgr (world s)) → bg_step s s' →
  is_Some (Manager.Status id (w_mgr (world s))) → is_Some (Manager.Status id (w_mgr (world s'))).
Proof.
  intros Hwf Hstep Hp.
  destruct Hstep as [i g pgRepo rd elapsed now s0 g' w' Hi Hrepo _ Heq]. simpl in *.
  unfold background in Heq. destruct g as [id' key pid ph]. simpl in *.
  destruct ph as [l n|err|err|failed]; unfold bind, ret in Heq.
  - pose proof (iter_present id pgRepo id' key pid rd l (world s0) Hwf) as [_ Hs].
    destruct (runSync_iter pgRepo id' key pid rd l (world s0)) as [[l'|e] w1]; simplify_eq/=; auto.
  - by simplify_eq/=.
  - simplify_eq/=. destruct err as [e|]; (eapply Manager.present_alter; [|exact Hp]).
    + by apply (Manager.finish_op_view _ (Some (error_text e))).
    + by apply (Manager.finish_op_view _ None).
  - by simplify_eq/=.
Qed.

Lemma bg_steps_present id s s' :
  sys_inv s → rtc bg_step s s' →
  is_Some (Manager.Status id (w_mgr (world s))) → is_Some (Manager.Status id (w_mgr (world s'))).
Proof.
  intros Hinv Hr. induction Hr as [|s1 s2 s3 Hs _ IH]; [done|]. intros Hp.
  apply IH; [eapply sys_step_inv; [by apply bg_step_sys|done]|].
  eapply bg_step_present; [apply (inv_wf _ Hinv)|done..].
Qed.

Definition verdict (snap : Manager.JobSnapshot) : option error :=
  if decide (Manager.State snap = Manager.JobStateCompleted) then None
  else Some (EWrap [] (ESentinel errSyncFailed) [L (": " ++ Manager.ErrMsg snap)%string]).

(** The process between the request and the polls: [trace n] is what the [n]-th
    tick sees. *)
Section Trace.
Context (trace : nat → System) (id : string).
Hypothesis trace_inv : sys_inv (trace 0).
Hypothesis trace_steps : ∀ n, rtc bg_step (trace n) (trace (S n)).
Hypothesis trace_start : is_Some (Manager.Status id (w_mgr (world (trace 0)))).

Let env (n : nat) : event := Tick (Manager.Status id (w_mgr (world (trace n)))).

Lemma trace_rtc n k : (n ≤ k)%nat → rtc bg_step (trace n) (trace k).
Proof.
  induction 1 as [|k _ IH]; [apply rtc_refl|]. etransitivity; [exact IH|apply trace_steps].
Qed.

Lemma trace_ok n :
  sys_inv (trace n) ∧ is_Some (Manager.Status id (w_mgr (world (trace n)))).
Proof.
  pose proof (trace_rtc 0 n ltac:(lia)) as Hr. split.
  - eapply (rtc_invariant _ sys_inv); [|exact Hr|done].
    intros s s' Hs Hst. eapply sys_step_inv; [by apply bg_step_sys|done].
  - by eapply bg_steps_present.
Qed.

Lemma wait_from N snap d :
  Manager.Status id (w_mgr (world (trace N))) = Some snap →
  Manager.State snap ≠ Manager.JobStateRunning → (d ≤ N)%nat →
  ∀ extra, waitForSync (S d + extra) env (N - d) id = Some (verdict snap).
Proof.
  intros HN Hnr. induction d as [|d IH]; intros Hd extra.
  - rewrite Nat.sub_0_r. simpl. unfold env at 1. rewrite HN, decide_False by done.
    destruct (trace_ok N) as [Hinv _]. unfold verdict.
    apply Manager.status_some in HN as (l & j & _ & Hj & -> & _); [|apply (inv_wf _ Hinv)].
    destruct (Manager.wf_state _ (inv_wf _ Hinv) l j Hj) as [H1|[H1|H1]]; simpl in *;
      rewrite H1 in *; done.
  - specialize (IH ltac:(lia) extra). set (k := (N - S d)%nat).
    replace (N - d)%nat with (S k) in IH by (unfold k; lia).
    destruct (trace_ok k) as [Hinv [sk Hk]].
    change (S (S d) + extra)%nat with (S (S d + extra)). cbn [waitForSync].
    unfold env at 1. rewrite Hk. case_decide as Hrun; [exact IH|].
    assert (Hset : Manager.settled id sk (w_mgr (world (trace k)))).
    { split; [|by left]. apply Manager.status_some in Hk as (l & j & _ & Hj & _ & <-);
        [|apply (inv_wf _ Hinv)]. apply list_elem_of_fmap_2. by eapply list_elem_of_lookup_2. }
    eapply (Handler.settled_steps svc id sk (trace k) (trace N)) in Hset;
      [|done|done|apply bg_steps_sys, trace_rtc; unfold k; lia].
    destruct Hset as [_ [Heq|Heq]]; rewrite HN in Heq; [|done]. injection Heq as ->.
    unfold verdict. apply Manager.status_some in Hk as (l & j & _ & Hj & -> & _);
      [|apply (inv_wf _ Hinv)].
    destruct (Manager.wf_state _ (inv_wf _ Hinv) l j Hj) as [H1|[H1|H1]]; simpl in *;
      rewrite H1 in *; done.
Qed.

Lemma wait_ends N :
  (∀ g, g ∈ syncs (trace N) → live g = false) →
  ∃ snap, Manager.Status id (w_mgr (world (trace N))) = Some snap ∧
    Manager.State snap ≠ Manager.JobStateRunning ∧
    ∀ fuel, (N < fuel)%nat → waitForSync fuel env 0 id = Some (verdict snap).
Proof.
  intros Hend. destruct (trace_ok N) as [Hinv [snap HN]]. exists snap.
  assert (Hnr : Manager.State snap ≠ Manager.JobStateRunning).
  { intros Hr. assert (Hk : Manager.running_key id (w_mgr (world (trace N)))
                            = Some (Manager.ProjectKey snap))
      by (apply Manager.running_key_some; eauto).
    apply (inv_owned _ Hinv) in Hk. apply elem_of_live_ids in Hk as (g & Hg & Hl & _).
    rewrite (Hend g Hg) in Hl. done. }
  split_and!; [done..|]. intros fuel Hf.
  pose proof (wait_from N snap N HN Hnr ltac:(lia) (fuel - S N)%nat) as Hw.
  rewrite Nat.sub_diag in Hw. by replace (S N + (fuel - S N))%nat with fuel in Hw by lia.
Qed.
End Trace.

(** C22. The one-shot sync reports the sync's outcome: in its own process, where
    nothing but the background goroutine runs after the request, the wait ends at
    the latest with the first tick that finds the goroutine done (each tick [n]
    sees [trace n]), and returns nil if the job is COMPLETED and [errSyncFailed]
    with the job's message if it FAILED; it never finds the job gone. *)
Theorem run_reports projects uuid n1 n2 key w r g w' trace N :
  fresh w → SyncProject svc projects uuid n1 n2 key w = ((Ok r, g), w') →
  trace 0%nat = mkSystem w' (option_list g) → (∀ n, rtc bg_step (trace n) (trace (S n))) →
  (∀ g, g ∈ syncs (trace N) → live g = false) →
  let env n := Tick (Manager.Status (SyncID r) (w_mgr (world (trace n)))) in
  ∃ snap, Manager.Status (SyncID r) (w_mgr (world (trace N))) = Some snap ∧
    (Manager.State snap = Manager.JobStateCompleted ∨ Manager.State snap = Manager.JobStateFailed) ∧
    ∀ fuel, (N < fuel)%nat →
      run svc projects uuid n1 n2 key fuel env w
      = (trace 0%nat,
         Some (if decide (Manager.State snap = Manager.JobStateCompleted) then None
               else Some (EWrap [] (ESentinel errSyncFailed)
                            [L (": " ++ Manager.ErrMsg snap)%string]))).
Proof.
  intros Hf Heq H0 Hsteps Hend env.
  assert (Hu : uuid ∉ Manager.ids (w_mgr w)) by (destruct Hf as [-> _]; apply not_elem_of_nil).
  assert (Hinv : sys_inv (trace 0%nat)).
  { rewrite H0. eapply sys_step_inv; [|by apply initial_inv].
    change (option_list g) with (syncs (initial w) ++ option_list g). by eapply sys_request. }
  pose proof (Manager.unused_absent _ _ (inv_wf _ (initial_inv w Hf)) Hu) as Hnone.
  destruct (SyncProject_ok svc _ _ _ _ _ _ _ _ _ (inv_wf _ (initial_inv w Hf)) Hnone Heq)
    as (ps & proj & _ & _ & _ & Hor).
  assert (Hk : Manager.running_key (SyncID r) (w_mgr w') = Some key)
    by (destruct Hor as [(_ & _ & _ & ?)|(_ & -> & _ & _ & ?)]; done).
  apply Manager.running_key_some in Hk as (s0 & Hs0 & _).
  destruct (wait_ends trace (SyncID r) Hinv Hsteps (ltac:(rewrite H0; by eexists)) N Hend)
    as (snap & HN & Hnr & Hw).
  exists snap. split_and!; [done| |].
  - pose proof (rtc_invariant _ sys_inv (ltac:(intros s s' Hs Hst; eapply sys_step_inv;
      [by apply bg_step_sys|done])) _ _ (trace_rtc trace Hsteps 0 N ltac:(lia)) Hinv) as HinvN.
    apply Manager.status_some in HN as (l & j & _ & Hj & -> & _); [|apply (inv_wf _ HinvN)].
    destruct (Manager.wf_state _ (inv_wf _ HinvN) l j Hj) as [H1|H1]; [done|exact H1].
  - intros fuel Hfuel. unfold run. rewrite Heq. rewrite <- H0. f_equal. by apply Hw.
Qed.
End Wait.

(** ** Witness: a sync of an empty project *)

#[local] Existing Instance demo_text.

Definition demo_trace (n : nat) : System :=
  Nat.iter n (Handler.advance Handler.empty_round) Handler.demo_running.

Lemma advance_bg s : rtc (bg_step demo_service) s (Handler.advance Handler.empty_round s).
Proof.
  unfold Handler.advance. destruct s as [w [|g gs]]; [apply rtc_refl|]. simpl.
  destruct (background Repository.New Handler.empty_round 1 1 g w) as [g' w'] eqn:He.
  apply rtc_once.
  pose proof (bg_background demo_service 0 g Repository.New Handler.empty_round 1 1
                (mkSystem w (g :: gs)) g' w' eq_refl eq_refl (Handler.empty_round_fetches _ _) He) as Hs.
  by destruct g'.
Qed.

Lemma run_reports_witness :
  let env n := Tick (Manager.Status "u1" (w_mgr (world (demo_trace n)))) in
  (run demo_service demo_projects "u1" 0 0 "A" 4 env demo_world).2 = Some None.
Proof.
  intros env.
  destruct (SyncProject demo_service demo_projects "u1" 0 0 "A" demo_world)
    as [[[r|e] g] w'] eqn:He; [|vm_compute in He; discriminate].
  assert (Hr : SyncID r = "u1"%string)
    by (vm_compute in He; injection He as <- _ _; reflexivity).
  destruct (run_reports demo_service demo_projects "u1" 0 0 "A" demo_world r g w' demo_trace 3
    demo_fresh He) as (snap & HN & _ & Hrun).
  - unfold demo_trace. simpl. unfold Handler.demo_running, request, initial. simpl.
    rewrite He. reflexivity.
  - intros n. apply advance_bg.
  - apply Forall_forall. apply (bool_decide_unpack _). vm_compute. exact I.
  - specialize (Hrun 4%nat ltac:(lia)). rewrite Hr in Hrun, HN. fold env in Hrun.
    rewrite Hrun. simpl. f_equal.
    assert (Hs : Manager.State snap = Manager.JobStateCompleted)
      by (vm_compute in HN; injection HN as <-; reflexivity).
    rewrite decide_True by exact Hs. reflexivity.
Defined.
