(* ===== verification/RunCmd.v ===== *)
(** * The goroutines of the one-shot sync

    [RunE] of [App] takes what its [select] receives as given.  Here the [run]
    command of cmd/internal/cli/run.go executes beside the goroutine of [App.Run]
    (cmd/internal/app/app.go), connected by a buffered channel, while a signal may
    come at any time; [RunE] is shown to be what can be observed of it. *)

From S2P Require Import Prelude GoLang Errors Config JiraTypes RawModels Mapper Repository.
From S2P Require Database.
From S2P Require Import App.
Local Open Scope Z_scope.
Local Open Scope go_scope.
#[local] Set Warnings "-clear-no-such-hyp".

(** ** State *)

(** The goroutine of [Run]: in [a.run], sending its result, closing the channel. *)
Inductive runner_pc := InRun | Sending (err : option error) | ClosingChan | RunnerDone.

(** The command: in its [select], in the deferred [Close], returned. *)
Inductive command_pc := Selecting | InClose (result : option error) | Returned (result : option error).

(** The channel has a buffer of one. *)
Record Command := mkCommand {
  dbs : Database.Pools;
  errChan : list (option error);
  chanClosed : bool;
  ctxDone : bool;
  runner : runner_pc;
  command : command_pc;
}.

Section RunCmd.
Context (conn : nat) (may_return : option error → Prop).

(** [may_return] are the results [a.run] may have.

    go: cmd/internal/app/app.go 62-73 App.Run *)
Inductive Run_step : Command → Command → Prop :=
  | run_returns d ch cl cd err m :
      may_return err →
      Run_step (mkCommand d ch cl cd InRun m) (mkCommand d ch cl cd (Sending err) m)
  | run_sends d ch cl cd err m :
      (length ch < 1)%nat →
      Run_step (mkCommand d ch cl cd (Sending err) m) (mkCommand d (ch ++ [err]) cl cd ClosingChan m)
  | run_closes d ch cl cd m :
      Run_step (mkCommand d ch cl cd ClosingChan m) (mkCommand d ch true cd RunnerDone m).

(** A closed and empty channel gives nil.

    go: cmd/internal/cli/run.go 70-80 NewRunCmd *)
Inductive select_step : Command → Command → Prop :=
  | select_ctx d ch cl r :
      select_step (mkCommand d ch cl true r Selecting) (mkCommand d ch cl true r (InClose None))
  | select_result d err ch cl cd r :
      select_step (mkCommand d (err :: ch) cl cd r Selecting) (mkCommand d ch cl cd r (InClose err))
  | select_closed d cd r :
      select_step (mkCommand d [] true cd r Selecting) (mkCommand d [] true cd r (InClose None)).

(** The error of [sql.DB.Close] is dropped by the caller.

    go: cmd/internal/app/app.go 75-85 App.Close *)
Inductive Close_step : Command → Command → Prop :=
  | close_database d ch cl cd r err :
      Close_step (mkCommand d ch cl cd r (InClose err))
                 (mkCommand (Database.Close conn d).2 ch cl cd r (Returned err)).

Inductive step : Command → Command → Prop :=
  | step_run c c' : Run_step c c' → step c c'
  | step_select c c' : select_step c c' → step c c'
  | step_close c c' : Close_step c c' → step c c'
  | step_signal d ch cl cd r m : step (mkCommand d ch cl cd r m) (mkCommand d ch cl true r m).

Definition started (d : Database.Pools) : Command := mkCommand d [] false false InRun Selecting.

(** ** Invariant *)

(** What the command's result can be. *)
Definition explained (c : Command) (result : option error) : Prop :=
  (ctxDone c = true ∧ result = None) ∨ may_return result.

Record command_inv (d0 : Database.Pools) (c : Command) : Prop := {
  inv_channel : match runner c with
    | InRun => errChan c = [] ∧ chanClosed c = false
    | Sending err => errChan c = [] ∧ chanClosed c = false ∧ may_return err
    | ClosingChan => chanClosed c = false
    | RunnerDone => True
    end;
  inv_results : Forall may_return (errChan c) ∧ (length (errChan c) ≤ 1)%nat;
  inv_unread : command c = Selecting → runner c = ClosingChan ∨ runner c = RunnerDone →
    errChan c ≠ [];
  inv_command : match command c with
    | Selecting => dbs c = d0
    | InClose result => dbs c = d0 ∧ explained c result
    | Returned result => dbs c = (Database.Close conn d0).2 ∧ explained c result
    end;
}.

Lemma started_inv d : command_inv d (started d).
Proof. split; simpl; [done|split; [done|lia]|by intros _ [?|?]|done]. Qed.

Lemma command_step_inv d0 c c' : step c c' → command_inv d0 c → command_inv d0 c'.
Proof.
  intros Hstep. destruct Hstep as [c c' Hs|c c' Hs|c c' Hs|d ch cl cd r m]; intros [Hch [Hf Hl] Hun Hc].
  - destruct Hs; simpl in *; split; simpl; try done.
    + naive_solver.
    + by intros _ [?|?].
    + naive_solver.
    + destruct Hch as (-> & _ & Hr). split; [by constructor|simpl; lia].
    + intros _ _. by destruct ch.
    + intros Hsel _. apply Hun; [done|by left].
  - destruct Hs as [d ch cl r|d err ch cl cd r|d cd r]; simpl in *; split; simpl; try done.
    + split; [done|by left].
    + destruct r; naive_solver.
    + apply Forall_cons in Hf as [_ Hf]. split; [done|lia].
    + apply Forall_cons in Hf as [Hf _]. split; [done|by right].
    + destruct r as [|e| |]; [by destruct Hch|by destruct Hch as (_ & ? & _)|done|].
      destruct Hun; [done|by right|done].
  - destruct Hs; simpl in *; split; simpl; try done. destruct Hc as [-> He]. by split.
  - simpl in *. split; simpl; try done.
    destruct m; simpl in *; [done|..]; destruct Hc as [Hd He]; (split; [done|]);
      destruct He as [[_ He]|He]; [by left|by right|by left|by right].
Qed.

Lemma command_reachable_inv d c : rtc step (started d) c → command_inv d c.
Proof.
  intros Hr. eapply (rtc_invariant step (command_inv d)); [|exact Hr|apply started_inv].
  intros c1 c2 Hi Hs. by eapply command_step_inv.
Qed.

(** ** The way to the end *)

(** A step other than a signal. *)
Definition work (c c' : Command) : Prop := Run_step c c' ∨ select_step c c' ∨ Close_step c c'.

Definition work_left (c : Command) : nat :=
  match runner c with InRun => 3 | Sending _ => 2 | ClosingChan => 1 | RunnerDone => 0 end +
  match command c with Selecting => 2 | InClose _ => 1 | Returned _ => 0 end.

Lemma work_decreases c c' : work c c' → (work_left c' < work_left c)%nat.
Proof. intros [Hs|[Hs|Hs]]; destruct Hs; unfold work_left; simpl; lia. Qed.

Lemma work_bounded k c c' : nsteps work k c c' → (k + work_left c' ≤ work_left c)%nat.
Proof.
  induction 1 as [c|k c1 c2 c3 Hs _ IH]; [lia|]. pose proof (work_decreases _ _ Hs). lia.
Qed.

Lemma work_progress d c :
  (∃ err, may_return err) → command_inv d c →
  (∃ result, command c = Returned result) ∨ ∃ c', work c c'.
Proof.
  intros [err Hret] [Hch [Hf Hl] Hun Hc]. destruct c as [dd ch cl cd r m]; simpl in *.
  destruct m as [|result|result]; [|right|by left; exists result].
  2: { eexists. right. right. apply close_database. }
  right. destruct ch as [|e ch]; [|eexists; right; left; apply select_result].
  destruct r as [|e| |].
  - eexists. left. by apply run_returns.
  - eexists. left. apply run_sends. simpl. lia.
  - by destruct (Hun eq_refl (or_introl eq_refl)).
  - by destruct (Hun eq_refl (or_intror eq_refl)).
Qed.
End RunCmd.

(** ** Properties *)

(** C23. The [run] command with its goroutine does what [RunE] says.  With the flags
    and the configuration read and the database opened, in every interleaving of
    the goroutine, the [select], the deferred [Close] and signals: when the command
    has returned, its result and the database handles are those of [RunE] for a
    signal that was received or for a result of the sync; the goroutine is never
    blocked on its channel; and if the sync returns, the command returns after at
    most five steps. *)
Theorem run_command_refines may_return cfgFile key load db cfg s conn s1 c :
  load cfgFile = Ok cfg → key ≠ ""%string → New db cfg s = (Ok conn, s1) →
  rtc (step conn may_return) (started s1) c →
  (∀ result, command c = Returned result →
     ∃ e, RunE (Ok cfgFile) (Ok key) load db e s = (result, dbs c) ∧
       match e with Signal => ctxDone c = true | Finished err => may_return err end) ∧
  (∀ err, runner c = Sending err → ∃ c', Run_step may_return c c') ∧
  (∀ k c', nsteps (work conn may_return) k c c' → (k ≤ 5)%nat) ∧
  ((∃ err, may_return err) → ∀ c', rtc (work conn may_return) c c' →
     (∀ c'', ¬ work conn may_return c' c'') → ∃ result, command c' = Returned result).
Proof.
  intros Hload Hkey Hnew Hr. pose proof (command_reachable_inv conn may_return s1 c Hr) as Hinv.
  split_and!.
  - intros result Hret. pose proof (inv_command _ _ _ _ Hinv) as Hc. rewrite Hret in Hc.
    destruct Hc as [Hd Hex].
    assert (Hrun : ∀ e, RunE (Ok cfgFile) (Ok key) load db e s
      = (match e with Signal => None | Finished err => err end, dbs c)).
    { intros e. unfold RunE. rewrite Hload, decide_False by done. unfold bind. rewrite Hnew, Hd.
      by destruct (Database.Close conn s1) as [[] s2]. }
    destruct Hex as [[Hctx ->]|Hm]; [exists Signal|exists (Finished result)]; by rewrite Hrun.
  - intros err Hs. pose proof (inv_channel _ _ _ _ Hinv) as Hch. rewrite Hs in Hch.
    destruct c as [d ch cl cd r m]. simpl in *. subst r. destruct Hch as (-> & _).
    eexists. apply run_sends. simpl. lia.
  - intros k c' Hk. apply work_bounded in Hk.
    assert (work_left c ≤ 5)%nat; [|lia]. unfold work_left.
    destruct (runner c), (command c); simpl; lia.
  - intros Hret c' Hw Hstuck.
    assert (Hr' : rtc (step conn may_return) c c').
    { eapply rtc_subrel; [|exact Hw]. intros a b [Hs|[Hs|Hs]];
        [by apply step_run|by apply step_select|by apply step_close]. }
    destruct (work_progress conn may_return s1 c' Hret) as [?|[c'' Hs]]; [|done|by destruct (Hstuck c'')].
    apply command_reachable_inv. by etransitivity.
Qed.

(** ** Witness: a signal while the sync runs *)

Definition quiet_db : Database.db_env :=
  Database.mkDbEnv (λ _, None) (λ _, None) None (λ _, None) (λ _, None).
Definition run_cfg : AppConfig :=
  mkAppConfig (Jira zero_AppConfig) (mkDBConfig "db" 5432 "u" "p" "jira")
    (mkObsEndpoint None "") (mkObsEndpoint None "") "info".
Definition opened : Database.Pools := (New quiet_db run_cfg (Database.mkPools [] 0)).2.
Definition interrupted : Command :=
  mkCommand (Database.Close 0 opened).2 [] false true InRun (Returned None).

Lemma interrupted_reachable : rtc (step 0 (λ _, True)) (started opened) interrupted.
Proof.
  eapply rtc_l; [apply step_signal|]. eapply rtc_l; [apply step_select, select_ctx|].
  apply rtc_once, step_close, close_database.
Qed.

Lemma run_command_refines_witness :
  (∃ e, RunE (Ok "c.yaml"%string) (Ok "A"%string) (λ _, Ok run_cfg) quiet_db e (Database.mkPools [] 0)
        = (None, dbs interrupted)) ∧
  Database.open_handles (dbs interrupted) = [].
Proof.
  split; [|reflexivity].
  destruct (run_command_refines (λ _, True) "c.yaml" "A" (λ _, Ok run_cfg) quiet_db run_cfg
    (Database.mkPools [] 0) 0 opened interrupted eq_refl ltac:(discriminate) eq_refl
    interrupted_reachable) as (Hret & _).
  destruct (Hret None eq_refl) as (e & He & _). exists e. exact He.
Defined.
