(* ===== verification/Server.v ===== *)
(** * The server process

    The [serve] command of cmd/internal/cli/server/server.go and the diagnostic
    endpoints of internal/observability/server.go: which resources the process
    holds (listener, database handles, diagnostic servers) and when it lets them
    go.  Flags, sockets, gRPC and net/http are the environment. *)

From S2P Require Import Prelude GoLang Errors Config.
From S2P Require Metrics Database.
Local Open Scope Z_scope.
Local Open Scope go_scope.

(** ** The process *)

(** A diagnostic HTTP server: its address and the patterns of its mux. *)
Record httpServer := mkHttpServer { http_Addr : string; patterns : list string }.

(** What the process holds.  A diagnostic server is a pointer into the list of
    all of them, each with whether it still accepts requests. *)
Record Node := mkNode {
  pools : Database.Pools;
  listening : list string;                   (* open listeners, by address *)
  diagnostics : list (httpServer * bool);
}.

Definition running_diagnostics (n : Node) : list httpServer :=
  (filter (λ d, d.2 = true) (diagnostics n)).*1.

(** An operation on the database handles, in the process. *)
Definition on_pools {A} (m : M Database.Pools A) : M Node A := λ n,
  let '(a, p) := m (pools n) in (a, mkNode p (listening n) (diagnostics n)).

Definition listen (addr : string) : M Node unit :=
  modify (λ n, mkNode (pools n) (addr :: listening n) (diagnostics n)).
Definition close_listener (addr : string) : M Node unit :=
  modify (λ n, mkNode (pools n) (filter (λ a, a ≠ addr) (listening n)) (diagnostics n)).

(** ** Diagnostic endpoints *)

(** go: internal/observability/server.go 62-72 pprofMux *)
Definition pprofMux : list string :=
  ["/debug/pprof/"; "/debug/pprof/cmdline"; "/debug/pprof/profile"; "/debug/pprof/symbol";
   "/debug/pprof/trace"]%string.

(** A server that cannot listen is only logged.

    go: internal/observability/server.go 87-112 Server.start *)
Definition start (addr : string) (mux : list string) : M Node (list nat) := λ n,
  ([length (diagnostics n)],
   mkNode (pools n) (listening n) (diagnostics n ++ [(mkHttpServer addr mux, true)])).

(** go: internal/observability/server.go 31-60 New *)
Definition observability_New (mtr : option Metrics.Metrics) (metricsAddr pprofAddr : string)
    : M Node (list nat) :=
  let* s1 := (if decide (is_Some mtr ∧ metricsAddr ≠ ""%string)
              then start metricsAddr ["/metrics"%string] else ret []) in
  let* s2 := (if decide (pprofAddr ≠ ""%string) then start pprofAddr pprofMux else ret []) in
  ret (s1 ++ s2).

(** net/http's [Shutdown] closes a server's listeners first, so that no server
    accepts requests any more, whether or not its open connections end within the
    5 seconds: that they do not is an error which is only logged.  The
    connections that linger are not modelled.

    go: internal/observability/server.go 74-85 Server.Shutdown *)
Fixpoint Shutdown (servers : list nat) : M Node unit :=
  match servers with
  | [] => ret tt
  | s :: servers =>
    let* _ := modify (λ n, mkNode (pools n) (listening n)
                (alter (λ d, (d.1, false)) s (diagnostics n))) in
    Shutdown servers
  end.

(** The addresses enabled by the configuration. *)
Definition enabled_addr (e : ObsEndpoint) : string := if IsEnabled e then Addr e else ""%string.

(** go: cmd/internal/cli/server/server.go 213-230 startObservability *)
Definition startObservability (cfg : AppConfig) (mtr : option Metrics.Metrics)
    : M Node (list nat) :=
  observability_New mtr (enabled_addr (Config.Metrics cfg)) (enabled_addr (Pprof cfg)).

(** ** Starting and stopping *)

Record node_env := mkNodeEnv {
  host_flag : res error string;
  port_flag : res error Z;
  listen_err : string → option error;
  database_env : Database.db_env;
  grpc_names : list string;
  runtime_names : list string;
  serve_err : option error;
}.

(** go: cmd/internal/cli/server/server.go 32-38 Server *)
Record Server := mkServer { srv_db : nat; srv_obs : list nat }.

Section Server.
Context (env : node_env).

(** go: cmd/internal/cli/server/server.go 169-181 resolveListenAddr *)
Definition resolveListenAddr : res error string :=
  match host_flag env with
  | Err err => Err (wrap "get host flag" err)
  | Ok host =>
    match port_flag env with
    | Err err => Err (wrap "get port flag" err)
    | Ok port => Ok (host ++ ":" ++ FormatInt port)%string
    end
  end.

(** [metrics.New] and [RegisterRuntimeCollectors]; [None] is a panic. *)
Definition new_metrics : option Metrics.Metrics :=
  m ← Metrics.New (grpc_names env); Metrics.RegisterRuntimeCollectors (runtime_names env) m.

(** Up to [grpcServer.Serve]: the address and the server; [None] is a panic.

    go: cmd/internal/cli/server/server.go 122-155 startServer *)
Definition prepare (cfg : AppConfig) : M Node (option (res error (string * Server))) :=
  match resolveListenAddr with
  | Err err => ret (Some (Err err))
  | Ok addr =>
    match listen_err env addr with
    | Some err => ret (Some (Err (wrap ("listen " ++ addr) err)))
    | None =>
      let* _ := listen addr in
      let* dbConn := on_pools (Database.NewConnection (database_env env) (DB cfg)) in
      match dbConn with
      | Err err =>
        let* _ := close_listener addr in
        ret (Some (Err (wrap "init database" err)))
      | Ok dbConn =>
        match new_metrics with
        | None => ret None
        | Some mtr =>
          let* obs := startObservability cfg (Some mtr) in
          ret (Some (Ok (addr, mkServer dbConn obs)))
        end
      end
    end
  end.

(** The result of [Serve], which closes the listener, as [startServer] returns it.

    go: cmd/internal/cli/server/server.go 161-166 startServer *)
Definition served (err : option error) : option error := wrap "serve" <$> err.

(** The whole call when [Serve] returns, with the server left running.

    go: cmd/internal/cli/server/server.go 122-167 startServer *)
Definition startServer (cfg : AppConfig) : M Node (option (option error * option Server)) :=
  let* p := prepare cfg in
  match p with
  | None => ret None
  | Some (Err err) => ret (Some (Some err, None))
  | Some (Ok (addr, srv)) =>
    let* _ := close_listener addr in
    ret (Some (served (serve_err env), Some srv))
  end.

(** [GracefulStop] makes [Serve] return; errors of the other two are logged.

    go: cmd/internal/cli/server/server.go 40-55 Server.Close *)
Definition Close (srv : Server) : M Node unit :=
  let* _ := Shutdown (srv_obs srv) in
  on_pools (Database.Close (srv_db srv)).

(** ** What is started and released *)

(** The diagnostic servers a configuration asks for. *)
Definition wanted (cfg : AppConfig) : list httpServer :=
  (if decide (enabled_addr (Config.Metrics cfg) ≠ ""%string)
   then [mkHttpServer (enabled_addr (Config.Metrics cfg)) ["/metrics"%string]] else []) ++
  (if decide (enabled_addr (Pprof cfg) ≠ ""%string)
   then [mkHttpServer (enabled_addr (Pprof cfg)) pprofMux] else []).

Lemma startObservability_spec cfg m n :
  startObservability cfg (Some m) n
  = (seq (length (diagnostics n)) (length (wanted cfg)),
     mkNode (pools n) (listening n) (diagnostics n ++ ((λ s, (s, true)) <$> wanted cfg))).
Proof.
  unfold startObservability, observability_New, wanted, bind, start, ret. destruct n as [p l d].
  destruct (decide (enabled_addr (Config.Metrics cfg) ≠ "")) as [H1|H1].
  - rewrite decide_True by (split; [by eexists|done]). simpl. case_decide; simpl.
    + by rewrite length_app, <- app_assoc, Nat.add_1_r.
    + done.
  - rewrite decide_False by tauto. case_decide; simpl; by rewrite ?app_nil_r.
Qed.

Lemma Shutdown_all base ds k n :
  diagnostics n = base ++ ds → k = length base →
  Shutdown (seq k (length ds)) n
  = (tt, mkNode (pools n) (listening n) (base ++ ((λ d, (d.1, false)) <$> ds))).
Proof.
  revert base k n. induction ds as [|d ds IH]; intros base k n Hn ->; simpl.
  - destruct n as [p l dn]. simpl in *. by subst.
  - unfold bind, modify. rewrite (IH (base ++ [(d.1, false)])); simpl.
    + by rewrite <- app_assoc.
    + rewrite Hn. clear. induction base as [|b base IHb]; simpl; [done|]. by rewrite <- IHb.
    + rewrite length_app. simpl. by rewrite Nat.add_1_r.
Qed.

Lemma running_app n ds b :
  (filter (λ d : httpServer * bool, d.2 = true)
     (diagnostics n ++ ((λ s, (s, b)) <$> ds))).*1
  = running_diagnostics n ++ (if b : bool then ds else []).
Proof.
  unfold running_diagnostics. rewrite filter_app, fmap_app. f_equal.
  destruct b; induction ds as [|s ds IH]; try done.
  rewrite fmap_cons, filter_cons_True, fmap_cons, IH by done. done.
Qed.

Lemma close_listener_listen (addr : string) (l : list string) :
  addr ∉ l → filter (λ a, a ≠ addr) (addr :: l) = l.
Proof.
  intros Hn. rewrite filter_cons_False by auto. apply list_filter_all.
  intros x Hx ->. done.
Qed.

(** What a server holds, on top of [n], while it serves at [addr]. *)
Definition holding (cfg : AppConfig) (n : Node) (addr : string) (srv : Server) (n1 : Node) : Prop :=
  (addr ∉ listening n) ∧ listening n1 = (addr :: listening n) ∧
  Database.handles (pools n1) = (Database.handles (pools n) ++ [Database.configured true])%list ∧
  srv_db srv = length (Database.handles (pools n)) ∧
  diagnostics n1 = (diagnostics n ++ ((λ s, (s, true)) <$> wanted cfg))%list ∧
  srv_obs srv = seq (length (diagnostics n)) (length (wanted cfg)).

(** The addresses that are taken cannot be listened on. *)
Definition exclusive (n : Node) : Prop :=
  ∀ addr, addr ∈ listening n → is_Some (listen_err env addr).

Lemma prepare_spec cfg n :
  exclusive n →
  let '(r, n1) := prepare cfg n in
  match r with
  | None => new_metrics = None
  | Some (Err _) =>
    Database.open_handles (pools n1) = Database.open_handles (pools n) ∧
    listening n1 = listening n ∧ running_diagnostics n1 = running_diagnostics n
  | Some (Ok (addr, srv)) => holding cfg n addr srv n1
  end.
Proof.
  intros Hl. unfold prepare. destruct resolveListenAddr as [addr|e]; [|by simpl; eauto].
  destruct (listen_err env addr) as [e|] eqn:Ha; [by simpl; eauto|].
  assert (Hfree : addr ∉ listening n) by (intros Hin; destruct (Hl addr Hin); congruence).
  unfold bind at 1 2, listen, modify, on_pools. simpl.
  pose proof (Database.NewConnection_shape (database_env env) (DB cfg) (pools n)) as Hdb.
  destruct (Database.NewConnection _ _ _) as [[l|e] p'].
  - destruct Hdb as (-> & Hh). destruct new_metrics as [m|]; [|done].
    unfold bind at 1. rewrite startObservability_spec. simpl. by split_and!.
  - unfold bind, close_listener, modify, ret. simpl. rewrite close_listener_listen by done. eauto.
Qed.

(** [Close] on what is held, once the listener is closed. *)
Lemma Close_spec cfg n addr srv n1 :
  holding cfg n addr srv n1 →
  let '(_, n2) := Close srv n1 in
  Database.open_handles (pools n2) = Database.open_handles (pools n) ∧
  listening n2 = (addr :: listening n) ∧ running_diagnostics n2 = running_diagnostics n.
Proof.
  intros (_ & Hl & Hh & Hdb & Hd & Hobs). unfold Close, bind. rewrite Hobs.
  pose proof (Shutdown_all (diagnostics n) ((λ s, (s, true)) <$> wanted cfg) _ n1 Hd eq_refl) as Hsd.
  rewrite length_fmap in Hsd. rewrite Hsd. simpl.
  unfold on_pools, Database.Close, Database.update, modify. simpl.
  rewrite Hh, Hdb, Database.alter_last. split_and!; [|done|].
  - unfold Database.open_handles. simpl. by rewrite filter_app, app_nil_r.
  - unfold running_diagnostics at 1. simpl. rewrite <- list_fmap_compose.
    pose proof (running_app n (wanted cfg) false) as Hoff. rewrite app_nil_r in Hoff. exact Hoff.
Qed.

(** Closing the listener and [Close] do not depend on each other. *)
Lemma Close_listener_comm srv addr n :
  (Close srv (close_listener addr n).2).2 = (close_listener addr (Close srv n).2).2.
Proof.
  unfold Close, bind.
  assert (Hs : ∀ l n, Shutdown l (close_listener addr n).2
                      = (tt, (close_listener addr (Shutdown l n).2).2)).
  { intros l. induction l as [|s l IH]; intros n0; [done|].
    exact (IH (mkNode (pools n0) (listening n0) (alter (λ d, (d.1, false)) s (diagnostics n0)))). }
  rewrite Hs. destruct (Shutdown (srv_obs srv) n) as [[] n']. done.
Qed.

(** ** Properties *)

End Server.

(** ** Witness: the database cannot be reached *)

Definition demo_node_env (ping : option error) : node_env :=
  mkNodeEnv (Ok "0.0.0.0"%string) (Ok 50052) (λ _, None)
    (Database.mkDbEnv (λ _, None) (λ _, ping) None (λ _, None) (λ _, None))
    ["grpc_server_started_total"%string] ["go_info"%string] None.
Definition demo_cfg : AppConfig :=
  mkAppConfig (Jira zero_AppConfig) (mkDBConfig "db" 5432 "u" "p" "jira")
    (mkObsEndpoint None ":9090") (mkObsEndpoint (Some false) ":6060") "info".
Definition demo_node : Node := mkNode (Database.mkPools [] 0) [] [].

