(* ===== verification/Cli.v ===== *)
(** * The commands

    cmd/main.go, the root and [run] commands' declarations (cmd/internal/cli) and
    the [serve] command's way from its flags to a served process
    (cmd/internal/cli/server/server.go, with the same wiring in
    internal/app/app.go).  cobra and pflag parse the command line: [flags] is what
    they leave; godotenv is a function on the environment. *)

From S2P Require Import Prelude GoLang GoFlag Errors Config JiraTypes RawModels Mapper Repository.
From S2P Require Metrics Manager Database.
From S2P Require Import Sync SyncJobs Server.
From S2P Require JiraClient.
Local Open Scope Z_scope.
Local Open Scope go_scope.

(** ** Flags *)

Definition same_kind (a b : flag_value) : Prop :=
  match a, b with FString _, FString _ | FInt _, FInt _ => True | _, _ => False end.

(** The flags as parsed are the declared ones, with other values. *)
Definition parsed_from (declared fs : flags) : Prop :=
  ∀ name v, declared !! name = Some v → ∃ v', fs !! name = Some v' ∧ same_kind v v'.

(** pflag's getters: an error for a flag that is not defined with that type. *)
Section Getters.
Context (flag_error : string → error).

Definition GetString (fs : flags) (name : string) : res error string :=
  match fs !! name with Some (FString v) => Ok v | _ => Err (flag_error name) end.
Definition GetInt (fs : flags) (name : string) : res error Z :=
  match fs !! name with Some (FInt v) => Ok v | _ => Err (flag_error name) end.
End Getters.

(** ** The commands declared *)

Record Command := mkCommand { Use : string; Aliases : list string; Flags : flags }.

(** go: cmd/internal/cli/server/server.go 27-30 defaultHost *)
Definition defaultHost : string := "0.0.0.0".
Definition defaultPort : Z := 50052.

(** go: cmd/internal/cli/server/server.go 57-72 NewCommand *)
Definition NewCommand : Command :=
  mkCommand "serve" [] (<["host" := FString defaultHost]> (<["port" := FInt defaultPort]>
                          {["config" := FString ""]})).

(** go: cmd/internal/cli/run.go 21-26 flagProjectKey *)
Definition flagProjectKey : string := "project".
Definition flagConfigFile : string := "config".
Definition defaultConfigPath : string := "config/release.yaml".

(** go: cmd/internal/cli/run.go 89-92 initConfigPath *)
Definition initConfigPath (flagset : flags) : flags :=
  <[flagProjectKey := FString ""]> (<[flagConfigFile := FString defaultConfigPath]> flagset).

(** go: cmd/internal/cli/run.go 35-41 NewRunCmd *)
Definition NewRunCmd : Command := mkCommand "run" ["start"; "launch"] (initConfigPath ∅).

(** The root has no flags; its subcommands.

    go: cmd/internal/cli/root.go 18-29 NewRootCmd *)
Definition NewRootCmd : list Command := [NewCommand].

(** The process's status, from the error of [Execute], with the commands it
    chooses from.

    go: cmd/main.go 9-17 main *)
Definition main (Execute : list Command → option error) : Z :=
  let rootCmd := NewRootCmd ++ [NewRunCmd] in
  match Execute rootCmd with Some _ => 1 | None => 0 end.

(** ** The log level *)

(** log/slog's levels. *)
Definition LevelDebug : Z := -4.
Definition LevelInfo : Z := 0.
Definition LevelWarn : Z := 4.
Definition LevelError : Z := 8.

(** [unicode.ToUpper] where the result is an ASCII letter or the rune itself is
    ASCII; the other runes cannot occur in a level's name. *)
Definition upper_rune (r : Z) : Z :=
  if in_range 97 122 r then r - 32 else if r =? 305 then 73 else if r =? 383 then 83 else r.

Definition upper_is (s name : string) : bool := bool_decide (upper_rune <$> runes s = bytes name).

(** The text before the first sign, and the text from there. *)
Fixpoint cut_sign (s : string) : string * option string :=
  match s with
  | EmptyString => (EmptyString, None)
  | String c s' =>
    if (byte_of c =? 43) || (byte_of c =? 45) then (EmptyString, Some s)
    else let '(a, b) := cut_sign s' in (String c a, b)
  end.

(** [Level.UnmarshalText]; [None] is an error, which leaves the level as it was. *)
Definition UnmarshalText (s : string) : option Z :=
  let '(name, sign) := cut_sign s in
  let offset := match sign with
                | None => Some 0
                | Some t => match Atoi t with (n, None) => Some n | _ => None end
                end in
  let base := if upper_is name "DEBUG" then Some LevelDebug
              else if upper_is name "INFO" then Some LevelInfo
              else if upper_is name "WARN" then Some LevelWarn
              else if upper_is name "ERROR" then Some LevelError
              else None in
  match offset, base with Some o, Some b => Some (int64 (b + o)) | _, _ => None end.

(** The least level the logger reports.

    go: cmd/internal/cli/server/server.go 95-106 buildLogger *)
Definition buildLogger (levelStr : string) : Z :=
  match UnmarshalText levelStr with Some level => level | None => LevelInfo end.

Example log_levels :
  buildLogger <$> ["debug"; "info"; "Warn"; "ERROR"; "info-2"; "trace"; ""; "warn+x"]%string
  = [-4; 0; 4; 8; -2; 0; 0; 0].
Proof. vm_compute. reflexivity. Qed.

(** ** Wiring *)

(** [pg] is the state of the open database; the handler and the interceptors are
    in [Handler].

    go: cmd/internal/cli/server/server.go 183-211 buildGRPCServer *)
Definition buildGRPCServer (pg : Session) (cfg : AppConfig) (mtr : Metrics.Metrics)
    : JiraClient.Client * Service * System :=
  (JiraClient.New (Jira cfg), NewService (inl Repository.New) [],
   initial (mkWorld pg Manager.NewManager (Some mtr))).

(** The same without metrics.

    go: internal/app/app.go 21-35 NewGRPCServer *)
Definition NewGRPCServer (pg : Session) (jiraCfg : JiraConfig)
    : JiraClient.Client * Service * System :=
  (JiraClient.New jiraCfg, NewService (inl Repository.New) [],
   initial (mkWorld pg Manager.NewManager None)).

Lemma buildGRPCServer_fresh env pg cfg mtr :
  new_metrics env = Some mtr → fresh (world (buildGRPCServer pg cfg mtr).2).
Proof.
  unfold new_metrics. intros (m & Hm & Hr)%bind_Some. split; [done|]. simpl.
  unfold Metrics.RegisterRuntimeCollectors in Hr. apply bind_Some in Hr as (r & _ & [= <-]).
  exact (Metrics.ledger_new _ _ Hm).
Qed.

(** ** The serve command *)

Section Serve.
Context (yaml_unmarshal : string → AppConfig → AppConfig * option error).
Context (flag_error : string → error) (readFile : string → file) (godotenv : environ → environ).

(** go: cmd/internal/cli/server/server.go 108-120 loadConfig *)
Definition loadConfig (env : environ) (fs : flags) : res error AppConfig :=
  match GetString flag_error fs "config" with
  | Err err => Err (wrap "get config flag" err)
  | Ok cfgFile => res_map_err (wrap "load config") (Load yaml_unmarshal env readFile cfgFile)
  end.

(** [machine] is the rest of what starting meets, given the host and port flags.

    go: cmd/internal/cli/server/server.go 74-93 run *)
Definition run (machine : res error string → res error Z → node_env) (env : environ) (fs : flags)
    : M Node (option (option error)) :=
  let env := godotenv env in
  match loadConfig env fs with
  | Err err => ret (Some (Some (wrap "load config" err)))
  | Ok cfg =>
    let* r := startServer (machine (GetString flag_error fs "host") (GetInt flag_error fs "port")) cfg in
    ret (match r with
         | None => None
         | Some (err, _) => Some (wrap "start server" <$> err)
         end)
  end.

(** A command line gives the declared flags, so the getters do not fail. *)
Lemma GetString_declared declared fs name v :
  parsed_from declared fs → declared !! name = Some (FString v) →
  ∃ v', GetString flag_error fs name = Ok v' ∧ fs !! name = Some (FString v').
Proof.
  intros Hp Hd. destruct (Hp _ _ Hd) as ([v'|z] & Hv & Hk); [|done].
  exists v'. unfold GetString. by rewrite Hv.
Qed.

Lemma GetInt_declared declared fs name v :
  parsed_from declared fs → declared !! name = Some (FInt v) →
  ∃ v', GetInt flag_error fs name = Ok v' ∧ fs !! name = Some (FInt v').
Proof.
  intros Hp Hd. destruct (Hp _ _ Hd) as ([s|v'] & Hv & Hk); [done|].
  exists v'. unfold GetInt. by rewrite Hv.
Qed.
End Serve.
