(* ===== verification/Shutdown.v ===== *)
(** * Serving and shutting down

    The [serve] process while it serves: the main goroutine in
    [grpcServer.Serve], the signal hook's goroutine in [Server.Close]
    (cmd/internal/cli/server/server.go), the handlers of requests and the
    background syncs.  The gRPC server is an interface with its documented
    behaviour as laws. *)

From S2P Require Import Prelude GoLang Errors Config JiraTypes RawModels Mapper Repository.
From S2P Require Metrics Manager Database.
From S2P Require Import Sync SyncJobs Server Cli.
From S2P Require Handler.
Local Open Scope Z_scope.
Local Open Scope go_scope.
#[local] Set Warnings "-clear-no-such-hyp".

(** ** The gRPC server *)

(** [*grpc.Server] as its documentation has it: [pending] counts the requests
    whose handlers have not returned; [GracefulStop] (called) stops the server
    from accepting requests and waits for the pending ones. *)
Class GrpcServer (G : Type) := {
  pending : G → nat;
  stopping : G → bool;
  call_GracefulStop : G → G;
  grpc_step : relation G;          (* a request arrives or a handler returns *)
  stop_stopping g : stopping (call_GracefulStop g) = true;
  stop_pending g : pending (call_GracefulStop g) = pending g;
  step_stopping g g' : grpc_step g g' → stopping g = true →
    stopping g' = true ∧ (pending g' < pending g)%nat;
}.

(** ** The process *)

(** Where the main goroutine is: in [Serve]; returning from [startServer]; gone
    with the process. *)
Inductive main_pc := Serving | Returning (err : option error) | Exited (status : Z).

(** Where the hook's goroutine is: receiving from [quit]; in [GracefulStop]; in
    [Shutdown] with servers left; about to close the database; done. *)
Inductive hook_pc :=
  | AwaitQuit | InGracefulStop | InShutdown (rest : list nat) | ClosingDB | HookDone.

#[export] Instance hook_pc_eq_dec : EqDecision hook_pc.
Proof. solve_decision. Defined.

(** [quit] has a buffer of one signal. *)
Record Process (G : Type) := mkProcess {
  grpc : G;
  node : Node;
  sys : System;
  quit : bool;
  main_at : main_pc;
  hook_at : hook_pc;
}.
Arguments mkProcess {G} _ _ _ _ _ _.
Arguments grpc {G} _.
Arguments node {G} _.
Arguments sys {G} _.
Arguments quit {G} _.
Arguments main_at {G} _.
Arguments hook_at {G} _.

Section Shutdown.
Context `{GoText} {G : Type} `{GrpcServer G}.
Context (svc : Service) (addr : string) (srv : Server).

Definition alive (p : Process G) : Prop :=
  match main_at p with Exited _ => False | _ => True end.

(** The status of a process whose [startServer] returns [err].

    go: cmd/internal/cli/server/server.go 87-92 run *)
Definition exit_status (err : option error) : Z :=
  main (λ _, wrap "start server" <$> err).

(** A step of the hook.

    go: cmd/internal/cli/server/server.go 40-55 Server.Close *)
Inductive Close_step : Process G → Process G → Prop :=
  | close_graceful g n s q m :
      pending g = 0%nat →
      Close_step (mkProcess g n s q m InGracefulStop) (mkProcess g n s q m (InShutdown (srv_obs srv)))
  | close_diagnostic g n s q m d rest :
      Close_step (mkProcess g n s q m (InShutdown (d :: rest)))
                 (mkProcess g (Server.Shutdown [d] n).2 s q m (InShutdown rest))
  | close_shut g n s q m :
      Close_step (mkProcess g n s q m (InShutdown [])) (mkProcess g n s q m ClosingDB)
  | close_database g n s q m :
      Close_step (mkProcess g n s q m ClosingDB)
                 (mkProcess g (on_pools (Database.Close (srv_db srv)) n).2 s q m HookDone).

(** The hook's goroutine.

    go: cmd/internal/cli/server/server.go 232-241 registerShutdownHook *)
Inductive hook_step : Process G → Process G → Prop :=
  | hook_receive g n s m :
      hook_step (mkProcess g n s true m AwaitQuit)
                (mkProcess (call_GracefulStop g) n s false m InGracefulStop)
  | hook_close p p' : Close_step p p' → hook_step p p'.

(** The main goroutine.  [Serve] returns nil only after [GracefulStop] was called;
    once it was called, [Serve] waits for it to be done, so for the pending
    requests, before it returns (nil, or an error such as [ErrServerStopped] if
    it was only called afterwards).  It has closed the listener.

    go: cmd/internal/cli/server/server.go 161-166 startServer *)
Inductive main_step : Process G → Process G → Prop :=
  | serve_return g n s q h err :
      (err = None → stopping g = true) → (stopping g = true → pending g = 0%nat) →
      main_step (mkProcess g n s q Serving h)
                (mkProcess g (close_listener addr n).2 s q (Returning (served err)) h)
  | main_exit g n s q err h :
      main_step (mkProcess g n s q (Returning err) h)
                (mkProcess g n s q (Exited (exit_status err)) h).

Definition own_step (p p' : Process G) : Prop := hook_step p p' ∨ main_step p p'.

(** What happens to the process: a signal, dropped if one is in the buffer; the
    gRPC server; a handler's request to the service; a background sync. *)
Inductive world_step : Process G → Process G → Prop :=
  | signal_received g n s q m h :
      world_step (mkProcess g n s q m h) (mkProcess g n s true m h)
  | grpc_progress g g' n s q m h :
      grpc_step g g' → world_step (mkProcess g n s q m h) (mkProcess g' n s q m h)
  | handler_request g n s q m h env key r s' :
      (0 < pending g)%nat → Handler.env_uuid env ∉ Manager.ids (w_mgr (world s)) →
      Handler.download svc env key s = (r, s') →
      world_step (mkProcess g n s q m h) (mkProcess g n s' q m h)
  | background_progress g n s q m h i gr pgRepo rd elapsed now gr' w' :
      syncs s !! i = Some gr → repo svc = inl pgRepo → fetches svc gr rd →
      background pgRepo rd elapsed now gr (world s) = (gr', w') →
      world_step (mkProcess g n s q m h)
        (mkProcess g n (mkSystem w' (match gr' with
                                     | Some gr' => <[i := gr']> (syncs s)
                                     | None => delete i (syncs s)
                                     end)) q m h).

(** Nothing happens in a process that has exited. *)
Definition step (p p' : Process G) : Prop := alive p ∧ (own_step p p' ∨ world_step p p').

(** A process about to call [Serve], with what [prepare] acquired. *)
Definition serving (g : G) (n : Node) (s : System) : Process G :=
  mkProcess g n s false Serving AwaitQuit.

(** ** What the process holds *)

Section Holding.
Context (cfg : AppConfig) (n0 n1 : Node) (g0 : G) (s0 : System).
Hypothesis held : holding cfg n0 addr srv n1.

(** What the hook has released so far, on the node at the start. *)
Definition released (h : hook_pc) (nd : Node) : Prop :=
  match h with
  | AwaitQuit | InGracefulStop => nd = n1
  | InShutdown rest => ∃ stopped, srv_obs srv = stopped ++ rest ∧ nd = (Server.Shutdown stopped n1).2
  | ClosingDB => nd = (Server.Shutdown (srv_obs srv) n1).2
  | HookDone => nd = (Server.Close srv n1).2
  end.

Definition in_serve (m : main_pc) : bool := match m with Serving => true | _ => false end.

(** The listener goes with [Serve], the rest with the hook, which has gone on
    only when no request is pending. *)
Record process_inv (p : Process G) : Prop := {
  inv_node : ∃ nd, released (hook_at p) nd ∧
    node p = if in_serve (main_at p) then nd else (close_listener addr nd).2;
  inv_stopping : hook_at p ≠ AwaitQuit → stopping (grpc p) = true;
  inv_pending : hook_at p ≠ AwaitQuit → hook_at p ≠ InGracefulStop → pending (grpc p) = 0%nat;
  inv_sys : rtc (sys_step svc) s0 (sys p);
}.

Lemma Shutdown_snoc l d n :
  (Server.Shutdown (l ++ [d]) n).2 = (Server.Shutdown [d] (Server.Shutdown l n).2).2.
Proof. revert n. induction l as [|x l IH]; intros n; [done|]. exact (IH _). Qed.

Lemma close_step_inv p p' : Close_step p p' → process_inv p → process_inv p'.
Proof.
  intros Hstep [(nd & Hr & Hn) Hs Hp Hsys].
  destruct Hstep as [g n s q m Hz|g n s q m d rest|g n s q m|g n s q m]; simpl in *;
    (split; simpl; [|by auto|by auto|done]).
  - exists nd. split; [|done]. by exists []; subst.
  - destruct Hr as (stopped & Hobs & ->). exists (Server.Shutdown (stopped ++ [d]) n1).2.
    split; [exists (stopped ++ [d]); by rewrite <- app_assoc|].
    rewrite Shutdown_snoc, Hn. by destruct (in_serve m).
  - destruct Hr as (stopped & Hobs & ->). rewrite app_nil_r in Hobs. rewrite Hobs. eauto.
  - exists (Server.Close srv n1).2. split; [done|]. unfold Server.Close, bind.
    subst. destruct (Server.Shutdown (srv_obs srv) n1) as [[] nd]. by destruct (in_serve m).
Qed.

Lemma own_step_inv p p' : own_step p p' → process_inv p → process_inv p'.
Proof.
  intros Hstep Hinv. destruct Hstep as [Hstep|Hstep];
    [destruct Hstep as [g n s m|p p' Hc]|destruct Hstep as [g n s q h err He Hz|g n s q err h]].
  - destruct Hinv as [(nd & Hr & Hn) Hs Hp Hsys]. simpl in *. split; simpl; [by eauto| |done|done].
    intros _. apply stop_stopping.
  - by eapply close_step_inv.
  - destruct Hinv as [(nd & Hr & Hn) Hs Hp Hsys]. simpl in *. split; simpl; [|done..].
    exists nd. by subst.
  - by destruct Hinv; split.
Qed.

Lemma world_step_inv p p' : world_step p p' → process_inv p → process_inv p'.
Proof.
  intros Hstep [Hn Hs Hp Hsys].
  destruct Hstep as [g n s q m h|g g' n s q m h Hg|g n s q m h env key r s' Hpos Hu Hd
    |g n s q m h i gr pgRepo rd elapsed now gr' w' Hi Hrepo Hf Hb]; simpl in *; split; simpl; try done.
  - intros Hh. by destruct (step_stopping _ _ Hg (Hs Hh)).
  - intros Hh Hh'. destruct (step_stopping _ _ Hg (Hs Hh)) as [_ Hlt].
    rewrite (Hp Hh Hh') in Hlt. lia.
  - etransitivity; [exact Hsys|].
    destruct (Handler.download_step svc env key s r s' Hu Hd) as [-> |Hst];
      [apply rtc_refl|by apply rtc_once].
  - etransitivity; [exact Hsys|]. apply rtc_once. by eapply sys_background.
Qed.

Lemma process_inv_reachable p : rtc step (serving g0 n1 s0) p → process_inv p.
Proof.
  intros Hr. eapply (rtc_invariant step process_inv); [|exact Hr|].
  - intros p1 p2 Hinv [_ [Hs|Hs]]; [by eapply own_step_inv|by eapply world_step_inv].
  - split; simpl; [by exists n1|done..|apply rtc_refl].
Qed.

Lemma Shutdown_pools l n : pools (Server.Shutdown l n).2 = pools n.
Proof. revert n. induction l as [|x l IH]; intros n; [done|]. exact (IH _). Qed.

Lemma released_pools h nd : released h nd → h ≠ HookDone → pools nd = pools n1.
Proof.
  intros Hr Hne. destruct h; simpl in Hr; try done; try by subst.
  - destruct Hr as (stopped & _ & ->). apply Shutdown_pools.
  - subst. apply Shutdown_pools.
Qed.

Lemma released_listening h nd : released h nd → listening nd = listening n1.
Proof.
  assert (Hs : ∀ l n, listening (Server.Shutdown l n).2 = listening n)
    by (intros l; induction l as [|x l IH]; intros n; [done|]; exact (IH _)).
  intros Hr. destruct h; simpl in Hr; try (by subst).
  - by destruct Hr as (stopped & _ & ->).
  - subst. unfold Server.Close, bind. specialize (Hs (srv_obs srv) n1).
    by destruct (Server.Shutdown (srv_obs srv) n1) as [[] nd].
Qed.

(** The handle the server opened is still open. *)
Definition database_open (p : Process G) : Prop :=
  Database.handles (pools (node p)) !! srv_db srv = Some (Database.configured true).

Lemma node_pools (b : bool) nd :
  pools (if b then nd else (close_listener addr nd).2) = pools nd.
Proof. by destruct b. Qed.
Lemma node_diagnostics (b : bool) nd :
  running_diagnostics (if b then nd else (close_listener addr nd).2) = running_diagnostics nd.
Proof. by destruct b. Qed.

Lemma open_until_done p : process_inv p → hook_at p ≠ HookDone → database_open p.
Proof.
  intros [(nd & Hr & Hn) _ _ _] Hne. unfold database_open.
  destruct held as (_ & _ & Hh & -> & _). rewrite Hn, node_pools, (released_pools _ _ Hr Hne), Hh.
  by apply list_lookup_middle.
Qed.

Lemma done_released p :
  process_inv p → hook_at p = HookDone →
  Database.open_handles (pools (node p)) = Database.open_handles (pools n0) ∧
  running_diagnostics (node p) = running_diagnostics n0 ∧
  listening (node p) = (if in_serve (main_at p) then [addr] else []) ++ listening n0.
Proof.
  intros [(nd & Hr & Hn) _ _ _] Hd. rewrite Hd in Hr. simpl in Hr. subst nd.
  pose proof (Close_spec cfg n0 addr srv n1 held) as Hc.
  destruct (Server.Close srv n1) as [u n2]. destruct Hc as (Ho & Hl & Hrd). simpl in Hn.
  rewrite Hn, node_pools, node_diagnostics. split_and!; [done..|].
  destruct (in_serve (main_at p)); simpl; [done|]. rewrite Hl.
  by rewrite close_listener_listen by apply held.
Qed.
End Holding.

(** ** The way to the end *)

(** A step of the gRPC server alone. *)
Definition served_step (p p' : Process G) : Prop :=
  ∃ g', grpc_step (grpc p) g' ∧
    p' = mkProcess g' (node p) (sys p) (quit p) (main_at p) (hook_at p).

(** What runs a process down: its two goroutines and the gRPC server's. *)
Definition shutdown_step (p p' : Process G) : Prop :=
  alive p ∧ (own_step p p' ∨ served_step p p').
(** The hook and the gRPC server without the main goroutine. *)
Definition closing_step (p p' : Process G) : Prop := Close_step p p' ∨ served_step p p'.

Definition shutdown_measure (p : Process G) : nat :=
  match main_at p with Serving => 2 | Returning _ => 1 | Exited _ => 0 end +
  match hook_at p with
  | AwaitQuit => 4 + length (srv_obs srv)
  | InGracefulStop => 3 + length (srv_obs srv)
  | InShutdown rest => 2 + length rest
  | ClosingDB => 1
  | HookDone => 0
  end + pending (grpc p).

(** The signal has reached the hook. *)
Definition stopped_inv (p : Process G) : Prop :=
  hook_at p ≠ AwaitQuit ∧ stopping (grpc p) = true.

Lemma close_decreases p p' :
  Close_step p p' → stopped_inv p →
  stopped_inv p' ∧ (shutdown_measure p' < shutdown_measure p)%nat ∧ main_at p' = main_at p.
Proof.
  intros Hstep [Hh Hs]. unfold stopped_inv, shutdown_measure in *.
  destruct Hstep; simpl in *; (split; [by split|split; [lia|done]]).
Qed.

Lemma served_decreases p p' :
  served_step p p' → stopped_inv p →
  stopped_inv p' ∧ (shutdown_measure p' < shutdown_measure p)%nat ∧ main_at p' = main_at p.
Proof.
  intros (g' & Hg & ->) [Hh Hs]. destruct (step_stopping _ _ Hg Hs) as [Hs' Hlt].
  unfold stopped_inv, shutdown_measure. simpl. split; [done|]. split; [lia|done].
Qed.

Lemma shutdown_decreases p p' :
  shutdown_step p p' → stopped_inv p →
  stopped_inv p' ∧ (shutdown_measure p' < shutdown_measure p)%nat.
Proof.
  intros [_ [Hstep|Hstep]] Hinv; [|by destruct (served_decreases p p' Hstep Hinv) as (? & ? & _)].
  destruct Hstep as [Hstep|Hstep];
    [destruct Hstep as [g n s m|p p' Hc]|destruct Hstep as [g n s q h err He Hz|g n s q err h]].
  - by destruct Hinv as [[] _].
  - by destruct (close_decreases _ _ Hc Hinv) as (? & ? & _).
  - split; [done|]. unfold shutdown_measure. simpl. lia.
  - split; [done|]. unfold shutdown_measure. simpl. lia.
Qed.

Lemma shutdown_bounded k p p' :
  nsteps shutdown_step k p p' → stopped_inv p →
  stopped_inv p' ∧ (k + shutdown_measure p' ≤ shutdown_measure p)%nat.
Proof.
  intros Hk. induction Hk as [p|k p1 p2 p3 Hs _ IH]; intros Hinv; [by split; [|lia]|].
  destruct (shutdown_decreases _ _ Hs Hinv) as [Hinv2 Hlt]. destruct (IH Hinv2). split; [done|lia].
Qed.

(** Nothing that happens adds to the steps left. *)
Lemma step_measure p p' :
  step p p' → stopped_inv p → stopped_inv p' ∧ (shutdown_measure p' ≤ shutdown_measure p)%nat.
Proof.
  intros [Ha [Hs|Hs]] Hinv.
  - destruct (shutdown_decreases p p'); [by split; [|left]|done|]. split; [done|lia].
  - destruct Hs as [g n s q m h|g g' n s q m h Hg|g n s q m h env key r s' Hpos Hu Hd
      |g n s q m h i gr pgRepo rd elapsed now gr' w' Hi Hrepo Hf Hb]; [by split|..|by split|by split].
    destruct (served_decreases (mkProcess g n s q m h) (mkProcess g' n s q m h)) as (? & ? & _);
      [by exists g'|done|]. split; [done|lia].
Qed.

Lemma steps_measure p p' :
  rtc step p p' → stopped_inv p → (shutdown_measure p' ≤ shutdown_measure p)%nat.
Proof.
  induction 1 as [|p1 p2 p3 Hs _ IH]; intros Hinv; [done|].
  destruct (step_measure _ _ Hs Hinv) as [Hinv2 Hle]. specialize (IH Hinv2). lia.
Qed.

Lemma shutdown_steps p p' : rtc shutdown_step p p' → rtc step p p'.
Proof.
  apply rtc_subrel. intros p1 p2 [Ha [Hs|(g' & Hg & ->)]]; (split; [done|]); [by left|].
  right. destruct p1. by apply grpc_progress.
Qed.

(** [Serve] waits for a handler. *)
Definition waiting (p : Process G) : Prop :=
  main_at p = Serving ∧ (0 < pending (grpc p))%nat.

Lemma shutdown_progress p :
  stopped_inv p → alive p → waiting p ∨ ∃ p', shutdown_step p p'.
Proof.
  intros [_ Hs] Ha. destruct p as [g n s q [|err|st] h]; simpl in *; [| |done].
  - destruct (decide (pending g = 0%nat)) as [Hz|Hz].
    + right. eexists. split; [done|]. left. right. by apply (serve_return g n s q h None).
    + left. split; simpl; [done|lia].
  - right. eexists. split; [done|]. left. right. apply main_exit.
Qed.

Lemma closing_progress p :
  (∀ g, stopping g = true → (0 < pending g)%nat → ∃ g', grpc_step g g') →
  stopped_inv p → hook_at p ≠ HookDone → ∃ p', closing_step p p'.
Proof.
  intros Hret [Hh Hs] Hne. destruct p as [g n s q m h]. simpl in *.
  destruct h as [| |[|d rest]| |]; try done.
  - destruct (pending g) as [|k] eqn:Hp.
    + eexists. left. by apply close_graceful.
    + destruct (Hret g Hs) as [g' Hg]; [lia|]. eexists. right. by exists g'.
  - eexists. left. apply close_shut.
  - eexists. left. apply close_diagnostic.
  - eexists. left. apply close_database.
Qed.

Lemma closing_stopped p p' : rtc closing_step p p' → stopped_inv p → stopped_inv p'.
Proof.
  apply (rtc_invariant closing_step stopped_inv).
  intros p1 p2 Hi [Hs|Hs]; [by apply (close_decreases p1 p2)|by apply (served_decreases p1 p2)].
Qed.

Lemma close_all g n s q m l :
  rtc own_step (mkProcess g n s q m (InShutdown l))
               (mkProcess g (Server.Shutdown l n).2 s q m (InShutdown [])).
Proof.
  revert n. induction l as [|d l IH]; intros n; [apply rtc_refl|].
  eapply rtc_l; [left; apply hook_close, close_diagnostic|]. apply IH.
Qed.

(** ** Properties *)


(** C11. Shutting down ends.  Once the hook has received a signal, at most
    [shutdown_measure] steps of the two goroutines and of the gRPC server are left
    (five, and one per diagnostic server and pending request, at most), and
    nothing else that happens, signals, requests or background syncs, adds to
    them.  If the handlers of pending requests return, they can only come to rest
    when the process has exited, and [Close], while the process lives, only when
    it is done.  In any case they can only come to rest when the process has
    exited, or when [GracefulStop], and [Serve] with it, waits for a handler that
    does not return. *)
Theorem shutdown_terminates g0 n1 s0 p :
  rtc step (serving g0 n1 s0) p → hook_at p ≠ AwaitQuit →
  (∀ k p', nsteps shutdown_step k p p' → (k ≤ shutdown_measure p)%nat) ∧
  (∀ p', rtc step p p' → (shutdown_measure p' ≤ shutdown_measure p)%nat) ∧
  (∀ p', rtc shutdown_step p p' → (∀ p'', ¬ shutdown_step p' p'') →
     (∃ status, main_at p' = Exited status) ∨
     (main_at p' = Serving ∧ hook_at p' = InGracefulStop ∧
      (0 < pending (grpc p'))%nat ∧ ∀ g', ¬ grpc_step (grpc p') g')) ∧
  ((∀ g, stopping g = true → (0 < pending g)%nat → ∃ g', grpc_step g g') →
   (∀ p', rtc shutdown_step p p' → (∀ p'', ¬ shutdown_step p' p'') →
      ∃ status, main_at p' = Exited status) ∧
   (∀ p', rtc closing_step p p' → (∀ p'', ¬ closing_step p' p'') → hook_at p' = HookDone)).
Proof.
  intros Hr Hh. pose proof (process_inv_reachable n1 g0 s0 p Hr) as Hinv.
  assert (Hst : stopped_inv p) by (split; [done|by apply (inv_stopping _ _ _ Hinv)]).
  assert (Hrest : ∀ p', rtc shutdown_step p p' → (∀ p'', ¬ shutdown_step p' p'') →
    (∃ status, main_at p' = Exited status) ∨
    (main_at p' = Serving ∧ hook_at p' = InGracefulStop ∧
     (0 < pending (grpc p'))%nat ∧ ∀ g', ¬ grpc_step (grpc p') g') ∧ stopping (grpc p') = true).
  { intros p' Hp Hstuck.
    assert (Hinv' : process_inv n1 s0 p').
    { apply (process_inv_reachable n1 g0). etransitivity; [exact Hr|by apply shutdown_steps]. }
    apply rtc_nsteps in Hp as [k Hk]. destruct (shutdown_bounded _ _ _ Hk Hst) as [Hst' _].
    destruct (main_at p') as [|err|status] eqn:Hm; [..|left; by exists status];
      (assert (Ha : alive p') by (unfold alive; by rewrite Hm));
      (destruct (shutdown_progress p' Hst' Ha) as [[Hs Hw]|[p'' Hp'']];
       [right|by destruct (Hstuck p'')]); [|congruence].
    split; [|apply Hst']. split_and!; [done| |done|].
    - destruct (decide (hook_at p' = InGracefulStop)) as [|Hne]; [done|].
      rewrite (inv_pending _ _ _ Hinv') in Hw by (done || apply Hst'). lia.
    - intros g' Hg. eapply Hstuck. split; [done|]. right. by exists g'. }
  split_and!.
  - intros k p' Hk. destruct (shutdown_bounded _ _ _ Hk Hst). lia.
  - intros p' Hp. by apply steps_measure.
  - intros p' Hp Hstuck. destruct (Hrest p' Hp Hstuck) as [?|[? _]]; auto.
  - intros Hret. split.
    + intros p' Hp Hstuck. destruct (Hrest p' Hp Hstuck) as [?|[(_ & _ & Hpos & Hno) Hs]]; [done|].
      destruct (Hret _ Hs Hpos) as [g' Hg]. by destruct (Hno g').
    + intros p' Hp Hstuck. pose proof (closing_stopped _ _ Hp Hst) as Hst'.
      destruct (decide (hook_at p' = HookDone)) as [|Hne]; [done|].
      destruct (closing_progress p' Hret Hst' Hne) as [p'' Hp'']. by destruct (Hstuck p'').
Qed.

(** C39. Nobody waits for [Close].  Although no request is pending when the signal
    arrives, the process can exit with status 0 while the database is open and the
    diagnostic servers run; when [Serve] fails by itself the process exits with
    status 1 and nothing ever closes them; and when [Close] does run to its end, it
    closes the database under the background syncs: they are all still there, and
    the registry still shows their jobs. *)
Theorem shutdown_waits_for_nobody env cfg n0 n1 g s :
  exclusive env n0 → prepare env cfg n0 = (Some (Ok (addr, srv)), n1) → pending g = 0%nat →
  (∃ p, rtc step (mkProcess g n1 s true Serving AwaitQuit) p ∧ main_at p = Exited 0 ∧
     database_open p ∧ running_diagnostics (node p) = running_diagnostics n0 ++ wanted cfg) ∧
  (∀ e, ∃ p, rtc step (serving g n1 s) p ∧ main_at p = Exited 1 ∧
     database_open p ∧ running_diagnostics (node p) = running_diagnostics n0 ++ wanted cfg ∧
     served (Some e) = Some (wrap "serve" e)) ∧
  (∃ p, rtc own_step (mkProcess g n1 s true Serving AwaitQuit) p ∧ main_at p = Serving ∧
     hook_at p = HookDone ∧ ¬ database_open p ∧ sys p = s).
Proof.
  intros Hex Hp Hz. pose proof (prepare_spec env cfg n0 Hex) as held. rewrite Hp in held.
  destruct held as (_ & _ & Hh & Hdb & Hd & _).
  assert (Hopen : Database.handles (pools n1) !! srv_db srv = Some (Database.configured true))
    by (rewrite Hh, Hdb; by apply list_lookup_middle).
  assert (Hrun : running_diagnostics n1 = running_diagnostics n0 ++ wanted cfg)
    by (unfold running_diagnostics at 1; by rewrite Hd, running_app).
  assert (Hown : ∀ p p', alive p → own_step p p' → step p p') by (intros p p'; split; auto).
  split_and!.
  - eexists. split; [|split; [|split]].
    + eapply rtc_l; [apply Hown; [done|left; apply hook_receive]|].
      eapply rtc_l; [apply Hown; [done|]; left; apply hook_close, close_graceful; by rewrite stop_pending|].
      eapply rtc_l; [apply Hown; [done|]; right; apply (serve_return _ _ _ _ _ None); intros _; [apply stop_stopping|by rewrite stop_pending]|].
      apply rtc_once, Hown; [done|]. right. apply main_exit.
    + done.
    + exact Hopen.
    + exact Hrun.
  - intros e. eexists. split; [|split; [|split; [|split]]].
    + eapply rtc_l; [apply Hown; [done|]; right; by apply (serve_return _ _ _ _ _ (Some e))|].
      apply rtc_once, Hown; [done|]. right. apply main_exit.
    + done.
    + exact Hopen.
    + exact Hrun.
    + done.
  - eexists. split; [|split; [|split; [|split]]].
    + eapply rtc_l; [left; apply hook_receive|].
      eapply rtc_l; [left; apply hook_close, close_graceful; by rewrite stop_pending|].
      etransitivity; [apply close_all|].
      eapply rtc_l; [left; apply hook_close, close_shut|]. apply rtc_once. left. apply hook_close, close_database.
    + done.
    + done.
    + unfold database_open. simpl. rewrite Shutdown_pools.
      unfold Database.Close, Database.update, modify. simpl.
      rewrite Hh, Hdb, Database.alter_last, list_lookup_middle by done. done.
    + done.
Qed.

(** The service behind the server.  From [buildGRPCServer], in every state of
    the process, while it serves and while it shuts down, no two background syncs
    that have not reported their end work for the same project, and the registry
    shows a running job exactly for those. *)
Theorem process_service env pg cfg n1 g0 client mtr s0 p :
  new_metrics env = Some mtr → buildGRPCServer pg cfg mtr = (client, svc, s0) →
  rtc step (serving g0 n1 s0) p →
  NoDup (g_projectKey <$> filter (λ g, live g = true) (syncs (sys p))) ∧
  ∀ id key, Manager.running_key id (w_mgr (world (sys p))) = Some key ↔
    ∃ g, g ∈ syncs (sys p) ∧ live g = true ∧ g_syncID g = id ∧ g_projectKey g = key.
Proof.
  intros Hm Hb Hr. pose proof (buildGRPCServer_fresh env pg cfg mtr Hm) as Hf. rewrite Hb in Hf.
  apply inv_one_sync, (sys_reachable_inv svc (world s0)); [exact Hf|].
  pose proof (inv_sys _ _ _ (process_inv_reachable n1 g0 s0 p Hr)) as Hs.
  unfold buildGRPCServer in Hb. by injection Hb as _ _ <-.
Qed.
End Shutdown.

(** ** Witness: a server that counts its requests *)

Record counting_server := mkCounting { requests : nat; stopped : bool }.

Inductive counting_step : counting_server → counting_server → Prop :=
  | request_arrives n : counting_step (mkCounting n false) (mkCounting (S n) false)
  | handler_returns n b : counting_step (mkCounting (S n) b) (mkCounting n b).

#[export] Program Instance counting_GrpcServer : GrpcServer counting_server := {|
  pending := requests;
  stopping := stopped;
  call_GracefulStop g := mkCounting (requests g) true;
  grpc_step := counting_step;
|}.
Next Obligation. done. Qed.
Next Obligation. done. Qed.
Next Obligation. intros g g' [] Hs; simpl in *; [done|]. split; [done|lia]. Qed.

#[local] Existing Instance demo_text.

Definition demo_listener : string := "0.0.0.0:50052".
Definition demo_server : Server := mkServer 0 [0%nat].
Definition demo_serving : Node := (prepare (demo_node_env None) demo_cfg demo_node).2.
Definition demo_wired : System :=
  initial (mkWorld (mkSession no_tables None []) Manager.NewManager
             (new_metrics (demo_node_env None))).

Local Abbreviation demo_step := (step demo_service demo_listener demo_server).

Lemma demo_exclusive : exclusive (demo_node_env None) demo_node.
Proof. intros a Ha. by apply not_elem_of_nil in Ha. Qed.

Lemma demo_prepared :
  prepare (demo_node_env None) demo_cfg demo_node
  = (Some (Ok (demo_listener, demo_server)), demo_serving).
Proof. vm_compute. reflexivity. Qed.

(** One request pending when the signal arrives. *)
Definition demo_signalled : Process counting_server :=
  mkProcess (mkCounting 1 true) demo_serving demo_wired false Serving InGracefulStop.

Lemma demo_signalled_reachable :
  rtc demo_step (serving (mkCounting 1 false) demo_serving demo_wired) demo_signalled.
Proof.
  eapply rtc_l; [split; [exact I|]; right; apply signal_received|].
  eapply rtc_l; [split; [exact I|]; left; left; apply hook_receive|]. apply rtc_refl.
Qed.


Lemma shutdown_terminates_witness :
  shutdown_measure demo_server demo_signalled = 7%nat ∧
  ¬ (∃ p, nsteps (shutdown_step demo_listener demo_server) 8 demo_signalled p).
Proof.
  destruct (shutdown_terminates demo_service demo_listener demo_server (mkCounting 1 false)
    demo_serving demo_wired demo_signalled demo_signalled_reachable) as (Hb & _);
    [discriminate|].
  split; [reflexivity|]. intros [p Hp]. apply Hb in Hp. vm_compute in Hp. lia.
Defined.

Lemma shutdown_waits_for_nobody_witness :
  ∃ p : Process counting_server,
    rtc demo_step (mkProcess (mkCounting 0 false) demo_serving demo_system true Serving AwaitQuit) p ∧
    main_at p = Exited 0 ∧ database_open demo_server p.
Proof.
  destruct (shutdown_waits_for_nobody demo_service demo_listener demo_server (demo_node_env None)
    demo_cfg demo_node demo_serving (mkCounting 0 false) demo_system demo_exclusive demo_prepared)
    as ((p & Hr & Hm & Ho & _) & _); [reflexivity|].
  exists p. split; [exact Hr|]. split; [exact Hm|exact Ho].
Defined.

Lemma process_service_witness :
  ∃ mtr, new_metrics (demo_node_env None) = Some mtr ∧
    NoDup (g_projectKey <$> filter (λ g, live g = true) (syncs (sys demo_signalled))).
Proof.
  destruct (new_metrics (demo_node_env None)) as [mtr|] eqn:Hm; [|vm_compute in Hm; discriminate].
  exists mtr. split; [reflexivity|].
  destruct (buildGRPCServer (mkSession no_tables None []) demo_cfg mtr) as [[client svc] s0] eqn:Hb.
  pose proof Hb as Hb'. unfold buildGRPCServer in Hb'. injection Hb' as _ <- Hs.
  refine (proj1 (process_service _ demo_listener demo_server (demo_node_env None)
    (mkSession no_tables None []) demo_cfg demo_serving (mkCounting 1 false) client mtr s0
    demo_signalled Hm Hb _)).
  rewrite <- Hs, <- Hm.
  eapply rtc_l; [split; [exact I|]; right; apply signal_received|].
  eapply rtc_l; [split; [exact I|]; left; left; apply hook_receive|]. apply rtc_refl.
Defined.
